(** * Membership core of the user service (SomewareLive)

    A shallow embedding of the Go user service: the models
    (Organization, Team, User), the three Mongo-backed repositories and
    the service facade (OrganizationService, TeamService, UserService),
    with the properties of the membership core proved about them.

    Modelling conventions.
    - A Mongo collection is the list of its documents in insertion
      order, with a schedule of driver failures for reads and one for
      writes.  An exhausted schedule means that no failure is pending.
      An insert under an _id already in use is refused.
    - Identifiers are compared as text.  [uuid.New()] is an input of the
      operations that call it.
    - [time.Now()] reads a logical clock and advances it.
    - A Go [error] is a value of [error]; [errors.New msg] is [ErrNew msg].
    - Event publication runs in a goroutine whose outcome is only logged;
      it touches neither the store nor the returned value and is left out. *)

From Stdlib Require Import String Ascii List ZArith Bool Lia PeanoNat.
Import ListNotations.

Open Scope string_scope.
Open Scope list_scope.

(* ===================================================================== *)
(** ** Errors and results *)
(* ===================================================================== *)

Inductive error : Type :=
| ErrNoDocuments                 (* mongo.ErrNoDocuments *)
| ErrInvalidHex                  (* primitive.ObjectIDFromHex rejected the id *)
| ErrDuplicateKey                (* an insert with an _id already in use *)
| ErrStore                       (* any other driver failure *)
| ErrPanic                       (* a nil pointer dereference: the call panics *)
| ErrNew (msg : string).         (* errors.New(msg) *)

Inductive result (A : Type) : Type :=
| Ok (a : A)
| Err (e : error).
Arguments Ok {A} a.
Arguments Err {A} e.

Definition is_ok {A} (r : result A) : bool :=
  match r with Ok _ => true | Err _ => false end.

(** The errors raised by the code itself with [errors.New]: permission,
    invariant, validation, not-found and conflict rejections. *)
Definition is_rejection (e : error) : bool :=
  match e with ErrNew _ => true | _ => false end.

(* ===================================================================== *)
(** ** The Mongo driver, one collection at a time *)
(* ===================================================================== *)

Record Coll (A : Type) : Type := mkColl {
  docs : list A;
  read_faults : list bool;
  write_faults : list bool
}.
Arguments mkColl {A} _ _ _.
Arguments docs {A} _.
Arguments read_faults {A} _.
Arguments write_faults {A} _.

Definition next_fault (l : list bool) : bool * list bool :=
  match l with
  | [] => (false, [])
  | b :: l' => (b, l')
  end.

Record UpdateResult : Type := mkUpdateResult {
  MatchedCount : nat;
  ModifiedCount : nat
}.

Section Driver.
Context {A : Type}.
Variable A_eq_dec : forall x y : A, {x = y} + {x <> y}.

Definition use_read (c : Coll A) : bool * Coll A :=
  let (fail, rf) := next_fault (read_faults c) in
  (fail, mkColl (docs c) rf (write_faults c)).

Definition use_write (c : Coll A) : bool * Coll A :=
  let (fail, wf) := next_fault (write_faults c) in
  (fail, mkColl (docs c) (read_faults c) wf).

Definition set_docs (l : list A) (c : Coll A) : Coll A :=
  mkColl l (read_faults c) (write_faults c).

(** collection.FindOne(ctx, filter).Decode(&doc) *)
Definition FindOne (filter : A -> bool) (c : Coll A) : result A * Coll A :=
  let (fail, c') := use_read c in
  if fail then (Err ErrStore, c')
  else match find filter (docs c') with
       | Some d => (Ok d, c')
       | None => (Err ErrNoDocuments, c')
       end.

(** collection.CountDocuments(ctx, filter) *)
Definition CountDocuments (filter : A -> bool) (c : Coll A)
  : result nat * Coll A :=
  let (fail, c') := use_read c in
  if fail then (Err ErrStore, c')
  else (Ok (length (List.filter filter (docs c'))), c').

Fixpoint update_first (filter : A -> bool) (upd : A -> A) (l : list A)
  : list A :=
  match l with
  | [] => []
  | d :: r => if filter d then upd d :: r
              else d :: update_first filter upd r
  end.

Fixpoint delete_first (filter : A -> bool) (l : list A) : list A :=
  match l with
  | [] => []
  | d :: r => if filter d then r else d :: delete_first filter r
  end.

(** collection.UpdateOne(ctx, filter, update): the first matching
    document is rewritten by [upd]; no match is not an error. *)
Definition UpdateOne (filter : A -> bool) (upd : A -> A) (c : Coll A)
  : result UpdateResult * Coll A :=
  let (fail, c') := use_write c in
  if fail then (Err ErrStore, c')
  else match find filter (docs c') with
       | None => (Ok (mkUpdateResult 0 0), c')
       | Some d =>
           (Ok (mkUpdateResult 1 (if A_eq_dec (upd d) d then 0 else 1)),
            set_docs (update_first filter upd (docs c')) c')
       end.

(** collection.DeleteOne(ctx, filter) *)
Definition DeleteOne (filter : A -> bool) (c : Coll A)
  : result unit * Coll A :=
  let (fail, c') := use_write c in
  if fail then (Err ErrStore, c')
  else (Ok tt, set_docs (delete_first filter (docs c')) c').

(** collection.InsertOne(ctx, doc); [key] reads the _id of a document,
    which is unique in a collection. *)
Definition InsertOne (key : A -> string) (d : A) (c : Coll A)
  : result unit * Coll A :=
  let (fail, c') := use_write c in
  if fail then (Err ErrStore, c')
  else if existsb (fun x => key x =? key d) (docs c')
  then (Err ErrDuplicateKey, c')
  else (Ok tt, set_docs (docs c' ++ [d]) c').
End Driver.

(** primitive.ObjectIDFromHex: 24 hexadecimal digits. *)
Definition is_hex_digit (c : ascii) : bool :=
  let n := nat_of_ascii c in
  ((48 <=? n) && (n <=? 57) || (97 <=? n) && (n <=? 102)
   || (65 <=? n) && (n <=? 70))%nat.

Fixpoint all_hex (s : string) : bool :=
  match s with
  | EmptyString => true
  | String c r => is_hex_digit c && all_hex r
  end.

Definition ObjectIDFromHex (s : string) : bool :=
  (String.length s =? 24)%nat && all_hex s.

(** ObjectID.Hex(): the text of the ObjectID that ObjectIDFromHex reads
    from [s], which prints the digits in lower case.  A stored [_id]
    that is an ObjectID is decoded into the field ID as this text; a
    query by _id parses its argument and so finds the record whatever
    the case of the digits in the argument. *)
Definition lower_hex_digit (c : ascii) : ascii :=
  let n := nat_of_ascii c in
  if ((65 <=? n) && (n <=? 70))%nat then ascii_of_nat (n + 32) else c.

Fixpoint ObjectID_Hex (s : string) : string :=
  match s with
  | EmptyString => EmptyString
  | String c r => String (lower_hex_digit c) (ObjectID_Hex r)
  end.

(* ===================================================================== *)
(** ** Models *)
(* ===================================================================== *)

(** OrganizationMemberRole and TeamMemberRole are both [string]. *)
Definition OrgRoleOwner : string := "owner".
Definition OrgRoleAdmin : string := "admin".
Definition OrgRoleMember : string := "member".

Definition TeamRoleOwner : string := "owner".
Definition TeamRoleAdmin : string := "admin".
Definition TeamRoleMember : string := "member".
Definition TeamRoleViewer : string := "viewer".

(** OrganizationMember and TeamMember have the same four fields. *)
Record Member : Type := mkMember {
  m_UserID : string;
  m_Role : string;
  m_JoinedAt : Z;
  m_InvitedBy : string
}.
Abbreviation OrganizationMember := Member.
Abbreviation TeamMember := Member.

Record OrganizationFeatures : Type := mkFeatures {
  f_AllowPublicEvents : bool;
  f_AllowExternalUsers : bool;
  f_EnableTeams : bool
}.

Record OrganizationBranding : Type := mkBranding {
  b_PrimaryColor : string;
  b_SecondaryColor : string;
  b_LogoURL : string;
  b_FaviconURL : string
}.

Record OrganizationSettings : Type := mkSettings {
  s_DefaultUserRole : string;
  s_Features : OrganizationFeatures;
  s_Branding : OrganizationBranding
}.

Record Organization : Type := mkOrganization {
  o_ID : string;
  o_Name : string;
  o_Description : string;
  o_LogoURL : string;
  o_Website : string;
  o_Industry : string;
  o_Size : string;
  o_Location : string;
  o_CreatedBy : string;
  o_CreatedAt : Z;
  o_UpdatedAt : Z;
  o_Members : list OrganizationMember;
  o_TeamIDs : list string;
  o_Settings : OrganizationSettings
}.

Record Team : Type := mkTeam {
  t_ID : string;
  t_Name : string;
  t_Description : string;
  t_LogoURL : string;
  t_OrganizationID : string;
  t_CreatedBy : string;
  t_CreatedAt : Z;
  t_UpdatedAt : Z;
  t_Members : list TeamMember
}.

Inductive UserRole : Type := RoleUser | RolePresenter | RoleAdmin.
Inductive UserStatus : Type := StatusActive | StatusInactive | StatusPending.

Record NotificationSettings : Type := mkNotificationSettings {
  n_Email : bool;
  n_Push : bool;
  n_InApp : bool
}.

Record PrivacySettings : Type := mkPrivacySettings {
  p_ShowProfileToEveryone : bool;
  p_ShowEmailToEveryone : bool
}.

Record UserPreferences : Type := mkUserPreferences {
  p_Language : string;
  p_Theme : string;
  p_Timezone : string;
  p_NotificationSettings : NotificationSettings;
  p_Privacy : PrivacySettings
}.

Record User : Type := mkUser {
  u_ID : string;
  u_UserID : string;
  u_Email : string;
  u_FirstName : string;
  u_LastName : string;
  u_Role : UserRole;
  u_Status : UserStatus;
  u_ProfilePicture : string;
  u_Bio : string;
  u_JobTitle : string;
  u_Company : string;
  u_Location : string;
  u_Phone : string;
  u_Website : string;
  u_SocialLinks : list (string * string);
  u_Preferences : UserPreferences;
  u_LastLogin : option Z;
  u_CreatedAt : Z;
  u_UpdatedAt : Z;
  u_OrganizationIDs : list string;
  u_TeamIDs : list string
}.

(** Decidable equality of documents, used by the driver to report
    ModifiedCount. *)
Definition Member_eq_dec : forall x y : Member, {x = y} + {x <> y}.
Proof. decide equality; auto using string_dec, Z.eq_dec. Defined.

Definition OrganizationSettings_eq_dec :
  forall x y : OrganizationSettings, {x = y} + {x <> y}.
Proof.
  assert (forall x y : OrganizationFeatures, {x = y} + {x <> y})
    by (decide equality; auto using bool_dec).
  assert (forall x y : OrganizationBranding, {x = y} + {x <> y})
    by (decide equality; auto using string_dec).
  decide equality; auto using string_dec.
Defined.

Definition Organization_eq_dec : forall x y : Organization, {x = y} + {x <> y}.
Proof.
  decide equality;
    auto using string_dec, Z.eq_dec, list_eq_dec, Member_eq_dec,
      OrganizationSettings_eq_dec.
Defined.

Definition Team_eq_dec : forall x y : Team, {x = y} + {x <> y}.
Proof.
  decide equality;
    auto using string_dec, Z.eq_dec, list_eq_dec, Member_eq_dec.
Defined.

Definition UserPreferences_eq_dec :
  forall x y : UserPreferences, {x = y} + {x <> y}.
Proof.
  assert (forall x y : NotificationSettings, {x = y} + {x <> y})
    by (decide equality; auto using bool_dec).
  assert (forall x y : PrivacySettings, {x = y} + {x <> y})
    by (decide equality; auto using bool_dec).
  decide equality; auto using string_dec.
Defined.

Definition User_eq_dec : forall x y : User, {x = y} + {x <> y}.
Proof.
  assert (forall x y : UserRole, {x = y} + {x <> y}) by decide equality.
  assert (forall x y : UserStatus, {x = y} + {x <> y}) by decide equality.
  assert (forall x y : string * string, {x = y} + {x <> y})
    by (decide equality; auto using string_dec).
  assert (forall x y : option Z, {x = y} + {x <> y})
    by (decide equality; auto using Z.eq_dec).
  decide equality;
    auto using string_dec, Z.eq_dec, list_eq_dec, UserPreferences_eq_dec.
Defined.

(** Field updates. *)
Definition set_m_Role (role : string) (m : Member) : Member :=
  mkMember (m_UserID m) role (m_JoinedAt m) (m_InvitedBy m).

Definition set_o_Members (ms : list OrganizationMember) (o : Organization)
  : Organization :=
  mkOrganization (o_ID o) (o_Name o) (o_Description o) (o_LogoURL o)
    (o_Website o) (o_Industry o) (o_Size o) (o_Location o) (o_CreatedBy o)
    (o_CreatedAt o) (o_UpdatedAt o) ms (o_TeamIDs o) (o_Settings o).

Definition set_o_UpdatedAt (now : Z) (o : Organization) : Organization :=
  mkOrganization (o_ID o) (o_Name o) (o_Description o) (o_LogoURL o)
    (o_Website o) (o_Industry o) (o_Size o) (o_Location o) (o_CreatedBy o)
    (o_CreatedAt o) now (o_Members o) (o_TeamIDs o) (o_Settings o).

Definition set_o_TeamIDs (ids : list string) (o : Organization)
  : Organization :=
  mkOrganization (o_ID o) (o_Name o) (o_Description o) (o_LogoURL o)
    (o_Website o) (o_Industry o) (o_Size o) (o_Location o) (o_CreatedBy o)
    (o_CreatedAt o) (o_UpdatedAt o) (o_Members o) ids (o_Settings o).

Definition set_t_Members (ms : list TeamMember) (t : Team) : Team :=
  mkTeam (t_ID t) (t_Name t) (t_Description t) (t_LogoURL t)
    (t_OrganizationID t) (t_CreatedBy t) (t_CreatedAt t) (t_UpdatedAt t) ms.

Definition set_t_UpdatedAt (now : Z) (t : Team) : Team :=
  mkTeam (t_ID t) (t_Name t) (t_Description t) (t_LogoURL t)
    (t_OrganizationID t) (t_CreatedBy t) (t_CreatedAt t) now (t_Members t).

Definition set_u_OrganizationIDs (ids : list string) (u : User) : User :=
  mkUser (u_ID u) (u_UserID u) (u_Email u) (u_FirstName u) (u_LastName u)
    (u_Role u) (u_Status u) (u_ProfilePicture u) (u_Bio u) (u_JobTitle u)
    (u_Company u) (u_Location u) (u_Phone u) (u_Website u) (u_SocialLinks u)
    (u_Preferences u) (u_LastLogin u) (u_CreatedAt u) (u_UpdatedAt u)
    ids (u_TeamIDs u).

Definition set_u_TeamIDs (ids : list string) (u : User) : User :=
  mkUser (u_ID u) (u_UserID u) (u_Email u) (u_FirstName u) (u_LastName u)
    (u_Role u) (u_Status u) (u_ProfilePicture u) (u_Bio u) (u_JobTitle u)
    (u_Company u) (u_Location u) (u_Phone u) (u_Website u) (u_SocialLinks u)
    (u_Preferences u) (u_LastLogin u) (u_CreatedAt u) (u_UpdatedAt u)
    (u_OrganizationIDs u) ids.

Definition set_u_UpdatedAt (now : Z) (u : User) : User :=
  mkUser (u_ID u) (u_UserID u) (u_Email u) (u_FirstName u) (u_LastName u)
    (u_Role u) (u_Status u) (u_ProfilePicture u) (u_Bio u) (u_JobTitle u)
    (u_Company u) (u_Location u) (u_Phone u) (u_Website u) (u_SocialLinks u)
    (u_Preferences u) (u_LastLogin u) (u_CreatedAt u) now
    (u_OrganizationIDs u) (u_TeamIDs u).

(** *** Requests *)

Record CreateOrganizationRequest : Type := mkCreateOrganizationRequest {
  cor_Name : string;
  cor_Description : string;
  cor_LogoURL : string;
  cor_Website : string;
  cor_Industry : string;
  cor_Size : string;
  cor_Location : string
}.

Record UpdateOrganizationFeatures : Type := mkUpdateFeatures {
  uf_AllowPublicEvents : option bool;
  uf_AllowExternalUsers : option bool;
  uf_EnableTeams : option bool
}.

Record UpdateOrganizationBranding : Type := mkUpdateBranding {
  ub_PrimaryColor : option string;
  ub_SecondaryColor : option string;
  ub_LogoURL : option string;
  ub_FaviconURL : option string
}.

Record UpdateOrganizationSettings : Type := mkUpdateSettings {
  us_DefaultUserRole : option string;
  us_Features : option UpdateOrganizationFeatures;
  us_Branding : option UpdateOrganizationBranding
}.

Record UpdateOrganizationRequest : Type := mkUpdateOrganizationRequest {
  uor_Name : option string;
  uor_Description : option string;
  uor_LogoURL : option string;
  uor_Website : option string;
  uor_Industry : option string;
  uor_Size : option string;
  uor_Location : option string;
  uor_Settings : option UpdateOrganizationSettings
}.

Record AddOrganizationMemberRequest : Type := mkAddOrganizationMemberRequest {
  aomr_UserID : string;
  aomr_Role : string
}.

Record UpdateOrganizationMemberRequest : Type :=
  mkUpdateOrganizationMemberRequest { uomr_Role : string }.

Record CreateTeamRequest : Type := mkCreateTeamRequest {
  ctr_Name : string;
  ctr_Description : string;
  ctr_LogoURL : string;
  ctr_OrganizationID : string
}.

Record UpdateTeamRequest : Type := mkUpdateTeamRequest {
  utr_Name : option string;
  utr_Description : option string;
  utr_LogoURL : option string
}.

Record AddTeamMemberRequest : Type := mkAddTeamMemberRequest {
  atmr_UserID : string;
  atmr_Role : string
}.

Record UpdateTeamMemberRequest : Type :=
  mkUpdateTeamMemberRequest { utmr_Role : string }.

Record CreateUserRequest : Type := mkCreateUserRequest {
  cur_UserID : string;
  cur_Email : string;
  cur_FirstName : string;
  cur_LastName : string;
  cur_Role : UserRole
}.

(* ===================================================================== *)
(** ** The clock *)
(* ===================================================================== *)

Definition Clock (A : Type) : Type := Z -> A * Z.

Definition cret {A} (a : A) : Clock A := fun c => (a, c).

Definition cbind {A B} (m : Clock A) (k : A -> Clock B) : Clock B :=
  fun c => let (a, c') := m c in k a c'.

(** time.Now() *)
Definition time_Now : Clock Z := fun c => (c, (c + 1)%Z).

(* ===================================================================== *)
(** ** Model methods *)
(* ===================================================================== *)

Definition or_else {A} (o : option A) (d : A) : A :=
  match o with Some a => a | None => d end.

(** The three outcomes of the loop shared by AddMember and UpdateMember:
    no entry for the user, an entry that already has the role, or the
    member list with the role of the first entry of the user replaced. *)
Inductive RoleChange : Type :=
| NotAMember
| SameRole
| NewRole (ms : list Member).

Fixpoint change_role (ms : list Member) (userID role : string) : RoleChange :=
  match ms with
  | [] => NotAMember
  | m :: r =>
      if m_UserID m =? userID then
        if negb (m_Role m =? role) then NewRole (set_m_Role role m :: r)
        else SameRole
      else match change_role r userID role with
           | NewRole r' => NewRole (m :: r')
           | other => other
           end
  end.

(** append(ms[:i], ms[i+1:]...) at the first entry of the user *)
Fixpoint remove_first_member (ms : list Member) (userID : string)
  : option (list Member) :=
  match ms with
  | [] => None
  | m :: r =>
      if m_UserID m =? userID then Some r
      else match remove_first_member r userID with
           | Some r' => Some (m :: r')
           | None => None
           end
  end.

(** NewOrganization: the creator is the only member, with role owner. *)
Definition NewOrganization (uuid : string) (req : CreateOrganizationRequest)
    (createdBy : string) : Clock Organization :=
  cbind time_Now (fun now =>
  cret (mkOrganization uuid (cor_Name req) (cor_Description req)
          (cor_LogoURL req) (cor_Website req) (cor_Industry req)
          (cor_Size req) (cor_Location req) createdBy now now
          [mkMember createdBy OrgRoleOwner now ""]
          []
          (mkSettings OrgRoleMember
             (mkFeatures true false true)
             (mkBranding "#3f51b5" "#f50057" "" "")))).

Definition apply_features (f : OrganizationFeatures)
    (u : UpdateOrganizationFeatures) : OrganizationFeatures :=
  mkFeatures
    (or_else (uf_AllowPublicEvents u) (f_AllowPublicEvents f))
    (or_else (uf_AllowExternalUsers u) (f_AllowExternalUsers f))
    (or_else (uf_EnableTeams u) (f_EnableTeams f)).

Definition apply_branding (b : OrganizationBranding)
    (u : UpdateOrganizationBranding) : OrganizationBranding :=
  mkBranding
    (or_else (ub_PrimaryColor u) (b_PrimaryColor b))
    (or_else (ub_SecondaryColor u) (b_SecondaryColor b))
    (or_else (ub_LogoURL u) (b_LogoURL b))
    (or_else (ub_FaviconURL u) (b_FaviconURL b)).

Definition apply_settings (s : OrganizationSettings)
    (u : option UpdateOrganizationSettings) : OrganizationSettings :=
  match u with
  | None => s
  | Some u =>
      mkSettings
        (or_else (us_DefaultUserRole u) (s_DefaultUserRole s))
        (match us_Features u with
         | Some f => apply_features (s_Features s) f
         | None => s_Features s
         end)
        (match us_Branding u with
         | Some b => apply_branding (s_Branding s) b
         | None => s_Branding s
         end)
  end.

(** (o *Organization) Apply *)
Definition Organization_Apply (o : Organization)
    (req : UpdateOrganizationRequest) : Clock Organization :=
  cbind time_Now (fun now =>
  cret (mkOrganization (o_ID o)
          (or_else (uor_Name req) (o_Name o))
          (or_else (uor_Description req) (o_Description o))
          (or_else (uor_LogoURL req) (o_LogoURL o))
          (or_else (uor_Website req) (o_Website o))
          (or_else (uor_Industry req) (o_Industry o))
          (or_else (uor_Size req) (o_Size o))
          (or_else (uor_Location req) (o_Location o))
          (o_CreatedBy o) (o_CreatedAt o) now (o_Members o) (o_TeamIDs o)
          (apply_settings (o_Settings o) (uor_Settings req)))).

(** (o *Organization) AddMember *)
Definition Organization_AddMember (o : Organization)
    (userID role invitedBy : string) : Clock (bool * Organization) :=
  match change_role (o_Members o) userID role with
  | NewRole ms =>
      cbind time_Now (fun now =>
      cret (true, set_o_UpdatedAt now (set_o_Members ms o)))
  | SameRole => cret (false, o)
  | NotAMember =>
      cbind time_Now (fun joined =>
      cbind time_Now (fun now =>
      cret (true,
            set_o_UpdatedAt now
              (set_o_Members
                 (o_Members o ++ [mkMember userID role joined invitedBy])
                 o))))
  end.

(** (o *Organization) UpdateMember *)
Definition Organization_UpdateMember (o : Organization)
    (userID role : string) : Clock (bool * Organization) :=
  match change_role (o_Members o) userID role with
  | NewRole ms =>
      cbind time_Now (fun now =>
      cret (true, set_o_UpdatedAt now (set_o_Members ms o)))
  | SameRole => cret (false, o)
  | NotAMember => cret (false, o)
  end.

(** (o *Organization) RemoveMember *)
Definition Organization_RemoveMember (o : Organization) (userID : string)
  : Clock (bool * Organization) :=
  match remove_first_member (o_Members o) userID with
  | Some ms =>
      cbind time_Now (fun now =>
      cret (true, set_o_UpdatedAt now (set_o_Members ms o)))
  | None => cret (false, o)
  end.

(** GetMember: the first entry of the user, if any. *)
Definition GetMember (ms : list Member) (userID : string) : option Member :=
  find (fun m => m_UserID m =? userID) ms.

Definition HasRole (ms : list Member) (userID : string) (roles : list string)
  : bool :=
  match GetMember ms userID with
  | None => false
  | Some member => existsb (fun role => m_Role member =? role) roles
  end.

Definition Organization_GetMember (o : Organization) (userID : string)
  : option OrganizationMember := GetMember (o_Members o) userID.

Definition Organization_IsMember (o : Organization) (userID : string) : bool :=
  match Organization_GetMember o userID with Some _ => true | None => false end.

Definition Organization_HasRole (o : Organization) (userID : string)
    (roles : list string) : bool := HasRole (o_Members o) userID roles.

(** NewTeam: the creator is the only member, with role owner. *)
Definition NewTeam (uuid : string) (req : CreateTeamRequest)
    (createdBy : string) : Clock Team :=
  cbind time_Now (fun now =>
  cret (mkTeam uuid (ctr_Name req) (ctr_Description req) (ctr_LogoURL req)
          (ctr_OrganizationID req) createdBy now now
          [mkMember createdBy TeamRoleOwner now ""])).

(** (t *Team) Apply *)
Definition Team_Apply (t : Team) (req : UpdateTeamRequest) : Clock Team :=
  cbind time_Now (fun now =>
  cret (mkTeam (t_ID t)
          (or_else (utr_Name req) (t_Name t))
          (or_else (utr_Description req) (t_Description t))
          (or_else (utr_LogoURL req) (t_LogoURL t))
          (t_OrganizationID t) (t_CreatedBy t) (t_CreatedAt t) now
          (t_Members t))).

(** (t *Team) AddMember *)
Definition Team_AddMember (t : Team) (userID role invitedBy : string)
  : Clock (bool * Team) :=
  match change_role (t_Members t) userID role with
  | NewRole ms =>
      cbind time_Now (fun now =>
      cret (true, set_t_UpdatedAt now (set_t_Members ms t)))
  | SameRole => cret (false, t)
  | NotAMember =>
      cbind time_Now (fun joined =>
      cbind time_Now (fun now =>
      cret (true,
            set_t_UpdatedAt now
              (set_t_Members
                 (t_Members t ++ [mkMember userID role joined invitedBy])
                 t))))
  end.

(** (t *Team) UpdateMember *)
Definition Team_UpdateMember (t : Team) (userID role : string)
  : Clock (bool * Team) :=
  match change_role (t_Members t) userID role with
  | NewRole ms =>
      cbind time_Now (fun now =>
      cret (true, set_t_UpdatedAt now (set_t_Members ms t)))
  | SameRole => cret (false, t)
  | NotAMember => cret (false, t)
  end.

(** (t *Team) RemoveMember *)
Definition Team_RemoveMember (t : Team) (userID : string)
  : Clock (bool * Team) :=
  match remove_first_member (t_Members t) userID with
  | Some ms =>
      cbind time_Now (fun now =>
      cret (true, set_t_UpdatedAt now (set_t_Members ms t)))
  | None => cret (false, t)
  end.

Definition Team_GetMember (t : Team) (userID : string) : option TeamMember :=
  GetMember (t_Members t) userID.

Definition Team_IsMember (t : Team) (userID : string) : bool :=
  match Team_GetMember t userID with Some _ => true | None => false end.

Definition Team_HasRole (t : Team) (userID : string) (roles : list string)
  : bool := HasRole (t_Members t) userID roles.

(** NewUser: Active status and the default preferences. *)
Definition NewUser (uuid : string) (req : CreateUserRequest) : Clock User :=
  cbind time_Now (fun now =>
  cret (mkUser uuid (cur_UserID req) (cur_Email req) (cur_FirstName req)
          (cur_LastName req) (cur_Role req) StatusActive
          "" "" "" "" "" "" "" []
          (mkUserPreferences "en" "light" "UTC"
             (mkNotificationSettings true true true)
             (mkPrivacySettings true false))
          None now now [] [])).

(* ===================================================================== *)
(** ** The world and its monad *)
(* ===================================================================== *)

Record World : Type := mkWorld {
  organizations : Coll Organization;
  teams : Coll Team;
  users : Coll User;
  clock : Z
}.

Definition M (A : Type) : Type := World -> result A * World.

Definition ret {A} (a : A) : M A := fun w => (Ok a, w).

Definition fail {A} (e : error) : M A := fun w => (Err e, w).

Definition bind {A B} (m : M A) (k : A -> M B) : M B :=
  fun w =>
    match m w with
    | (Ok a, w') => k a w'
    | (Err e, w') => (Err e, w')
    end.

Declare Scope go_scope.
Delimit Scope go_scope with go.
Notation "x <- m ;; k" := (bind m (fun x => k))
  (at level 100, m at next level, right associativity) : go_scope.
Notation "m ;;; k" := (bind m (fun _ => k))
  (at level 100, right associativity) : go_scope.
Open Scope go_scope.

(** [if errors.Is(err, mongo.ErrNoDocuments) { return errors.New(msg) };
    return err] *)
Definition found_or {A} (msg : string) (m : M A) : M A :=
  fun w =>
    match m w with
    | (Err ErrNoDocuments, w') => (Err (ErrNew msg), w')
    | other => other
    end.

(** [x, err := get(); if err != nil && !errors.Is(err, ErrNoDocuments)
    { return err }]: afterwards [x] is nil exactly when nothing was found. *)
Definition lookup {A} (m : M A) : M (option A) :=
  fun w =>
    match m w with
    | (Ok a, w') => (Ok (Some a), w')
    | (Err ErrNoDocuments, w') => (Ok None, w')
    | (Err e, w') => (Err e, w')
    end.

(** A best-effort step: its error is logged and the caller goes on. *)
Definition logged {A} (m : M A) : M unit :=
  fun w => (Ok tt, snd (m w)).

Definition on_organizations {A}
    (f : Coll Organization -> result A * Coll Organization) : M A :=
  fun w =>
    let (r, c) := f (organizations w) in
    (r, mkWorld c (teams w) (users w) (clock w)).

Definition on_teams {A} (f : Coll Team -> result A * Coll Team) : M A :=
  fun w =>
    let (r, c) := f (teams w) in
    (r, mkWorld (organizations w) c (users w) (clock w)).

Definition on_users {A} (f : Coll User -> result A * Coll User) : M A :=
  fun w =>
    let (r, c) := f (users w) in
    (r, mkWorld (organizations w) (teams w) c (clock w)).

Definition with_clock {A} (m : Clock A) : M A :=
  fun w =>
    let (a, c) := m (clock w) in
    (Ok a, mkWorld (organizations w) (teams w) (users w) c).

(** Best-effort steps over a slice, as in
    [for _, x := range xs { err = step(x); if err != nil { log } }]. *)
Fixpoint for_each_logged {A B} (xs : list A) (step : A -> M B) : M unit :=
  match xs with
  | [] => ret tt
  | x :: r => logged (step x) ;;; for_each_logged r step
  end.

(* ===================================================================== *)
(** ** Update operators *)
(* ===================================================================== *)

Definition has_member (userID : string) (ms : list Member) : bool :=
  existsb (fun m => m_UserID m =? userID) ms.

(** [$set members.$.role]: the first entry of the user gets the role. *)
Fixpoint set_role_at_match (userID role : string) (ms : list Member)
  : list Member :=
  match ms with
  | [] => []
  | m :: r =>
      if m_UserID m =? userID then set_m_Role role m :: r
      else m :: set_role_at_match userID role r
  end.

(** [$pull members {userId}]: every entry of the user goes. *)
Definition pull_member (userID : string) (ms : list Member) : list Member :=
  List.filter (fun m => negb (m_UserID m =? userID)) ms.

(** [$addToSet] on a list of identifiers. *)
Definition addToSet (id : string) (ids : list string) : list string :=
  if existsb (fun x => x =? id) ids then ids else ids ++ [id].

(** [$pull] on a list of identifiers. *)
Definition pull (id : string) (ids : list string) : list string :=
  List.filter (fun x => negb (x =? id)) ids.

(* ===================================================================== *)
(** ** OrganizationRepository *)
(* ===================================================================== *)

(** The filter bson.M{"_id": objID}, objID read from [id]. *)
Definition org_by_id (id : string) (o : Organization) : bool :=
  o_ID o =? ObjectID_Hex id.

Definition OrganizationRepository_GetByID (id : string) : M Organization :=
  if negb (ObjectIDFromHex id) then fail ErrInvalidHex
  else on_organizations (FindOne (org_by_id id)).

Definition OrganizationRepository_GetByName (name : string) : M Organization :=
  on_organizations (FindOne (fun o => o_Name o =? name)).

Definition OrganizationRepository_Create (org : Organization)
  : M Organization :=
  existingOrg <- lookup (OrganizationRepository_GetByName (o_Name org)) ;;
  match existingOrg with
  | Some _ => fail (ErrNew "organization with this name already exists")
  | None =>
      on_organizations (InsertOne o_ID org) ;;;
      ret org
  end.

(** The [$set] document of Update: the profile, the members and the
    settings of [org], and a fresh updatedAt. *)
Definition org_replace (org : Organization) (now : Z) (d : Organization)
  : Organization :=
  mkOrganization (o_ID d) (o_Name org) (o_Description org) (o_LogoURL org)
    (o_Website org) (o_Industry org) (o_Size org) (o_Location org)
    (o_CreatedBy d) (o_CreatedAt d) now (o_Members org) (o_TeamIDs d)
    (o_Settings org).

Definition OrganizationRepository_Update (org : Organization) : M unit :=
  if negb (ObjectIDFromHex (o_ID org)) then fail ErrInvalidHex
  else
    existingOrg <- lookup (OrganizationRepository_GetByName (o_Name org)) ;;
    let conflict :=
      match existingOrg with
      | Some e => negb (o_ID e =? o_ID org)
      | None => false
      end in
    if conflict
    then fail (ErrNew "another organization with this name already exists")
    else
      now <- with_clock time_Now ;;
      on_organizations
        (UpdateOne Organization_eq_dec (org_by_id (o_ID org))
           (org_replace org now)) ;;;
      ret tt.

Definition OrganizationRepository_Delete (id : string) : M unit :=
  if negb (ObjectIDFromHex id) then fail ErrInvalidHex
  else on_organizations (DeleteOne (org_by_id id)).

Definition OrganizationRepository_AddMember
    (orgID userID role invitedBy : string) : M unit :=
  if negb (ObjectIDFromHex orgID) then fail ErrInvalidHex
  else
    let filter := fun o => org_by_id orgID o && has_member userID (o_Members o) in
    existingOrg <- on_organizations (CountDocuments filter) ;;
    if (0 <? existingOrg)%nat then
      now <- with_clock time_Now ;;
      on_organizations
        (UpdateOne Organization_eq_dec filter
           (fun d =>
              set_o_UpdatedAt now
                (set_o_Members (set_role_at_match userID role (o_Members d))
                   d))) ;;;
      ret tt
    else
      now <- with_clock time_Now ;;
      on_organizations
        (UpdateOne Organization_eq_dec (org_by_id orgID)
           (fun d =>
              set_o_UpdatedAt now
                (set_o_Members
                   (o_Members d ++ [mkMember userID role now invitedBy]) d))) ;;;
      ret tt.

Definition OrganizationRepository_RemoveMember (orgID userID : string)
  : M unit :=
  if negb (ObjectIDFromHex orgID) then fail ErrInvalidHex
  else
    now <- with_clock time_Now ;;
    res <- on_organizations
             (UpdateOne Organization_eq_dec (org_by_id orgID)
                (fun d =>
                   set_o_UpdatedAt now
                     (set_o_Members (pull_member userID (o_Members d)) d))) ;;
    if (ModifiedCount res =? 0)%nat
    then fail (ErrNew "member not found in organization")
    else ret tt.

Definition OrganizationRepository_AddTeam (orgID teamID : string) : M unit :=
  if negb (ObjectIDFromHex orgID) then fail ErrInvalidHex
  else
    now <- with_clock time_Now ;;
    on_organizations
      (UpdateOne Organization_eq_dec (org_by_id orgID)
         (fun d =>
            set_o_UpdatedAt now (set_o_TeamIDs (addToSet teamID (o_TeamIDs d)) d))) ;;;
    ret tt.

Definition OrganizationRepository_RemoveTeam (orgID teamID : string)
  : M unit :=
  if negb (ObjectIDFromHex orgID) then fail ErrInvalidHex
  else
    now <- with_clock time_Now ;;
    res <- on_organizations
             (UpdateOne Organization_eq_dec (org_by_id orgID)
                (fun d =>
                   set_o_UpdatedAt now
                     (set_o_TeamIDs (pull teamID (o_TeamIDs d)) d))) ;;
    if (ModifiedCount res =? 0)%nat
    then fail (ErrNew "team not found in organization")
    else ret tt.

(* ===================================================================== *)
(** ** TeamRepository *)
(* ===================================================================== *)

Definition team_by_id (id : string) (t : Team) : bool :=
  t_ID t =? ObjectID_Hex id.

Definition TeamRepository_GetByID (id : string) : M Team :=
  if negb (ObjectIDFromHex id) then fail ErrInvalidHex
  else on_teams (FindOne (team_by_id id)).

Definition TeamRepository_GetByNameAndOrganization
    (name organizationID : string) : M Team :=
  on_teams
    (FindOne (fun t => (t_Name t =? name)
                       && (t_OrganizationID t =? organizationID))).

Definition TeamRepository_Create (team : Team) : M Team :=
  existingTeam <-
    lookup (TeamRepository_GetByNameAndOrganization
              (t_Name team) (t_OrganizationID team)) ;;
  match existingTeam with
  | Some _ =>
      fail (ErrNew "team with this name already exists in the organization")
  | None =>
      on_teams (InsertOne t_ID team) ;;;
      ret team
  end.

Definition team_replace (team : Team) (now : Z) (d : Team) : Team :=
  mkTeam (t_ID d) (t_Name team) (t_Description team) (t_LogoURL team)
    (t_OrganizationID d) (t_CreatedBy d) (t_CreatedAt d) now (t_Members team).

Definition TeamRepository_Update (team : Team) : M unit :=
  if negb (ObjectIDFromHex (t_ID team)) then fail ErrInvalidHex
  else
    existingTeam <-
      lookup (TeamRepository_GetByNameAndOrganization
                (t_Name team) (t_OrganizationID team)) ;;
    let conflict :=
      match existingTeam with
      | Some e => negb (t_ID e =? t_ID team)
      | None => false
      end in
    if conflict
    then fail (ErrNew
      "another team with this name already exists in the organization")
    else
      now <- with_clock time_Now ;;
      on_teams
        (UpdateOne Team_eq_dec (team_by_id (t_ID team))
           (team_replace team now)) ;;;
      ret tt.

Definition TeamRepository_Delete (id : string) : M unit :=
  if negb (ObjectIDFromHex id) then fail ErrInvalidHex
  else on_teams (DeleteOne (team_by_id id)).

Definition TeamRepository_AddMember
    (teamID userID role invitedBy : string) : M unit :=
  if negb (ObjectIDFromHex teamID) then fail ErrInvalidHex
  else
    let filter := fun t => team_by_id teamID t && has_member userID (t_Members t) in
    existingTeam <- on_teams (CountDocuments filter) ;;
    if (0 <? existingTeam)%nat then
      now <- with_clock time_Now ;;
      on_teams
        (UpdateOne Team_eq_dec filter
           (fun d =>
              set_t_UpdatedAt now
                (set_t_Members (set_role_at_match userID role (t_Members d))
                   d))) ;;;
      ret tt
    else
      now <- with_clock time_Now ;;
      on_teams
        (UpdateOne Team_eq_dec (team_by_id teamID)
           (fun d =>
              set_t_UpdatedAt now
                (set_t_Members
                   (t_Members d ++ [mkMember userID role now invitedBy]) d))) ;;;
      ret tt.

Definition TeamRepository_RemoveMember (teamID userID : string) : M unit :=
  if negb (ObjectIDFromHex teamID) then fail ErrInvalidHex
  else
    now <- with_clock time_Now ;;
    res <- on_teams
             (UpdateOne Team_eq_dec (team_by_id teamID)
                (fun d =>
                   set_t_UpdatedAt now
                     (set_t_Members (pull_member userID (t_Members d)) d))) ;;
    if (ModifiedCount res =? 0)%nat
    then fail (ErrNew "member not found in team")
    else ret tt.

(* ===================================================================== *)
(** ** UserRepository *)
(* ===================================================================== *)

Definition user_by_userId (userId : string) (u : User) : bool :=
  u_UserID u =? userId.

Definition UserRepository_GetByUserId (userId : string) : M User :=
  on_users (FindOne (user_by_userId userId)).

Definition UserRepository_GetByEmail (email : string) : M User :=
  on_users (FindOne (fun u => u_Email u =? email)).

Definition UserRepository_Create (user : User) : M User :=
  existingUser <- lookup (UserRepository_GetByUserId (u_UserID user)) ;;
  match existingUser with
  | Some _ => fail (ErrNew "user with this userId already exists")
  | None =>
      existingUser <- lookup (UserRepository_GetByEmail (u_Email user)) ;;
      match existingUser with
      | Some _ => fail (ErrNew "user with this email already exists")
      | None =>
          on_users (InsertOne u_ID user) ;;;
          ret user
      end
  end.

Definition UserRepository_AddOrganizationToUser
    (userId organizationId : string) : M unit :=
  now <- with_clock time_Now ;;
  on_users
    (UpdateOne User_eq_dec (user_by_userId userId)
       (fun d =>
          set_u_UpdatedAt now
            (set_u_OrganizationIDs
               (addToSet organizationId (u_OrganizationIDs d)) d))) ;;;
  ret tt.

Definition UserRepository_RemoveOrganizationFromUser
    (userId organizationId : string) : M unit :=
  now <- with_clock time_Now ;;
  on_users
    (UpdateOne User_eq_dec (user_by_userId userId)
       (fun d =>
          set_u_UpdatedAt now
            (set_u_OrganizationIDs
               (pull organizationId (u_OrganizationIDs d)) d))) ;;;
  ret tt.

Definition UserRepository_AddTeamToUser (userId teamId : string) : M unit :=
  now <- with_clock time_Now ;;
  on_users
    (UpdateOne User_eq_dec (user_by_userId userId)
       (fun d =>
          set_u_UpdatedAt now
            (set_u_TeamIDs (addToSet teamId (u_TeamIDs d)) d))) ;;;
  ret tt.

Definition UserRepository_RemoveTeamFromUser (userId teamId : string)
  : M unit :=
  now <- with_clock time_Now ;;
  on_users
    (UpdateOne User_eq_dec (user_by_userId userId)
       (fun d =>
          set_u_UpdatedAt now
            (set_u_TeamIDs (pull teamId (u_TeamIDs d)) d))) ;;;
  ret tt.

(* ===================================================================== *)
(** ** OrganizationService *)
(* ===================================================================== *)

(** The loop [for _, m := range members { if m.Role == owner { n++ } }]. *)
Definition ownerCount (owner : string) (ms : list Member) : nat :=
  length (List.filter (fun m => m_Role m =? owner) ms).

Definition OrganizationService_CreateOrganization
    (uuid : string) (req : CreateOrganizationRequest) (createdBy : string)
  : M Organization :=
  org <- with_clock (NewOrganization uuid req createdBy) ;;
  org <- OrganizationRepository_Create org ;;
  logged (UserRepository_AddOrganizationToUser createdBy (o_ID org)) ;;;
  ret org.

Definition OrganizationService_UpdateOrganization
    (id : string) (req : UpdateOrganizationRequest) (userID : string)
  : M Organization :=
  org <- found_or "organization not found"
           (OrganizationRepository_GetByID id) ;;
  if negb (Organization_HasRole org userID [OrgRoleOwner; OrgRoleAdmin])
  then fail (ErrNew "insufficient permissions to update organization")
  else
    org <- with_clock (Organization_Apply org req) ;;
    OrganizationRepository_Update org ;;;
    ret org.

Definition OrganizationService_DeleteOrganization (id userID : string)
  : M unit :=
  org <- found_or "organization not found"
           (OrganizationRepository_GetByID id) ;;
  if negb (Organization_HasRole org userID [OrgRoleOwner])
  then fail (ErrNew "insufficient permissions to delete organization")
  else
    for_each_logged (o_TeamIDs org) TeamRepository_Delete ;;;
    OrganizationRepository_Delete id ;;;
    for_each_logged (o_Members org)
      (fun member =>
         UserRepository_RemoveOrganizationFromUser (m_UserID member) id) ;;;
    ret tt.

Definition OrganizationService_AddOrganizationMember
    (orgID : string) (req : AddOrganizationMemberRequest) (invitedBy : string)
  : M unit :=
  org <- found_or "organization not found"
           (OrganizationRepository_GetByID orgID) ;;
  if negb (Organization_HasRole org invitedBy [OrgRoleOwner; OrgRoleAdmin])
  then fail (ErrNew "insufficient permissions to add organization member")
  else
    found_or "user not found" (UserRepository_GetByUserId (aomr_UserID req)) ;;;
    OrganizationRepository_AddMember orgID (aomr_UserID req) (aomr_Role req)
      invitedBy ;;;
    logged (UserRepository_AddOrganizationToUser (aomr_UserID req) orgID) ;;;
    logged (OrganizationRepository_GetByID orgID) ;;;
    ret tt.

Definition OrganizationService_UpdateOrganizationMember
    (orgID memberID : string) (req : UpdateOrganizationMemberRequest)
    (updatedBy : string) : M unit :=
  org <- found_or "organization not found"
           (OrganizationRepository_GetByID orgID) ;;
  if negb (Organization_HasRole org updatedBy [OrgRoleOwner; OrgRoleAdmin])
  then fail (ErrNew "insufficient permissions to update organization member")
  else
    let currentMember := Organization_GetMember org memberID in
    if match currentMember with
       | Some cm => (m_Role cm =? OrgRoleOwner)
                    && negb (Organization_HasRole org updatedBy [OrgRoleOwner])
       | None => false
       end
    then fail (ErrNew
      "only an organization owner can change the role of another owner")
    else
      loweringOwnRole <-
        (if memberID =? updatedBy then
           match currentMember with
           | Some cm => ret ((m_Role cm =? OrgRoleOwner)
                             && negb (uomr_Role req =? OrgRoleOwner))
           | None => fail ErrPanic
           end
         else ret false) ;;
      if loweringOwnRole
         && (ownerCount OrgRoleOwner (o_Members org) <=? 1)%nat
      then fail (ErrNew
        "cannot change role: organization must have at least one owner")
      else
        OrganizationRepository_AddMember orgID memberID (uomr_Role req)
          updatedBy ;;;
        logged (OrganizationRepository_GetByID orgID) ;;;
        ret tt.

Definition OrganizationService_RemoveOrganizationMember
    (orgID memberID removedBy : string) : M unit :=
  org <- found_or "organization not found"
           (OrganizationRepository_GetByID orgID) ;;
  match Organization_GetMember org memberID with
  | None => fail (ErrNew "member not found in organization")
  | Some memberToRemove =>
      let isOwner := Organization_HasRole org removedBy [OrgRoleOwner] in
      let isAdmin := Organization_HasRole org removedBy [OrgRoleAdmin] in
      let isSelf := removedBy =? memberID in
      if negb isOwner && negb isSelf
         && ((m_Role memberToRemove =? OrgRoleOwner)
             || (negb isAdmin && (m_Role memberToRemove =? OrgRoleAdmin)))
      then fail (ErrNew
        "insufficient permissions to remove this organization member")
      else if (m_Role memberToRemove =? OrgRoleOwner)
              && (ownerCount OrgRoleOwner (o_Members org) <=? 1)%nat
      then fail (ErrNew "cannot remove the only organization owner")
      else
        OrganizationRepository_RemoveMember orgID memberID ;;;
        logged (UserRepository_RemoveOrganizationFromUser memberID orgID) ;;;
        ret tt
  end.

(* ===================================================================== *)
(** ** TeamService *)
(* ===================================================================== *)

Definition TeamService_CreateTeam
    (uuid : string) (req : CreateTeamRequest) (createdBy : string) : M Team :=
  org <- found_or "organization not found"
           (OrganizationRepository_GetByID (ctr_OrganizationID req)) ;;
  if negb (Organization_IsMember org createdBy)
  then fail (ErrNew "user is not a member of the organization")
  else
    team <- with_clock (NewTeam uuid req createdBy) ;;
    team <- TeamRepository_Create team ;;
    logged (OrganizationRepository_AddTeam (ctr_OrganizationID req)
              (t_ID team)) ;;;
    logged (UserRepository_AddTeamToUser createdBy (t_ID team)) ;;;
    ret team.

Definition TeamService_UpdateTeam
    (id : string) (req : UpdateTeamRequest) (userID : string) : M Team :=
  team <- found_or "team not found" (TeamRepository_GetByID id) ;;
  if negb (Team_HasRole team userID [TeamRoleOwner; TeamRoleAdmin])
  then fail (ErrNew "insufficient permissions to update team")
  else
    team <- with_clock (Team_Apply team req) ;;
    TeamRepository_Update team ;;;
    ret team.

Definition TeamService_DeleteTeam (id userID : string) : M unit :=
  team <- found_or "team not found" (TeamRepository_GetByID id) ;;
  if negb (Team_HasRole team userID [TeamRoleOwner])
  then fail (ErrNew "insufficient permissions to delete team")
  else
    TeamRepository_Delete id ;;;
    logged (OrganizationRepository_RemoveTeam (t_OrganizationID team) id) ;;;
    for_each_logged (t_Members team)
      (fun member => UserRepository_RemoveTeamFromUser (m_UserID member) id) ;;;
    ret tt.

Definition TeamService_AddTeamMember
    (teamID : string) (req : AddTeamMemberRequest) (invitedBy : string)
  : M unit :=
  team <- found_or "team not found" (TeamRepository_GetByID teamID) ;;
  if negb (Team_HasRole team invitedBy [TeamRoleOwner; TeamRoleAdmin])
  then fail (ErrNew "insufficient permissions to add team member")
  else
    found_or "user not found" (UserRepository_GetByUserId (atmr_UserID req)) ;;;
    org <- OrganizationRepository_GetByID (t_OrganizationID team) ;;
    if negb (Organization_IsMember org (atmr_UserID req))
    then fail (ErrNew "user is not a member of the organization")
    else
      TeamRepository_AddMember teamID (atmr_UserID req) (atmr_Role req)
        invitedBy ;;;
      logged (UserRepository_AddTeamToUser (atmr_UserID req) teamID) ;;;
      logged (TeamRepository_GetByID teamID) ;;;
      ret tt.

Definition TeamService_UpdateTeamMember
    (teamID memberID : string) (req : UpdateTeamMemberRequest)
    (updatedBy : string) : M unit :=
  team <- found_or "team not found" (TeamRepository_GetByID teamID) ;;
  if negb (Team_HasRole team updatedBy [TeamRoleOwner; TeamRoleAdmin])
  then fail (ErrNew "insufficient permissions to update team member")
  else
    let currentMember := Team_GetMember team memberID in
    if match currentMember with
       | Some cm => (m_Role cm =? TeamRoleOwner)
                    && negb (Team_HasRole team updatedBy [TeamRoleOwner])
       | None => false
       end
    then fail (ErrNew "only a team owner can change the role of another owner")
    else
      loweringOwnRole <-
        (if memberID =? updatedBy then
           match currentMember with
           | Some cm => ret ((m_Role cm =? TeamRoleOwner)
                             && negb (utmr_Role req =? TeamRoleOwner))
           | None => fail ErrPanic
           end
         else ret false) ;;
      if loweringOwnRole
         && (ownerCount TeamRoleOwner (t_Members team) <=? 1)%nat
      then fail (ErrNew "cannot change role: team must have at least one owner")
      else
        TeamRepository_AddMember teamID memberID (utmr_Role req) updatedBy ;;;
        logged (TeamRepository_GetByID teamID) ;;;
        ret tt.

Definition TeamService_RemoveTeamMember
    (teamID memberID removedBy : string) : M unit :=
  team <- found_or "team not found" (TeamRepository_GetByID teamID) ;;
  match Team_GetMember team memberID with
  | None => fail (ErrNew "member not found in team")
  | Some memberToRemove =>
      let isOwner := Team_HasRole team removedBy [TeamRoleOwner] in
      let isAdmin := Team_HasRole team removedBy [TeamRoleAdmin] in
      let isSelf := removedBy =? memberID in
      if negb isOwner && negb isSelf
         && ((m_Role memberToRemove =? TeamRoleOwner)
             || (negb isAdmin && (m_Role memberToRemove =? TeamRoleAdmin)))
      then fail (ErrNew "insufficient permissions to remove this team member")
      else if (m_Role memberToRemove =? TeamRoleOwner)
              && (ownerCount TeamRoleOwner (t_Members team) <=? 1)%nat
      then fail (ErrNew "cannot remove the only team owner")
      else
        TeamRepository_RemoveMember teamID memberID ;;;
        logged (UserRepository_RemoveTeamFromUser memberID teamID) ;;;
        ret tt
  end.

(* ===================================================================== *)
(** ** List queries of the facade *)
(* ===================================================================== *)

(** The repository query behind each list method is a parameter: what a
    method does is decided by the page and the limit it hands over. *)
Section ListQueries.
Context {R : Type}.

Definition UserService_GetUsers
    (userRepo_GetUsers : Z -> Z -> string -> M R)
    (page limit : Z) (search : string) : M R :=
  let page := if (page <? 1)%Z then 1%Z else page in
  let limit := if (limit <? 1)%Z || (100 <? limit)%Z then 20%Z else limit in
  userRepo_GetUsers page limit search.

Definition OrganizationService_GetOrganizationsByUser
    (orgRepo_GetOrganizationsByUser : string -> Z -> Z -> M R)
    (userID : string) (page limit : Z) : M R :=
  let page := if (page <? 1)%Z then 1%Z else page in
  let limit := if (limit <? 1)%Z || (100 <? limit)%Z then 20%Z else limit in
  orgRepo_GetOrganizationsByUser userID page limit.

Definition OrganizationService_ListOrganizations
    (orgRepo_ListOrganizations : Z -> Z -> M R) (page limit : Z) : M R :=
  let page := if (page <? 1)%Z then 1%Z else page in
  let limit := if (limit <? 1)%Z || (100 <? limit)%Z then 20%Z else limit in
  orgRepo_ListOrganizations page limit.

Definition TeamService_GetTeamsByOrganization
    (teamRepo_GetTeamsByOrganization : string -> Z -> Z -> M R)
    (organizationID : string) (page limit : Z) : M R :=
  let page := if (page <? 1)%Z then 1%Z else page in
  let limit := if (limit <? 1)%Z || (100 <? limit)%Z then 20%Z else limit in
  teamRepo_GetTeamsByOrganization organizationID page limit.

Definition TeamService_GetTeamsByUser
    (teamRepo_GetTeamsByUser : string -> Z -> Z -> M R)
    (userID : string) (page limit : Z) : M R :=
  let page := if (page <? 1)%Z then 1%Z else page in
  let limit := if (limit <? 1)%Z || (100 <? limit)%Z then 20%Z else limit in
  teamRepo_GetTeamsByUser userID page limit.

Definition OrganizationService_GetOrganizationTeams
    (teamRepo_GetTeamsByOrganization : string -> Z -> Z -> M R)
    (orgID : string) (page limit : Z) (userID : string) : M R :=
  org <- found_or "organization not found"
           (OrganizationRepository_GetByID orgID) ;;
  if negb (Organization_IsMember org userID)
  then fail (ErrNew "user is not a member of the organization")
  else teamRepo_GetTeamsByOrganization orgID page limit.
End ListQueries.

(* ===================================================================== *)
(** ** UserService *)
(* ===================================================================== *)

(** The decoded [interface{}] payload of an event: a JSON object of
    fields, or anything else; a field is a string or anything else. *)
Inductive JSONValue : Type :=
| JString (s : string)
| JOther.

Inductive EventData : Type :=
| DataMap (fields : list (string * JSONValue))
| DataOther.

Record Event : Type := mkEvent {
  e_ID : string;
  e_Type : string;
  e_Source : string;
  e_Subject : string;
  e_Time : Z;
  e_Data : EventData;
  e_CorrelationID : string
}.

(** [s, _ := data[key].(string)]: the empty string unless the key is
    bound to a string. *)
Fixpoint string_field (key : string) (fields : list (string * JSONValue))
  : string :=
  match fields with
  | [] => ""
  | (k, v) :: r =>
      if k =? key then match v with JString s => s | JOther => "" end
      else string_field key r
  end.

Definition UserService_CreateUser (uuid : string) (req : CreateUserRequest)
  : M User :=
  user <- with_clock (NewUser uuid req) ;;
  UserRepository_Create user.

Definition UserService_ProcessAuthUserCreated (uuid : string) (event : Event)
  : M unit :=
  match e_Data event with
  | DataOther => fail (ErrNew "invalid data format")
  | DataMap data =>
      let userId := string_field "id" data in
      let email := string_field "email" data in
      let firstName := string_field "firstName" data in
      let lastName := string_field "lastName" data in
      let roleStr := string_field "role" data in
      if (userId =? "") || (email =? "") || (firstName =? "")
         || (lastName =? "")
      then fail (ErrNew "missing required fields")
      else
        existingUser <- lookup (UserRepository_GetByUserId userId) ;;
        match existingUser with
        | Some _ => ret tt
        | None =>
            let role :=
              if roleStr =? "admin" then RoleAdmin
              else if roleStr =? "presenter" then RolePresenter
              else RoleUser in
            UserService_CreateUser uuid
              (mkCreateUserRequest userId email firstName lastName role) ;;;
            ret tt
        end
  end.

(* ===================================================================== *)
(** ** Calls of the facade that change groups *)
(* ===================================================================== *)

Inductive Call : Type :=
| CreateOrganization (uuid : string) (req : CreateOrganizationRequest)
    (createdBy : string)
| UpdateOrganization (id : string) (req : UpdateOrganizationRequest)
    (userID : string)
| DeleteOrganization (id userID : string)
| AddOrganizationMember (orgID : string) (req : AddOrganizationMemberRequest)
    (invitedBy : string)
| UpdateOrganizationMember (orgID memberID : string)
    (req : UpdateOrganizationMemberRequest) (updatedBy : string)
| RemoveOrganizationMember (orgID memberID removedBy : string)
| CreateTeam (uuid : string) (req : CreateTeamRequest) (createdBy : string)
| UpdateTeam (id : string) (req : UpdateTeamRequest) (userID : string)
| DeleteTeam (id userID : string)
| AddTeamMember (teamID : string) (req : AddTeamMemberRequest)
    (invitedBy : string)
| UpdateTeamMember (teamID memberID : string) (req : UpdateTeamMemberRequest)
    (updatedBy : string)
| RemoveTeamMember (teamID memberID removedBy : string).

(** A call, with its returned value dropped. *)
Definition exec (c : Call) : M unit :=
  match c with
  | CreateOrganization uuid req createdBy =>
      OrganizationService_CreateOrganization uuid req createdBy ;;; ret tt
  | UpdateOrganization id req userID =>
      OrganizationService_UpdateOrganization id req userID ;;; ret tt
  | DeleteOrganization id userID =>
      OrganizationService_DeleteOrganization id userID
  | AddOrganizationMember orgID req invitedBy =>
      OrganizationService_AddOrganizationMember orgID req invitedBy
  | UpdateOrganizationMember orgID memberID req updatedBy =>
      OrganizationService_UpdateOrganizationMember orgID memberID req updatedBy
  | RemoveOrganizationMember orgID memberID removedBy =>
      OrganizationService_RemoveOrganizationMember orgID memberID removedBy
  | CreateTeam uuid req createdBy =>
      TeamService_CreateTeam uuid req createdBy ;;; ret tt
  | UpdateTeam id req userID =>
      TeamService_UpdateTeam id req userID ;;; ret tt
  | DeleteTeam id userID => TeamService_DeleteTeam id userID
  | AddTeamMember teamID req invitedBy =>
      TeamService_AddTeamMember teamID req invitedBy
  | UpdateTeamMember teamID memberID req updatedBy =>
      TeamService_UpdateTeamMember teamID memberID req updatedBy
  | RemoveTeamMember teamID memberID removedBy =>
      TeamService_RemoveTeamMember teamID memberID removedBy
  end.

(** A sequence of calls, one after the other, whatever each returns. *)
Fixpoint run (cs : list Call) (w : World) : World :=
  match cs with
  | [] => w
  | c :: r => run r (snd (exec c w))
  end.

(** The documents of the three collections. *)
Definition store (w : World) : list Organization * list Team * list User :=
  (docs (organizations w), docs (teams w), docs (users w)).


(* ===================================================================== *)
(** ** Four properties of a computation *)

(** It writes no document. *)
Definition reads_only {A} (m : M A) : Prop :=
  forall w, store (snd (m w)) = store w.

(** Whatever error it returns, it has written no document. *)
Definition atomic {A} (m : M A) : Prop :=
  forall w e, fst (m w) = Err e -> store (snd (m w)) = store w.

(** When it returns a rejection, it has written no document. *)
Definition safe {A} (m : M A) : Prop :=
  forall w e, fst (m w) = Err e -> is_rejection e = true ->
              store (snd (m w)) = store w.

(** It never returns an error. *)
Definition total {A} (m : M A) : Prop :=
  forall w, is_ok (fst (m w)) = true.

(** It never returns a rejection. *)
Definition unrejecting {A} (m : M A) : Prop :=
  forall w e, fst (m w) = Err e -> is_rejection e = false.


(** ** Two runs that differ in the writes to the users collection *)

(** Equal worlds, but for the failures scheduled for the writes to the
    users collection. *)
Definition same_but_user_write_faults (w1 w2 : World) : Prop :=
  organizations w1 = organizations w2 /\ teams w1 = teams w2 /\
  clock w1 = clock w2 /\ read_faults (users w1) = read_faults (users w2) /\
  docs (users w1) = docs (users w2).

(** Equal worlds, but for the user documents and those failures. *)
Definition same_but_user_writes (w1 w2 : World) : Prop :=
  organizations w1 = organizations w2 /\ teams w1 = teams w2 /\
  clock w1 = clock w2 /\ read_faults (users w1) = read_faults (users w2).

(** From related worlds, [m] returns the same result and leaves related
    worlds. *)
Definition sim {A} (Ra Rb : World -> World -> Prop) (m : M A) : Prop :=
  forall w1 w2, Ra w1 w2 ->
    fst (m w1) = fst (m w2) /\ Rb (snd (m w1)) (snd (m w2)).

(** From related worlds, [m] leaves related worlds, whatever it returns. *)
Definition drifts {A} (R : World -> World -> Prop) (m : M A) : Prop :=
  forall w1 w2, R w1 w2 -> R (snd (m w1)) (snd (m w2)).

(** The schedule of write failures of the users collection replaced. *)
Definition with_user_write_faults (f : list bool) (w : World) : World :=
  mkWorld (organizations w) (teams w)
    (mkColl (docs (users w)) (read_faults (users w)) f) (clock w).

(** ** A small store, for the examples *)

Definition acme_id : string := "64b000000000000000000001".
Definition crew_id : string := "64b000000000000000000002".

Definition acme : Organization :=
  mkOrganization acme_id "Acme" "" "" "" "" "" "" "alice" 1 3
    [mkMember "alice" OrgRoleOwner 1 ""; mkMember "bob" OrgRoleAdmin 2 "alice";
     mkMember "carol" OrgRoleMember 3 "alice"]
    [crew_id]
    (mkSettings OrgRoleMember (mkFeatures true false true)
       (mkBranding "#3f51b5" "#f50057" "" "")).

Definition crew : Team :=
  mkTeam crew_id "Crew" "" "" acme_id "alice" 4 6
    [mkMember "alice" TeamRoleOwner 4 ""; mkMember "bob" TeamRoleAdmin 5 "alice";
     mkMember "carol" TeamRoleViewer 6 "alice"].

Definition person (id userId email : string) (orgs teams : list string)
  : User :=
  mkUser id userId email "First" "Last" RoleUser StatusActive
    "" "" "" "" "" "" "" []
    (mkUserPreferences "en" "light" "UTC"
       (mkNotificationSettings true true true)
       (mkPrivacySettings true false))
    None 0 0 orgs teams.

Definition small_world : World :=
  mkWorld
    (mkColl [acme] [] [])
    (mkColl [crew] [] [])
    (mkColl [person "u1" "alice" "alice@example.org" [acme_id] [crew_id];
             person "u2" "bob" "bob@example.org" [acme_id] [crew_id];
             person "u3" "carol" "carol@example.org" [acme_id] [crew_id];
             person "u4" "dave" "dave@example.org" [] []]
       [] [])
    100.

(** No failure of the driver is pending on a collection. *)
Definition quiet {A} (c : Coll A) : Prop :=
  read_faults c = [] /\ write_faults c = [].

(** [d] is the document selected by [filter] in a collection. *)
Definition the_document {A} (filter : A -> bool) (c : Coll A) (d : A) : Prop :=
  List.filter filter (docs c) = [d].

(** ** Statements about members *)

(** The rule for removing a member as the specification words it: the
    actor holds Owner, or is the target, or holds Admin while the target
    is not an Owner. *)
Definition remove_allowed_by_spec (owner admin : string) (ms : list Member)
    (actor targetID : string) (target : Member) : bool :=
  HasRole ms actor [owner] || (actor =? targetID)
  || (HasRole ms actor [admin] && negb (m_Role target =? owner)).

(** [after] is [before] with the role of the entry of [userID] replaced:
    same users in the same order, same joinedAt and invitedBy, the entry
    of [userID] with the new role, the entries of the others as they
    were. *)
Definition role_only_change (userID role : string)
    (before after : list Member) : Prop :=
  map m_UserID after = map m_UserID before /\
  map m_JoinedAt after = map m_JoinedAt before /\
  map m_InvitedBy after = map m_InvitedBy before /\
  (forall m, GetMember before userID = Some m ->
             GetMember after userID = Some (set_m_Role role m)) /\
  (forall other, other <> userID ->
                 GetMember after other = GetMember before other).

(** The userIds of a member list are pairwise distinct. *)
Definition unique_members (ms : list Member) : Prop :=
  NoDup (map m_UserID ms).

(** In every stored group the userIds of the members are pairwise
    distinct. *)
Definition members_unique (w : World) : Prop :=
  Forall (fun o => unique_members (o_Members o)) (docs (organizations w)) /\
  Forall (fun t => unique_members (t_Members t)) (docs (teams w)).

(** [m] keeps [members_unique]. *)
Definition keeps {A} (m : M A) : Prop :=
  forall w, members_unique w -> members_unique (snd (m w)).

(** ** Deliveries of the "user created" event *)

(** The four required fields of the payload are non-empty strings. *)
Definition required_fields_present (data : list (string * JSONValue)) : bool :=
  negb ((string_field "id" data =? "") || (string_field "email" data =? "")
        || (string_field "firstName" data =? "")
        || (string_field "lastName" data =? "")).

(** The number of users stored under an external userId. *)
Definition count_users (userId : string) (l : list User) : nat :=
  length (List.filter (user_by_userId userId) l).

(** The same event delivered once per [uuid] that NewUser may draw, the
    result of each delivery dropped. *)
Fixpoint deliver (uuids : list string) (event : Event) (w : World) : World :=
  match uuids with
  | [] => w
  | uuid :: r =>
      deliver r event (snd (UserService_ProcessAuthUserCreated uuid event w))
  end.

(** The role named by the payload. *)
Definition role_of_payload (data : list (string * JSONValue)) : UserRole :=
  if string_field "role" data =? "admin" then RoleAdmin
  else if string_field "role" data =? "presenter" then RolePresenter
  else RoleUser.

(** A "user created" event for erin, who is not in [small_world]. *)
Definition erin_created : Event :=
  mkEvent "evt-1" "user.created" "auth-service" "erin" 99
    (DataMap [("id", JString "erin"); ("email", JString "erin@example.org");
              ("firstName", JString "Erin"); ("lastName", JString "Roe");
              ("role", JString "presenter")])
    "".

(** A "user created" event for a new userId under the email of alice. *)
Definition erin_with_the_email_of_alice : Event :=
  mkEvent "evt-2" "user.created" "auth-service" "erin" 99
    (DataMap [("id", JString "erin"); ("email", JString "alice@example.org");
              ("firstName", JString "Erin"); ("lastName", JString "Roe")])
    "".

(** ** Pagination *)

Definition in_page_bounds (page limit : Z) : Prop :=
  (1 <= page /\ 1 <= limit <= 100)%Z.

(** The page and the limit that the five validating list methods hand to
    their repository. *)
Definition effective_page (page : Z) : Z := Z.max 1 page.

Definition effective_limit (limit : Z) : Z :=
  if ((1 <=? limit) && (limit <=? 100))%Z then limit else 20%Z.

(** [m] never panics. *)
Definition calm {A} (m : M A) : Prop :=
  forall w, fst (m w) <> Err ErrPanic.

(** The results of a sequence of calls, in order. *)
Fixpoint outcomes (cs : list Call) (w : World) : list (result unit) :=
  match cs with
  | [] => []
  | c :: r => fst (exec c w) :: outcomes r (snd (exec c w))
  end.


(* ===================================================================== *)
(** ** The team list of an organization (model methods) *)
(* ===================================================================== *)

(** append(ids[:i], ids[i+1:]...) at the first occurrence of the identifier *)
Fixpoint remove_first_id (ids : list string) (id : string)
  : option (list string) :=
  match ids with
  | [] => None
  | x :: r =>
      if x =? id then Some r
      else match remove_first_id r id with
           | Some r' => Some (x :: r')
           | None => None
           end
  end.

(** (o *Organization) AddTeam *)
Definition Organization_AddTeam (o : Organization) (teamID : string)
  : Clock (bool * Organization) :=
  if existsb (fun id => id =? teamID) (o_TeamIDs o) then cret (false, o)
  else
    cbind time_Now (fun now =>
    cret (true, set_o_UpdatedAt now (set_o_TeamIDs (o_TeamIDs o ++ [teamID]) o))).

(** (o *Organization) RemoveTeam *)
Definition Organization_RemoveTeam (o : Organization) (teamID : string)
  : Clock (bool * Organization) :=
  match remove_first_id (o_TeamIDs o) teamID with
  | Some ids =>
      cbind time_Now (fun now =>
      cret (true, set_o_UpdatedAt now (set_o_TeamIDs ids o)))
  | None => cret (false, o)
  end.

(* ===================================================================== *)
(** ** Updating a user (model) *)
(* ===================================================================== *)

Record UpdateNotificationSettings : Type := mkUpdateNotificationSettings {
  un_Email : option bool;
  un_Push : option bool;
  un_InApp : option bool
}.

Record UpdatePrivacy : Type := mkUpdatePrivacy {
  up_ShowProfileToEveryone : option bool;
  up_ShowEmailToEveryone : option bool
}.

Record UpdatePreferences : Type := mkUpdatePreferences {
  upr_Language : option string;
  upr_Theme : option string;
  upr_Timezone : option string;
  upr_NotificationSettings : option UpdateNotificationSettings;
  upr_Privacy : option UpdatePrivacy
}.

(** SocialLinks is a Go map: [None] is the nil map. *)
Record UpdateUserRequest : Type := mkUpdateUserRequest {
  uur_FirstName : option string;
  uur_LastName : option string;
  uur_Status : option UserStatus;
  uur_ProfilePicture : option string;
  uur_Bio : option string;
  uur_JobTitle : option string;
  uur_Company : option string;
  uur_Location : option string;
  uur_Phone : option string;
  uur_Website : option string;
  uur_SocialLinks : option (list (string * string));
  uur_Preferences : option UpdatePreferences
}.

Definition apply_notifications (n : NotificationSettings)
    (u : UpdateNotificationSettings) : NotificationSettings :=
  mkNotificationSettings
    (or_else (un_Email u) (n_Email n))
    (or_else (un_Push u) (n_Push n))
    (or_else (un_InApp u) (n_InApp n)).

Definition apply_privacy (p : PrivacySettings) (u : UpdatePrivacy)
  : PrivacySettings :=
  mkPrivacySettings
    (or_else (up_ShowProfileToEveryone u) (p_ShowProfileToEveryone p))
    (or_else (up_ShowEmailToEveryone u) (p_ShowEmailToEveryone p)).

Definition apply_preferences (p : UserPreferences)
    (u : option UpdatePreferences) : UserPreferences :=
  match u with
  | None => p
  | Some u =>
      mkUserPreferences
        (or_else (upr_Language u) (p_Language p))
        (or_else (upr_Theme u) (p_Theme p))
        (or_else (upr_Timezone u) (p_Timezone p))
        (match upr_NotificationSettings u with
         | Some n => apply_notifications (p_NotificationSettings p) n
         | None => p_NotificationSettings p
         end)
        (match upr_Privacy u with
         | Some v => apply_privacy (p_Privacy p) v
         | None => p_Privacy p
         end)
  end.

(** (u *User) Apply *)
Definition User_Apply (u : User) (req : UpdateUserRequest) : Clock User :=
  cbind time_Now (fun now =>
  cret (mkUser (u_ID u) (u_UserID u) (u_Email u)
          (or_else (uur_FirstName req) (u_FirstName u))
          (or_else (uur_LastName req) (u_LastName u))
          (u_Role u)
          (or_else (uur_Status req) (u_Status u))
          (or_else (uur_ProfilePicture req) (u_ProfilePicture u))
          (or_else (uur_Bio req) (u_Bio u))
          (or_else (uur_JobTitle req) (u_JobTitle u))
          (or_else (uur_Company req) (u_Company u))
          (or_else (uur_Location req) (u_Location u))
          (or_else (uur_Phone req) (u_Phone u))
          (or_else (uur_Website req) (u_Website u))
          (or_else (uur_SocialLinks req) (u_SocialLinks u))
          (apply_preferences (u_Preferences u) (uur_Preferences req))
          (u_LastLogin u) (u_CreatedAt u) now
          (u_OrganizationIDs u) (u_TeamIDs u))).

Definition set_u_Status (status : UserStatus) (u : User) : User :=
  mkUser (u_ID u) (u_UserID u) (u_Email u) (u_FirstName u) (u_LastName u)
    (u_Role u) status (u_ProfilePicture u) (u_Bio u) (u_JobTitle u)
    (u_Company u) (u_Location u) (u_Phone u) (u_Website u) (u_SocialLinks u)
    (u_Preferences u) (u_LastLogin u) (u_CreatedAt u) (u_UpdatedAt u)
    (u_OrganizationIDs u) (u_TeamIDs u).

Definition set_u_LastLogin (lastLogin : option Z) (u : User) : User :=
  mkUser (u_ID u) (u_UserID u) (u_Email u) (u_FirstName u) (u_LastName u)
    (u_Role u) (u_Status u) (u_ProfilePicture u) (u_Bio u) (u_JobTitle u)
    (u_Company u) (u_Location u) (u_Phone u) (u_Website u) (u_SocialLinks u)
    (u_Preferences u) lastLogin (u_CreatedAt u) (u_UpdatedAt u)
    (u_OrganizationIDs u) (u_TeamIDs u).

(* ===================================================================== *)
(** ** UserRepository: records addressed by _id, and the last login *)
(* ===================================================================== *)

Definition user_by_id (id : string) (u : User) : bool :=
  u_ID u =? ObjectID_Hex id.

Definition UserRepository_GetByID (id : string) : M User :=
  if negb (ObjectIDFromHex id) then fail ErrInvalidHex
  else on_users (FindOne (user_by_id id)).

(** The [$set] document of Update: the names, the status, the profile,
    the preferences of [user], and a fresh updatedAt. *)
Definition user_replace (user : User) (now : Z) (d : User) : User :=
  mkUser (u_ID d) (u_UserID d) (u_Email d)
    (u_FirstName user) (u_LastName user)
    (u_Role d)
    (u_Status user) (u_ProfilePicture user) (u_Bio user) (u_JobTitle user)
    (u_Company user) (u_Location user) (u_Phone user) (u_Website user)
    (u_SocialLinks user) (u_Preferences user)
    (u_LastLogin d) (u_CreatedAt d) now
    (u_OrganizationIDs d) (u_TeamIDs d).

Definition UserRepository_Update (user : User) : M unit :=
  if negb (ObjectIDFromHex (u_ID user)) then fail ErrInvalidHex
  else
    now <- with_clock time_Now ;;
    on_users
      (UpdateOne User_eq_dec (user_by_id (u_ID user))
         (user_replace user now)) ;;;
    ret tt.

Definition UserRepository_UpdateLastLogin (userId : string) (lastLogin : Z)
  : M unit :=
  now <- with_clock time_Now ;;
  on_users
    (UpdateOne User_eq_dec (user_by_userId userId)
       (fun d => set_u_UpdatedAt now (set_u_LastLogin (Some lastLogin) d))) ;;;
  ret tt.

(** Delete is a soft delete: the status becomes inactive. *)
Definition UserRepository_Delete (id : string) : M unit :=
  if negb (ObjectIDFromHex id) then fail ErrInvalidHex
  else
    now <- with_clock time_Now ;;
    on_users
      (UpdateOne User_eq_dec (user_by_id id)
         (fun d => set_u_UpdatedAt now (set_u_Status StatusInactive d))) ;;;
    ret tt.

(* ===================================================================== *)
(** ** The facade: single records *)
(* ===================================================================== *)

Definition OrganizationService_GetOrganizationByID (id : string)
  : M Organization :=
  found_or "organization not found" (OrganizationRepository_GetByID id).

Definition TeamService_GetTeamByID (id : string) : M Team :=
  found_or "team not found" (TeamRepository_GetByID id).

Definition UserService_GetUserByID (id : string) : M User :=
  found_or "user not found" (UserRepository_GetByID id).

Definition UserService_GetUserByUserID (userID : string) : M User :=
  found_or "user not found" (UserRepository_GetByUserId userID).

Definition UserService_GetUserByEmail (email : string) : M User :=
  found_or "user not found" (UserRepository_GetByEmail email).

Definition UserService_UpdateUser (id : string) (req : UpdateUserRequest)
  : M User :=
  user <- found_or "user not found" (UserRepository_GetByID id) ;;
  user <- with_clock (User_Apply user req) ;;
  UserRepository_Update user ;;;
  ret user.

Definition UserService_UpdateUserLastLogin (userID : string) : M unit :=
  now <- with_clock time_Now ;;
  UserRepository_UpdateLastLogin userID now.

Definition UserService_DeactivateUser (id : string) : M unit :=
  user <- found_or "user not found" (UserRepository_GetByID id) ;;
  now <- with_clock time_Now ;;
  UserRepository_Update
    (set_u_UpdatedAt now (set_u_Status StatusInactive user)) ;;;
  ret tt.

Definition UserService_ActivateUser (id : string) : M unit :=
  user <- found_or "user not found" (UserRepository_GetByID id) ;;
  now <- with_clock time_Now ;;
  UserRepository_Update
    (set_u_UpdatedAt now (set_u_Status StatusActive user)) ;;;
  ret tt.

Definition UserService_DeleteUser (id : string) : M unit :=
  found_or "user not found" (UserRepository_GetByID id) ;;;
  UserRepository_Delete id ;;;
  ret tt.

(** The calls of the user facade that change a stored user. *)
Inductive UserCall : Type :=
| CreateUser (uuid : string) (req : CreateUserRequest)
| UpdateUser (id : string) (req : UpdateUserRequest)
| UpdateUserLastLogin (userID : string)
| DeactivateUser (id : string)
| ActivateUser (id : string)
| DeleteUser (id : string)
| ProcessAuthUserCreated (uuid : string) (event : Event).

Definition exec_user (c : UserCall) : M unit :=
  match c with
  | CreateUser uuid req => UserService_CreateUser uuid req ;;; ret tt
  | UpdateUser id req => UserService_UpdateUser id req ;;; ret tt
  | UpdateUserLastLogin userID => UserService_UpdateUserLastLogin userID
  | DeactivateUser id => UserService_DeactivateUser id
  | ActivateUser id => UserService_ActivateUser id
  | DeleteUser id => UserService_DeleteUser id
  | ProcessAuthUserCreated uuid event =>
      UserService_ProcessAuthUserCreated uuid event
  end.

(** Calls of the three facades, in any order. *)
Fixpoint run_all (cs : list (Call + UserCall)) (w : World) : World :=
  match cs with
  | [] => w
  | inl c :: r => run_all r (snd (exec c w))
  | inr c :: r => run_all r (snd (exec_user c w))
  end.

(* ===================================================================== *)
(** ** The bearer token of a request (utils.ExtractToken) *)
(* ===================================================================== *)

(** strings.SplitN(s, " ", 2): the text before the first space and the
    text after it, or [s] alone when it holds no space. *)
Fixpoint cut_at_space (s : string) : option (string * string) :=
  match s with
  | EmptyString => None
  | String c r =>
      if Ascii.eqb c " "%char then Some (EmptyString, r)
      else match cut_at_space r with
           | Some (a, b) => Some (String c a, b)
           | None => None
           end
  end.

Definition SplitN2 (s : string) : list string :=
  match cut_at_space s with
  | Some (a, b) => [a; b]
  | None => [s]
  end.

Definition ErrNoAuthHeader : error := ErrNew "no authorization header present".
Definition ErrInvalidAuthHeader : error :=
  ErrNew "invalid authorization header format".

Definition ExtractToken (authHeader : string) : result string :=
  if authHeader =? "" then Err ErrNoAuthHeader
  else
    match SplitN2 authHeader with
    | [scheme; token] =>
        if negb (scheme =? "Bearer") then Err ErrInvalidAuthHeader
        else Ok token
    | _ => Err ErrInvalidAuthHeader
    end.

(* ===================================================================== *)
(** ** Validators *)
(* ===================================================================== *)

(** [for _, r := range validRoles { if role == r { return true } }] *)
Definition one_of (valid : list string) (s : string) : bool :=
  existsb (fun r => s =? r) valid.

Definition ValidateTeamRole (role : string) : bool :=
  one_of ["owner"; "admin"; "member"; "viewer"] role.

Definition ValidateOrgRole (role : string) : bool :=
  one_of ["owner"; "admin"; "member"] role.

(** The character classes of the uuid4 expression. *)
Inductive CharClass : Type :=
| LowerHex          (* [0-9a-f] *)
| Hyphen            (* - *)
| Digit4            (* 4 *)
| Digit89ab.        (* [89ab] *)

Definition in_class (k : CharClass) (c : ascii) : bool :=
  let n := nat_of_ascii c in
  match k with
  | LowerHex => ((48 <=? n) && (n <=? 57) || (97 <=? n) && (n <=? 102))%nat
  | Hyphen => (n =? 45)%nat
  | Digit4 => (n =? 52)%nat
  | Digit89ab => ((n =? 56) || (n =? 57) || (n =? 97) || (n =? 98))%nat
  end.

(** A whole-text match against a sequence of one-character classes:
    the expression is anchored by ^ and $. *)
Fixpoint matches (pattern : list CharClass) (s : string) : bool :=
  match pattern, s with
  | [], EmptyString => true
  | k :: p, String c r => in_class k c && matches p r
  | _, _ => false
  end.

(** ^[0-9a-f]{8}-[0-9a-f]{4}-4[0-9a-f]{3}-[89ab][0-9a-f]{3}-[0-9a-f]{12}$ *)
Definition uuid4_pattern : list CharClass :=
  repeat LowerHex 8 ++ [Hyphen] ++ repeat LowerHex 4 ++ [Hyphen; Digit4]
  ++ repeat LowerHex 3 ++ [Hyphen; Digit89ab] ++ repeat LowerHex 3 ++ [Hyphen]
  ++ repeat LowerHex 12.

Definition uuid4 (s : string) : bool := matches uuid4_pattern s.

(* ===================================================================== *)
(** ** Pagination in the controllers *)
(* ===================================================================== *)

(** The value of a Go int64 expression: two's complement wrap-around. *)
Definition wrap64 (z : Z) : Z :=
  ((z + 2 ^ 63) mod 2 ^ 64 - 2 ^ 63)%Z.

(** [page, err := strconv.Atoi(pageStr); if err != nil || page < 1
    { page = 1 }]: the outcome of Atoi is [None] on an error. *)
Definition query_page (parsed : option Z) : Z :=
  match parsed with
  | Some page => if (page <? 1)%Z then 1%Z else page
  | None => 1%Z
  end.

Definition query_limit (parsed : option Z) : Z :=
  match parsed with
  | Some limit =>
      if (limit <? 1)%Z || (100 <? limit)%Z then 20%Z else limit
  | None => 20%Z
  end.

(** (total + int64(limit) - 1) / int64(limit), the division truncating. *)
Definition totalPages (total limit : Z) : Z :=
  Z.quot (wrap64 (wrap64 (total + limit) - 1)) limit.

(** SetSkip(int64((page - 1) * limit)) in the repositories. *)
Definition skip_of (page limit : Z) : Z := wrap64 (wrap64 (page - 1) * limit).

(* ===================================================================== *)
(** ** The Kafka consumer: handlers and dispatch *)
(* ===================================================================== *)

(** A Go map with string keys, as the list of its bindings, one per key. *)
Fixpoint map_get {V} (k : string) (m : list (string * V)) : option V :=
  match m with
  | [] => None
  | (k', v) :: r => if k' =? k then Some v else map_get k r
  end.

Fixpoint map_set {V} (k : string) (v : V) (m : list (string * V))
  : list (string * V) :=
  match m with
  | [] => [(k, v)]
  | (k', v') :: r =>
      if k' =? k then (k, v) :: r else (k', v') :: map_set k v r
  end.

(** A handler; its first argument is the identifier that uuid.New()
    returns, should the handler draw one. *)
Definition Handler : Type := string -> Event -> M unit.

Record Consumer : Type := mkConsumer {
  handlers : list (string * list (string * Handler));
  subscriptions : list string
}.

Definition NewConsumer : Consumer := mkConsumer [] [].

Definition RegisterHandler (c : Consumer) (topic eventType : string)
    (handler : Handler) : Consumer :=
  let subscriptions' :=
    if existsb (fun t => t =? topic) (subscriptions c) then subscriptions c
    else subscriptions c ++ [topic] in
  let topicHandlers :=
    match map_get topic (handlers c) with
    | Some hs => hs
    | None => []
    end in
  mkConsumer
    (map_set topic (map_set eventType handler topicHandlers) (handlers c))
    subscriptions'.

Record Header : Type := mkHeader {
  h_Key : string;
  h_Value : string
}.

(** A message; [msg_Value] is what json.Unmarshal makes of its bytes,
    [None] when it fails. *)
Record Message : Type := mkMessage {
  msg_Topic : string;
  msg_Headers : list Header;
  msg_Value : option Event
}.

(** The value of the first header under a key, the empty text if none. *)
Fixpoint header_value (key : string) (hs : list Header) : string :=
  match hs with
  | [] => ""
  | h :: r => if h_Key h =? key then h_Value h else header_value key r
  end.

Inductive ConsumeError : Type :=
| UnmarshalFailed                (* failed to unmarshal event *)
| HandlingFailed (e : error).    (* error handling event: e *)

(** The handler that processMessage selects, if any. *)
Definition select_handler (c : Consumer) (topic eventType : string)
  : option Handler :=
  match map_get topic (handlers c) with
  | None => None
  | Some topicHandlers =>
      match map_get eventType topicHandlers with
      | Some handler => Some handler
      | None => map_get "*" topicHandlers
      end
  end.

Definition processMessage (c : Consumer) (uuid : string) (msg : Message)
  : World -> option ConsumeError * World :=
  fun w =>
    match msg_Value msg with
    | None => (Some UnmarshalFailed, w)
    | Some event =>
        let eventType :=
          let fromHeader := header_value "event-type" (msg_Headers msg) in
          if fromHeader =? "" then e_Type event else fromHeader in
        match select_handler c (msg_Topic msg) eventType with
        | None => (None, w)
        | Some handler =>
            (* startTime := time.Now() *)
            let w1 := snd (with_clock time_Now w) in
            let (err, w2) := handler uuid event w1 in
            (* duration := time.Since(startTime) *)
            let w3 := snd (with_clock time_Now w2) in
            (match err with
             | Err e => Some (HandlingFailed e)
             | Ok _ => None
             end, w3)
        end
    end.

(** The consumer of the user service, as main sets it up. *)
Definition user_service_consumer (authEvents : string) : Consumer :=
  RegisterHandler NewConsumer authEvents "user.created"
    UserService_ProcessAuthUserCreated.

(** publish: the headers of a produced message. *)
Definition publish_headers (eventType id time correlationID : string)
  : list Header :=
  [mkHeader "event-type" eventType; mkHeader "source" "user-service";
   mkHeader "id" id; mkHeader "time" time]
  ++ (if correlationID =? "" then []
      else [mkHeader "correlation-id" correlationID]).

(* ===================================================================== *)
(** ** Further statements about the store *)
(* ===================================================================== *)

(** What an update of the profile leaves alone in a group. *)
Definition organization_core (o : Organization)
  : string * string * Z * list OrganizationMember * list string :=
  (o_ID o, o_CreatedBy o, o_CreatedAt o, o_Members o, o_TeamIDs o).

Definition team_core (t : Team)
  : string * string * string * Z * list TeamMember :=
  (t_ID t, t_OrganizationID t, t_CreatedBy t, t_CreatedAt t, t_Members t).

(** What no call of the facades changes in a stored user. *)
Definition user_identity (u : User)
  : string * string * string * UserRole * Z :=
  (u_ID u, u_UserID u, u_Email u, u_Role u, u_CreatedAt u).

(** The stored users start with the users of identities [L], in order. *)
Definition users_extend (L : list (string * string * string * UserRole * Z))
    (w : World) : Prop :=
  exists l, map user_identity (docs (users w)) = L ++ l.

(** Identifiers and names are unique: no two organizations share an _id
    or a name, no two teams share an _id or a name within one
    organization, no two users share an _id, a userId or an email. *)
Definition team_key (t : Team) : string * string :=
  (t_Name t, t_OrganizationID t).

Definition names_unique (w : World) : Prop :=
  NoDup (map o_ID (docs (organizations w))) /\
  NoDup (map o_Name (docs (organizations w))) /\
  NoDup (map t_ID (docs (teams w))) /\
  NoDup (map team_key (docs (teams w))) /\
  NoDup (map u_ID (docs (users w))) /\
  NoDup (map u_UserID (docs (users w))) /\
  NoDup (map u_Email (docs (users w))).

(** The reference lists hold no identifier twice. *)
Definition references_duplicate_free (w : World) : Prop :=
  Forall (fun o => NoDup (o_TeamIDs o)) (docs (organizations w)) /\
  Forall (fun u => NoDup (u_OrganizationIDs u) /\ NoDup (u_TeamIDs u))
    (docs (users w)).

(** [m] keeps [I]. *)
Definition preserves {A} (I : World -> Prop) (m : M A) : Prop :=
  forall w, I w -> I (snd (m w)).

(** The user stored under a userId. *)
Definition user_of (userId : string) (w : World) : option User :=
  find (user_by_userId userId) (docs (users w)).

(** The _id that a call of the group facade looks up first, if any. *)
Definition target_of (c : Call) : option string :=
  match c with
  | CreateOrganization _ _ _ => None
  | UpdateOrganization id _ _ => Some id
  | DeleteOrganization id _ => Some id
  | AddOrganizationMember orgID _ _ => Some orgID
  | UpdateOrganizationMember orgID _ _ _ => Some orgID
  | RemoveOrganizationMember orgID _ _ => Some orgID
  | CreateTeam _ req _ => Some (ctr_OrganizationID req)
  | UpdateTeam id _ _ => Some id
  | DeleteTeam id _ => Some id
  | AddTeamMember teamID _ _ => Some teamID
  | UpdateTeamMember teamID _ _ _ => Some teamID
  | RemoveTeamMember teamID _ _ => Some teamID
  end.

(** The _id that a call of the user facade looks up first, if any. *)
Definition user_target_of (c : UserCall) : option string :=
  match c with
  | UpdateUser id _ => Some id
  | DeactivateUser id => Some id
  | ActivateUser id => Some id
  | DeleteUser id => Some id
  | CreateUser _ _ => None
  | UpdateUserLastLogin _ => None
  | ProcessAuthUserCreated _ _ => None
  end.

(** A computation that leaves two of the three collections alone. *)
Definition touches_only_organizations {A} (m : M A) : Prop :=
  forall w, teams (snd (m w)) = teams w /\ users (snd (m w)) = users w.

Definition touches_only_teams {A} (m : M A) : Prop :=
  forall w, organizations (snd (m w)) = organizations w /\
            users (snd (m w)) = users w.

Definition touches_only_users {A} (m : M A) : Prop :=
  forall w, organizations (snd (m w)) = organizations w /\
            teams (snd (m w)) = teams w.

(** A computation leaves an observation of the world as it was. *)
Definition leaves {A X} (q : World -> X) (m : M A) : Prop :=
  forall w, q (snd (m w)) = q w.

(** The world with the documents of the users collection and the clock
    replaced. *)
Definition with_users (l : list User) (now : Z) (w : World) : World :=
  mkWorld (organizations w) (teams w) (set_docs l (users w)) now.

(** ** A second small store, its records under ObjectIDs *)

Definition alice_id : string := "64b0000000000000000000a1".
Definition bob_id : string := "64b0000000000000000000a2".

Definition office : World :=
  mkWorld
    (mkColl [acme] [] [])
    (mkColl [crew] [] [])
    (mkColl [person alice_id "alice" "alice@example.org" [acme_id] [crew_id];
             person bob_id "bob" "bob@example.org" [acme_id] [crew_id];
             person "64b0000000000000000000a3" "carol" "carol@example.org"
               [acme_id] [crew_id]]
       [] [])
    100.

(* ===================================================================== *)
(** * Reasoning about computations *)
(* ===================================================================== *)

#[local] Arguments Organization_eq_dec : simpl never.
#[local] Arguments Team_eq_dec : simpl never.
#[local] Arguments User_eq_dec : simpl never.
#[local] Arguments set_o_Members : simpl never.
#[local] Arguments set_o_UpdatedAt : simpl never.
#[local] Arguments set_t_Members : simpl never.
#[local] Arguments set_t_UpdatedAt : simpl never.

(** ** Identifiers *)

Lemma lower_hex_digit_idem c :
  lower_hex_digit (lower_hex_digit c) = lower_hex_digit c.
Proof. destruct c as [[] [] [] [] [] [] [] []]; reflexivity. Qed.

Lemma is_hex_digit_lower c :
  is_hex_digit (lower_hex_digit c) = is_hex_digit c.
Proof. destruct c as [[] [] [] [] [] [] [] []]; reflexivity. Qed.

Lemma ObjectID_Hex_idem s : ObjectID_Hex (ObjectID_Hex s) = ObjectID_Hex s.
Proof.
  induction s as [| c r IH]; simpl; [reflexivity |].
  rewrite lower_hex_digit_idem, IH. reflexivity.
Qed.

Lemma ObjectID_Hex_length s :
  String.length (ObjectID_Hex s) = String.length s.
Proof. induction s as [| c r IH]; simpl; congruence. Qed.

Lemma ObjectIDFromHex_Hex s :
  ObjectIDFromHex (ObjectID_Hex s) = ObjectIDFromHex s.
Proof.
  unfold ObjectIDFromHex. rewrite ObjectID_Hex_length. f_equal.
  induction s as [| c r IH]; simpl; [reflexivity |].
  rewrite is_hex_digit_lower, IH. reflexivity.
Qed.

Lemma org_by_id_found id o : org_by_id id o = true -> o_ID o = ObjectID_Hex id.
Proof. unfold org_by_id. apply String.eqb_eq. Qed.

Lemma team_by_id_found id t :
  team_by_id id t = true -> t_ID t = ObjectID_Hex id.
Proof. unfold team_by_id. apply String.eqb_eq. Qed.

Lemma org_by_id_Hex id : org_by_id (ObjectID_Hex id) = org_by_id id.
Proof. unfold org_by_id. rewrite ObjectID_Hex_idem. reflexivity. Qed.

Lemma team_by_id_Hex id : team_by_id (ObjectID_Hex id) = team_by_id id.
Proof. unfold team_by_id. rewrite ObjectID_Hex_idem. reflexivity. Qed.

Lemma user_by_id_Hex id : user_by_id (ObjectID_Hex id) = user_by_id id.
Proof. unfold user_by_id. rewrite ObjectID_Hex_idem. reflexivity. Qed.

Lemma org_by_id_own id o : org_by_id id o = true -> org_by_id (o_ID o) = org_by_id id.
Proof.
  intros H. apply org_by_id_found in H. unfold org_by_id.
  rewrite H, ObjectID_Hex_idem. reflexivity.
Qed.

Lemma team_by_id_own id t :
  team_by_id id t = true -> team_by_id (t_ID t) = team_by_id id.
Proof.
  intros H. apply team_by_id_found in H. unfold team_by_id.
  rewrite H, ObjectID_Hex_idem. reflexivity.
Qed.

Lemma bind_eq {A B} (m : M A) (k : A -> M B) (w : World) :
  bind m k w =
  match fst (m w) with
  | Ok a => k a (snd (m w))
  | Err e => (Err e, snd (m w))
  end.
Proof. unfold bind. destruct (m w) as [[a | e] w']; reflexivity. Qed.

Lemma found_or_fst {A} msg (m : M A) w :
  fst (found_or msg m w) =
  match fst (m w) with
  | Err ErrNoDocuments => Err (ErrNew msg)
  | other => other
  end.
Proof.
  unfold found_or. destruct (m w) as [[a | e] w']; try reflexivity.
  destruct e; reflexivity.
Qed.

Lemma found_or_snd {A} msg (m : M A) w :
  snd (found_or msg m w) = snd (m w).
Proof.
  unfold found_or. destruct (m w) as [[a | e] w']; try reflexivity.
  destruct e; reflexivity.
Qed.

Lemma lookup_fst {A} (m : M A) w :
  fst (lookup m w) =
  match fst (m w) with
  | Ok a => Ok (Some a)
  | Err ErrNoDocuments => Ok None
  | Err e => Err e
  end.
Proof.
  unfold lookup. destruct (m w) as [[a | e] w']; try reflexivity.
  destruct e; reflexivity.
Qed.

Lemma lookup_snd {A} (m : M A) w : snd (lookup m w) = snd (m w).
Proof.
  unfold lookup. destruct (m w) as [[a | e] w']; try reflexivity.
  destruct e; reflexivity.
Qed.

Lemma reads_only_atomic {A} (m : M A) : reads_only m -> atomic m.
Proof. intros H w e _. apply H. Qed.

Lemma atomic_safe {A} (m : M A) : atomic m -> safe m.
Proof. intros H w e He _. eapply H; eauto. Qed.

Lemma reads_only_safe {A} (m : M A) : reads_only m -> safe m.
Proof. intros H. apply atomic_safe, reads_only_atomic, H. Qed.

Lemma total_unrejecting {A} (m : M A) : total m -> unrejecting m.
Proof. intros H w e He. specialize (H w). rewrite He in H. discriminate. Qed.

Lemma total_atomic {A} (m : M A) : total m -> atomic m.
Proof. intros H w e He. specialize (H w). rewrite He in H. discriminate. Qed.

Lemma unrejecting_safe {A} (m : M A) : unrejecting m -> safe m.
Proof.
  intros H w e He Hr. rewrite (H w e He) in Hr. discriminate.
Qed.

Lemma reads_only_ret {A} (a : A) : reads_only (ret a).
Proof. intros w. reflexivity. Qed.

Lemma reads_only_fail {A} (e : error) : reads_only (@fail A e).
Proof. intros w. reflexivity. Qed.

Lemma total_ret {A} (a : A) : total (ret a).
Proof. intros w. reflexivity. Qed.

Lemma total_logged {A} (m : M A) : total (logged m).
Proof. intros w. reflexivity. Qed.

Lemma reads_only_bind {A B} (m : M A) (k : A -> M B) :
  reads_only m -> (forall a, reads_only (k a)) -> reads_only (bind m k).
Proof.
  intros Hm Hk w. rewrite bind_eq.
  destruct (fst (m w)) as [a | e]; simpl.
  - rewrite Hk. apply Hm.
  - apply Hm.
Qed.

Lemma atomic_bind_read {A B} (m : M A) (k : A -> M B) :
  reads_only m -> (forall a, atomic (k a)) -> atomic (bind m k).
Proof.
  intros Hm Hk w e. rewrite bind_eq.
  destruct (fst (m w)) as [a | e0]; simpl; intros He.
  - rewrite (Hk a _ _ He). apply Hm.
  - apply Hm.
Qed.

Lemma atomic_bind_total {A B} (m : M A) (k : A -> M B) :
  atomic m -> (forall a, total (k a)) -> atomic (bind m k).
Proof.
  intros Hm Hk w e. rewrite bind_eq.
  destruct (fst (m w)) as [a | e0] eqn:E; simpl; intros He.
  - specialize (Hk a (snd (m w))). rewrite He in Hk. discriminate.
  - eapply Hm; eauto.
Qed.

Lemma safe_bind_read {A B} (m : M A) (k : A -> M B) :
  reads_only m -> (forall a, safe (k a)) -> safe (bind m k).
Proof.
  intros Hm Hk w e. rewrite bind_eq.
  destruct (fst (m w)) as [a | e0]; simpl; intros He Hr.
  - rewrite (Hk a _ _ He Hr). apply Hm.
  - apply Hm.
Qed.

Lemma safe_bind_unrejecting {A B} (m : M A) (k : A -> M B) :
  safe m -> (forall a, unrejecting (k a)) -> safe (bind m k).
Proof.
  intros Hm Hk w e. rewrite bind_eq.
  destruct (fst (m w)) as [a | e0] eqn:E; simpl; intros He Hr.
  - rewrite (Hk a _ _ He) in Hr. discriminate.
  - inversion He; subst. eapply Hm; eauto.
Qed.

Lemma total_bind {A B} (m : M A) (k : A -> M B) :
  total m -> (forall a, total (k a)) -> total (bind m k).
Proof.
  intros Hm Hk w. rewrite bind_eq. specialize (Hm w).
  destruct (fst (m w)) as [a | e]; simpl; [apply Hk | discriminate].
Qed.

Lemma unrejecting_bind {A B} (m : M A) (k : A -> M B) :
  unrejecting m -> (forall a, unrejecting (k a)) -> unrejecting (bind m k).
Proof.
  intros Hm Hk w e. rewrite bind_eq.
  destruct (fst (m w)) as [a | e0] eqn:E; simpl; intros He.
  - eapply Hk; eauto.
  - inversion He; subst. eapply Hm; eauto.
Qed.

Lemma reads_only_found_or {A} msg (m : M A) :
  reads_only m -> reads_only (found_or msg m).
Proof. intros H w. rewrite found_or_snd. apply H. Qed.

Lemma reads_only_lookup {A} (m : M A) : reads_only m -> reads_only (lookup m).
Proof. intros H w. rewrite lookup_snd. apply H. Qed.

Lemma reads_only_with_clock {A} (m : Clock A) : reads_only (with_clock m).
Proof.
  intros w. unfold with_clock. destruct (m (clock w)). reflexivity.
Qed.

Lemma total_with_clock {A} (m : Clock A) : total (with_clock m).
Proof.
  intros w. unfold with_clock. destruct (m (clock w)). reflexivity.
Qed.

Lemma total_for_each_logged {A B} (xs : list A) (step : A -> M B) :
  total (for_each_logged xs step).
Proof.
  induction xs as [| x r IH]; simpl.
  - apply total_ret.
  - apply total_bind; [apply total_logged | intros _; exact IH].
Qed.

(** ** The driver *)

Section DriverFacts.
Context {A : Type}.
Variable A_eq_dec : forall x y : A, {x = y} + {x <> y}.

Lemma use_read_docs (c : Coll A) : docs (snd (use_read c)) = docs c.
Proof. unfold use_read. destruct (next_fault (read_faults c)). reflexivity. Qed.

Lemma use_write_docs (c : Coll A) : docs (snd (use_write c)) = docs c.
Proof. unfold use_write. destruct (next_fault (write_faults c)). reflexivity. Qed.

Lemma FindOne_docs f (c : Coll A) : docs (snd (FindOne f c)) = docs c.
Proof.
  unfold FindOne. pose proof (use_read_docs c) as H.
  destruct (use_read c) as [[|] c']; simpl in *; auto.
  destruct (find f (docs c')); simpl; auto.
Qed.

Lemma FindOne_found f (c : Coll A) d :
  fst (FindOne f c) = Ok d -> find f (docs c) = Some d.
Proof.
  unfold FindOne. pose proof (use_read_docs c) as H.
  destruct (use_read c) as [[|] c']; simpl in *; try discriminate.
  rewrite H. destruct (find f (docs c)); simpl; congruence.
Qed.

Lemma FindOne_missing f (c : Coll A) :
  fst (FindOne f c) = Err ErrNoDocuments -> find f (docs c) = None.
Proof.
  unfold FindOne. pose proof (use_read_docs c) as H.
  destruct (use_read c) as [[|] c']; simpl in *; try discriminate.
  rewrite H. destruct (find f (docs c)); simpl; congruence.
Qed.

Lemma FindOne_errors f (c : Coll A) e :
  fst (FindOne f c) = Err e -> e = ErrNoDocuments \/ e = ErrStore.
Proof.
  unfold FindOne.
  destruct (use_read c) as [[|] c']; simpl; [intros H; inversion H; auto |].
  destruct (find f (docs c')); simpl; intros H; inversion H; auto.
Qed.

Lemma CountDocuments_docs f (c : Coll A) :
  docs (snd (CountDocuments f c)) = docs c.
Proof.
  unfold CountDocuments. pose proof (use_read_docs c) as H.
  destruct (use_read c) as [[|] c']; simpl in *; auto.
Qed.

Lemma CountDocuments_count f (c : Coll A) n :
  fst (CountDocuments f c) = Ok n -> n = length (List.filter f (docs c)).
Proof.
  unfold CountDocuments. pose proof (use_read_docs c) as H.
  destruct (use_read c) as [[|] c']; simpl in *; try discriminate.
  rewrite H. congruence.
Qed.

Lemma CountDocuments_errors f (c : Coll A) e :
  fst (CountDocuments f c) = Err e -> e = ErrStore.
Proof.
  unfold CountDocuments.
  destruct (use_read c) as [[|] c']; simpl; intros H; inversion H; auto.
Qed.

Lemma UpdateOne_errors f upd (c : Coll A) e :
  fst (UpdateOne A_eq_dec f upd c) = Err e ->
  e = ErrStore /\ docs (snd (UpdateOne A_eq_dec f upd c)) = docs c.
Proof.
  unfold UpdateOne. pose proof (use_write_docs c) as H.
  destruct (use_write c) as [[|] c']; simpl in *.
  - intros E; inversion E; auto.
  - destruct (find f (docs c')); simpl; discriminate.
Qed.

Lemma UpdateOne_docs f upd (c : Coll A) :
  docs (snd (UpdateOne A_eq_dec f upd c)) = docs c \/
  docs (snd (UpdateOne A_eq_dec f upd c)) = update_first f upd (docs c).
Proof.
  unfold UpdateOne. pose proof (use_write_docs c) as H.
  destruct (use_write c) as [[|] c']; simpl in *; auto.
  destruct (find f (docs c')); simpl; auto.
  right. congruence.
Qed.

Lemma DeleteOne_errors f (c : Coll A) e :
  fst (DeleteOne f c) = Err e ->
  e = ErrStore /\ docs (snd (DeleteOne f c)) = docs c.
Proof.
  unfold DeleteOne. pose proof (use_write_docs c) as H.
  destruct (use_write c) as [[|] c']; simpl in *.
  - intros E; inversion E; auto.
  - discriminate.
Qed.

Lemma DeleteOne_docs f (c : Coll A) :
  docs (snd (DeleteOne f c)) = docs c \/
  docs (snd (DeleteOne f c)) = delete_first f (docs c).
Proof.
  unfold DeleteOne. pose proof (use_write_docs c) as H.
  destruct (use_write c) as [[|] c']; simpl in *; auto.
  right. congruence.
Qed.

Lemma InsertOne_errors key d (c : Coll A) e :
  fst (InsertOne key d c) = Err e ->
  is_rejection e = false /\ docs (snd (InsertOne key d c)) = docs c.
Proof.
  unfold InsertOne. pose proof (use_write_docs c) as H.
  destruct (use_write c) as [[|] c']; simpl in *.
  - intros E; inversion E; auto.
  - destruct (existsb _ (docs c')); simpl; [| discriminate].
    intros E; inversion E; auto.
Qed.

Lemma InsertOne_docs key d (c : Coll A) :
  docs (snd (InsertOne key d c)) = docs c \/
  docs (snd (InsertOne key d c)) = docs c ++ [d].
Proof.
  unfold InsertOne. pose proof (use_write_docs c) as H.
  destruct (use_write c) as [[|] c']; simpl in *; auto.
  destruct (existsb _ (docs c')); simpl; auto.
  right. congruence.
Qed.
End DriverFacts.

(** ** Lifting to the world *)

Lemma on_organizations_fst {A} (f : Coll Organization -> result A * _) w :
  fst (on_organizations f w) = fst (f (organizations w)).
Proof. unfold on_organizations. destruct (f (organizations w)). reflexivity. Qed.

Lemma on_organizations_snd {A} (f : Coll Organization -> result A * _) w :
  snd (on_organizations f w) =
  mkWorld (snd (f (organizations w))) (teams w) (users w) (clock w).
Proof. unfold on_organizations. destruct (f (organizations w)). reflexivity. Qed.

Lemma on_teams_fst {A} (f : Coll Team -> result A * _) w :
  fst (on_teams f w) = fst (f (teams w)).
Proof. unfold on_teams. destruct (f (teams w)). reflexivity. Qed.

Lemma on_teams_snd {A} (f : Coll Team -> result A * _) w :
  snd (on_teams f w) =
  mkWorld (organizations w) (snd (f (teams w))) (users w) (clock w).
Proof. unfold on_teams. destruct (f (teams w)). reflexivity. Qed.

Lemma on_users_fst {A} (f : Coll User -> result A * _) w :
  fst (on_users f w) = fst (f (users w)).
Proof. unfold on_users. destruct (f (users w)). reflexivity. Qed.

Lemma on_users_snd {A} (f : Coll User -> result A * _) w :
  snd (on_users f w) =
  mkWorld (organizations w) (teams w) (snd (f (users w))) (clock w).
Proof. unfold on_users. destruct (f (users w)). reflexivity. Qed.

Lemma reads_only_on_organizations {A} (f : Coll Organization -> result A * _) :
  (forall c, docs (snd (f c)) = docs c) -> reads_only (on_organizations f).
Proof.
  intros H w. rewrite on_organizations_snd. unfold store; simpl.
  rewrite H. reflexivity.
Qed.

Lemma reads_only_on_teams {A} (f : Coll Team -> result A * _) :
  (forall c, docs (snd (f c)) = docs c) -> reads_only (on_teams f).
Proof.
  intros H w. rewrite on_teams_snd. unfold store; simpl.
  rewrite H. reflexivity.
Qed.

Lemma reads_only_on_users {A} (f : Coll User -> result A * _) :
  (forall c, docs (snd (f c)) = docs c) -> reads_only (on_users f).
Proof.
  intros H w. rewrite on_users_snd. unfold store; simpl.
  rewrite H. reflexivity.
Qed.

Lemma atomic_on_organizations {A} (f : Coll Organization -> result A * _) :
  (forall c e, fst (f c) = Err e -> docs (snd (f c)) = docs c) ->
  atomic (on_organizations f).
Proof.
  intros H w e. rewrite on_organizations_fst, on_organizations_snd.
  intros He. unfold store; simpl. rewrite (H _ _ He). reflexivity.
Qed.

Lemma atomic_on_teams {A} (f : Coll Team -> result A * _) :
  (forall c e, fst (f c) = Err e -> docs (snd (f c)) = docs c) ->
  atomic (on_teams f).
Proof.
  intros H w e. rewrite on_teams_fst, on_teams_snd.
  intros He. unfold store; simpl. rewrite (H _ _ He). reflexivity.
Qed.

Lemma atomic_on_users {A} (f : Coll User -> result A * _) :
  (forall c e, fst (f c) = Err e -> docs (snd (f c)) = docs c) ->
  atomic (on_users f).
Proof.
  intros H w e. rewrite on_users_fst, on_users_snd.
  intros He. unfold store; simpl. rewrite (H _ _ He). reflexivity.
Qed.

Lemma update_first_fixed {A} (f : A -> bool) (upd : A -> A) (l : list A) d :
  find f l = Some d -> upd d = d -> update_first f upd l = l.
Proof.
  induction l as [| x r IH]; simpl; [discriminate |].
  destruct (f x).
  - intros E H. inversion E; subst. rewrite H. reflexivity.
  - intros E H. rewrite IH; auto.
Qed.

Lemma UpdateOne_unmodified {A} (dec : forall x y : A, {x = y} + {x <> y})
    f upd (c : Coll A) r :
  fst (UpdateOne dec f upd c) = Ok r -> ModifiedCount r = 0%nat ->
  docs (snd (UpdateOne dec f upd c)) = docs c.
Proof.
  unfold UpdateOne. pose proof (use_write_docs c) as H.
  destruct (use_write c) as [[|] c']; simpl in *; try discriminate.
  destruct (find f (docs c')) as [d |] eqn:E; simpl; auto.
  intros R; inversion R; subst; simpl.
  destruct (dec (upd d) d) as [Heq | ]; [| discriminate].
  intros _. rewrite (update_first_fixed _ _ _ _ E Heq). exact H.
Qed.

(** ** A hint base for the four properties *)

Create HintDb go discriminated.

#[local] Hint Resolve reads_only_ret reads_only_fail total_ret total_logged
  reads_only_found_or reads_only_lookup reads_only_with_clock
  total_with_clock total_for_each_logged : go.
#[local] Hint Resolve reads_only_bind total_bind unrejecting_bind : go.
#[local] Hint Resolve atomic_bind_read atomic_bind_total
  safe_bind_read safe_bind_unrejecting : go.
#[local] Hint Resolve reads_only_atomic atomic_safe total_unrejecting | 5 : go.

#[local] Hint Extern 1 (reads_only (if ?b then _ else _)) => destruct b : go.
#[local] Hint Extern 1 (atomic (if ?b then _ else _)) => destruct b : go.
#[local] Hint Extern 1 (safe (if ?b then _ else _)) => destruct b : go.
#[local] Hint Extern 1 (total (if ?b then _ else _)) => destruct b : go.
#[local] Hint Extern 1 (unrejecting (if ?b then _ else _)) => destruct b : go.
#[local] Hint Extern 1 (reads_only (match ?x with _ => _ end)) => destruct x : go.
#[local] Hint Extern 1 (atomic (match ?x with _ => _ end)) => destruct x : go.
#[local] Hint Extern 1 (safe (match ?x with _ => _ end)) => destruct x : go.

Lemma unrejecting_fail {A} e : is_rejection e = false -> unrejecting (@fail A e).
Proof. intros H w e' E. inversion E; subst. exact H. Qed.

(** ** Repositories: what they write and how they fail *)

Lemma reads_only_OrganizationRepository_GetByID id :
  reads_only (OrganizationRepository_GetByID id).
Proof.
  unfold OrganizationRepository_GetByID.
  destruct (negb (ObjectIDFromHex id)); auto with go.
  apply reads_only_on_organizations, FindOne_docs.
Qed.

Lemma reads_only_OrganizationRepository_GetByName name :
  reads_only (OrganizationRepository_GetByName name).
Proof. apply reads_only_on_organizations, FindOne_docs. Qed.

Lemma reads_only_TeamRepository_GetByID id :
  reads_only (TeamRepository_GetByID id).
Proof.
  unfold TeamRepository_GetByID.
  destruct (negb (ObjectIDFromHex id)); auto with go.
  apply reads_only_on_teams, FindOne_docs.
Qed.

Lemma reads_only_TeamRepository_GetByNameAndOrganization name o :
  reads_only (TeamRepository_GetByNameAndOrganization name o).
Proof. apply reads_only_on_teams, FindOne_docs. Qed.

Lemma reads_only_UserRepository_GetByUserId userId :
  reads_only (UserRepository_GetByUserId userId).
Proof. apply reads_only_on_users, FindOne_docs. Qed.

Lemma reads_only_UserRepository_GetByEmail email :
  reads_only (UserRepository_GetByEmail email).
Proof. apply reads_only_on_users, FindOne_docs. Qed.

#[local] Hint Resolve reads_only_OrganizationRepository_GetByID
  reads_only_OrganizationRepository_GetByName
  reads_only_TeamRepository_GetByID
  reads_only_TeamRepository_GetByNameAndOrganization
  reads_only_UserRepository_GetByUserId
  reads_only_UserRepository_GetByEmail : go.

Lemma atomic_org_UpdateOne f upd :
  atomic (on_organizations (UpdateOne Organization_eq_dec f upd)).
Proof.
  apply atomic_on_organizations. intros c e H.
  apply (UpdateOne_errors _ _ _ _ _ H).
Qed.

Lemma atomic_team_UpdateOne f upd :
  atomic (on_teams (UpdateOne Team_eq_dec f upd)).
Proof.
  apply atomic_on_teams. intros c e H.
  apply (UpdateOne_errors _ _ _ _ _ H).
Qed.

Lemma atomic_org_InsertOne k d : atomic (on_organizations (InsertOne k d)).
Proof.
  apply atomic_on_organizations. intros c e H.
  apply (InsertOne_errors _ _ _ _ H).
Qed.

Lemma atomic_team_InsertOne k d : atomic (on_teams (InsertOne k d)).
Proof.
  apply atomic_on_teams. intros c e H. apply (InsertOne_errors _ _ _ _ H).
Qed.

Lemma atomic_user_InsertOne k d : atomic (on_users (InsertOne k d)).
Proof.
  apply atomic_on_users. intros c e H. apply (InsertOne_errors _ _ _ _ H).
Qed.

Lemma reads_only_org_CountDocuments f :
  reads_only (on_organizations (CountDocuments f)).
Proof. apply reads_only_on_organizations, CountDocuments_docs. Qed.

Lemma reads_only_team_CountDocuments f :
  reads_only (on_teams (CountDocuments f)).
Proof. apply reads_only_on_teams, CountDocuments_docs. Qed.

#[local] Hint Resolve atomic_org_UpdateOne atomic_team_UpdateOne
  atomic_org_InsertOne atomic_team_InsertOne atomic_user_InsertOne
  reads_only_org_CountDocuments reads_only_team_CountDocuments : go.

Lemma atomic_OrganizationRepository_Create org :
  atomic (OrganizationRepository_Create org).
Proof. unfold OrganizationRepository_Create. eauto 10 with go. Qed.

Lemma atomic_OrganizationRepository_Update org :
  atomic (OrganizationRepository_Update org).
Proof. unfold OrganizationRepository_Update. eauto 12 with go. Qed.

Lemma atomic_OrganizationRepository_AddMember orgID userID role invitedBy :
  atomic (OrganizationRepository_AddMember orgID userID role invitedBy).
Proof. unfold OrganizationRepository_AddMember. eauto 12 with go. Qed.

Lemma atomic_TeamRepository_Create team : atomic (TeamRepository_Create team).
Proof. unfold TeamRepository_Create. eauto 10 with go. Qed.

Lemma atomic_TeamRepository_Update team : atomic (TeamRepository_Update team).
Proof. unfold TeamRepository_Update. eauto 12 with go. Qed.

Lemma atomic_TeamRepository_AddMember teamID userID role invitedBy :
  atomic (TeamRepository_AddMember teamID userID role invitedBy).
Proof. unfold TeamRepository_AddMember. eauto 12 with go. Qed.

Lemma atomic_UserRepository_Create user : atomic (UserRepository_Create user).
Proof. unfold UserRepository_Create. eauto 12 with go. Qed.

Lemma atomic_pull_update (m : M UpdateResult) msg :
  atomic m ->
  (forall w r, fst (m w) = Ok r -> ModifiedCount r = 0%nat ->
               store (snd (m w)) = store w) ->
  atomic (res <- m ;;
          if (ModifiedCount res =? 0)%nat then fail (ErrNew msg) else ret tt).
Proof.
  intros Hm Hz w e. rewrite bind_eq.
  destruct (fst (m w)) as [r | e0] eqn:E; simpl.
  - destruct (ModifiedCount r =? 0)%nat eqn:Z; simpl; [| discriminate].
    intros _. apply Nat.eqb_eq in Z. eapply Hz; eauto.
  - intros _. eapply Hm; eauto.
Qed.

Lemma atomic_OrganizationRepository_RemoveMember orgID userID :
  atomic (OrganizationRepository_RemoveMember orgID userID).
Proof.
  unfold OrganizationRepository_RemoveMember.
  destruct (negb (ObjectIDFromHex orgID)); auto with go.
  apply atomic_bind_read; auto with go. intros now.
  apply atomic_pull_update; auto with go.
  intros w r. rewrite on_organizations_fst, on_organizations_snd.
  intros H Z. unfold store; simpl.
  rewrite (UpdateOne_unmodified _ _ _ _ _ H Z). reflexivity.
Qed.

Lemma atomic_OrganizationRepository_RemoveTeam orgID teamID :
  atomic (OrganizationRepository_RemoveTeam orgID teamID).
Proof.
  unfold OrganizationRepository_RemoveTeam.
  destruct (negb (ObjectIDFromHex orgID)); auto with go.
  apply atomic_bind_read; auto with go. intros now.
  apply atomic_pull_update; auto with go.
  intros w r. rewrite on_organizations_fst, on_organizations_snd.
  intros H Z. unfold store; simpl.
  rewrite (UpdateOne_unmodified _ _ _ _ _ H Z). reflexivity.
Qed.

Lemma atomic_TeamRepository_RemoveMember teamID userID :
  atomic (TeamRepository_RemoveMember teamID userID).
Proof.
  unfold TeamRepository_RemoveMember.
  destruct (negb (ObjectIDFromHex teamID)); auto with go.
  apply atomic_bind_read; auto with go. intros now.
  apply atomic_pull_update; auto with go.
  intros w r. rewrite on_teams_fst, on_teams_snd.
  intros H Z. unfold store; simpl.
  rewrite (UpdateOne_unmodified _ _ _ _ _ H Z). reflexivity.
Qed.

Lemma atomic_OrganizationRepository_Delete id :
  atomic (OrganizationRepository_Delete id).
Proof.
  unfold OrganizationRepository_Delete.
  destruct (negb (ObjectIDFromHex id)); auto with go.
  apply atomic_on_organizations. intros c e H. apply (DeleteOne_errors _ _ _ H).
Qed.

Lemma unrejecting_OrganizationRepository_Delete id :
  unrejecting (OrganizationRepository_Delete id).
Proof.
  unfold OrganizationRepository_Delete.
  destruct (negb (ObjectIDFromHex id)).
  - apply unrejecting_fail. reflexivity.
  - intros w e. rewrite on_organizations_fst. intros H.
    destruct (DeleteOne_errors _ _ _ H) as [-> _]. reflexivity.
Qed.

Lemma atomic_TeamRepository_Delete id : atomic (TeamRepository_Delete id).
Proof.
  unfold TeamRepository_Delete.
  destruct (negb (ObjectIDFromHex id)); auto with go.
  apply atomic_on_teams. intros c e H. apply (DeleteOne_errors _ _ _ H).
Qed.

#[local] Hint Resolve atomic_OrganizationRepository_Create
  atomic_OrganizationRepository_Update atomic_OrganizationRepository_AddMember
  atomic_OrganizationRepository_RemoveMember
  atomic_OrganizationRepository_Delete unrejecting_OrganizationRepository_Delete
  atomic_TeamRepository_Create atomic_TeamRepository_Update
  atomic_TeamRepository_AddMember atomic_TeamRepository_RemoveMember
  atomic_TeamRepository_Delete atomic_UserRepository_Create : go.

(** ** The facade: every error but a failed deletion is atomic *)

Lemma atomic_CreateOrganization uuid req createdBy :
  atomic (OrganizationService_CreateOrganization uuid req createdBy).
Proof. unfold OrganizationService_CreateOrganization. eauto 12 with go. Qed.

Lemma atomic_UpdateOrganization id req userID :
  atomic (OrganizationService_UpdateOrganization id req userID).
Proof. unfold OrganizationService_UpdateOrganization. eauto 12 with go. Qed.

Lemma safe_DeleteOrganization id userID :
  safe (OrganizationService_DeleteOrganization id userID).
Proof.
  unfold OrganizationService_DeleteOrganization.
  apply safe_bind_read; auto with go. intros org.
  destruct (negb _); auto with go.
  apply safe_bind_unrejecting.
  - apply atomic_safe, total_atomic. auto with go.
  - intros _. apply unrejecting_bind; auto with go.
Qed.

Lemma atomic_AddOrganizationMember orgID req invitedBy :
  atomic (OrganizationService_AddOrganizationMember orgID req invitedBy).
Proof. unfold OrganizationService_AddOrganizationMember. eauto 15 with go. Qed.

Lemma atomic_UpdateOrganizationMember orgID memberID req updatedBy :
  atomic (OrganizationService_UpdateOrganizationMember orgID memberID req
            updatedBy).
Proof. unfold OrganizationService_UpdateOrganizationMember. cbv zeta. eauto 25 with go. Qed.

Lemma atomic_RemoveOrganizationMember orgID memberID removedBy :
  atomic (OrganizationService_RemoveOrganizationMember orgID memberID removedBy).
Proof. unfold OrganizationService_RemoveOrganizationMember. cbv zeta. eauto 25 with go. Qed.

Lemma atomic_CreateTeam uuid req createdBy :
  atomic (TeamService_CreateTeam uuid req createdBy).
Proof. unfold TeamService_CreateTeam. eauto 15 with go. Qed.

Lemma atomic_UpdateTeam id req userID :
  atomic (TeamService_UpdateTeam id req userID).
Proof. unfold TeamService_UpdateTeam. eauto 12 with go. Qed.

Lemma atomic_DeleteTeam id userID : atomic (TeamService_DeleteTeam id userID).
Proof. unfold TeamService_DeleteTeam. eauto 15 with go. Qed.

Lemma atomic_AddTeamMember teamID req invitedBy :
  atomic (TeamService_AddTeamMember teamID req invitedBy).
Proof. unfold TeamService_AddTeamMember. eauto 20 with go. Qed.

Lemma atomic_UpdateTeamMember teamID memberID req updatedBy :
  atomic (TeamService_UpdateTeamMember teamID memberID req updatedBy).
Proof. unfold TeamService_UpdateTeamMember. cbv zeta. eauto 25 with go. Qed.

Lemma atomic_RemoveTeamMember teamID memberID removedBy :
  atomic (TeamService_RemoveTeamMember teamID memberID removedBy).
Proof. unfold TeamService_RemoveTeamMember. cbv zeta. eauto 25 with go. Qed.

Lemma safe_exec c : safe (exec c).
Proof.
  destruct c; simpl;
    auto using atomic_safe, safe_DeleteOrganization,
      atomic_AddOrganizationMember, atomic_UpdateOrganizationMember,
      atomic_RemoveOrganizationMember, atomic_DeleteTeam,
      atomic_AddTeamMember, atomic_UpdateTeamMember, atomic_RemoveTeamMember.
  - apply atomic_safe, atomic_bind_total;
      auto using atomic_CreateOrganization, total_ret.
  - apply atomic_safe, atomic_bind_total;
      auto using atomic_UpdateOrganization, total_ret.
  - apply atomic_safe, atomic_bind_total;
      auto using atomic_CreateTeam, total_ret.
  - apply atomic_safe, atomic_bind_total;
      auto using atomic_UpdateTeam, total_ret.
Qed.

(* ===================================================================== *)
(** * Failures of the writes to the users collection *)
(* ===================================================================== *)

Lemma sim_bind {A B} (Ra Rb Rc : World -> World -> Prop)
    (m : M A) (k : A -> M B) :
  sim Ra Rb m -> (forall w1 w2, Rb w1 w2 -> Rc w1 w2) ->
  (forall a, sim Rb Rc (k a)) -> sim Ra Rc (bind m k).
Proof.
  intros Hm Hsub Hk w1 w2 R. rewrite !bind_eq.
  destruct (Hm w1 w2 R) as [E R']. rewrite E.
  destruct (fst (m w2)) as [a | e]; simpl.
  - apply Hk, R'.
  - split; auto.
Qed.

Lemma sim_weaken {A} (Ra Rb Rc : World -> World -> Prop) (m : M A) :
  sim Ra Rb m -> (forall w1 w2, Rb w1 w2 -> Rc w1 w2) -> sim Ra Rc m.
Proof. intros H Hsub w1 w2 R. destruct (H w1 w2 R). auto. Qed.

Lemma sim_ret {A} R (a : A) : sim R R (ret a).
Proof. intros w1 w2 H. auto. Qed.

Lemma sim_fail {A} R e : sim R R (@fail A e).
Proof. intros w1 w2 H. auto. Qed.

Lemma sim_logged {A} R (m : M A) : drifts R m -> sim R R (logged m).
Proof. intros H w1 w2 HR. split; [reflexivity | apply H, HR]. Qed.

Lemma sim_found_or {A} Ra Rb msg (m : M A) :
  sim Ra Rb m -> sim Ra Rb (found_or msg m).
Proof.
  intros H w1 w2 R. rewrite !found_or_fst, !found_or_snd.
  destruct (H w1 w2 R) as [E R']. rewrite E. auto.
Qed.

Lemma sim_lookup {A} Ra Rb (m : M A) : sim Ra Rb m -> sim Ra Rb (lookup m).
Proof.
  intros H w1 w2 R. rewrite !lookup_fst, !lookup_snd.
  destruct (H w1 w2 R) as [E R']. rewrite E. auto.
Qed.

Lemma sim_drifts {A} R (m : M A) : sim R R m -> drifts R m.
Proof. intros H w1 w2 HR. apply H, HR. Qed.

Lemma sim_for_each_logged {A B} R (xs : list A) (step : A -> M B) :
  (forall x, drifts R (step x)) -> sim R R (for_each_logged xs step).
Proof.
  intros H. induction xs as [| x r IH]; simpl.
  - apply sim_ret.
  - eapply sim_bind; [apply sim_logged, H | auto | intros _; exact IH].
Qed.

Lemma pre_post w1 w2 :
  same_but_user_write_faults w1 w2 -> same_but_user_writes w1 w2.
Proof. unfold same_but_user_write_faults, same_but_user_writes. tauto. Qed.

(** Steps before the first write to the users collection ([pre]), steps
    after it ([post]) and a computation that contains it ([cross]). *)
Abbreviation pre := (sim same_but_user_write_faults same_but_user_write_faults).
Abbreviation post := (sim same_but_user_writes same_but_user_writes).
Abbreviation cross := (sim same_but_user_write_faults same_but_user_writes).

Lemma pre_cross {A} (m : M A) : pre m -> cross m.
Proof. intros H. eapply sim_weaken; [exact H | exact pre_post]. Qed.

Lemma pre_bind {A B} (m : M A) (k : A -> M B) :
  pre m -> (forall a, pre (k a)) -> pre (bind m k).
Proof. intros. eapply sim_bind; eauto. Qed.

Lemma post_bind {A B} (m : M A) (k : A -> M B) :
  post m -> (forall a, post (k a)) -> post (bind m k).
Proof. intros. eapply sim_bind; eauto. Qed.

Lemma cross_bind_pre {A B} (m : M A) (k : A -> M B) :
  pre m -> (forall a, cross (k a)) -> cross (bind m k).
Proof. intros. eapply sim_bind; eauto using pre_post. Qed.

Lemma cross_bind_post {A B} (m : M A) (k : A -> M B) :
  cross m -> (forall a, post (k a)) -> cross (bind m k).
Proof. intros. eapply sim_bind; eauto. Qed.

Lemma cross_logged {A} (m : M A) :
  drifts same_but_user_writes m -> cross (logged m).
Proof.
  intros H w1 w2 R. split; [reflexivity |]. apply H, pre_post, R.
Qed.

Lemma pre_on_organizations {A} (f : Coll Organization -> result A * _) :
  pre (on_organizations f).
Proof.
  intros w1 w2 (Ho & Ht & Hc & Hr & Hd).
  rewrite !on_organizations_fst, !on_organizations_snd, Ho.
  split; [reflexivity |]. repeat split; simpl; auto.
Qed.

Lemma post_on_organizations {A} (f : Coll Organization -> result A * _) :
  post (on_organizations f).
Proof.
  intros w1 w2 (Ho & Ht & Hc & Hr).
  rewrite !on_organizations_fst, !on_organizations_snd, Ho.
  split; [reflexivity |]. repeat split; simpl; auto.
Qed.

Lemma pre_on_teams {A} (f : Coll Team -> result A * _) : pre (on_teams f).
Proof.
  intros w1 w2 (Ho & Ht & Hc & Hr & Hd).
  rewrite !on_teams_fst, !on_teams_snd, Ht.
  split; [reflexivity |]. repeat split; simpl; auto.
Qed.

Lemma post_on_teams {A} (f : Coll Team -> result A * _) : post (on_teams f).
Proof.
  intros w1 w2 (Ho & Ht & Hc & Hr).
  rewrite !on_teams_fst, !on_teams_snd, Ht.
  split; [reflexivity |]. repeat split; simpl; auto.
Qed.

Lemma pre_with_clock {A} (m : Clock A) : pre (with_clock m).
Proof.
  intros w1 w2 (Ho & Ht & Hc & Hr & Hd). unfold with_clock. rewrite Hc.
  destruct (m (clock w2)); simpl. repeat split; auto.
Qed.

Lemma post_with_clock {A} (m : Clock A) : post (with_clock m).
Proof.
  intros w1 w2 (Ho & Ht & Hc & Hr). unfold with_clock. rewrite Hc.
  destruct (m (clock w2)); simpl. repeat split; auto.
Qed.

Lemma pre_user_FindOne f : pre (on_users (FindOne f)).
Proof.
  intros w1 w2 (Ho & Ht & Hc & Hr & Hd).
  rewrite !on_users_fst, !on_users_snd.
  unfold FindOne, use_read; simpl. rewrite Hr, Hd.
  destruct (next_fault (read_faults (users w2))) as [[|] rf]; simpl.
  - repeat split; auto.
  - destruct (find f (docs (users w2))); simpl; repeat split; auto.
Qed.

Lemma UpdateOne_read_faults {A} dec f upd (c : Coll A) :
  read_faults (snd (UpdateOne dec f upd c)) = read_faults c.
Proof.
  unfold UpdateOne, use_write.
  destruct (next_fault (write_faults c)) as [[|] wf]; simpl; auto.
  destruct (find f (docs c)); reflexivity.
Qed.

Lemma InsertOne_read_faults {A} key d (c : Coll A) :
  read_faults (snd (InsertOne key d c)) = read_faults c.
Proof.
  unfold InsertOne, use_write.
  destruct (next_fault (write_faults c)) as [[|] wf]; simpl; auto.
  destruct (existsb _ (docs c)); reflexivity.
Qed.

(** The shape shared by the four reverse-reference writes. *)
Lemma drifts_user_write (f : User -> bool) (upd : Z -> User -> User) :
  drifts same_but_user_writes
    (now <- with_clock time_Now ;;
     on_users (UpdateOne User_eq_dec f (upd now)) ;;;
     ret tt).
Proof.
  intros w1 w2 (Ho & Ht & Hc & Hr).
  rewrite !bind_eq. unfold with_clock, time_Now; simpl.
  rewrite !bind_eq, !on_users_fst, !on_users_snd; simpl.
  assert (forall c (r : result UpdateResult),
             snd (match r with
                  | Ok _ => ret tt c
                  | Err e => (Err e, c)
                  end) = c) as Hs by (intros c [|]; reflexivity).
  rewrite !Hs. repeat split; simpl; auto; try congruence.
  rewrite !UpdateOne_read_faults. exact Hr.
Qed.

Lemma drifts_AddOrganizationToUser userId organizationId :
  drifts same_but_user_writes
    (UserRepository_AddOrganizationToUser userId organizationId).
Proof.
  exact (drifts_user_write _
    (fun now d => set_u_UpdatedAt now
       (set_u_OrganizationIDs (addToSet organizationId (u_OrganizationIDs d)) d))).
Qed.

Lemma drifts_RemoveOrganizationFromUser userId organizationId :
  drifts same_but_user_writes
    (UserRepository_RemoveOrganizationFromUser userId organizationId).
Proof.
  exact (drifts_user_write _
    (fun now d => set_u_UpdatedAt now
       (set_u_OrganizationIDs (pull organizationId (u_OrganizationIDs d)) d))).
Qed.

Lemma drifts_AddTeamToUser userId teamId :
  drifts same_but_user_writes (UserRepository_AddTeamToUser userId teamId).
Proof.
  exact (drifts_user_write _
    (fun now d => set_u_UpdatedAt now
       (set_u_TeamIDs (addToSet teamId (u_TeamIDs d)) d))).
Qed.

Lemma drifts_RemoveTeamFromUser userId teamId :
  drifts same_but_user_writes (UserRepository_RemoveTeamFromUser userId teamId).
Proof.
  exact (drifts_user_write _
    (fun now d => set_u_UpdatedAt now
       (set_u_TeamIDs (pull teamId (u_TeamIDs d)) d))).
Qed.

Create HintDb rel discriminated.

#[local] Hint Resolve sim_ret sim_fail sim_found_or sim_lookup
  pre_on_organizations post_on_organizations pre_on_teams post_on_teams
  pre_with_clock post_with_clock pre_user_FindOne
  drifts_AddOrganizationToUser drifts_RemoveOrganizationFromUser
  drifts_AddTeamToUser drifts_RemoveTeamFromUser
  sim_logged cross_logged sim_for_each_logged sim_drifts : rel.
#[local] Hint Resolve pre_bind post_bind cross_bind_pre cross_bind_post : rel.
#[local] Hint Resolve pre_cross | 8 : rel.
#[local] Hint Extern 1 (sim _ _ (if ?b then _ else _)) => destruct b : rel.
#[local] Hint Extern 1 (sim _ _ (match ?x with _ => _ end)) => destruct x : rel.

Ltac both_phases := split; eauto 15 with rel.

Lemma sim_OrganizationRepository_GetByID id :
  pre (OrganizationRepository_GetByID id) /\
  post (OrganizationRepository_GetByID id).
Proof. unfold OrganizationRepository_GetByID. both_phases. Qed.

Lemma sim_OrganizationRepository_Create org :
  pre (OrganizationRepository_Create org) /\
  post (OrganizationRepository_Create org).
Proof.
  unfold OrganizationRepository_Create, OrganizationRepository_GetByName.
  both_phases.
Qed.

Lemma sim_OrganizationRepository_Update org :
  pre (OrganizationRepository_Update org) /\
  post (OrganizationRepository_Update org).
Proof.
  unfold OrganizationRepository_Update, OrganizationRepository_GetByName.
  both_phases.
Qed.

Lemma sim_OrganizationRepository_Delete id :
  pre (OrganizationRepository_Delete id) /\
  post (OrganizationRepository_Delete id).
Proof. unfold OrganizationRepository_Delete. both_phases. Qed.

Lemma sim_OrganizationRepository_AddMember orgID userID role invitedBy :
  pre (OrganizationRepository_AddMember orgID userID role invitedBy) /\
  post (OrganizationRepository_AddMember orgID userID role invitedBy).
Proof. unfold OrganizationRepository_AddMember. both_phases. Qed.

Lemma sim_OrganizationRepository_RemoveMember orgID userID :
  pre (OrganizationRepository_RemoveMember orgID userID) /\
  post (OrganizationRepository_RemoveMember orgID userID).
Proof. unfold OrganizationRepository_RemoveMember. both_phases. Qed.

Lemma sim_OrganizationRepository_AddTeam orgID teamID :
  pre (OrganizationRepository_AddTeam orgID teamID) /\
  post (OrganizationRepository_AddTeam orgID teamID).
Proof. unfold OrganizationRepository_AddTeam. both_phases. Qed.

Lemma sim_OrganizationRepository_RemoveTeam orgID teamID :
  pre (OrganizationRepository_RemoveTeam orgID teamID) /\
  post (OrganizationRepository_RemoveTeam orgID teamID).
Proof. unfold OrganizationRepository_RemoveTeam. both_phases. Qed.

Lemma sim_TeamRepository_GetByID id :
  pre (TeamRepository_GetByID id) /\ post (TeamRepository_GetByID id).
Proof. unfold TeamRepository_GetByID. both_phases. Qed.

Lemma sim_TeamRepository_Create team :
  pre (TeamRepository_Create team) /\ post (TeamRepository_Create team).
Proof.
  unfold TeamRepository_Create, TeamRepository_GetByNameAndOrganization.
  both_phases.
Qed.

Lemma sim_TeamRepository_Update team :
  pre (TeamRepository_Update team) /\ post (TeamRepository_Update team).
Proof.
  unfold TeamRepository_Update, TeamRepository_GetByNameAndOrganization.
  both_phases.
Qed.

Lemma sim_TeamRepository_Delete id :
  pre (TeamRepository_Delete id) /\ post (TeamRepository_Delete id).
Proof. unfold TeamRepository_Delete. both_phases. Qed.

Lemma sim_TeamRepository_AddMember teamID userID role invitedBy :
  pre (TeamRepository_AddMember teamID userID role invitedBy) /\
  post (TeamRepository_AddMember teamID userID role invitedBy).
Proof. unfold TeamRepository_AddMember. both_phases. Qed.

Lemma sim_TeamRepository_RemoveMember teamID userID :
  pre (TeamRepository_RemoveMember teamID userID) /\
  post (TeamRepository_RemoveMember teamID userID).
Proof. unfold TeamRepository_RemoveMember. both_phases. Qed.

Lemma pre_UserRepository_GetByUserId userId :
  pre (UserRepository_GetByUserId userId).
Proof. apply pre_user_FindOne. Qed.

#[local] Hint Resolve pre_UserRepository_GetByUserId : rel.
#[local] Hint Extern 1 (sim _ _ (OrganizationRepository_GetByID _)) =>
  apply sim_OrganizationRepository_GetByID : rel.
#[local] Hint Extern 1 (sim _ _ (OrganizationRepository_Create _)) =>
  apply sim_OrganizationRepository_Create : rel.
#[local] Hint Extern 1 (sim _ _ (OrganizationRepository_Update _)) =>
  apply sim_OrganizationRepository_Update : rel.
#[local] Hint Extern 1 (sim _ _ (OrganizationRepository_Delete _)) =>
  apply sim_OrganizationRepository_Delete : rel.
#[local] Hint Extern 1 (sim _ _ (OrganizationRepository_AddMember _ _ _ _)) =>
  apply sim_OrganizationRepository_AddMember : rel.
#[local] Hint Extern 1 (sim _ _ (OrganizationRepository_RemoveMember _ _)) =>
  apply sim_OrganizationRepository_RemoveMember : rel.
#[local] Hint Extern 1 (sim _ _ (OrganizationRepository_AddTeam _ _)) =>
  apply sim_OrganizationRepository_AddTeam : rel.
#[local] Hint Extern 1 (sim _ _ (OrganizationRepository_RemoveTeam _ _)) =>
  apply sim_OrganizationRepository_RemoveTeam : rel.
#[local] Hint Extern 1 (sim _ _ (TeamRepository_GetByID _)) =>
  apply sim_TeamRepository_GetByID : rel.
#[local] Hint Extern 1 (sim _ _ (TeamRepository_Create _)) =>
  apply sim_TeamRepository_Create : rel.
#[local] Hint Extern 1 (sim _ _ (TeamRepository_Update _)) =>
  apply sim_TeamRepository_Update : rel.
#[local] Hint Extern 1 (sim _ _ (TeamRepository_Delete _)) =>
  apply sim_TeamRepository_Delete : rel.
#[local] Hint Extern 1 (sim _ _ (TeamRepository_AddMember _ _ _ _)) =>
  apply sim_TeamRepository_AddMember : rel.
#[local] Hint Extern 1 (sim _ _ (TeamRepository_RemoveMember _ _)) =>
  apply sim_TeamRepository_RemoveMember : rel.

(** The result of a call of the facade does not depend on the failures
    of the writes to the users collection. *)
Lemma cross_exec c : cross (exec c).
Proof.
  destruct c; simpl.
  - unfold OrganizationService_CreateOrganization. eauto 20 with rel.
  - unfold OrganizationService_UpdateOrganization. eauto 20 with rel.
  - unfold OrganizationService_DeleteOrganization. eauto 20 with rel.
  - unfold OrganizationService_AddOrganizationMember. eauto 20 with rel.
  - unfold OrganizationService_UpdateOrganizationMember. cbv zeta.
    eauto 25 with rel.
  - unfold OrganizationService_RemoveOrganizationMember. cbv zeta.
    eauto 25 with rel.
  - unfold TeamService_CreateTeam. eauto 20 with rel.
  - unfold TeamService_UpdateTeam. eauto 20 with rel.
  - unfold TeamService_DeleteTeam. eauto 20 with rel.
  - unfold TeamService_AddTeamMember. eauto 25 with rel.
  - unfold TeamService_UpdateTeamMember. cbv zeta. eauto 25 with rel.
  - unfold TeamService_RemoveTeamMember. cbv zeta. eauto 25 with rel.
Qed.

(* ===================================================================== *)
(** * Errors and best-effort writes of the facade *)
(* ===================================================================== *)

(** C7.  A call of the facade that returns a rejection (a permission,
    invariant or validation error raised by the code) has written no
    document; and the result of a call, like the organizations and the
    teams it leaves, is the same whatever the failures of the writes of
    reverse references to the users collection. *)
Theorem C7_rejections_write_nothing_and_user_write_failures_are_absorbed :
  (forall c w e,
      fst (exec c w) = Err e -> is_rejection e = true ->
      store (snd (exec c w)) = store w) /\
  (forall c w f,
      fst (exec c (with_user_write_faults f w)) = fst (exec c w) /\
      organizations (snd (exec c (with_user_write_faults f w))) =
        organizations (snd (exec c w)) /\
      teams (snd (exec c (with_user_write_faults f w))) =
        teams (snd (exec c w))).
Proof.
  split.
  - intros c w e. apply safe_exec.
  - intros c w f.
    assert (same_but_user_write_faults (with_user_write_faults f w) w) as R
        by (repeat split).
    destruct (cross_exec c _ _ R) as [E (Ho & Ht & _)]. auto.
Qed.

Lemma C7_witness :
  fst (exec (RemoveOrganizationMember acme_id "alice" "carol") small_world) =
    Err (ErrNew "insufficient permissions to remove this organization member")
  /\ store (snd (exec (RemoveOrganizationMember acme_id "alice" "carol")
                   small_world)) = store small_world
  /\ fst (exec (AddTeamMember crew_id (mkAddTeamMemberRequest "carol" "member")
                  "alice") small_world) = Ok tt
  /\ fst (exec (AddTeamMember crew_id (mkAddTeamMemberRequest "carol" "member")
                  "alice")
            (with_user_write_faults [true] small_world)) =
     fst (exec (AddTeamMember crew_id (mkAddTeamMemberRequest "carol" "member")
                  "alice") small_world).
Proof.
  split; [reflexivity |]. split; [| split; [reflexivity |]].
  - apply (proj1 C7_rejections_write_nothing_and_user_write_failures_are_absorbed
             (RemoveOrganizationMember acme_id "alice" "carol") small_world
             (ErrNew "insufficient permissions to remove this organization member"));
      reflexivity.
  - apply (proj2 C7_rejections_write_nothing_and_user_write_failures_are_absorbed).
Defined.

(* ===================================================================== *)
(** * Pagination of the list queries *)
(* ===================================================================== *)

Lemma effective_in_bounds page limit :
  in_page_bounds (effective_page page) (effective_limit limit).
Proof.
  unfold in_page_bounds, effective_page, effective_limit.
  destruct (1 <=? limit)%Z eqn:A; destruct (limit <=? 100)%Z eqn:B; simpl;
    try apply Z.leb_le in A; try apply Z.leb_le in B; lia.
Qed.

Lemma page_check page : (if (page <? 1)%Z then 1%Z else page) = effective_page page.
Proof.
  unfold effective_page. destruct (page <? 1)%Z eqn:E.
  - apply Z.ltb_lt in E. lia.
  - apply Z.ltb_ge in E. lia.
Qed.

Lemma limit_check limit :
  (if (limit <? 1)%Z || (100 <? limit)%Z then 20%Z else limit)
  = effective_limit limit.
Proof.
  unfold effective_limit.
  destruct (limit <? 1)%Z eqn:A; destruct (100 <? limit)%Z eqn:B;
    destruct (1 <=? limit)%Z eqn:C; destruct (limit <=? 100)%Z eqn:D;
    simpl; try reflexivity;
    try apply Z.ltb_lt in A; try apply Z.ltb_ge in A;
    try apply Z.ltb_lt in B; try apply Z.ltb_ge in B;
    try apply Z.leb_le in C; try apply Z.leb_gt in C;
    try apply Z.leb_le in D; try apply Z.leb_gt in D; lia.
Qed.

(** The five list methods that validate their pagination hand a page of
    at least 1 and a limit within [1,100] to their repository. *)
Lemma validating_list_queries {R} page limit :
  in_page_bounds (effective_page page) (effective_limit limit) /\
  (forall (repo : Z -> Z -> string -> M R) search,
      UserService_GetUsers repo page limit search =
      repo (effective_page page) (effective_limit limit) search) /\
  (forall (repo : string -> Z -> Z -> M R) userID,
      OrganizationService_GetOrganizationsByUser repo userID page limit =
      repo userID (effective_page page) (effective_limit limit)) /\
  (forall (repo : Z -> Z -> M R),
      OrganizationService_ListOrganizations repo page limit =
      repo (effective_page page) (effective_limit limit)) /\
  (forall (repo : string -> Z -> Z -> M R) organizationID,
      TeamService_GetTeamsByOrganization repo organizationID page limit =
      repo organizationID (effective_page page) (effective_limit limit)) /\
  (forall (repo : string -> Z -> Z -> M R) userID,
      TeamService_GetTeamsByUser repo userID page limit =
      repo userID (effective_page page) (effective_limit limit)).
Proof.
  split; [apply effective_in_bounds |].
  unfold UserService_GetUsers, OrganizationService_GetOrganizationsByUser,
    OrganizationService_ListOrganizations, TeamService_GetTeamsByOrganization,
    TeamService_GetTeamsByUser.
  cbv zeta. rewrite page_check, limit_check. repeat split.
Qed.

(** C9.  OrganizationService.GetOrganizationTeams, a list query of the
    facade, hands the page and the limit it received to the repository
    as they are: page 0 and limit 1000 reach the repository, although
    neither is within the bounds that the other list methods enforce. *)
Theorem C9_GetOrganizationTeams_forwards_page_and_limit :
  forall (R : Type) (repo : string -> Z -> Z -> M R),
    OrganizationService_GetOrganizationTeams repo acme_id 0 1000 "alice"
      small_world
    = repo acme_id 0%Z 1000%Z small_world
    /\ ~ in_page_bounds 0 1000
    /\ TeamService_GetTeamsByOrganization repo acme_id 0 1000 small_world
       = repo acme_id 1%Z 20%Z small_world.
Proof.
  intros R repo. split; [reflexivity |]. split; [| reflexivity].
  unfold in_page_bounds. lia.
Qed.

(* ===================================================================== *)
(** * Members of a group *)
(* ===================================================================== *)

Lemma GetMember_some ms userID m :
  GetMember ms userID = Some m -> In m ms /\ m_UserID m = userID.
Proof.
  unfold GetMember. intros H. apply find_some in H. destruct H as [Hin He].
  apply String.eqb_eq in He. auto.
Qed.

Lemma GetMember_none ms userID :
  GetMember ms userID = None -> has_member userID ms = false.
Proof.
  unfold GetMember, has_member. induction ms as [| m r IH]; simpl; auto.
  destruct (m_UserID m =? userID); [discriminate | auto].
Qed.

Lemma GetMember_has_member ms userID m :
  GetMember ms userID = Some m -> has_member userID ms = true.
Proof.
  unfold GetMember, has_member. induction ms as [| x r IH]; simpl.
  - discriminate.
  - destruct (m_UserID x =? userID); auto.
Qed.

Lemma GetMember_unique ms m :
  NoDup (map m_UserID ms) -> In m ms -> GetMember ms (m_UserID m) = Some m.
Proof.
  unfold GetMember. induction ms as [| x r IH]; simpl; [tauto |].
  intros Hnd [-> | Hin].
  - rewrite String.eqb_refl. reflexivity.
  - inversion Hnd as [| ? ? Hx Hr]; subst.
    destruct (m_UserID x =? m_UserID m) eqn:E.
    + apply String.eqb_eq in E. exfalso. apply Hx. rewrite E.
      apply in_map, Hin.
    + auto.
Qed.

Lemma sole_owner_unique owner ms a b :
  ownerCount owner ms = 1%nat -> In a ms -> In b ms ->
  m_Role a = owner -> m_Role b = owner -> a = b.
Proof.
  unfold ownerCount. intros Hc Ha Hb Ra Rb.
  assert (forall x, In x ms -> m_Role x = owner ->
                    In x (List.filter (fun m => m_Role m =? owner) ms)) as Hin.
  { intros x Hx Rx. apply filter_In. split; auto.
    rewrite Rx. apply String.eqb_refl. }
  pose proof (Hin a Ha Ra) as Ia. pose proof (Hin b Hb Rb) as Ib.
  destruct (List.filter (fun m => m_Role m =? owner) ms) as [| c [| d r]];
    simpl in *; try discriminate.
  destruct Ia as [<- | []]. destruct Ib as [<- | []]. reflexivity.
Qed.

Lemma HasRole_some ms userID roles :
  HasRole ms userID roles = true ->
  exists m, GetMember ms userID = Some m /\ In (m_Role m) roles.
Proof.
  unfold HasRole. destruct (GetMember ms userID) as [m |]; [| discriminate].
  intros H. exists m. split; auto.
  apply existsb_exists in H. destruct H as (r & Hr & E).
  apply String.eqb_eq in E. subst. exact Hr.
Qed.

Lemma HasRole_owner ms userID owner :
  HasRole ms userID [owner] = true ->
  exists m, GetMember ms userID = Some m /\ m_Role m = owner.
Proof.
  intros H. destruct (HasRole_some _ _ _ H) as (m & Hm & [Hr | []]). eauto.
Qed.

Lemma pull_member_length userID ms :
  (length (pull_member userID ms) <= length ms)%nat.
Proof.
  unfold pull_member. induction ms as [| x r IH]; simpl; auto.
  destruct (negb (m_UserID x =? userID)); simpl; lia.
Qed.

Lemma pull_member_shrinks userID ms m :
  GetMember ms userID = Some m ->
  (length (pull_member userID ms) < length ms)%nat.
Proof.
  unfold GetMember, pull_member. induction ms as [| x r IH]; simpl.
  - discriminate.
  - destruct (m_UserID x =? userID) eqn:E; simpl.
    + intros _. pose proof (pull_member_length userID r) as H.
      unfold pull_member in H. lia.
    + intros H. specialize (IH H). lia.
Qed.

Lemma pull_member_gone userID ms : GetMember (pull_member userID ms) userID = None.
Proof.
  unfold GetMember, pull_member. induction ms as [| x r IH]; simpl; auto.
  destruct (m_UserID x =? userID) eqn:E; simpl; auto. rewrite E. exact IH.
Qed.

Lemma set_role_at_match_ids userID role ms :
  map m_UserID (set_role_at_match userID role ms) = map m_UserID ms.
Proof.
  induction ms as [| x r IH]; simpl; auto.
  destruct (m_UserID x =? userID); simpl; congruence.
Qed.

Lemma set_role_at_match_joined userID role ms :
  map m_JoinedAt (set_role_at_match userID role ms) = map m_JoinedAt ms.
Proof.
  induction ms as [| x r IH]; simpl; auto.
  destruct (m_UserID x =? userID); simpl; congruence.
Qed.

Lemma set_role_at_match_invited userID role ms :
  map m_InvitedBy (set_role_at_match userID role ms) = map m_InvitedBy ms.
Proof.
  induction ms as [| x r IH]; simpl; auto.
  destruct (m_UserID x =? userID); simpl; congruence.
Qed.

Lemma set_role_at_match_get userID role ms m :
  GetMember ms userID = Some m ->
  GetMember (set_role_at_match userID role ms) userID = Some (set_m_Role role m).
Proof.
  unfold GetMember. induction ms as [| x r IH]; simpl; [discriminate |].
  destruct (m_UserID x =? userID) eqn:E; simpl.
  - intros H; inversion H; subst. rewrite E. reflexivity.
  - rewrite E. exact IH.
Qed.

Lemma set_role_at_match_others userID role ms other :
  other <> userID ->
  GetMember (set_role_at_match userID role ms) other = GetMember ms other.
Proof.
  unfold GetMember. intros Hne. induction ms as [| x r IH]; simpl; auto.
  destruct (m_UserID x =? userID) eqn:E; simpl.
  - apply String.eqb_eq in E.
    destruct (m_UserID x =? other) eqn:E'; auto.
    apply String.eqb_eq in E'. congruence.
  - destruct (m_UserID x =? other); auto.
Qed.

Lemma GetMember_app_new ms userID m :
  GetMember ms userID = None -> m_UserID m = userID ->
  GetMember (ms ++ [m]) userID = Some m.
Proof.
  unfold GetMember. intros Hn Hm. induction ms as [| x r IH]; simpl in *.
  - rewrite Hm, String.eqb_refl. reflexivity.
  - destruct (m_UserID x =? userID); [discriminate | auto].
Qed.

(** ** Documents found by a filter *)

Lemma find_filter_single {A} (f : A -> bool) l d :
  List.filter f l = [d] -> find f l = Some d.
Proof.
  induction l as [| x r IH]; simpl; [discriminate |].
  destruct (f x); [intros H; inversion H; auto | auto].
Qed.

Lemma filter_and_single {A} (f g : A -> bool) l d :
  List.filter f l = [d] ->
  List.filter (fun x => f x && g x) l = if g d then [d] else [].
Proof.
  revert d. induction l as [| x r IH]; simpl; [discriminate |].
  intros d. destruct (f x) eqn:Fx; simpl; auto.
  intros H. assert (x = d /\ List.filter f r = []) as [-> Hr]
    by (inversion H; auto).
  assert (List.filter (fun x => f x && g x) r = []) as E.
  { clear - Hr. induction r as [| y r IH]; simpl in *; auto.
    destruct (f y); [discriminate | simpl; auto]. }
  rewrite E. destruct (g d); reflexivity.
Qed.

Lemma find_and_single {A} (f g : A -> bool) l d :
  List.filter f l = [d] -> g d = true ->
  find (fun x => f x && g x) l = Some d.
Proof.
  intros H G. apply find_filter_single.
  rewrite (filter_and_single f g l d H), G. reflexivity.
Qed.

Lemma update_first_none {A} (f : A -> bool) upd l :
  find f l = None -> update_first f upd l = l.
Proof.
  induction l as [| x r IH]; simpl; auto.
  destruct (f x); [discriminate | intros H; rewrite IH; auto].
Qed.

Lemma filter_update_first {A} (f g : A -> bool) upd l d :
  List.filter f l = [d] -> find g l = Some d ->
  (forall x, g x = true -> f x = true) ->
  (forall x, f (upd x) = f x) ->
  List.filter f (update_first g upd l) = [upd d].
Proof.
  intros Hf Hg Hgf Hk. revert Hf Hg.
  induction l as [| x r IH]; simpl; [discriminate |].
  destruct (g x) eqn:Gx.
  - rewrite (Hgf x Gx). intros Hf Hd.
    assert (x = d /\ List.filter f r = []) as [-> Hr] by (inversion Hf; auto).
    simpl. rewrite Hk, (Hgf d Gx), Hr. reflexivity.
  - destruct (f x) eqn:Fx; simpl; rewrite Fx.
    + intros Hf Hd.
      assert (x = d /\ List.filter f r = []) as [-> Hr] by (inversion Hf; auto).
      apply find_some in Hd. destruct Hd as [_ Gd]. congruence.
    + auto.
Qed.

(** A reverse-reference write touches the users collection and the
    clock only. *)
Lemma user_write_frame (f : User -> bool) (upd : Z -> User -> User) w :
  let m := (now <- with_clock time_Now ;;
            on_users (UpdateOne User_eq_dec f (upd now)) ;;;
            ret tt) in
  organizations (snd (m w)) = organizations w /\ teams (snd (m w)) = teams w.
Proof.
  simpl. unfold bind, with_clock, time_Now, on_users. simpl.
  destruct (UpdateOne _ _ _ _) as [[r | e] c]; simpl; auto.
Qed.

Lemma AddOrganizationToUser_keeps_organizations userId organizationId w :
  organizations (snd (UserRepository_AddOrganizationToUser userId organizationId w))
    = organizations w.
Proof.
  exact (proj1 (user_write_frame _
    (fun now d => set_u_UpdatedAt now
       (set_u_OrganizationIDs (addToSet organizationId (u_OrganizationIDs d)) d))
    w)).
Qed.

Lemma RemoveOrganizationFromUser_keeps_organizations userId organizationId w :
  organizations
    (snd (UserRepository_RemoveOrganizationFromUser userId organizationId w))
    = organizations w.
Proof.
  exact (proj1 (user_write_frame _
    (fun now d => set_u_UpdatedAt now
       (set_u_OrganizationIDs (pull organizationId (u_OrganizationIDs d)) d))
    w)).
Qed.

Lemma AddTeamToUser_keeps_teams userId teamId w :
  teams (snd (UserRepository_AddTeamToUser userId teamId w)) = teams w.
Proof.
  exact (proj2 (user_write_frame _
    (fun now d => set_u_UpdatedAt now
       (set_u_TeamIDs (addToSet teamId (u_TeamIDs d)) d)) w)).
Qed.

Lemma RemoveTeamFromUser_keeps_teams userId teamId w :
  teams (snd (UserRepository_RemoveTeamFromUser userId teamId w)) = teams w.
Proof.
  exact (proj2 (user_write_frame _
    (fun now d => set_u_UpdatedAt now
       (set_u_TeamIDs (pull teamId (u_TeamIDs d)) d)) w)).
Qed.

Lemma reads_only_organizations_docs {A} (m : M A) w :
  reads_only m -> docs (organizations (snd (m w))) = docs (organizations w).
Proof. intros H. specialize (H w). unfold store in H. congruence. Qed.

Lemma reads_only_teams_docs {A} (m : M A) w :
  reads_only m -> docs (teams (snd (m w))) = docs (teams w).
Proof. intros H. specialize (H w). unfold store in H. congruence. Qed.

Lemma HasRole_GetMember_none ms userID roles :
  GetMember ms userID = None -> HasRole ms userID roles = false.
Proof. unfold HasRole. intros ->. reflexivity. Qed.

(** ** The loop of AddMember and UpdateMember *)

Lemma change_role_spec ms userID role :
  match change_role ms userID role with
  | NotAMember => GetMember ms userID = None
  | SameRole => exists m, GetMember ms userID = Some m /\ m_Role m = role
  | NewRole ms' =>
      ms' = set_role_at_match userID role ms /\
      exists m, GetMember ms userID = Some m /\ m_Role m <> role
  end.
Proof.
  unfold GetMember. induction ms as [| x r IH]; simpl; auto.
  destruct (m_UserID x =? userID) eqn:E.
  - destruct (m_Role x =? role) eqn:R; simpl.
    + apply String.eqb_eq in R. eauto.
    + apply String.eqb_neq in R. eauto.
  - destruct (change_role r userID role) as [| | ms']; auto.
    destruct IH as [-> Hm]. auto.
Qed.

Lemma set_m_Role_same m : set_m_Role (m_Role m) m = m.
Proof. destruct m; reflexivity. Qed.

Lemma role_only_change_set userID role ms :
  role_only_change userID role ms (set_role_at_match userID role ms).
Proof.
  unfold role_only_change.
  rewrite set_role_at_match_ids, set_role_at_match_joined,
    set_role_at_match_invited.
  repeat split; auto.
  - intros m. apply set_role_at_match_get.
  - intros other. apply set_role_at_match_others.
Qed.

Lemma role_only_change_same userID role ms m :
  GetMember ms userID = Some m -> m_Role m = role ->
  role_only_change userID role ms ms.
Proof.
  intros Hm Hr. unfold role_only_change. repeat split; auto.
  intros m' Hm'. rewrite Hm'. f_equal.
  assert (m' = m) as -> by congruence. rewrite <- Hr.
  symmetry. apply set_m_Role_same.
Qed.

(* ===================================================================== *)
(** * OrganizationRepository and OrganizationService without store failures *)
(* ===================================================================== *)

Lemma OrganizationRepository_GetByID_found id w o :
  fst (OrganizationRepository_GetByID id w) = Ok o ->
  find (org_by_id id) (docs (organizations w)) = Some o.
Proof.
  unfold OrganizationRepository_GetByID.
  destruct (negb (ObjectIDFromHex id)); [discriminate |].
  rewrite on_organizations_fst. apply FindOne_found.
Qed.

Lemma OrganizationRepository_GetByID_eval id w :
  ObjectIDFromHex id = true -> read_faults (organizations w) = [] ->
  OrganizationRepository_GetByID id w =
  (match find (org_by_id id) (docs (organizations w)) with
   | Some d => Ok d
   | None => Err ErrNoDocuments
   end, w).
Proof.
  intros Hh Hr. destruct w as [oc tc uc c]. destruct oc as [gd grf gwf].
  simpl in *; subst.
  unfold OrganizationRepository_GetByID. rewrite Hh. simpl.
  unfold on_organizations, FindOne, use_read. simpl.
  destruct (find (org_by_id id) gd); reflexivity.
Qed.

Lemma OrganizationRepository_AddMember_eval orgID userID role invitedBy w :
  ObjectIDFromHex orgID = true -> quiet (organizations w) ->
  let filter := fun o => org_by_id orgID o && has_member userID (o_Members o) in
  let w' := snd (OrganizationRepository_AddMember orgID userID role invitedBy w) in
  fst (OrganizationRepository_AddMember orgID userID role invitedBy w) = Ok tt
  /\ quiet (organizations w')
  /\ clock w' = (clock w + 1)%Z
  /\ docs (organizations w') =
     if (0 <? length (List.filter filter (docs (organizations w))))%nat
     then update_first filter
            (fun d => set_o_UpdatedAt (clock w)
               (set_o_Members (set_role_at_match userID role (o_Members d)) d))
            (docs (organizations w))
     else update_first (org_by_id orgID)
            (fun d => set_o_UpdatedAt (clock w)
               (set_o_Members
                  (o_Members d ++ [mkMember userID role (clock w) invitedBy]) d))
            (docs (organizations w)).
Proof.
  intros Hh [Hr Hw]. destruct w as [oc tc uc c]. destruct oc as [gd grf gwf].
  simpl in *; subst.
  unfold OrganizationRepository_AddMember. rewrite Hh. simpl.
  unfold bind, on_organizations, CountDocuments, use_read. simpl.
  destruct (0 <? length _)%nat eqn:E; simpl;
    unfold UpdateOne, use_write; simpl;
    match goal with |- context [find ?f gd] =>
      destruct (find f gd) eqn:F end; simpl;
    unfold quiet; simpl; repeat split; auto;
    symmetry; apply update_first_none; exact F.
Qed.

Lemma OrganizationRepository_RemoveMember_eval orgID userID w o m :
  ObjectIDFromHex orgID = true -> quiet (organizations w) ->
  find (org_by_id orgID) (docs (organizations w)) = Some o ->
  GetMember (o_Members o) userID = Some m ->
  let w' := snd (OrganizationRepository_RemoveMember orgID userID w) in
  fst (OrganizationRepository_RemoveMember orgID userID w) = Ok tt
  /\ quiet (organizations w')
  /\ docs (organizations w') =
     update_first (org_by_id orgID)
       (fun d => set_o_UpdatedAt (clock w)
          (set_o_Members (pull_member userID (o_Members d)) d))
       (docs (organizations w)).
Proof.
  intros Hh [Hr Hw] Hf Hm. destruct w as [oc tc uc c].
  destruct oc as [gd grf gwf]. simpl in *; subst.
  unfold OrganizationRepository_RemoveMember. rewrite Hh. simpl.
  unfold bind, on_organizations, UpdateOne, use_write. simpl.
  rewrite Hf. simpl.
  match goal with |- context [Organization_eq_dec ?x o] =>
    destruct (Organization_eq_dec x o) as [Heq | Hne] end; simpl.
  - exfalso. apply (f_equal (fun x => length (o_Members x))) in Heq.
    unfold set_o_UpdatedAt, set_o_Members in Heq. simpl in Heq. pose proof (pull_member_shrinks _ _ _ Hm). lia.
  - unfold quiet; simpl. auto.
Qed.


(** Updating the role of a user who is not a member inserts the user. *)
Lemma UpdateOrganizationMember_inserts_absent_member
    w orgID memberID req updatedBy org :
  ObjectIDFromHex orgID = true -> quiet (organizations w) ->
  the_document (org_by_id orgID) (organizations w) org ->
  Organization_HasRole org updatedBy [OrgRoleOwner; OrgRoleAdmin] = true ->
  Organization_GetMember org memberID = None ->
  fst (OrganizationService_UpdateOrganizationMember orgID memberID req
         updatedBy w) = Ok tt /\
  the_document (org_by_id orgID)
    (organizations
       (snd (OrganizationService_UpdateOrganizationMember orgID memberID req
               updatedBy w)))
    (set_o_UpdatedAt (clock w)
       (set_o_Members
          (o_Members org
           ++ [mkMember memberID (uomr_Role req) (clock w) updatedBy]) org)).
Proof.
  intros Hh Hq Hdoc Hrole Habs.
  pose proof (find_filter_single _ _ _ Hdoc) as Hfind.
  assert ((memberID =? updatedBy) = false) as Hne.
  { apply String.eqb_neq. intros ->.
    unfold Organization_HasRole, Organization_GetMember in *.
    rewrite (HasRole_GetMember_none _ _ _ Habs) in Hrole. discriminate. }
  unfold OrganizationService_UpdateOrganizationMember.
  rewrite bind_eq, found_or_fst, found_or_snd.
  rewrite OrganizationRepository_GetByID_eval by (auto; apply Hq).
  rewrite Hfind. simpl. rewrite Hrole. simpl.
  rewrite Habs, Hne. simpl. rewrite bind_eq. simpl.
  destruct (OrganizationRepository_AddMember_eval orgID memberID
              (uomr_Role req) updatedBy w Hh Hq) as (E & Q & C & D).
  rewrite bind_eq, E. simpl. rewrite ?bind_eq. simpl.
  split; [reflexivity |].
  unfold the_document.
  rewrite reads_only_organizations_docs
    by apply reads_only_OrganizationRepository_GetByID.
  rewrite D.
  rewrite (filter_and_single _ (fun o => has_member memberID (o_Members o))
             _ _ Hdoc).
  cbv beta. unfold Organization_GetMember in Habs.
  rewrite (GetMember_none _ _ Habs). simpl.
  apply (filter_update_first _ _
           (fun d => set_o_UpdatedAt (clock w)
              (set_o_Members
                 (o_Members d
                  ++ [mkMember memberID (uomr_Role req) (clock w) updatedBy]) d))
           _ org); auto.
Qed.

(** The stored document after the repository's AddMember. *)
Lemma OrganizationRepository_AddMember_existing
    w orgID userID role invitedBy org m :
  ObjectIDFromHex orgID = true -> quiet (organizations w) ->
  the_document (org_by_id orgID) (organizations w) org ->
  GetMember (o_Members org) userID = Some m ->
  fst (OrganizationRepository_AddMember orgID userID role invitedBy w) = Ok tt /\
  the_document (org_by_id orgID)
    (organizations
       (snd (OrganizationRepository_AddMember orgID userID role invitedBy w)))
    (set_o_UpdatedAt (clock w)
       (set_o_Members (set_role_at_match userID role (o_Members org)) org)).
Proof.
  intros Hh Hq Hdoc Hm.
  destruct (OrganizationRepository_AddMember_eval orgID userID role invitedBy
              w Hh Hq) as (E & Q & C & D).
  split; [exact E |]. unfold the_document. rewrite D.
  pose proof (GetMember_has_member _ _ _ Hm) as Hhas.
  rewrite (filter_and_single _ (fun o => has_member userID (o_Members o))
             _ _ Hdoc).
  cbv beta. rewrite Hhas. simpl.
  apply (filter_update_first _ _
           (fun d => set_o_UpdatedAt (clock w)
              (set_o_Members (set_role_at_match userID role (o_Members d)) d))
           _ org); auto.
  - apply (find_and_single _ (fun o => has_member userID (o_Members o)));
      auto.
  - intros x Hx. apply andb_prop in Hx. tauto.
Qed.

Lemma OrganizationRepository_AddMember_new
    w orgID userID role invitedBy org :
  ObjectIDFromHex orgID = true -> quiet (organizations w) ->
  the_document (org_by_id orgID) (organizations w) org ->
  GetMember (o_Members org) userID = None ->
  fst (OrganizationRepository_AddMember orgID userID role invitedBy w) = Ok tt /\
  the_document (org_by_id orgID)
    (organizations
       (snd (OrganizationRepository_AddMember orgID userID role invitedBy w)))
    (set_o_UpdatedAt (clock w)
       (set_o_Members
          (o_Members org ++ [mkMember userID role (clock w) invitedBy]) org)).
Proof.
  intros Hh Hq Hdoc Hm.
  destruct (OrganizationRepository_AddMember_eval orgID userID role invitedBy
              w Hh Hq) as (E & Q & C & D).
  split; [exact E |]. unfold the_document. rewrite D.
  rewrite (filter_and_single _ (fun o => has_member userID (o_Members o))
             _ _ Hdoc).
  cbv beta. rewrite (GetMember_none _ _ Hm). simpl.
  apply (filter_update_first _ _
           (fun d => set_o_UpdatedAt (clock w)
              (set_o_Members
                 (o_Members d ++ [mkMember userID role (clock w) invitedBy]) d))
           _ org); auto.
  apply find_filter_single, Hdoc.
Qed.

(** The outcome of RemoveOrganizationMember when the store does not fail:
    the two checks of the code, in their order, then the removal. *)
Lemma RemoveOrganizationMember_outcome w orgID memberID removedBy org target :
  ObjectIDFromHex orgID = true -> quiet (organizations w) ->
  the_document (org_by_id orgID) (organizations w) org ->
  Organization_GetMember org memberID = Some target ->
  let isOwner := Organization_HasRole org removedBy [OrgRoleOwner] in
  let isAdmin := Organization_HasRole org removedBy [OrgRoleAdmin] in
  let isSelf := removedBy =? memberID in
  let call := OrganizationService_RemoveOrganizationMember orgID memberID
                removedBy w in
  if negb isOwner && negb isSelf
     && ((m_Role target =? OrgRoleOwner)
         || (negb isAdmin && (m_Role target =? OrgRoleAdmin)))
  then fst call = Err (ErrNew
         "insufficient permissions to remove this organization member")
  else if (m_Role target =? OrgRoleOwner)
          && (ownerCount OrgRoleOwner (o_Members org) <=? 1)%nat
  then fst call = Err (ErrNew "cannot remove the only organization owner")
  else fst call = Ok tt /\
       the_document (org_by_id orgID) (organizations (snd call))
         (set_o_UpdatedAt (clock w)
            (set_o_Members (pull_member memberID (o_Members org)) org)).
Proof.
  intros Hh Hq Hdoc Ht. cbv zeta.
  pose proof (find_filter_single _ _ _ Hdoc) as Hfind.
  unfold OrganizationService_RemoveOrganizationMember.
  rewrite bind_eq, found_or_fst, found_or_snd.
  rewrite OrganizationRepository_GetByID_eval by (auto; apply Hq).
  rewrite Hfind. simpl. rewrite Ht.
  destruct (negb _ && negb _ && _); [reflexivity |].
  destruct (_ && _); [reflexivity |].
  destruct (OrganizationRepository_RemoveMember_eval orgID memberID w org
              target Hh Hq Hfind Ht) as (E & Q & D).
  rewrite bind_eq, E. simpl. rewrite ?bind_eq. simpl.
  split; [reflexivity |]. unfold the_document.
  rewrite RemoveOrganizationFromUser_keeps_organizations, D.
  apply (filter_update_first _ _
           (fun d => set_o_UpdatedAt (clock w)
              (set_o_Members (pull_member memberID (o_Members d)) d))
           _ org); auto.
Qed.

(** Whatever the store does, removing the only owner returns an error. *)
Lemma RemoveOrganizationMember_sole_owner
    w orgID memberID removedBy org target :
  find (org_by_id orgID) (docs (organizations w)) = Some org ->
  Organization_GetMember org memberID = Some target ->
  m_Role target = OrgRoleOwner ->
  ownerCount OrgRoleOwner (o_Members org) = 1%nat ->
  exists e,
    fst (OrganizationService_RemoveOrganizationMember orgID memberID
           removedBy w) = Err e.
Proof.
  intros Hfind Ht Hr Hc.
  unfold OrganizationService_RemoveOrganizationMember.
  rewrite bind_eq, found_or_fst.
  destruct (fst (OrganizationRepository_GetByID orgID w)) as [o | e] eqn:E.
  - apply OrganizationRepository_GetByID_found in E.
    assert (o = org) as -> by congruence.
    simpl. rewrite Ht, Hr, Hc. simpl.
    destruct (negb _ && negb _ && _); simpl; eauto.
  - destruct e; simpl; eauto.
Qed.

(** Whatever the store does, lowering the role of the only owner returns
    an error. *)
Lemma UpdateOrganizationMember_sole_owner
    w orgID memberID req updatedBy org target :
  find (org_by_id orgID) (docs (organizations w)) = Some org ->
  Organization_GetMember org memberID = Some target ->
  m_Role target = OrgRoleOwner ->
  ownerCount OrgRoleOwner (o_Members org) = 1%nat ->
  uomr_Role req <> OrgRoleOwner ->
  exists e,
    fst (OrganizationService_UpdateOrganizationMember orgID memberID req
           updatedBy w) = Err e.
Proof.
  intros Hfind Ht Hr Hc Hnew.
  unfold OrganizationService_UpdateOrganizationMember.
  rewrite bind_eq, found_or_fst.
  destruct (fst (OrganizationRepository_GetByID orgID w)) as [o | e] eqn:E.
  - apply OrganizationRepository_GetByID_found in E.
    assert (o = org) as -> by congruence.
    simpl. destruct (negb _); simpl; eauto.
    rewrite Ht, Hr. simpl.
    destruct (Organization_HasRole org updatedBy [OrgRoleOwner]) eqn:Ho;
      simpl; eauto.
    apply HasRole_owner in Ho. destruct Ho as (m' & Hm' & Rm').
    destruct (GetMember_some _ _ _ Hm') as [Hin' Hid'].
    destruct (GetMember_some _ _ _ Ht) as [Hin Hid].
    assert (m' = target) as -> by (eapply sole_owner_unique; eauto).
    assert (memberID = updatedBy) as -> by congruence.
    rewrite String.eqb_refl, bind_eq. simpl.
    apply String.eqb_neq in Hnew. rewrite Hnew, Hc. simpl. eauto.
  - destruct e; simpl; eauto.
Qed.

(* ===================================================================== *)
(** * TeamRepository and TeamService without store failures *)
(* ===================================================================== *)

Lemma TeamRepository_GetByID_found id w o :
  fst (TeamRepository_GetByID id w) = Ok o ->
  find (team_by_id id) (docs (teams w)) = Some o.
Proof.
  unfold TeamRepository_GetByID.
  destruct (negb (ObjectIDFromHex id)); [discriminate |].
  rewrite on_teams_fst. apply FindOne_found.
Qed.

Lemma TeamRepository_GetByID_eval id w :
  ObjectIDFromHex id = true -> read_faults (teams w) = [] ->
  TeamRepository_GetByID id w =
  (match find (team_by_id id) (docs (teams w)) with
   | Some d => Ok d
   | None => Err ErrNoDocuments
   end, w).
Proof.
  intros Hh Hr. destruct w as [oc tc uc c]. destruct tc as [gd grf gwf].
  simpl in *; subst.
  unfold TeamRepository_GetByID. rewrite Hh. simpl.
  unfold on_teams, FindOne, use_read. simpl.
  destruct (find (team_by_id id) gd); reflexivity.
Qed.

Lemma TeamRepository_AddMember_eval teamID userID role invitedBy w :
  ObjectIDFromHex teamID = true -> quiet (teams w) ->
  let filter := fun o => team_by_id teamID o && has_member userID (t_Members o) in
  let w' := snd (TeamRepository_AddMember teamID userID role invitedBy w) in
  fst (TeamRepository_AddMember teamID userID role invitedBy w) = Ok tt
  /\ quiet (teams w')
  /\ clock w' = (clock w + 1)%Z
  /\ docs (teams w') =
     if (0 <? length (List.filter filter (docs (teams w))))%nat
     then update_first filter
            (fun d => set_t_UpdatedAt (clock w)
               (set_t_Members (set_role_at_match userID role (t_Members d)) d))
            (docs (teams w))
     else update_first (team_by_id teamID)
            (fun d => set_t_UpdatedAt (clock w)
               (set_t_Members
                  (t_Members d ++ [mkMember userID role (clock w) invitedBy]) d))
            (docs (teams w)).
Proof.
  intros Hh [Hr Hw]. destruct w as [oc tc uc c]. destruct tc as [gd grf gwf].
  simpl in *; subst.
  unfold TeamRepository_AddMember. rewrite Hh. simpl.
  unfold bind, on_teams, CountDocuments, use_read. simpl.
  destruct (0 <? length _)%nat eqn:E; simpl;
    unfold UpdateOne, use_write; simpl;
    match goal with |- context [find ?f gd] =>
      destruct (find f gd) eqn:F end; simpl;
    unfold quiet; simpl; repeat split; auto;
    symmetry; apply update_first_none; exact F.
Qed.

Lemma TeamRepository_RemoveMember_eval teamID userID w o m :
  ObjectIDFromHex teamID = true -> quiet (teams w) ->
  find (team_by_id teamID) (docs (teams w)) = Some o ->
  GetMember (t_Members o) userID = Some m ->
  let w' := snd (TeamRepository_RemoveMember teamID userID w) in
  fst (TeamRepository_RemoveMember teamID userID w) = Ok tt
  /\ quiet (teams w')
  /\ docs (teams w') =
     update_first (team_by_id teamID)
       (fun d => set_t_UpdatedAt (clock w)
          (set_t_Members (pull_member userID (t_Members d)) d))
       (docs (teams w)).
Proof.
  intros Hh [Hr Hw] Hf Hm. destruct w as [oc tc uc c].
  destruct tc as [gd grf gwf]. simpl in *; subst.
  unfold TeamRepository_RemoveMember. rewrite Hh. simpl.
  unfold bind, on_teams, UpdateOne, use_write. simpl.
  rewrite Hf. simpl.
  match goal with |- context [Team_eq_dec ?x o] =>
    destruct (Team_eq_dec x o) as [Heq | Hne] end; simpl.
  - exfalso. apply (f_equal (fun x => length (t_Members x))) in Heq.
    unfold set_t_UpdatedAt, set_t_Members in Heq. simpl in Heq. pose proof (pull_member_shrinks _ _ _ Hm). lia.
  - unfold quiet; simpl. auto.
Qed.


(** Updating the role of a user who is not a member inserts the user. *)
Lemma UpdateTeamMember_inserts_absent_member
    w teamID memberID req updatedBy team :
  ObjectIDFromHex teamID = true -> quiet (teams w) ->
  the_document (team_by_id teamID) (teams w) team ->
  Team_HasRole team updatedBy [TeamRoleOwner; TeamRoleAdmin] = true ->
  Team_GetMember team memberID = None ->
  fst (TeamService_UpdateTeamMember teamID memberID req
         updatedBy w) = Ok tt /\
  the_document (team_by_id teamID)
    (teams
       (snd (TeamService_UpdateTeamMember teamID memberID req
               updatedBy w)))
    (set_t_UpdatedAt (clock w)
       (set_t_Members
          (t_Members team
           ++ [mkMember memberID (utmr_Role req) (clock w) updatedBy]) team)).
Proof.
  intros Hh Hq Hdoc Hrole Habs.
  pose proof (find_filter_single _ _ _ Hdoc) as Hfind.
  assert ((memberID =? updatedBy) = false) as Hne.
  { apply String.eqb_neq. intros ->.
    unfold Team_HasRole, Team_GetMember in *.
    rewrite (HasRole_GetMember_none _ _ _ Habs) in Hrole. discriminate. }
  unfold TeamService_UpdateTeamMember.
  rewrite bind_eq, found_or_fst, found_or_snd.
  rewrite TeamRepository_GetByID_eval by (auto; apply Hq).
  rewrite Hfind. simpl. rewrite Hrole. simpl.
  rewrite Habs, Hne. simpl. rewrite bind_eq. simpl.
  destruct (TeamRepository_AddMember_eval teamID memberID
              (utmr_Role req) updatedBy w Hh Hq) as (E & Q & C & D).
  rewrite bind_eq, E. simpl. rewrite ?bind_eq. simpl.
  split; [reflexivity |].
  unfold the_document.
  rewrite reads_only_teams_docs
    by apply reads_only_TeamRepository_GetByID.
  rewrite D.
  rewrite (filter_and_single _ (fun o => has_member memberID (t_Members o))
             _ _ Hdoc).
  cbv beta. unfold Team_GetMember in Habs.
  rewrite (GetMember_none _ _ Habs). simpl.
  apply (filter_update_first _ _
           (fun d => set_t_UpdatedAt (clock w)
              (set_t_Members
                 (t_Members d
                  ++ [mkMember memberID (utmr_Role req) (clock w) updatedBy]) d))
           _ team); auto.
Qed.

(** The stored document after the repository's AddMember. *)
Lemma TeamRepository_AddMember_existing
    w teamID userID role invitedBy team m :
  ObjectIDFromHex teamID = true -> quiet (teams w) ->
  the_document (team_by_id teamID) (teams w) team ->
  GetMember (t_Members team) userID = Some m ->
  fst (TeamRepository_AddMember teamID userID role invitedBy w) = Ok tt /\
  the_document (team_by_id teamID)
    (teams
       (snd (TeamRepository_AddMember teamID userID role invitedBy w)))
    (set_t_UpdatedAt (clock w)
       (set_t_Members (set_role_at_match userID role (t_Members team)) team)).
Proof.
  intros Hh Hq Hdoc Hm.
  destruct (TeamRepository_AddMember_eval teamID userID role invitedBy
              w Hh Hq) as (E & Q & C & D).
  split; [exact E |]. unfold the_document. rewrite D.
  pose proof (GetMember_has_member _ _ _ Hm) as Hhas.
  rewrite (filter_and_single _ (fun o => has_member userID (t_Members o))
             _ _ Hdoc).
  cbv beta. rewrite Hhas. simpl.
  apply (filter_update_first _ _
           (fun d => set_t_UpdatedAt (clock w)
              (set_t_Members (set_role_at_match userID role (t_Members d)) d))
           _ team); auto.
  - apply (find_and_single _ (fun o => has_member userID (t_Members o)));
      auto.
  - intros x Hx. apply andb_prop in Hx. tauto.
Qed.

Lemma TeamRepository_AddMember_new
    w teamID userID role invitedBy team :
  ObjectIDFromHex teamID = true -> quiet (teams w) ->
  the_document (team_by_id teamID) (teams w) team ->
  GetMember (t_Members team) userID = None ->
  fst (TeamRepository_AddMember teamID userID role invitedBy w) = Ok tt /\
  the_document (team_by_id teamID)
    (teams
       (snd (TeamRepository_AddMember teamID userID role invitedBy w)))
    (set_t_UpdatedAt (clock w)
       (set_t_Members
          (t_Members team ++ [mkMember userID role (clock w) invitedBy]) team)).
Proof.
  intros Hh Hq Hdoc Hm.
  destruct (TeamRepository_AddMember_eval teamID userID role invitedBy
              w Hh Hq) as (E & Q & C & D).
  split; [exact E |]. unfold the_document. rewrite D.
  rewrite (filter_and_single _ (fun o => has_member userID (t_Members o))
             _ _ Hdoc).
  cbv beta. rewrite (GetMember_none _ _ Hm). simpl.
  apply (filter_update_first _ _
           (fun d => set_t_UpdatedAt (clock w)
              (set_t_Members
                 (t_Members d ++ [mkMember userID role (clock w) invitedBy]) d))
           _ team); auto.
  apply find_filter_single, Hdoc.
Qed.

(** The outcome of RemoveTeamMember when the store does not fail:
    the two checks of the code, in their order, then the removal. *)
Lemma RemoveTeamMember_outcome w teamID memberID removedBy team target :
  ObjectIDFromHex teamID = true -> quiet (teams w) ->
  the_document (team_by_id teamID) (teams w) team ->
  Team_GetMember team memberID = Some target ->
  let isOwner := Team_HasRole team removedBy [TeamRoleOwner] in
  let isAdmin := Team_HasRole team removedBy [TeamRoleAdmin] in
  let isSelf := removedBy =? memberID in
  let call := TeamService_RemoveTeamMember teamID memberID
                removedBy w in
  if negb isOwner && negb isSelf
     && ((m_Role target =? TeamRoleOwner)
         || (negb isAdmin && (m_Role target =? TeamRoleAdmin)))
  then fst call = Err (ErrNew
         "insufficient permissions to remove this team member")
  else if (m_Role target =? TeamRoleOwner)
          && (ownerCount TeamRoleOwner (t_Members team) <=? 1)%nat
  then fst call = Err (ErrNew "cannot remove the only team owner")
  else fst call = Ok tt /\
       the_document (team_by_id teamID) (teams (snd call))
         (set_t_UpdatedAt (clock w)
            (set_t_Members (pull_member memberID (t_Members team)) team)).
Proof.
  intros Hh Hq Hdoc Ht. cbv zeta.
  pose proof (find_filter_single _ _ _ Hdoc) as Hfind.
  unfold TeamService_RemoveTeamMember.
  rewrite bind_eq, found_or_fst, found_or_snd.
  rewrite TeamRepository_GetByID_eval by (auto; apply Hq).
  rewrite Hfind. simpl. rewrite Ht.
  destruct (negb _ && negb _ && _); [reflexivity |].
  destruct (_ && _); [reflexivity |].
  destruct (TeamRepository_RemoveMember_eval teamID memberID w team
              target Hh Hq Hfind Ht) as (E & Q & D).
  rewrite bind_eq, E. simpl. rewrite ?bind_eq. simpl.
  split; [reflexivity |]. unfold the_document.
  rewrite RemoveTeamFromUser_keeps_teams, D.
  apply (filter_update_first _ _
           (fun d => set_t_UpdatedAt (clock w)
              (set_t_Members (pull_member memberID (t_Members d)) d))
           _ team); auto.
Qed.

(** Whatever the store does, removing the only owner returns an error. *)
Lemma RemoveTeamMember_sole_owner
    w teamID memberID removedBy team target :
  find (team_by_id teamID) (docs (teams w)) = Some team ->
  Team_GetMember team memberID = Some target ->
  m_Role target = TeamRoleOwner ->
  ownerCount TeamRoleOwner (t_Members team) = 1%nat ->
  exists e,
    fst (TeamService_RemoveTeamMember teamID memberID
           removedBy w) = Err e.
Proof.
  intros Hfind Ht Hr Hc.
  unfold TeamService_RemoveTeamMember.
  rewrite bind_eq, found_or_fst.
  destruct (fst (TeamRepository_GetByID teamID w)) as [o | e] eqn:E.
  - apply TeamRepository_GetByID_found in E.
    assert (o = team) as -> by congruence.
    simpl. rewrite Ht, Hr, Hc. simpl.
    destruct (negb _ && negb _ && _); simpl; eauto.
  - destruct e; simpl; eauto.
Qed.

(** Whatever the store does, lowering the role of the only owner returns
    an error. *)
Lemma UpdateTeamMember_sole_owner
    w teamID memberID req updatedBy team target :
  find (team_by_id teamID) (docs (teams w)) = Some team ->
  Team_GetMember team memberID = Some target ->
  m_Role target = TeamRoleOwner ->
  ownerCount TeamRoleOwner (t_Members team) = 1%nat ->
  utmr_Role req <> TeamRoleOwner ->
  exists e,
    fst (TeamService_UpdateTeamMember teamID memberID req
           updatedBy w) = Err e.
Proof.
  intros Hfind Ht Hr Hc Hnew.
  unfold TeamService_UpdateTeamMember.
  rewrite bind_eq, found_or_fst.
  destruct (fst (TeamRepository_GetByID teamID w)) as [o | e] eqn:E.
  - apply TeamRepository_GetByID_found in E.
    assert (o = team) as -> by congruence.
    simpl. destruct (negb _); simpl; eauto.
    rewrite Ht, Hr. simpl.
    destruct (Team_HasRole team updatedBy [TeamRoleOwner]) eqn:Ho;
      simpl; eauto.
    apply HasRole_owner in Ho. destruct Ho as (m' & Hm' & Rm').
    destruct (GetMember_some _ _ _ Hm') as [Hin' Hid'].
    destruct (GetMember_some _ _ _ Ht) as [Hin Hid].
    assert (m' = target) as -> by (eapply sole_owner_unique; eauto).
    assert (memberID = updatedBy) as -> by congruence.
    rewrite String.eqb_refl, bind_eq. simpl.
    apply String.eqb_neq in Hnew. rewrite Hnew, Hc. simpl. eauto.
  - destruct e; simpl; eauto.
Qed.


(* ===================================================================== *)
(** * One entry per user *)
(* ===================================================================== *)

Lemma unique_set_role userID role ms :
  unique_members ms -> unique_members (set_role_at_match userID role ms).
Proof. unfold unique_members. rewrite set_role_at_match_ids. auto. Qed.

Lemma unique_pull userID ms :
  unique_members ms -> unique_members (pull_member userID ms).
Proof.
  unfold unique_members, pull_member. induction ms as [| x r IH]; simpl; auto.
  intros H. inversion H as [| ? ? Hx Hr]; subst.
  destruct (negb (m_UserID x =? userID)); simpl; auto.
  constructor; auto. intros Hin. apply Hx.
  apply in_map_iff in Hin. destruct Hin as (y & Hy & Hin).
  apply filter_In in Hin. rewrite <- Hy. apply in_map. tauto.
Qed.

Lemma unique_push userID role joined invitedBy ms :
  has_member userID ms = false -> unique_members ms ->
  unique_members (ms ++ [mkMember userID role joined invitedBy]).
Proof.
  unfold unique_members, has_member. induction ms as [| x r IH]; simpl.
  - intros _ _. constructor; [simpl; tauto | constructor].
  - intros Hh H. apply orb_false_elim in Hh. destruct Hh as [Hx Hr].
    inversion H as [| ? ? Hnin Hnd]; subst. constructor; auto.
    rewrite map_app. simpl. intros Hin. apply in_app_or in Hin.
    destruct Hin as [Hin | [Heq | []]]; [tauto |].
    apply String.eqb_neq in Hx. congruence.
Qed.

Lemma unique_remove_first userID ms ms' :
  remove_first_member ms userID = Some ms' ->
  unique_members ms -> unique_members ms'.
Proof.
  unfold unique_members. revert ms'.
  induction ms as [| x r IH]; simpl; [discriminate |].
  intros ms'. destruct (m_UserID x =? userID).
  - intros E H; inversion E; subst. inversion H; auto.
  - destruct (remove_first_member r userID) as [r' |] eqn:R; [| discriminate].
    intros E H; inversion E; subst. inversion H as [| ? ? Hx Hr]; subst.
    simpl. constructor; auto.
    intros Hin. apply Hx. clear - R Hin.
    revert r' R Hin. induction r as [| y r IH]; simpl; [discriminate |].
    intros r'. destruct (m_UserID y =? userID).
    + intros E; inversion E; subst. auto.
    + destruct (remove_first_member r userID) as [q |]; [| discriminate].
      intros E; inversion E; subst. simpl. intros [H | H]; eauto.
Qed.

Lemma Forall_update_first {A} (P : A -> Prop) f upd (l : list A) :
  (forall d, In d l -> f d = true -> P d -> P (upd d)) ->
  Forall P l -> Forall P (update_first f upd l).
Proof.
  induction l as [| x r IH]; simpl; auto.
  intros H F. inversion F; subst. destruct (f x) eqn:E.
  - constructor; auto.
  - constructor; auto.
Qed.

Lemma Forall_delete_first {A} (P : A -> Prop) f (l : list A) :
  Forall P l -> Forall P (delete_first f l).
Proof.
  induction l as [| x r IH]; simpl; auto.
  intros F. inversion F; subst. destruct (f x); auto.
Qed.

Lemma filter_nil_false {A} (f : A -> bool) l d :
  length (List.filter f l) = 0%nat -> In d l -> f d = false.
Proof.
  intros H Hin. destruct (f d) eqn:E; auto.
  assert (In d (List.filter f l)) as Hf by (apply filter_In; auto).
  destruct (List.filter f l); [destruct Hf | discriminate].
Qed.

Lemma members_unique_organizations w :
  members_unique w ->
  Forall (fun o => unique_members (o_Members o)) (docs (organizations w)).
Proof. intros [H _]. exact H. Qed.

Lemma members_unique_teams w :
  members_unique w ->
  Forall (fun t => unique_members (t_Members t)) (docs (teams w)).
Proof. intros [_ H]. exact H. Qed.

Lemma keeps_reads_only {A} (m : M A) : reads_only m -> keeps m.
Proof.
  intros H w I. specialize (H w). unfold store in H.
  unfold members_unique in *.
  assert (docs (organizations (snd (m w))) = docs (organizations w))
    as -> by congruence.
  assert (docs (teams (snd (m w))) = docs (teams w)) as -> by congruence.
  exact I.
Qed.

Lemma keeps_bind {A B} (m : M A) (k : A -> M B) :
  keeps m -> (forall a, keeps (k a)) -> keeps (bind m k).
Proof.
  intros Hm Hk w I. rewrite bind_eq.
  destruct (fst (m w)) as [a | e]; simpl; auto. apply Hk, Hm, I.
Qed.

(** The continuation may rely on what holds of a returned value. *)
Lemma keeps_bind_value {A B} (Q : A -> Prop) (m : M A) (k : A -> M B) :
  (forall w a, members_unique w -> fst (m w) = Ok a -> Q a) ->
  keeps m -> (forall a, Q a -> keeps (k a)) -> keeps (bind m k).
Proof.
  intros HQ Hm Hk w I. rewrite bind_eq.
  destruct (fst (m w)) as [a | e] eqn:E; simpl; auto.
  apply Hk; [eapply HQ; eauto | apply Hm, I].
Qed.

Lemma keeps_logged {A} (m : M A) : keeps m -> keeps (logged m).
Proof. intros H w I. apply H, I. Qed.

Lemma keeps_found_or {A} msg (m : M A) : keeps m -> keeps (found_or msg m).
Proof. intros H w I. rewrite found_or_snd. apply H, I. Qed.

Lemma keeps_for_each_logged {A B} (xs : list A) (step : A -> M B) :
  (forall x, keeps (step x)) -> keeps (for_each_logged xs step).
Proof.
  intros H. induction xs as [| x r IH]; simpl.
  - apply keeps_reads_only, reads_only_ret.
  - apply keeps_bind; [apply keeps_logged, H | intros _; exact IH].
Qed.

Lemma keeps_on_users {A} (f : Coll User -> result A * Coll User) :
  keeps (on_users f).
Proof. intros w I. rewrite on_users_snd. exact I. Qed.

Lemma keeps_org_UpdateOne f upd :
  (forall d, unique_members (o_Members d) -> unique_members (o_Members (upd d))) ->
  keeps (on_organizations (UpdateOne Organization_eq_dec f upd)).
Proof.
  intros H w [Io It]. rewrite on_organizations_snd. split; simpl; auto.
  destruct (UpdateOne_docs Organization_eq_dec f upd (organizations w))
    as [-> | ->]; auto.
  apply Forall_update_first; auto.
Qed.

Lemma keeps_team_UpdateOne f upd :
  (forall d, unique_members (t_Members d) -> unique_members (t_Members (upd d))) ->
  keeps (on_teams (UpdateOne Team_eq_dec f upd)).
Proof.
  intros H w [Io It]. rewrite on_teams_snd. split; simpl; auto.
  destruct (UpdateOne_docs Team_eq_dec f upd (teams w)) as [-> | ->]; auto.
  apply Forall_update_first; auto.
Qed.

Lemma keeps_org_DeleteOne f : keeps (on_organizations (DeleteOne f)).
Proof.
  intros w [Io It]. rewrite on_organizations_snd. split; simpl; auto.
  destruct (DeleteOne_docs f (organizations w)) as [-> | ->]; auto.
  apply Forall_delete_first; auto.
Qed.

Lemma keeps_team_DeleteOne f : keeps (on_teams (DeleteOne f)).
Proof.
  intros w [Io It]. rewrite on_teams_snd. split; simpl; auto.
  destruct (DeleteOne_docs f (teams w)) as [-> | ->]; auto.
  apply Forall_delete_first; auto.
Qed.

Lemma keeps_org_InsertOne d :
  unique_members (o_Members d) -> keeps (on_organizations (InsertOne o_ID d)).
Proof.
  intros H w [Io It]. rewrite on_organizations_snd. split; simpl; auto.
  destruct (InsertOne_docs o_ID d (organizations w)) as [-> | ->]; auto.
  apply Forall_app. auto.
Qed.

Lemma keeps_team_InsertOne d :
  unique_members (t_Members d) -> keeps (on_teams (InsertOne t_ID d)).
Proof.
  intros H w [Io It]. rewrite on_teams_snd. split; simpl; auto.
  destruct (InsertOne_docs t_ID d (teams w)) as [-> | ->]; auto.
  apply Forall_app. auto.
Qed.

Create HintDb inv discriminated.

#[local] Hint Resolve keeps_bind keeps_logged keeps_found_or
  keeps_for_each_logged keeps_on_users keeps_org_DeleteOne
  keeps_team_DeleteOne : inv.
#[local] Hint Extern 1 (keeps (if ?b then _ else _)) => destruct b : inv.
#[local] Hint Extern 1 (keeps (match ?x with _ => _ end)) => destruct x : inv.
#[local] Hint Extern 3 (keeps _) =>
  apply keeps_reads_only; solve [auto 20 with go] : inv.

Lemma keeps_user_write (f : User -> bool) (upd : Z -> User -> User) :
  keeps (now <- with_clock time_Now ;;
         on_users (UpdateOne User_eq_dec f (upd now)) ;;;
         ret tt).
Proof. eauto 10 with inv. Qed.

Lemma keeps_AddOrganizationToUser userId organizationId :
  keeps (UserRepository_AddOrganizationToUser userId organizationId).
Proof. unfold UserRepository_AddOrganizationToUser. eauto 10 with inv. Qed.

Lemma keeps_RemoveOrganizationFromUser userId organizationId :
  keeps (UserRepository_RemoveOrganizationFromUser userId organizationId).
Proof. unfold UserRepository_RemoveOrganizationFromUser. eauto 10 with inv. Qed.

Lemma keeps_AddTeamToUser userId teamId :
  keeps (UserRepository_AddTeamToUser userId teamId).
Proof. unfold UserRepository_AddTeamToUser. eauto 10 with inv. Qed.

Lemma keeps_RemoveTeamFromUser userId teamId :
  keeps (UserRepository_RemoveTeamFromUser userId teamId).
Proof. unfold UserRepository_RemoveTeamFromUser. eauto 10 with inv. Qed.

Lemma keeps_OrganizationRepository_Delete id :
  keeps (OrganizationRepository_Delete id).
Proof. unfold OrganizationRepository_Delete. eauto 10 with inv. Qed.

Lemma keeps_TeamRepository_Delete id : keeps (TeamRepository_Delete id).
Proof. unfold TeamRepository_Delete. eauto 10 with inv. Qed.

Lemma keeps_OrganizationRepository_RemoveMember orgID userID :
  keeps (OrganizationRepository_RemoveMember orgID userID).
Proof.
  unfold OrganizationRepository_RemoveMember.
  destruct (negb _); [eauto with inv |].
  apply keeps_bind; [eauto with inv | intros now].
  apply keeps_bind; [| intros r; eauto with inv].
  apply keeps_org_UpdateOne. intros d. apply unique_pull.
Qed.

Lemma keeps_TeamRepository_RemoveMember teamID userID :
  keeps (TeamRepository_RemoveMember teamID userID).
Proof.
  unfold TeamRepository_RemoveMember.
  destruct (negb _); [eauto with inv |].
  apply keeps_bind; [eauto with inv | intros now].
  apply keeps_bind; [| intros r; eauto with inv].
  apply keeps_team_UpdateOne. intros d. apply unique_pull.
Qed.

Lemma keeps_OrganizationRepository_AddTeam orgID teamID :
  keeps (OrganizationRepository_AddTeam orgID teamID).
Proof.
  unfold OrganizationRepository_AddTeam.
  destruct (negb _); [eauto with inv |].
  apply keeps_bind; [eauto with inv | intros now].
  apply keeps_bind; [| intros r; eauto with inv].
  apply keeps_org_UpdateOne. intros d H. exact H.
Qed.

Lemma keeps_OrganizationRepository_RemoveTeam orgID teamID :
  keeps (OrganizationRepository_RemoveTeam orgID teamID).
Proof.
  unfold OrganizationRepository_RemoveTeam.
  destruct (negb _); [eauto with inv |].
  apply keeps_bind; [eauto with inv | intros now].
  apply keeps_bind; [| intros r; eauto with inv].
  apply keeps_org_UpdateOne. intros d H. exact H.
Qed.


Lemma org_UpdateOne_unique f upd w :
  members_unique w ->
  (forall d, In d (docs (organizations w)) -> f d = true ->
             unique_members (o_Members d) ->
             unique_members (o_Members (upd d))) ->
  members_unique
    (snd (on_organizations (UpdateOne Organization_eq_dec f upd) w)).
Proof.
  intros [Io It] H. rewrite on_organizations_snd. split; simpl; auto.
  destruct (UpdateOne_docs Organization_eq_dec f upd (organizations w))
    as [-> | ->]; auto.
  apply Forall_update_first; auto.
Qed.

Lemma keeps_OrganizationRepository_AddMember orgID userID role invitedBy :
  keeps (OrganizationRepository_AddMember orgID userID role invitedBy).
Proof.
  unfold OrganizationRepository_AddMember.
  destruct (negb _); [eauto with inv |].
  intros w I. rewrite bind_eq, on_organizations_fst.
  assert (members_unique (snd (on_organizations
            (CountDocuments (fun o => org_by_id orgID o
                                      && has_member userID (o_Members o))) w)))
    as I1 by (revert I; apply keeps_reads_only; auto with go).
  assert (docs (organizations (snd (on_organizations
            (CountDocuments (fun o => org_by_id orgID o
                                      && has_member userID (o_Members o))) w)))
          = docs (organizations w)) as Hd
    by (apply reads_only_organizations_docs; auto with go).
  destruct (fst (CountDocuments _ (organizations w))) as [n | e] eqn:E;
    simpl; auto.
  apply CountDocuments_count in E.
  destruct (0 <? n)%nat eqn:Z.
  - revert I1. generalize (snd (on_organizations
            (CountDocuments (fun o => org_by_id orgID o
                                      && has_member userID (o_Members o))) w)).
    apply keeps_bind; [eauto with inv | intros now].
    apply keeps_bind; [| intros r; eauto with inv].
    apply keeps_org_UpdateOne. intros d. apply unique_set_role.
  - apply Nat.ltb_ge in Z. assert (n = 0%nat) as -> by lia.
    rewrite bind_eq. unfold with_clock at 1 2 3. simpl.
    rewrite bind_eq.
    match goal with |- members_unique (snd (match fst (?m ?w1) with _ => _ end)) =>
      assert (members_unique (snd (m w1))) as I2 end.
    { apply org_UpdateOne_unique.
      - destruct I1 as [Io It]. split; simpl; auto.
      - simpl. rewrite Hd. intros d Hin Hid Hu.
        unfold set_o_UpdatedAt, set_o_Members; simpl.
        apply unique_push; auto.
        pose proof (filter_nil_false _ _ d (eq_sym E) Hin) as F.
        simpl in F. rewrite Hid in F. exact F. }
    destruct (fst _); simpl; exact I2.
Qed.

Lemma keeps_OrganizationRepository_Update org :
  unique_members (o_Members org) -> keeps (OrganizationRepository_Update org).
Proof.
  intros U. unfold OrganizationRepository_Update.
  destruct (negb _); [eauto with inv |].
  apply keeps_bind; [eauto with inv | intros existing].
  destruct (match existing with Some _ => _ | None => _ end);
    [eauto with inv |].
  apply keeps_bind; [eauto with inv | intros now].
  apply keeps_bind; [| intros r; eauto with inv].
  apply keeps_org_UpdateOne. intros d _. exact U.
Qed.

Lemma keeps_OrganizationRepository_Create org :
  unique_members (o_Members org) -> keeps (OrganizationRepository_Create org).
Proof.
  intros U. unfold OrganizationRepository_Create.
  apply keeps_bind; [eauto with inv | intros existing].
  destruct existing; [eauto with inv |].
  apply keeps_bind; [| intros r; eauto with inv].
  apply keeps_org_InsertOne, U.
Qed.

Lemma OrganizationRepository_GetByID_unique msg id w org :
  members_unique w ->
  fst (found_or msg (OrganizationRepository_GetByID id) w) = Ok org ->
  unique_members (o_Members org).
Proof.
  intros I. pose proof (members_unique_organizations _ I) as Io.
  rewrite found_or_fst.
  destruct (fst (OrganizationRepository_GetByID id w)) as [o | e] eqn:E.
  - intros H; inversion H; subst.
    apply OrganizationRepository_GetByID_found in E. apply find_some in E.
    rewrite Forall_forall in Io. apply Io. tauto.
  - destruct e; discriminate.
Qed.


Lemma team_UpdateOne_unique f upd w :
  members_unique w ->
  (forall d, In d (docs (teams w)) -> f d = true ->
             unique_members (t_Members d) ->
             unique_members (t_Members (upd d))) ->
  members_unique
    (snd (on_teams (UpdateOne Team_eq_dec f upd) w)).
Proof.
  intros [Io It] H. rewrite on_teams_snd. split; simpl; auto.
  destruct (UpdateOne_docs Team_eq_dec f upd (teams w))
    as [-> | ->]; auto.
  apply Forall_update_first; auto.
Qed.

Lemma keeps_TeamRepository_AddMember teamID userID role invitedBy :
  keeps (TeamRepository_AddMember teamID userID role invitedBy).
Proof.
  unfold TeamRepository_AddMember.
  destruct (negb _); [eauto with inv |].
  intros w I. rewrite bind_eq, on_teams_fst.
  assert (members_unique (snd (on_teams
            (CountDocuments (fun o => team_by_id teamID o
                                      && has_member userID (t_Members o))) w)))
    as I1 by (revert I; apply keeps_reads_only; auto with go).
  assert (docs (teams (snd (on_teams
            (CountDocuments (fun o => team_by_id teamID o
                                      && has_member userID (t_Members o))) w)))
          = docs (teams w)) as Hd
    by (apply reads_only_teams_docs; auto with go).
  destruct (fst (CountDocuments _ (teams w))) as [n | e] eqn:E;
    simpl; auto.
  apply CountDocuments_count in E.
  destruct (0 <? n)%nat eqn:Z.
  - revert I1. generalize (snd (on_teams
            (CountDocuments (fun o => team_by_id teamID o
                                      && has_member userID (t_Members o))) w)).
    apply keeps_bind; [eauto with inv | intros now].
    apply keeps_bind; [| intros r; eauto with inv].
    apply keeps_team_UpdateOne. intros d. apply unique_set_role.
  - apply Nat.ltb_ge in Z. assert (n = 0%nat) as -> by lia.
    rewrite bind_eq. unfold with_clock at 1 2 3. simpl.
    rewrite bind_eq.
    match goal with |- members_unique (snd (match fst (?m ?w1) with _ => _ end)) =>
      assert (members_unique (snd (m w1))) as I2 end.
    { apply team_UpdateOne_unique.
      - destruct I1 as [Io It]. split; simpl; auto.
      - simpl. rewrite Hd. intros d Hin Hid Hu.
        unfold set_t_UpdatedAt, set_t_Members; simpl.
        apply unique_push; auto.
        pose proof (filter_nil_false _ _ d (eq_sym E) Hin) as F.
        simpl in F. rewrite Hid in F. exact F. }
    destruct (fst _); simpl; exact I2.
Qed.

Lemma keeps_TeamRepository_Update team :
  unique_members (t_Members team) -> keeps (TeamRepository_Update team).
Proof.
  intros U. unfold TeamRepository_Update.
  destruct (negb _); [eauto with inv |].
  apply keeps_bind; [eauto with inv | intros existing].
  destruct (match existing with Some _ => _ | None => _ end);
    [eauto with inv |].
  apply keeps_bind; [eauto with inv | intros now].
  apply keeps_bind; [| intros r; eauto with inv].
  apply keeps_team_UpdateOne. intros d _. exact U.
Qed.

Lemma keeps_TeamRepository_Create team :
  unique_members (t_Members team) -> keeps (TeamRepository_Create team).
Proof.
  intros U. unfold TeamRepository_Create.
  apply keeps_bind; [eauto with inv | intros existing].
  destruct existing; [eauto with inv |].
  apply keeps_bind; [| intros r; eauto with inv].
  apply keeps_team_InsertOne, U.
Qed.

Lemma TeamRepository_GetByID_unique msg id w team :
  members_unique w ->
  fst (found_or msg (TeamRepository_GetByID id) w) = Ok team ->
  unique_members (t_Members team).
Proof.
  intros I. pose proof (members_unique_teams _ I) as Io.
  rewrite found_or_fst.
  destruct (fst (TeamRepository_GetByID id w)) as [o | e] eqn:E.
  - intros H; inversion H; subst.
    apply TeamRepository_GetByID_found in E. apply find_some in E.
    rewrite Forall_forall in Io. apply Io. tauto.
  - destruct e; discriminate.
Qed.


(* ===================================================================== *)
(** * The "user created" event *)
(* ===================================================================== *)

Lemma find_count_zero {A} (f : A -> bool) l :
  length (List.filter f l) = 0%nat -> find f l = None.
Proof.
  induction l as [| x r IH]; simpl; auto.
  destruct (f x); simpl; [discriminate | auto].
Qed.

Lemma count_zero_find {A} (f : A -> bool) l :
  find f l = None -> length (List.filter f l) = 0%nat.
Proof.
  induction l as [| x r IH]; simpl; auto.
  destruct (f x); simpl; [discriminate | auto].
Qed.

Lemma count_users_app userId l u :
  count_users userId (l ++ [u]) =
  (count_users userId l + if user_by_userId userId u then 1 else 0)%nat.
Proof.
  unfold count_users. rewrite filter_app, length_app. simpl.
  destruct (user_by_userId userId u); reflexivity.
Qed.

Lemma find_app_new {A} (f : A -> bool) l d :
  find f l = None -> f d = true -> find f (l ++ [d]) = Some d.
Proof.
  induction l as [| x r IH]; simpl.
  - intros _ ->. reflexivity.
  - destruct (f x); [discriminate | auto].
Qed.

Lemma reads_only_users_docs {A} (m : M A) w :
  reads_only m -> docs (users (snd (m w))) = docs (users w).
Proof. intros H. specialize (H w). unfold store in H. congruence. Qed.

(** The first delivery, the identity being new and the store sound. *)
Lemma ProcessAuthUserCreated_first uuid event data w :
  e_Data event = DataMap data -> required_fields_present data = true ->
  quiet (users w) ->
  count_users (string_field "id" data) (docs (users w)) = 0%nat ->
  find (fun u => u_Email u =? string_field "email" data) (docs (users w))
    = None ->
  existsb (fun u => u_ID u =? uuid) (docs (users w)) = false ->
  UserService_ProcessAuthUserCreated uuid event w =
  (Ok tt,
   mkWorld (organizations w) (teams w)
     (mkColl (docs (users w)
              ++ [fst (NewUser uuid
                         (mkCreateUserRequest (string_field "id" data)
                            (string_field "email" data)
                            (string_field "firstName" data)
                            (string_field "lastName" data)
                            (role_of_payload data)) (clock w))])
        [] [])
     (clock w + 1)).
Proof.
  intros Hd Hreq [Hr Hw] Hc He Hu.
  destruct w as [oc tc uc c]. destruct uc as [ud urf uwf]. simpl in *. subst.
  unfold UserService_ProcessAuthUserCreated. rewrite Hd.
  unfold required_fields_present in Hreq. apply negb_true_iff in Hreq.
  rewrite Hreq.
  apply find_count_zero in Hc.
  unfold bind, lookup, UserRepository_GetByUserId, on_users, FindOne, use_read.
  simpl. rewrite Hc. simpl.
  unfold UserService_CreateUser, UserRepository_Create, bind, with_clock,
    lookup, UserRepository_GetByUserId, UserRepository_GetByEmail, on_users,
    FindOne, use_read. simpl.
  rewrite Hc. simpl. rewrite He. simpl.
  unfold InsertOne, use_write. simpl. rewrite Hu. reflexivity.
Qed.

(** A delivery for a user who exists, the reads not failing. *)
Lemma ProcessAuthUserCreated_existing uuid event data w u :
  e_Data event = DataMap data -> required_fields_present data = true ->
  find (user_by_userId (string_field "id" data)) (docs (users w)) = Some u ->
  read_faults (users w) = [] ->
  UserService_ProcessAuthUserCreated uuid event w = (Ok tt, w).
Proof.
  intros Hd Hreq Hf Hr.
  destruct w as [oc tc uc c]. destruct uc as [ud urf uwf]. simpl in *. subst.
  unfold UserService_ProcessAuthUserCreated. rewrite Hd.
  unfold required_fields_present in Hreq. apply negb_true_iff in Hreq.
  rewrite Hreq.
  unfold bind, lookup, UserRepository_GetByUserId, on_users, FindOne, use_read.
  simpl. rewrite Hf. reflexivity.
Qed.

(** A delivery for a new userId whose email another user holds. *)
Lemma ProcessAuthUserCreated_email_taken uuid event data w u :
  e_Data event = DataMap data -> required_fields_present data = true ->
  read_faults (users w) = [] ->
  count_users (string_field "id" data) (docs (users w)) = 0%nat ->
  find (fun u => u_Email u =? string_field "email" data) (docs (users w))
    = Some u ->
  fst (UserService_ProcessAuthUserCreated uuid event w)
    = Err (ErrNew "user with this email already exists") /\
  store (snd (UserService_ProcessAuthUserCreated uuid event w)) = store w.
Proof.
  intros Hd Hreq Hr Hc He.
  destruct w as [oc tc uc c]. destruct uc as [ud urf uwf]. simpl in *. subst.
  unfold UserService_ProcessAuthUserCreated. rewrite Hd.
  unfold required_fields_present in Hreq. apply negb_true_iff in Hreq.
  rewrite Hreq.
  apply find_count_zero in Hc.
  unfold bind, lookup, UserRepository_GetByUserId, on_users, FindOne, use_read.
  simpl. rewrite Hc. simpl.
  unfold UserService_CreateUser, UserRepository_Create, bind, with_clock,
    lookup, UserRepository_GetByUserId, UserRepository_GetByEmail, on_users,
    FindOne, use_read. simpl.
  rewrite Hc. simpl. rewrite He. simpl. split; reflexivity.
Qed.

Lemma ProcessAuthUserCreated_malformed uuid event w :
  match e_Data event with
  | DataMap data => required_fields_present data = false
  | DataOther => True
  end ->
  exists msg,
    UserService_ProcessAuthUserCreated uuid event w = (Err (ErrNew msg), w).
Proof.
  unfold UserService_ProcessAuthUserCreated.
  destruct (e_Data event) as [data |].
  - unfold required_fields_present. intros H. apply negb_false_iff in H.
    rewrite H. eexists. reflexivity.
  - intros _. eexists. reflexivity.
Qed.

Lemma UserRepository_Create_docs user w :
  docs (users (snd (UserRepository_Create user w))) = docs (users w) \/
  docs (users (snd (UserRepository_Create user w))) = docs (users w) ++ [user].
Proof.
  unfold UserRepository_Create.
  rewrite bind_eq.
  pose proof (reads_only_users_docs
                (lookup (UserRepository_GetByUserId (u_UserID user))) w) as H1.
  destruct (fst (lookup _ w)) as [[existing |] | e]; simpl;
    try (left; apply H1; auto with go).
  rewrite bind_eq.
  pose proof (reads_only_users_docs
                (lookup (UserRepository_GetByEmail (u_Email user)))
                (snd (lookup (UserRepository_GetByUserId (u_UserID user)) w)))
    as H2.
  rewrite H1 in H2 by auto with go.
  destruct (fst (lookup _ _)) as [[existing |] | e]; simpl;
    try (left; apply H2; auto with go).
  rewrite bind_eq, on_users_fst, on_users_snd.
  match goal with |- context [InsertOne u_ID user ?c] =>
    destruct (InsertOne_docs u_ID user c) as [E | E];
    destruct (fst (InsertOne u_ID user c)); simpl; rewrite E
  end; rewrite H2 by auto with go; auto.
Qed.

Lemma UserService_CreateUser_docs uuid req w :
  docs (users (snd (UserService_CreateUser uuid req w))) = docs (users w) \/
  exists u,
    u_UserID u = cur_UserID req /\
    docs (users (snd (UserService_CreateUser uuid req w)))
      = docs (users w) ++ [u].
Proof.
  unfold UserService_CreateUser. rewrite bind_eq.
  unfold with_clock, NewUser, cbind, time_Now, cret. simpl.
  match goal with |- context [UserRepository_Create ?user ?w1] =>
    destruct (UserRepository_Create_docs user w1) as [D | D]
  end; simpl in D; rewrite D; auto.
  right. eexists. split; [| reflexivity]. reflexivity.
Qed.

(** What a delivery does to the users, whatever the store does. *)
Lemma ProcessAuthUserCreated_users uuid event w :
  docs (users (snd (UserService_ProcessAuthUserCreated uuid event w)))
    = docs (users w) \/
  exists data u,
    e_Data event = DataMap data /\
    u_UserID u = string_field "id" data /\
    count_users (string_field "id" data) (docs (users w)) = 0%nat /\
    docs (users (snd (UserService_ProcessAuthUserCreated uuid event w)))
      = docs (users w) ++ [u].
Proof.
  unfold UserService_ProcessAuthUserCreated.
  destruct (e_Data event) as [data |] eqn:Hd; [| auto].
  destruct (_ || _ || _ || _); [auto |].
  rewrite bind_eq, lookup_fst, lookup_snd.
  pose proof (reads_only_users_docs
                (UserRepository_GetByUserId (string_field "id" data)) w
                (reads_only_UserRepository_GetByUserId _)) as H1.
  destruct (fst (UserRepository_GetByUserId (string_field "id" data) w))
    as [u | e] eqn:E; simpl; [left; exact H1 |].
  destruct e; simpl; try (left; exact H1).
  unfold UserRepository_GetByUserId in E. rewrite on_users_fst in E.
  apply FindOne_missing, count_zero_find in E.
  rewrite bind_eq.
  match goal with |- context [UserService_CreateUser uuid ?req ?w1] =>
    destruct (UserService_CreateUser_docs uuid req w1) as [D | (u & Hu & D)];
    destruct (fst (UserService_CreateUser uuid req w1)); simpl; rewrite D, H1
  end; auto.
  - right. exists data, u. auto.
  - right. exists data, u. auto.
Qed.

Lemma ProcessAuthUserCreated_at_most_one uuid event data w :
  e_Data event = DataMap data ->
  (count_users (string_field "id" data) (docs (users w)) <= 1)%nat ->
  (count_users (string_field "id" data)
     (docs (users (snd (UserService_ProcessAuthUserCreated uuid event w))))
   <= 1)%nat.
Proof.
  intros Hd Hc.
  destruct (ProcessAuthUserCreated_users uuid event w)
    as [-> | (data' & u & Hd' & Hu & Hz & ->)]; auto.
  assert (data' = data) as -> by congruence.
  rewrite count_users_app, Hz.
  destruct (user_by_userId _ u); simpl; lia.
Qed.


(* ===================================================================== *)
(** * The facade does not panic *)
(* ===================================================================== *)

Lemma calm_ret {A} (a : A) : calm (ret a).
Proof. intros w. discriminate. Qed.

Lemma calm_fail {A} e : e <> ErrPanic -> calm (@fail A e).
Proof. intros H w E. inversion E. auto. Qed.

Lemma calm_total {A} (m : M A) : total m -> calm m.
Proof. intros H w E. specialize (H w). rewrite E in H. discriminate. Qed.

Lemma calm_bind {A B} (m : M A) (k : A -> M B) :
  calm m -> (forall a, calm (k a)) -> calm (bind m k).
Proof.
  intros Hm Hk w. rewrite bind_eq.
  destruct (fst (m w)) as [a | e] eqn:E; simpl.
  - apply Hk.
  - intros H. inversion H; subst. apply (Hm w E).
Qed.

Lemma calm_found_or {A} msg (m : M A) : calm m -> calm (found_or msg m).
Proof.
  intros H w. rewrite found_or_fst. specialize (H w).
  destruct (fst (m w)) as [a | e]; [discriminate |].
  destruct e; try discriminate. exact H.
Qed.

Lemma calm_lookup {A} (m : M A) : calm m -> calm (lookup m).
Proof.
  intros H w. rewrite lookup_fst. specialize (H w).
  destruct (fst (m w)) as [a | e]; [discriminate |].
  destruct e; try discriminate. intros _. apply H. reflexivity.
Qed.

Lemma calm_FindOne {A} (f : A -> bool) c : fst (FindOne f c) <> Err ErrPanic.
Proof.
  intros E. destruct (FindOne_errors _ _ _ E); discriminate.
Qed.

Lemma calm_CountDocuments {A} (f : A -> bool) c :
  fst (CountDocuments f c) <> Err ErrPanic.
Proof. intros E. pose proof (CountDocuments_errors _ _ _ E). discriminate. Qed.

Lemma calm_UpdateOne {A} dec (f : A -> bool) upd c :
  fst (UpdateOne dec f upd c) <> Err ErrPanic.
Proof.
  intros E. destruct (UpdateOne_errors _ _ _ _ _ E). discriminate.
Qed.

Lemma calm_DeleteOne {A} (f : A -> bool) c : fst (DeleteOne f c) <> Err ErrPanic.
Proof. intros E. destruct (DeleteOne_errors _ _ _ E). discriminate. Qed.

Lemma calm_InsertOne {A} key (d : A) c :
  fst (InsertOne key d c) <> Err ErrPanic.
Proof.
  unfold InsertOne. destruct (use_write c) as [[|] c']; simpl; try discriminate.
  destruct (existsb _ _); discriminate.
Qed.

Lemma calm_on_organizations {A} (f : Coll Organization -> result A * _) :
  (forall c, fst (f c) <> Err ErrPanic) -> calm (on_organizations f).
Proof. intros H w. rewrite on_organizations_fst. apply H. Qed.

Lemma calm_on_teams {A} (f : Coll Team -> result A * _) :
  (forall c, fst (f c) <> Err ErrPanic) -> calm (on_teams f).
Proof. intros H w. rewrite on_teams_fst. apply H. Qed.

Lemma calm_on_users {A} (f : Coll User -> result A * _) :
  (forall c, fst (f c) <> Err ErrPanic) -> calm (on_users f).
Proof. intros H w. rewrite on_users_fst. apply H. Qed.

Create HintDb calm discriminated.

#[local] Hint Resolve calm_ret calm_bind calm_found_or calm_lookup
  calm_on_organizations calm_on_teams calm_on_users calm_FindOne
  calm_CountDocuments calm_UpdateOne calm_DeleteOne calm_InsertOne : calm.
#[local] Hint Extern 1 (calm (fail _)) =>
  apply calm_fail; discriminate : calm.
#[local] Hint Extern 1 (calm (logged _)) =>
  apply calm_total, total_logged : calm.
#[local] Hint Extern 1 (calm (with_clock _)) =>
  apply calm_total, total_with_clock : calm.
#[local] Hint Extern 1 (calm (for_each_logged _ _)) =>
  apply calm_total, total_for_each_logged : calm.
#[local] Hint Extern 1 (calm (if ?b then _ else _)) => destruct b : calm.
#[local] Hint Extern 1 (calm (match ?x with _ => _ end)) => destruct x : calm.
Lemma calm_OrganizationRepository_GetByID id : calm (OrganizationRepository_GetByID id).
Proof. unfold OrganizationRepository_GetByID. auto 15 with calm. Qed.
#[local] Hint Resolve calm_OrganizationRepository_GetByID : calm.

Lemma calm_OrganizationRepository_GetByName name : calm (OrganizationRepository_GetByName name).
Proof. unfold OrganizationRepository_GetByName. auto 15 with calm. Qed.
#[local] Hint Resolve calm_OrganizationRepository_GetByName : calm.

Lemma calm_OrganizationRepository_Create org : calm (OrganizationRepository_Create org).
Proof. unfold OrganizationRepository_Create. auto 15 with calm. Qed.
#[local] Hint Resolve calm_OrganizationRepository_Create : calm.

Lemma calm_OrganizationRepository_Update org : calm (OrganizationRepository_Update org).
Proof. unfold OrganizationRepository_Update. auto 15 with calm. Qed.
#[local] Hint Resolve calm_OrganizationRepository_Update : calm.

Lemma calm_OrganizationRepository_Delete id : calm (OrganizationRepository_Delete id).
Proof. unfold OrganizationRepository_Delete. auto 15 with calm. Qed.
#[local] Hint Resolve calm_OrganizationRepository_Delete : calm.

Lemma calm_OrganizationRepository_AddMember orgID userID role invitedBy : calm (OrganizationRepository_AddMember orgID userID role invitedBy).
Proof. unfold OrganizationRepository_AddMember. auto 15 with calm. Qed.
#[local] Hint Resolve calm_OrganizationRepository_AddMember : calm.

Lemma calm_OrganizationRepository_RemoveMember orgID userID : calm (OrganizationRepository_RemoveMember orgID userID).
Proof. unfold OrganizationRepository_RemoveMember. auto 15 with calm. Qed.
#[local] Hint Resolve calm_OrganizationRepository_RemoveMember : calm.

Lemma calm_TeamRepository_GetByID id : calm (TeamRepository_GetByID id).
Proof. unfold TeamRepository_GetByID. auto 15 with calm. Qed.
#[local] Hint Resolve calm_TeamRepository_GetByID : calm.

Lemma calm_TeamRepository_GetByNameAndOrganization name organizationID : calm (TeamRepository_GetByNameAndOrganization name organizationID).
Proof. unfold TeamRepository_GetByNameAndOrganization. auto 15 with calm. Qed.
#[local] Hint Resolve calm_TeamRepository_GetByNameAndOrganization : calm.

Lemma calm_TeamRepository_Create team : calm (TeamRepository_Create team).
Proof. unfold TeamRepository_Create. auto 15 with calm. Qed.
#[local] Hint Resolve calm_TeamRepository_Create : calm.

Lemma calm_TeamRepository_Update team : calm (TeamRepository_Update team).
Proof. unfold TeamRepository_Update. auto 15 with calm. Qed.
#[local] Hint Resolve calm_TeamRepository_Update : calm.

Lemma calm_TeamRepository_Delete id : calm (TeamRepository_Delete id).
Proof. unfold TeamRepository_Delete. auto 15 with calm. Qed.
#[local] Hint Resolve calm_TeamRepository_Delete : calm.

Lemma calm_TeamRepository_AddMember teamID userID role invitedBy : calm (TeamRepository_AddMember teamID userID role invitedBy).
Proof. unfold TeamRepository_AddMember. auto 15 with calm. Qed.
#[local] Hint Resolve calm_TeamRepository_AddMember : calm.

Lemma calm_TeamRepository_RemoveMember teamID userID : calm (TeamRepository_RemoveMember teamID userID).
Proof. unfold TeamRepository_RemoveMember. auto 15 with calm. Qed.
#[local] Hint Resolve calm_TeamRepository_RemoveMember : calm.

Lemma calm_UserRepository_GetByUserId userId : calm (UserRepository_GetByUserId userId).
Proof. unfold UserRepository_GetByUserId. auto 15 with calm. Qed.
#[local] Hint Resolve calm_UserRepository_GetByUserId : calm.

Lemma calm_UpdateOrganizationMember orgID memberID req updatedBy :
  calm (OrganizationService_UpdateOrganizationMember orgID memberID req
          updatedBy).
Proof.
  unfold OrganizationService_UpdateOrganizationMember.
  apply calm_bind; [auto 10 with calm | intros org].
  destruct (negb _) eqn:Hrole; [auto with calm |].
  apply negb_false_iff in Hrole.
  destruct (match Organization_GetMember org memberID with
            | Some _ => _ | None => _ end); [auto with calm |].
  apply calm_bind.
  - destruct (memberID =? updatedBy) eqn:E; [| auto with calm].
    apply String.eqb_eq in E. subst.
    destruct (Organization_GetMember org updatedBy) eqn:G; [auto with calm |].
    unfold Organization_HasRole, Organization_GetMember in *.
    rewrite (HasRole_GetMember_none _ _ _ G) in Hrole. discriminate.
  - intros b. destruct (b && _); auto 15 with calm.
Qed.

Lemma calm_UpdateTeamMember teamID memberID req updatedBy :
  calm (TeamService_UpdateTeamMember teamID memberID req updatedBy).
Proof.
  unfold TeamService_UpdateTeamMember.
  apply calm_bind; [auto 10 with calm | intros team].
  destruct (negb _) eqn:Hrole; [auto with calm |].
  apply negb_false_iff in Hrole.
  destruct (match Team_GetMember team memberID with
            | Some _ => _ | None => _ end); [auto with calm |].
  apply calm_bind.
  - destruct (memberID =? updatedBy) eqn:E; [| auto with calm].
    apply String.eqb_eq in E. subst.
    destruct (Team_GetMember team updatedBy) eqn:G; [auto with calm |].
    unfold Team_HasRole, Team_GetMember in *.
    rewrite (HasRole_GetMember_none _ _ _ G) in Hrole. discriminate.
  - intros b. destruct (b && _); auto 15 with calm.
Qed.

(** The nil dereference in the self-demotion check of UpdateOrganizationMember
    and UpdateTeamMember is never reached: an actor who passed the role check
    is a member. *)
Lemma exec_never_panics c w : fst (exec c w) <> Err ErrPanic.
Proof.
  revert w. change (calm (exec c)). destruct c; simpl.
  - unfold OrganizationService_CreateOrganization. auto 20 with calm.
  - unfold OrganizationService_UpdateOrganization. auto 20 with calm.
  - unfold OrganizationService_DeleteOrganization. auto 20 with calm.
  - unfold OrganizationService_AddOrganizationMember. auto 20 with calm.
  - apply calm_UpdateOrganizationMember.
  - unfold OrganizationService_RemoveOrganizationMember. cbv zeta.
    auto 20 with calm.
  - unfold TeamService_CreateTeam. auto 20 with calm.
  - unfold TeamService_UpdateTeam. auto 20 with calm.
  - unfold TeamService_DeleteTeam. auto 20 with calm.
  - unfold TeamService_AddTeamMember. auto 25 with calm.
  - apply calm_UpdateTeamMember.
  - unfold TeamService_RemoveTeamMember. cbv zeta. auto 20 with calm.
Qed.


(* ===================================================================== *)
(** * The owner of a group *)
(* ===================================================================== *)

(** C1.  An accepted AddOrganizationMember or AddTeamMember call can
    leave a group without an owner.  The admin bob adds alice, the only
    owner, under another role: the call succeeds and the stored group has
    no owner any more. *)
Theorem C1_add_member_can_remove_the_last_owner :
  ownerCount OrgRoleOwner (o_Members acme) = 1%nat /\
  fst (OrganizationService_AddOrganizationMember acme_id
         (mkAddOrganizationMemberRequest "alice" OrgRoleMember) "bob"
         small_world) = Ok tt /\
  map (fun o => ownerCount OrgRoleOwner (o_Members o))
    (docs (organizations
             (snd (OrganizationService_AddOrganizationMember acme_id
                     (mkAddOrganizationMemberRequest "alice" OrgRoleMember)
                     "bob" small_world)))) = [0%nat] /\
  ownerCount TeamRoleOwner (t_Members crew) = 1%nat /\
  fst (TeamService_AddTeamMember crew_id
         (mkAddTeamMemberRequest "alice" TeamRoleViewer) "bob"
         small_world) = Ok tt /\
  map (fun t => ownerCount TeamRoleOwner (t_Members t))
    (docs (teams
             (snd (TeamService_AddTeamMember crew_id
                     (mkAddTeamMemberRequest "alice" TeamRoleViewer) "bob"
                     small_world)))) = [0%nat].
Proof. repeat split; vm_compute; reflexivity. Qed.

(* ===================================================================== *)
(** * Deleting an organization *)
(* ===================================================================== *)

(** C5.  DeleteOrganization deletes the child teams and clears the
    reference to the organization from its members, but it leaves the
    references to the deleted teams in the users: after alice deletes
    Acme, no store failure happening, the team Crew is gone and alice,
    bob and carol still list it. *)
Theorem C5_DeleteOrganization_leaves_team_references :
  fst (OrganizationService_DeleteOrganization acme_id "alice" small_world)
    = Ok tt /\
  docs (organizations
          (snd (OrganizationService_DeleteOrganization acme_id "alice"
                  small_world))) = [] /\
  docs (teams
          (snd (OrganizationService_DeleteOrganization acme_id "alice"
                  small_world))) = [] /\
  map (fun u => (u_UserID u, u_OrganizationIDs u, u_TeamIDs u))
    (docs (users
             (snd (OrganizationService_DeleteOrganization acme_id "alice"
                     small_world))))
  = [("alice", [], [crew_id]); ("bob", [], [crew_id]);
     ("carol", [], [crew_id]); ("dave", [], [])] /\
  map (fun u => (u_UserID u, u_TeamIDs u))
    (docs (users (snd (TeamService_DeleteTeam crew_id "alice" small_world))))
  = [("alice", []); ("bob", []); ("carol", []); ("dave", [])].
Proof. repeat split; vm_compute; reflexivity. Qed.

(* ===================================================================== *)
(** * The only owner of a group *)
(* ===================================================================== *)

Ltac distinct_strings :=
  repeat (constructor; [simpl; intuition discriminate |]); constructor.

(** C2.  In a group with exactly one owner entry (and one entry per
    user), a call that removes this owner, and a call that gives this
    owner another role than owner, return an error and leave the store
    as it was, whoever the actor is and whatever the store does. *)
Theorem C2_sole_owner_cannot_be_removed_or_demoted :
  (forall w orgID memberID removedBy org target,
      find (org_by_id orgID) (docs (organizations w)) = Some org ->
      unique_members (o_Members org) ->
      ownerCount OrgRoleOwner (o_Members org) = 1%nat ->
      In target (o_Members org) -> m_Role target = OrgRoleOwner ->
      m_UserID target = memberID ->
      (exists e, fst (OrganizationService_RemoveOrganizationMember orgID
                        memberID removedBy w) = Err e) /\
      store (snd (OrganizationService_RemoveOrganizationMember orgID memberID
                    removedBy w)) = store w) /\
  (forall w orgID memberID req updatedBy org target,
      find (org_by_id orgID) (docs (organizations w)) = Some org ->
      unique_members (o_Members org) ->
      ownerCount OrgRoleOwner (o_Members org) = 1%nat ->
      In target (o_Members org) -> m_Role target = OrgRoleOwner ->
      m_UserID target = memberID ->
      uomr_Role req <> OrgRoleOwner ->
      (exists e, fst (OrganizationService_UpdateOrganizationMember orgID
                        memberID req updatedBy w) = Err e) /\
      store (snd (OrganizationService_UpdateOrganizationMember orgID memberID
                    req updatedBy w)) = store w) /\
  (forall w teamID memberID removedBy team target,
      find (team_by_id teamID) (docs (teams w)) = Some team ->
      unique_members (t_Members team) ->
      ownerCount TeamRoleOwner (t_Members team) = 1%nat ->
      In target (t_Members team) -> m_Role target = TeamRoleOwner ->
      m_UserID target = memberID ->
      (exists e, fst (TeamService_RemoveTeamMember teamID memberID
                        removedBy w) = Err e) /\
      store (snd (TeamService_RemoveTeamMember teamID memberID removedBy w))
        = store w) /\
  (forall w teamID memberID req updatedBy team target,
      find (team_by_id teamID) (docs (teams w)) = Some team ->
      unique_members (t_Members team) ->
      ownerCount TeamRoleOwner (t_Members team) = 1%nat ->
      In target (t_Members team) -> m_Role target = TeamRoleOwner ->
      m_UserID target = memberID ->
      utmr_Role req <> TeamRoleOwner ->
      (exists e, fst (TeamService_UpdateTeamMember teamID memberID req
                        updatedBy w) = Err e) /\
      store (snd (TeamService_UpdateTeamMember teamID memberID req
                    updatedBy w)) = store w).
Proof.
  repeat split.
  - subst memberID. eapply RemoveOrganizationMember_sole_owner; eauto.
    apply GetMember_unique; auto.
  - subst memberID.
    destruct (RemoveOrganizationMember_sole_owner w orgID (m_UserID target)
                removedBy org target) as [e He]; auto.
    { apply GetMember_unique; auto. }
    eapply atomic_RemoveOrganizationMember; eauto.
  - subst memberID. eapply UpdateOrganizationMember_sole_owner; eauto.
    apply GetMember_unique; auto.
  - subst memberID.
    destruct (UpdateOrganizationMember_sole_owner w orgID (m_UserID target)
                req updatedBy org target) as [e He]; auto.
    { apply GetMember_unique; auto. }
    eapply atomic_UpdateOrganizationMember; eauto.
  - subst memberID. eapply RemoveTeamMember_sole_owner; eauto.
    apply GetMember_unique; auto.
  - subst memberID.
    destruct (RemoveTeamMember_sole_owner w teamID (m_UserID target)
                removedBy team target) as [e He]; auto.
    { apply GetMember_unique; auto. }
    eapply atomic_RemoveTeamMember; eauto.
  - subst memberID. eapply UpdateTeamMember_sole_owner; eauto.
    apply GetMember_unique; auto.
  - subst memberID.
    destruct (UpdateTeamMember_sole_owner w teamID (m_UserID target)
                req updatedBy team target) as [e He]; auto.
    { apply GetMember_unique; auto. }
    eapply atomic_UpdateTeamMember; eauto.
Qed.

Lemma C2_witness :
  ((exists e, fst (OrganizationService_RemoveOrganizationMember acme_id
                     "alice" "alice" small_world) = Err e) /\
   store (snd (OrganizationService_RemoveOrganizationMember acme_id "alice"
                 "alice" small_world)) = store small_world) /\
  ((exists e, fst (TeamService_UpdateTeamMember crew_id "alice"
                     (mkUpdateTeamMemberRequest TeamRoleAdmin) "alice"
                     small_world) = Err e) /\
   store (snd (TeamService_UpdateTeamMember crew_id "alice"
                 (mkUpdateTeamMemberRequest TeamRoleAdmin) "alice"
                 small_world)) = store small_world).
Proof.
  split.
  - apply (proj1 C2_sole_owner_cannot_be_removed_or_demoted
             small_world acme_id "alice" "alice" acme
             (mkMember "alice" OrgRoleOwner 1 ""));
      try reflexivity.
    + unfold unique_members; simpl. distinct_strings.
    + simpl. auto.
  - apply (proj2 (proj2 (proj2 C2_sole_owner_cannot_be_removed_or_demoted))
             small_world crew_id "alice"
             (mkUpdateTeamMemberRequest TeamRoleAdmin) "alice" crew
             (mkMember "alice" TeamRoleOwner 4 ""));
      try reflexivity.
    + unfold unique_members; simpl. distinct_strings.
    + simpl. auto.
    + simpl. discriminate.
Defined.

(* ===================================================================== *)
(** * Who may remove a member *)
(* ===================================================================== *)

(** C3.  The permission check of RemoveOrganizationMember and
    RemoveTeamMember protects Owner and Admin targets only.  When the
    store does not fail, an actor who holds neither Owner nor Admin and
    is not the target (a plain member, a viewer, or a user who is no
    member of the group at all) removes every member whose role is
    neither Owner nor Admin: the rule of the specification denies the
    call, the code returns success and the target leaves the stored
    member list. *)
Theorem C3_an_unprivileged_actor_removes_a_member :
  (forall w orgID memberID removedBy org target,
      ObjectIDFromHex orgID = true -> quiet (organizations w) ->
      the_document (org_by_id orgID) (organizations w) org ->
      Organization_GetMember org memberID = Some target ->
      m_Role target <> OrgRoleOwner -> m_Role target <> OrgRoleAdmin ->
      Organization_HasRole org removedBy [OrgRoleOwner] = false ->
      Organization_HasRole org removedBy [OrgRoleAdmin] = false ->
      removedBy <> memberID ->
      let call := OrganizationService_RemoveOrganizationMember orgID memberID
                    removedBy w in
      remove_allowed_by_spec OrgRoleOwner OrgRoleAdmin (o_Members org)
        removedBy memberID target = false /\
      fst call = Ok tt /\
      the_document (org_by_id orgID) (organizations (snd call))
        (set_o_UpdatedAt (clock w)
           (set_o_Members (pull_member memberID (o_Members org)) org))) /\
  (forall w teamID memberID removedBy team target,
      ObjectIDFromHex teamID = true -> quiet (teams w) ->
      the_document (team_by_id teamID) (teams w) team ->
      Team_GetMember team memberID = Some target ->
      m_Role target <> TeamRoleOwner -> m_Role target <> TeamRoleAdmin ->
      Team_HasRole team removedBy [TeamRoleOwner] = false ->
      Team_HasRole team removedBy [TeamRoleAdmin] = false ->
      removedBy <> memberID ->
      let call := TeamService_RemoveTeamMember teamID memberID removedBy w in
      remove_allowed_by_spec TeamRoleOwner TeamRoleAdmin (t_Members team)
        removedBy memberID target = false /\
      fst call = Ok tt /\
      the_document (team_by_id teamID) (teams (snd call))
        (set_t_UpdatedAt (clock w)
           (set_t_Members (pull_member memberID (t_Members team)) team))).
Proof.
  split.
  - intros w orgID memberID removedBy org target Hh Hq Hdoc Ht No Na Ao Aa
      Hs call.
    pose proof (RemoveOrganizationMember_outcome w orgID memberID removedBy
                  org target Hh Hq Hdoc Ht) as H.
    cbv zeta in H. fold call in H.
    unfold remove_allowed_by_spec, Organization_HasRole in *.
    rewrite Ao, Aa in *.
    apply String.eqb_neq in Hs, No, Na. rewrite Hs, No, Na in H.
    simpl in H. rewrite Hs. simpl. split; [reflexivity | exact H].
  - intros w teamID memberID removedBy team target Hh Hq Hdoc Ht No Na Ao Aa
      Hs call.
    pose proof (RemoveTeamMember_outcome w teamID memberID removedBy
                  team target Hh Hq Hdoc Ht) as H.
    cbv zeta in H. fold call in H.
    unfold remove_allowed_by_spec, Team_HasRole in *.
    rewrite Ao, Aa in *.
    apply String.eqb_neq in Hs, No, Na. rewrite Hs, No, Na in H.
    simpl in H. rewrite Hs. simpl. split; [reflexivity | exact H].
Qed.

(** dave, who is no member of Acme and of Crew, removes carol, a Member
    of Acme and a Viewer of Crew. *)
Lemma C3_witness :
  (Organization_IsMember acme "dave" = false /\
   remove_allowed_by_spec OrgRoleOwner OrgRoleAdmin (o_Members acme)
     "dave" "carol" (mkMember "carol" OrgRoleMember 3 "alice") = false /\
   fst (OrganizationService_RemoveOrganizationMember acme_id "carol" "dave"
          small_world) = Ok tt /\
   the_document (org_by_id acme_id)
     (organizations
        (snd (OrganizationService_RemoveOrganizationMember acme_id "carol"
                "dave" small_world)))
     (set_o_UpdatedAt 100
        (set_o_Members
           [mkMember "alice" OrgRoleOwner 1 "";
            mkMember "bob" OrgRoleAdmin 2 "alice"] acme))) /\
  (Team_IsMember crew "dave" = false /\
   remove_allowed_by_spec TeamRoleOwner TeamRoleAdmin (t_Members crew)
     "dave" "carol" (mkMember "carol" TeamRoleViewer 6 "alice") = false /\
   fst (TeamService_RemoveTeamMember crew_id "carol" "dave" small_world)
     = Ok tt /\
   the_document (team_by_id crew_id)
     (teams (snd (TeamService_RemoveTeamMember crew_id "carol" "dave"
                    small_world)))
     (set_t_UpdatedAt 100
        (set_t_Members
           [mkMember "alice" TeamRoleOwner 4 "";
            mkMember "bob" TeamRoleAdmin 5 "alice"] crew))).
Proof.
  split.
  - split; [reflexivity |].
    apply (proj1 C3_an_unprivileged_actor_removes_a_member small_world
             acme_id "carol" "dave" acme
             (mkMember "carol" OrgRoleMember 3 "alice")
             eq_refl (conj eq_refl eq_refl) eq_refl eq_refl);
      try discriminate; reflexivity.
  - split; [reflexivity |].
    apply (proj2 C3_an_unprivileged_actor_removes_a_member small_world
             crew_id "carol" "dave" crew
             (mkMember "carol" TeamRoleViewer 6 "alice")
             eq_refl (conj eq_refl eq_refl) eq_refl eq_refl);
      try discriminate; reflexivity.
Defined.

(* ===================================================================== *)
(** * Updating the role of a user who is not a member *)
(* ===================================================================== *)

(** C10.  When the store does not fail, UpdateOrganizationMember and
    UpdateTeamMember called by an actor who holds Owner or Admin, for a
    user who is not in the members of the group, do not fail: they
    return success and the stored group has the user as a new, last
    member with the requested role, joined now and invited by the
    actor. *)
Theorem C10_update_of_an_absent_member_inserts_it :
  (forall w orgID memberID req updatedBy org,
      ObjectIDFromHex orgID = true -> quiet (organizations w) ->
      the_document (org_by_id orgID) (organizations w) org ->
      Organization_HasRole org updatedBy [OrgRoleOwner; OrgRoleAdmin] = true ->
      Organization_GetMember org memberID = None ->
      fst (OrganizationService_UpdateOrganizationMember orgID memberID req
             updatedBy w) = Ok tt /\
      the_document (org_by_id orgID)
        (organizations
           (snd (OrganizationService_UpdateOrganizationMember orgID memberID
                   req updatedBy w)))
        (set_o_UpdatedAt (clock w)
           (set_o_Members
              (o_Members org
               ++ [mkMember memberID (uomr_Role req) (clock w) updatedBy])
              org))) /\
  (forall w teamID memberID req updatedBy team,
      ObjectIDFromHex teamID = true -> quiet (teams w) ->
      the_document (team_by_id teamID) (teams w) team ->
      Team_HasRole team updatedBy [TeamRoleOwner; TeamRoleAdmin] = true ->
      Team_GetMember team memberID = None ->
      fst (TeamService_UpdateTeamMember teamID memberID req updatedBy w)
        = Ok tt /\
      the_document (team_by_id teamID)
        (teams (snd (TeamService_UpdateTeamMember teamID memberID req
                       updatedBy w)))
        (set_t_UpdatedAt (clock w)
           (set_t_Members
              (t_Members team
               ++ [mkMember memberID (utmr_Role req) (clock w) updatedBy])
              team))).
Proof.
  split.
  - intros. apply UpdateOrganizationMember_inserts_absent_member; auto.
  - intros. apply UpdateTeamMember_inserts_absent_member; auto.
Qed.

Lemma C10_witness :
  (fst (OrganizationService_UpdateOrganizationMember acme_id "dave"
          (mkUpdateOrganizationMemberRequest OrgRoleAdmin) "bob" small_world)
   = Ok tt /\
   the_document (org_by_id acme_id)
     (organizations
        (snd (OrganizationService_UpdateOrganizationMember acme_id "dave"
                (mkUpdateOrganizationMemberRequest OrgRoleAdmin) "bob"
                small_world)))
     (set_o_UpdatedAt 100
        (set_o_Members
           (o_Members acme ++ [mkMember "dave" OrgRoleAdmin 100 "bob"]) acme)))
  /\
  (fst (TeamService_UpdateTeamMember crew_id "dave"
          (mkUpdateTeamMemberRequest TeamRoleMember) "alice" small_world)
   = Ok tt /\
   the_document (team_by_id crew_id)
     (teams
        (snd (TeamService_UpdateTeamMember crew_id "dave"
                (mkUpdateTeamMemberRequest TeamRoleMember) "alice"
                small_world)))
     (set_t_UpdatedAt 100
        (set_t_Members
           (t_Members crew ++ [mkMember "dave" TeamRoleMember 100 "alice"])
           crew))).
Proof.
  split.
  - apply (proj1 C10_update_of_an_absent_member_inserts_it small_world acme_id
             "dave" (mkUpdateOrganizationMemberRequest OrgRoleAdmin) "bob" acme
             eq_refl (conj eq_refl eq_refl) eq_refl eq_refl eq_refl).
  - apply (proj2 C10_update_of_an_absent_member_inserts_it small_world crew_id
             "dave" (mkUpdateTeamMemberRequest TeamRoleMember) "alice" crew
             eq_refl (conj eq_refl eq_refl) eq_refl eq_refl eq_refl).
Defined.

(* ===================================================================== *)
(** * joinedAt under AddMember *)
(* ===================================================================== *)

(** C8.  When the store does not fail, the repository's AddMember, for a
    user who is already a member, leaves a stored group that differs from
    the one before in its updatedAt and in the role of the entry of the
    user only, so that joinedAt is kept; for a user who is not a member
    it appends an entry whose joinedAt is the time of the call.  The
    AddMember methods of the Team and Organization models do the same. *)
Theorem C8_AddMember_keeps_joinedAt_and_sets_it_on_insertion :
  (forall w orgID userID role invitedBy org,
      ObjectIDFromHex orgID = true -> quiet (organizations w) ->
      the_document (org_by_id orgID) (organizations w) org ->
      let w' := snd (OrganizationRepository_AddMember orgID userID role
                       invitedBy w) in
      fst (OrganizationRepository_AddMember orgID userID role invitedBy w)
        = Ok tt /\
      match GetMember (o_Members org) userID with
      | Some m =>
          exists after,
            role_only_change userID role (o_Members org) after /\
            the_document (org_by_id orgID) (organizations w')
              (set_o_UpdatedAt (clock w) (set_o_Members after org))
      | None =>
          the_document (org_by_id orgID) (organizations w')
            (set_o_UpdatedAt (clock w)
               (set_o_Members
                  (o_Members org ++ [mkMember userID role (clock w) invitedBy])
                  org))
      end) /\
  (forall w teamID userID role invitedBy team,
      ObjectIDFromHex teamID = true -> quiet (teams w) ->
      the_document (team_by_id teamID) (teams w) team ->
      let w' := snd (TeamRepository_AddMember teamID userID role invitedBy w) in
      fst (TeamRepository_AddMember teamID userID role invitedBy w) = Ok tt /\
      match GetMember (t_Members team) userID with
      | Some m =>
          exists after,
            role_only_change userID role (t_Members team) after /\
            the_document (team_by_id teamID) (teams w')
              (set_t_UpdatedAt (clock w) (set_t_Members after team))
      | None =>
          the_document (team_by_id teamID) (teams w')
            (set_t_UpdatedAt (clock w)
               (set_t_Members
                  (t_Members team ++ [mkMember userID role (clock w) invitedBy])
                  team))
      end) /\
  (forall t userID role invitedBy now,
      let t' := snd (fst (Team_AddMember t userID role invitedBy now)) in
      match GetMember (t_Members t) userID with
      | Some m =>
          role_only_change userID role (t_Members t) (t_Members t') /\
          set_t_UpdatedAt (t_UpdatedAt t) (set_t_Members (t_Members t) t') = t
      | None =>
          t_Members t' = t_Members t ++ [mkMember userID role now invitedBy]
      end) /\
  (forall o userID role invitedBy now,
      let o' := snd (fst (Organization_AddMember o userID role invitedBy now)) in
      match GetMember (o_Members o) userID with
      | Some m =>
          role_only_change userID role (o_Members o) (o_Members o') /\
          set_o_UpdatedAt (o_UpdatedAt o) (set_o_Members (o_Members o) o') = o
      | None =>
          o_Members o' = o_Members o ++ [mkMember userID role now invitedBy]
      end).
Proof.
  repeat split.
  - destruct (OrganizationRepository_AddMember_eval orgID userID role
                invitedBy w H H0) as (E & _). exact E.
  - destruct (GetMember (o_Members org) userID) as [m |] eqn:G.
    + eexists. split; [apply role_only_change_set |].
      eapply OrganizationRepository_AddMember_existing; eauto.
    + eapply OrganizationRepository_AddMember_new; eauto.
  - destruct (TeamRepository_AddMember_eval teamID userID role
                invitedBy w H H0) as (E & _). exact E.
  - destruct (GetMember (t_Members team) userID) as [m |] eqn:G.
    + eexists. split; [apply role_only_change_set |].
      eapply TeamRepository_AddMember_existing; eauto.
    + eapply TeamRepository_AddMember_new; eauto.
  - intros t userID role invitedBy now. unfold Team_AddMember.
    pose proof (change_role_spec (t_Members t) userID role) as S.
    destruct (change_role (t_Members t) userID role) as [| | ms'].
    + rewrite S. reflexivity.
    + destruct S as (m & Hm & Hr). rewrite Hm. simpl. split.
      * eapply role_only_change_same; eauto.
      * destruct t; reflexivity.
    + destruct S as (-> & m & Hm & Hr). rewrite Hm. simpl. split.
      * apply role_only_change_set.
      * destruct t; reflexivity.
  - intros o userID role invitedBy now. unfold Organization_AddMember.
    pose proof (change_role_spec (o_Members o) userID role) as S.
    destruct (change_role (o_Members o) userID role) as [| | ms'].
    + rewrite S. reflexivity.
    + destruct S as (m & Hm & Hr). rewrite Hm. simpl. split.
      * eapply role_only_change_same; eauto.
      * destruct o; reflexivity.
    + destruct S as (-> & m & Hm & Hr). rewrite Hm. simpl. split.
      * apply role_only_change_set.
      * destruct o; reflexivity.
Qed.

Lemma C8_witness :
  fst (OrganizationRepository_AddMember acme_id "bob" OrgRoleMember "alice"
         small_world) = Ok tt /\
  (exists after,
      role_only_change "bob" OrgRoleMember (o_Members acme) after /\
      the_document (org_by_id acme_id)
        (organizations
           (snd (OrganizationRepository_AddMember acme_id "bob" OrgRoleMember
                   "alice" small_world)))
        (set_o_UpdatedAt 100 (set_o_Members after acme))).
Proof.
  apply (proj1 C8_AddMember_keeps_joinedAt_and_sets_it_on_insertion
           small_world acme_id "bob" OrgRoleMember "alice" acme
           eq_refl (conj eq_refl eq_refl) eq_refl).
Defined.

(* ===================================================================== *)
(** * One entry per user, call after call *)
(* ===================================================================== *)

#[local] Hint Resolve keeps_AddOrganizationToUser
  keeps_RemoveOrganizationFromUser keeps_AddTeamToUser
  keeps_RemoveTeamFromUser keeps_OrganizationRepository_Delete
  keeps_TeamRepository_Delete keeps_OrganizationRepository_RemoveMember
  keeps_TeamRepository_RemoveMember keeps_OrganizationRepository_AddTeam
  keeps_OrganizationRepository_RemoveTeam
  keeps_OrganizationRepository_AddMember keeps_TeamRepository_AddMember : inv.

Lemma keeps_CreateOrganization uuid req createdBy :
  keeps (OrganizationService_CreateOrganization uuid req createdBy).
Proof.
  unfold OrganizationService_CreateOrganization.
  apply (keeps_bind_value (fun org => unique_members (o_Members org)));
    [| eauto with inv |].
  - intros w a _ H. inversion H; subst. unfold unique_members; simpl.
    constructor; [simpl; tauto | constructor].
  - intros org U. apply keeps_bind; [| eauto 10 with inv].
    apply keeps_OrganizationRepository_Create, U.
Qed.

Lemma keeps_UpdateOrganization id req userID :
  keeps (OrganizationService_UpdateOrganization id req userID).
Proof.
  unfold OrganizationService_UpdateOrganization.
  apply (keeps_bind_value (fun org => unique_members (o_Members org)));
    [| eauto with inv |].
  - intros w a. apply OrganizationRepository_GetByID_unique.
  - intros org U. destruct (negb _); [eauto with inv |].
    apply (keeps_bind_value (fun org => unique_members (o_Members org)));
      [| eauto with inv |].
    + intros w a _ H. inversion H; subst. exact U.
    + intros org' U'. apply keeps_bind; [| eauto with inv].
      apply keeps_OrganizationRepository_Update, U'.
Qed.

Lemma keeps_CreateTeam uuid req createdBy :
  keeps (TeamService_CreateTeam uuid req createdBy).
Proof.
  unfold TeamService_CreateTeam.
  apply keeps_bind; [eauto with inv | intros org].
  destruct (negb _); [eauto with inv |].
  apply (keeps_bind_value (fun team => unique_members (t_Members team)));
    [| eauto with inv |].
  - intros w a _ H. inversion H; subst. unfold unique_members; simpl.
    constructor; [simpl; tauto | constructor].
  - intros team U. apply keeps_bind; [| eauto 10 with inv].
    apply keeps_TeamRepository_Create, U.
Qed.

Lemma keeps_UpdateTeam id req userID :
  keeps (TeamService_UpdateTeam id req userID).
Proof.
  unfold TeamService_UpdateTeam.
  apply (keeps_bind_value (fun team => unique_members (t_Members team)));
    [| eauto with inv |].
  - intros w a. apply TeamRepository_GetByID_unique.
  - intros team U. destruct (negb _); [eauto with inv |].
    apply (keeps_bind_value (fun team => unique_members (t_Members team)));
      [| eauto with inv |].
    + intros w a _ H. inversion H; subst. exact U.
    + intros team' U'. apply keeps_bind; [| eauto with inv].
      apply keeps_TeamRepository_Update, U'.
Qed.

Lemma keeps_exec c : keeps (exec c).
Proof.
  destruct c; simpl.
  - apply keeps_bind; [apply keeps_CreateOrganization | eauto with inv].
  - apply keeps_bind; [apply keeps_UpdateOrganization | eauto with inv].
  - unfold OrganizationService_DeleteOrganization. eauto 20 with inv.
  - unfold OrganizationService_AddOrganizationMember. eauto 20 with inv.
  - unfold OrganizationService_UpdateOrganizationMember. cbv zeta.
    eauto 25 with inv.
  - unfold OrganizationService_RemoveOrganizationMember. cbv zeta.
    eauto 25 with inv.
  - apply keeps_bind; [apply keeps_CreateTeam | eauto with inv].
  - apply keeps_bind; [apply keeps_UpdateTeam | eauto with inv].
  - unfold TeamService_DeleteTeam. eauto 20 with inv.
  - unfold TeamService_AddTeamMember. eauto 25 with inv.
  - unfold TeamService_UpdateTeamMember. cbv zeta. eauto 25 with inv.
  - unfold TeamService_RemoveTeamMember. cbv zeta. eauto 25 with inv.
Qed.

Lemma change_role_unique ms userID role ms' :
  change_role ms userID role = NewRole ms' ->
  unique_members ms -> unique_members ms'.
Proof.
  intros E. pose proof (change_role_spec ms userID role) as S.
  rewrite E in S. destruct S as [-> _]. apply unique_set_role.
Qed.

(** C4.  The members of a stored group never hold two entries of one
    user: the property is kept by every sequence of calls of the facade,
    whatever the store does, and by the repository's AddMember; the
    AddMember, UpdateMember and RemoveMember methods of the models keep
    it too; and AddMember for a user who is already a member, in both
    repositories and in both models, changes the role in place, the list
    of userIds staying as it was. *)
Theorem C4_one_entry_per_user :
  (forall cs w, members_unique w -> members_unique (run cs w)) /\
  (forall w orgID userID role invitedBy,
      members_unique w ->
      members_unique
        (snd (OrganizationRepository_AddMember orgID userID role invitedBy w)))
  /\
  (forall w teamID userID role invitedBy,
      members_unique w ->
      members_unique
        (snd (TeamRepository_AddMember teamID userID role invitedBy w))) /\
  (forall w orgID userID role invitedBy org m,
      ObjectIDFromHex orgID = true -> quiet (organizations w) ->
      the_document (org_by_id orgID) (organizations w) org ->
      GetMember (o_Members org) userID = Some m ->
      exists org',
        the_document (org_by_id orgID)
          (organizations
             (snd (OrganizationRepository_AddMember orgID userID role
                     invitedBy w))) org' /\
        map m_UserID (o_Members org') = map m_UserID (o_Members org) /\
        GetMember (o_Members org') userID = Some (set_m_Role role m)) /\
  (forall t userID role invitedBy now,
      unique_members (t_Members t) ->
      unique_members
        (t_Members (snd (fst (Team_AddMember t userID role invitedBy now)))) /\
      unique_members
        (t_Members (snd (fst (Team_UpdateMember t userID role now)))) /\
      unique_members
        (t_Members (snd (fst (Team_RemoveMember t userID now))))) /\
  (forall o userID role invitedBy now,
      unique_members (o_Members o) ->
      unique_members
        (o_Members
           (snd (fst (Organization_AddMember o userID role invitedBy now)))) /\
      unique_members
        (o_Members (snd (fst (Organization_UpdateMember o userID role now)))) /\
      unique_members
        (o_Members (snd (fst (Organization_RemoveMember o userID now))))) /\
  (forall t userID role invitedBy now m,
      GetMember (t_Members t) userID = Some m ->
      map m_UserID
        (t_Members (snd (fst (Team_AddMember t userID role invitedBy now))))
      = map m_UserID (t_Members t) /\
      GetMember
        (t_Members (snd (fst (Team_AddMember t userID role invitedBy now))))
        userID = Some (set_m_Role role m)) /\
  (forall w teamID userID role invitedBy team m,
      ObjectIDFromHex teamID = true -> quiet (teams w) ->
      the_document (team_by_id teamID) (teams w) team ->
      GetMember (t_Members team) userID = Some m ->
      exists team',
        the_document (team_by_id teamID)
          (teams
             (snd (TeamRepository_AddMember teamID userID role invitedBy w)))
          team' /\
        map m_UserID (t_Members team') = map m_UserID (t_Members team) /\
        GetMember (t_Members team') userID = Some (set_m_Role role m)) /\
  (forall o userID role invitedBy now m,
      GetMember (o_Members o) userID = Some m ->
      map m_UserID
        (o_Members
           (snd (fst (Organization_AddMember o userID role invitedBy now))))
      = map m_UserID (o_Members o) /\
      GetMember
        (o_Members
           (snd (fst (Organization_AddMember o userID role invitedBy now))))
        userID = Some (set_m_Role role m)).
Proof.
  split; [| split; [| split; [| split; [| split; [| split; [| split;
    [| split]]]]]]].
  - induction cs as [| c r IH]; simpl; auto.
    intros w I. apply IH, keeps_exec, I.
  - intros. apply keeps_OrganizationRepository_AddMember; auto.
  - intros. apply keeps_TeamRepository_AddMember; auto.
  - intros w orgID userID role invitedBy org m Hh Hq Hdoc Hm.
    eexists. split; [| split].
    + eapply OrganizationRepository_AddMember_existing; eauto.
    + simpl. apply set_role_at_match_ids.
    + simpl. apply set_role_at_match_get, Hm.
  - intros t userID role invitedBy now U.
    unfold Team_AddMember, Team_UpdateMember, Team_RemoveMember.
    pose proof (change_role_spec (t_Members t) userID role) as S.
    pose proof (change_role_unique (t_Members t) userID role) as C.
    destruct (change_role (t_Members t) userID role) as [| | ms'];
      destruct (remove_first_member (t_Members t) userID) as [ms'' |] eqn:R;
      simpl; repeat split; auto;
      try (eapply unique_remove_first; eauto; fail).
    all: apply unique_push; auto; apply GetMember_none; exact S.
  - intros o userID role invitedBy now U.
    unfold Organization_AddMember, Organization_UpdateMember,
      Organization_RemoveMember.
    pose proof (change_role_spec (o_Members o) userID role) as S.
    pose proof (change_role_unique (o_Members o) userID role) as C.
    destruct (change_role (o_Members o) userID role) as [| | ms'];
      destruct (remove_first_member (o_Members o) userID) as [ms'' |] eqn:R;
      simpl; repeat split; auto;
      try (eapply unique_remove_first; eauto; fail).
    all: apply unique_push; auto; apply GetMember_none; exact S.
  - intros t userID role invitedBy now m Hm. unfold Team_AddMember.
    pose proof (change_role_spec (t_Members t) userID role) as S.
    destruct (change_role (t_Members t) userID role) as [| | ms']; simpl.
    + congruence.
    + destruct S as (m' & Hm' & Hr). split; auto.
      assert (m' = m) as -> by congruence. rewrite <- Hr, set_m_Role_same.
      exact Hm.
    + destruct S as (-> & _). split.
      * apply set_role_at_match_ids.
      * apply set_role_at_match_get, Hm.
  - intros w teamID userID role invitedBy team m Hh Hq Hdoc Hm.
    eexists. split; [| split].
    + eapply TeamRepository_AddMember_existing; eauto.
    + simpl. apply set_role_at_match_ids.
    + simpl. apply set_role_at_match_get, Hm.
  - intros o userID role invitedBy now m Hm. unfold Organization_AddMember.
    pose proof (change_role_spec (o_Members o) userID role) as S.
    destruct (change_role (o_Members o) userID role) as [| | ms']; simpl.
    + congruence.
    + destruct S as (m' & Hm' & Hr). split; auto.
      assert (m' = m) as -> by congruence. rewrite <- Hr, set_m_Role_same.
      exact Hm.
    + destruct S as (-> & _). split.
      * apply set_role_at_match_ids.
      * apply set_role_at_match_get, Hm.
Qed.

Lemma C4_witness :
  members_unique
    (run [AddOrganizationMember acme_id
            (mkAddOrganizationMemberRequest "bob" OrgRoleOwner) "alice";
          AddOrganizationMember acme_id
            (mkAddOrganizationMemberRequest "dave" OrgRoleMember) "bob";
          AddTeamMember crew_id (mkAddTeamMemberRequest "dave" TeamRoleViewer)
            "alice";
          AddTeamMember crew_id (mkAddTeamMemberRequest "dave" TeamRoleAdmin)
            "bob";
          RemoveOrganizationMember acme_id "carol" "carol"]
       small_world) /\
  map (fun o => map (fun m => (m_UserID m, m_Role m)) (o_Members o))
    (docs (organizations
       (run [AddOrganizationMember acme_id
               (mkAddOrganizationMemberRequest "bob" OrgRoleOwner) "alice";
             AddOrganizationMember acme_id
               (mkAddOrganizationMemberRequest "dave" OrgRoleMember) "bob";
             AddTeamMember crew_id
               (mkAddTeamMemberRequest "dave" TeamRoleViewer) "alice";
             AddTeamMember crew_id
               (mkAddTeamMemberRequest "dave" TeamRoleAdmin) "bob";
             RemoveOrganizationMember acme_id "carol" "carol"]
          small_world)))
  = [[("alice", "owner"); ("bob", "owner"); ("dave", "member")]].
Proof.
  split.
  - apply (proj1 C4_one_entry_per_user).
    split; simpl; repeat constructor; simpl; intuition discriminate.
  - vm_compute. reflexivity.
Defined.

(* ===================================================================== *)
(** * Deliveries of the "user created" event *)
(* ===================================================================== *)

(** C6, as stated, fails on a well-formed event for a new userId whose
    email another User already holds: every delivery is rejected and no
    User with that userId exists afterwards. *)
Lemma C6_counterexample :
  required_fields_present
    [("id", JString "erin"); ("email", JString "alice@example.org");
     ("firstName", JString "Erin"); ("lastName", JString "Roe")] = true /\
  fst (UserService_ProcessAuthUserCreated "u5" erin_with_the_email_of_alice
         small_world)
    = Err (ErrNew "user with this email already exists") /\
  count_users "erin"
    (docs (users (deliver ["u5"; "u6"] erin_with_the_email_of_alice
                    small_world))) = 0%nat.
Proof. repeat split; vm_compute; reflexivity. Qed.

(** C6 (amended).  ProcessAuthUserCreated is idempotent.  Whatever the
    store does, deliveries of an event never leave more than one user
    with its userId, if there was at most one.  If a user with that
    userId exists, a delivery changes no document and, the read not
    failing, returns success.  If the identity is new (no user with that
    userId or email, the uuid drawn unused) and the store does not fail,
    one delivery or more leave exactly one user with that userId: the new
    one, Active, with the default preferences.  If no user has that
    userId but another user holds the email, the delivery is answered
    with the conflict error and creates no user.  A payload that is not
    an object, or in which one of id, email, firstName, lastName is
    missing, is answered with an error and creates no user. *)
Theorem C6_ProcessAuthUserCreated_is_idempotent :
  (forall uuids event data w,
      e_Data event = DataMap data ->
      (count_users (string_field "id" data) (docs (users w)) <= 1)%nat ->
      (count_users (string_field "id" data)
         (docs (users (deliver uuids event w))) <= 1)%nat) /\
  (forall uuid event data w u,
      e_Data event = DataMap data -> required_fields_present data = true ->
      find (user_by_userId (string_field "id" data)) (docs (users w))
        = Some u ->
      store (snd (UserService_ProcessAuthUserCreated uuid event w)) = store w /\
      (read_faults (users w) = [] ->
       UserService_ProcessAuthUserCreated uuid event w = (Ok tt, w))) /\
  (forall uuid uuids event data w,
      e_Data event = DataMap data -> required_fields_present data = true ->
      quiet (users w) ->
      count_users (string_field "id" data) (docs (users w)) = 0%nat ->
      find (fun u => u_Email u =? string_field "email" data) (docs (users w))
        = None ->
      existsb (fun u => u_ID u =? uuid) (docs (users w)) = false ->
      fst (UserService_ProcessAuthUserCreated uuid event w) = Ok tt /\
      docs (users (deliver (uuid :: uuids) event w))
      = docs (users w)
        ++ [fst (NewUser uuid
                   (mkCreateUserRequest (string_field "id" data)
                      (string_field "email" data)
                      (string_field "firstName" data)
                      (string_field "lastName" data)
                      (role_of_payload data)) (clock w))] /\
      count_users (string_field "id" data)
        (docs (users (deliver (uuid :: uuids) event w))) = 1%nat) /\
  (forall uuid event data w u,
      e_Data event = DataMap data -> required_fields_present data = true ->
      read_faults (users w) = [] ->
      count_users (string_field "id" data) (docs (users w)) = 0%nat ->
      find (fun u => u_Email u =? string_field "email" data) (docs (users w))
        = Some u ->
      fst (UserService_ProcessAuthUserCreated uuid event w)
        = Err (ErrNew "user with this email already exists") /\
      store (snd (UserService_ProcessAuthUserCreated uuid event w)) = store w)
  /\
  (forall uuid event w,
      match e_Data event with
      | DataMap data => required_fields_present data = false
      | DataOther => True
      end ->
      exists msg,
        UserService_ProcessAuthUserCreated uuid event w
        = (Err (ErrNew msg), w)).
Proof.
  split; [| split; [| split; [| split]]].
  - intros uuids event data. induction uuids as [| uuid r IH]; simpl; auto.
    intros w Hd Hc. apply IH; auto.
    apply ProcessAuthUserCreated_at_most_one; auto.
  - intros uuid event data w u Hd Hreq Hf. split.
    + destruct (ProcessAuthUserCreated_users uuid event w)
        as [E | (data' & u' & Hd' & Hu & Hz & E)].
      * assert (reads_only_like :
                  organizations
                    (snd (UserService_ProcessAuthUserCreated uuid event w))
                  = organizations w /\
                  teams (snd (UserService_ProcessAuthUserCreated uuid event w))
                  = teams w).
        { unfold UserService_ProcessAuthUserCreated. rewrite Hd.
          destruct (_ || _ || _ || _); [auto |].
          unfold bind, lookup, UserRepository_GetByUserId, on_users.
          destruct (FindOne _ _) as [[x | e] c]; simpl; auto.
          destruct e; simpl; auto.
          unfold UserService_CreateUser, UserRepository_Create, bind,
            with_clock, lookup, UserRepository_GetByUserId,
            UserRepository_GetByEmail, on_users. simpl.
          destruct (FindOne _ _) as [[x | e] c1]; simpl; auto.
          destruct e; simpl; auto.
          destruct (FindOne _ _) as [[x | e] c2]; simpl; auto.
          destruct e; simpl; auto.
          destruct (InsertOne _ _ _) as [[x | e] c3]; simpl; auto. }
        destruct reads_only_like as [Ho Ht]. unfold store.
        rewrite Ho, Ht, E. reflexivity.
      * exfalso. assert (data' = data) as -> by congruence.
        apply find_count_zero in Hz. congruence.
    + intros Hr. eapply ProcessAuthUserCreated_existing; eauto.
  - intros uuid uuids event data w Hd Hreq Hq Hc He Hu.
    pose proof (ProcessAuthUserCreated_first uuid event data w Hd Hreq Hq Hc
                  He Hu) as H1.
    assert (forall w1 u,
               find (user_by_userId (string_field "id" data)) (docs (users w1))
                 = Some u ->
               read_faults (users w1) = [] ->
               deliver uuids event w1 = w1) as Hrest.
    { induction uuids as [| x r IH]; simpl; auto.
      intros w1 u Hf Hr.
      rewrite (ProcessAuthUserCreated_existing x event data w1 u); eauto. }
    simpl. rewrite H1. simpl. split; [reflexivity |].
    erewrite Hrest.
    + simpl. split; [reflexivity |].
      rewrite count_users_app, Hc. unfold user_by_userId. simpl.
      rewrite String.eqb_refl. reflexivity.
    + simpl. apply find_app_new.
      * apply find_count_zero, Hc.
      * unfold user_by_userId. simpl. apply String.eqb_refl.
    + reflexivity.
  - intros. eapply ProcessAuthUserCreated_email_taken; eauto.
  - intros. apply ProcessAuthUserCreated_malformed. assumption.
Qed.

Lemma C6_witness :
  fst (UserService_ProcessAuthUserCreated "u5" erin_created small_world)
    = Ok tt /\
  docs (users (deliver ["u5"; "u6"; "u7"] erin_created small_world))
  = docs (users small_world)
    ++ [fst (NewUser "u5"
               (mkCreateUserRequest "erin" "erin@example.org" "Erin" "Roe"
                  RolePresenter) 100%Z)] /\
  count_users "erin"
    (docs (users (deliver ["u5"; "u6"; "u7"] erin_created small_world)))
  = 1%nat.
Proof.
  apply (proj1 (proj2 (proj2 C6_ProcessAuthUserCreated_is_idempotent))
           "u5" ["u6"; "u7"] erin_created
           [("id", JString "erin"); ("email", JString "erin@example.org");
            ("firstName", JString "Erin"); ("lastName", JString "Roe");
            ("role", JString "presenter")]
           small_world eq_refl eq_refl (conj eq_refl eq_refl) eq_refl eq_refl
           eq_refl).
Defined.


(* ===================================================================== *)
(** * Further properties of the code *)
(* ===================================================================== *)

#[local] Arguments set_o_TeamIDs : simpl never.
#[local] Arguments set_u_OrganizationIDs : simpl never.
#[local] Arguments set_u_TeamIDs : simpl never.
#[local] Arguments set_u_UpdatedAt : simpl never.
#[local] Arguments set_u_Status : simpl never.
#[local] Arguments set_u_LastLogin : simpl never.

(** X1.  No call of the group facade panics, in any sequence of calls and
    whatever the store does.  UpdateOrganizationMember and
    UpdateTeamMember read currentMember.Role without a nil check when
    memberID equals updatedBy; the check is reached only by an actor who
    passed the role check, and such an actor is a member. *)
Theorem X1_no_call_of_the_facade_panics :
  forall cs w, Forall (fun r => r <> Err ErrPanic) (outcomes cs w).
Proof.
  induction cs as [| c r IH]; intros w; simpl; constructor.
  - apply exec_never_panics.
  - apply IH.
Qed.

(* ===================================================================== *)
(** ** Identifiers that are not ObjectIDs *)
(* ===================================================================== *)

Lemma GetByID_malformed id w :
  ObjectIDFromHex id = false ->
  OrganizationRepository_GetByID id w = (Err ErrInvalidHex, w) /\
  TeamRepository_GetByID id w = (Err ErrInvalidHex, w) /\
  UserRepository_GetByID id w = (Err ErrInvalidHex, w).
Proof.
  intros H. unfold OrganizationRepository_GetByID, TeamRepository_GetByID,
    UserRepository_GetByID. rewrite H. simpl. auto.
Qed.

Lemma found_or_malformed {A} msg (m : M A) w :
  m w = (Err ErrInvalidHex, w) -> found_or msg m w = (Err ErrInvalidHex, w).
Proof. intros H. unfold found_or. rewrite H. reflexivity. Qed.

Lemma bind_malformed {A B} (m : M A) (k : A -> M B) w :
  m w = (Err ErrInvalidHex, w) -> bind m k w = (Err ErrInvalidHex, w).
Proof. intros H. unfold bind. rewrite H. reflexivity. Qed.

Lemma exec_malformed c id w :
  ObjectIDFromHex id = false -> target_of c = Some id ->
  exec c w = (Err ErrInvalidHex, w).
Proof.
  intros H Hc. destruct (GetByID_malformed id w H) as (Ho & Ht & Hu).
  destruct c; simpl in Hc; inversion Hc; subst; simpl;
    repeat (apply bind_malformed); apply found_or_malformed; auto.
Qed.

Lemma exec_user_malformed c id w :
  ObjectIDFromHex id = false -> user_target_of c = Some id ->
  exec_user c w = (Err ErrInvalidHex, w).
Proof.
  intros H Hc. destruct (GetByID_malformed id w H) as (Ho & Ht & Hu).
  destruct c; simpl in Hc; inversion Hc; subst; simpl;
    repeat (apply bind_malformed); apply found_or_malformed; auto.
Qed.

(** X2.  An identifier that is not the hexadecimal form of an ObjectID
    (24 hexadecimal digits) is refused before the store is touched: every
    call of the three facades that addresses a record by such an _id, and
    every lookup by _id, returns the error of ObjectIDFromHex and leaves
    the store, the pending failures and the clock as they were. *)
Theorem X2_malformed_id_is_refused_before_the_store_is_touched :
  forall id w,
    ObjectIDFromHex id = false ->
    (forall c, target_of c = Some id -> exec c w = (Err ErrInvalidHex, w)) /\
    (forall c, user_target_of c = Some id ->
               exec_user c w = (Err ErrInvalidHex, w)) /\
    OrganizationService_GetOrganizationByID id w = (Err ErrInvalidHex, w) /\
    TeamService_GetTeamByID id w = (Err ErrInvalidHex, w) /\
    UserService_GetUserByID id w = (Err ErrInvalidHex, w).
Proof.
  intros id w H.
  destruct (GetByID_malformed id w H) as (Ho & Ht & Hu).
  split; [intros c Hc; apply exec_malformed with id; auto |].
  split; [intros c Hc; apply exec_user_malformed with id; auto |].
  repeat split; apply found_or_malformed; assumption.
Qed.

Lemma X2_witness :
  ObjectIDFromHex "acme" = false /\
  exec (DeleteOrganization "acme" "alice") small_world
    = (Err ErrInvalidHex, small_world) /\
  exec_user (DeleteUser "acme") small_world = (Err ErrInvalidHex, small_world).
Proof.
  split; [reflexivity |].
  pose proof (X2_malformed_id_is_refused_before_the_store_is_touched
                "acme" small_world eq_refl) as (Hc & Hu & _).
  split; [apply Hc | apply Hu]; reflexivity.
Defined.

(* ===================================================================== *)
(** ** What a successful creation stores *)
(* ===================================================================== *)

Lemma InsertOne_ok {A} (key : A -> string) d (c : Coll A) :
  fst (InsertOne key d c) = Ok tt ->
  docs (snd (InsertOne key d c)) = docs c ++ [d] /\
  existsb (fun x => key x =? key d) (docs c) = false.
Proof.
  unfold InsertOne. pose proof (use_write_docs c) as H.
  destruct (use_write c) as [[|] c']; simpl in *; [discriminate |].
  rewrite H. destruct (existsb _ (docs c)); simpl; [discriminate |].
  intros _. auto.
Qed.

Lemma lookup_none {A} (m : M A) w :
  fst (lookup m w) = Ok None -> fst (m w) = Err ErrNoDocuments.
Proof.
  rewrite lookup_fst. destruct (fst (m w)) as [a | e]; [discriminate |].
  destruct e; congruence.
Qed.

Lemma lookup_some {A} (m : M A) w a :
  fst (lookup m w) = Ok (Some a) -> fst (m w) = Ok a.
Proof.
  rewrite lookup_fst. destruct (fst (m w)) as [b | e]; [congruence |].
  destruct e; discriminate.
Qed.

Lemma OrganizationRepository_Create_ok org w o :
  fst (OrganizationRepository_Create org w) = Ok o ->
  o = org /\
  find (fun x => o_Name x =? o_Name org) (docs (organizations w)) = None /\
  existsb (fun x => o_ID x =? o_ID org) (docs (organizations w)) = false /\
  docs (organizations (snd (OrganizationRepository_Create org w)))
    = docs (organizations w) ++ [org].
Proof.
  unfold OrganizationRepository_Create. rewrite bind_eq.
  destruct (fst (lookup _ w)) as [[x |] | e] eqn:L; simpl; try discriminate.
  apply lookup_none in L. rewrite lookup_snd.
  unfold OrganizationRepository_GetByName in *.
  rewrite on_organizations_fst in L. apply FindOne_missing in L.
  rewrite bind_eq, on_organizations_fst, !on_organizations_snd. simpl.
  pose proof (FindOne_docs (fun x => o_Name x =? o_Name org)
                (organizations w)) as D.
  destruct (fst (InsertOne o_ID org _)) as [[] | e] eqn:I; simpl;
    [| discriminate].
  apply InsertOne_ok in I. destruct I as (I1 & I2). rewrite D in *.
  intros E; inversion E; subst. auto.
Qed.

Lemma TeamRepository_Create_ok team w t :
  fst (TeamRepository_Create team w) = Ok t ->
  t = team /\
  find (fun x => (t_Name x =? t_Name team)
                 && (t_OrganizationID x =? t_OrganizationID team))
    (docs (teams w)) = None /\
  existsb (fun x => t_ID x =? t_ID team) (docs (teams w)) = false /\
  docs (teams (snd (TeamRepository_Create team w)))
    = docs (teams w) ++ [team].
Proof.
  unfold TeamRepository_Create. rewrite bind_eq.
  destruct (fst (lookup _ w)) as [[x |] | e] eqn:L; simpl; try discriminate.
  apply lookup_none in L. rewrite lookup_snd.
  unfold TeamRepository_GetByNameAndOrganization in *.
  rewrite on_teams_fst in L. apply FindOne_missing in L.
  rewrite bind_eq, on_teams_fst, !on_teams_snd. simpl.
  match type of L with find ?f _ = _ =>
    pose proof (FindOne_docs f (teams w)) as D end.
  destruct (fst (InsertOne t_ID team _)) as [[] | e] eqn:I; simpl;
    [| discriminate].
  apply InsertOne_ok in I. destruct I as (I1 & I2). rewrite D in *.
  intros E; inversion E; subst. auto.
Qed.

Lemma UserRepository_Create_ok user w u :
  fst (UserRepository_Create user w) = Ok u ->
  u = user /\
  find (user_by_userId (u_UserID user)) (docs (users w)) = None /\
  find (fun x => u_Email x =? u_Email user) (docs (users w)) = None /\
  existsb (fun x => u_ID x =? u_ID user) (docs (users w)) = false /\
  docs (users (snd (UserRepository_Create user w))) = docs (users w) ++ [user].
Proof.
  unfold UserRepository_Create. rewrite bind_eq.
  destruct (fst (lookup _ w)) as [[x |] | e] eqn:L; simpl; try discriminate.
  apply lookup_none in L. rewrite lookup_snd.
  unfold UserRepository_GetByUserId in *.
  rewrite on_users_fst in L. apply FindOne_missing in L.
  rewrite on_users_snd. rewrite bind_eq.
  match goal with |- context [lookup ?m ?w1] =>
    destruct (fst (lookup m w1)) as [[x |] | e] eqn:L2; simpl;
    try discriminate; apply lookup_none in L2; rewrite lookup_snd end.
  unfold UserRepository_GetByEmail in *.
  rewrite on_users_fst in L2. simpl in L2. apply FindOne_missing in L2.
  rewrite FindOne_docs in L2.
  rewrite bind_eq, on_users_fst, !on_users_snd. simpl.
  destruct (fst (InsertOne u_ID user _)) as [[] | e] eqn:I; simpl;
    [| discriminate].
  apply InsertOne_ok in I. destruct I as (I1 & I2).
  rewrite !FindOne_docs in *.
  intros E; inversion E; subst. auto.
Qed.

Lemma with_clock_frame {A} (m : Clock A) w :
  organizations (snd (with_clock m w)) = organizations w /\
  teams (snd (with_clock m w)) = teams w /\
  users (snd (with_clock m w)) = users w.
Proof. unfold with_clock. destruct (m (clock w)). simpl. auto. Qed.


Section Frames.
Context {A B : Type}.

Lemma only_organizations_bind (m : M A) (k : A -> M B) :
  touches_only_organizations m ->
  (forall a, touches_only_organizations (k a)) ->
  touches_only_organizations (bind m k).
Proof.
  intros Hm Hk w. rewrite bind_eq. destruct (Hm w) as [T U].
  destruct (fst (m w)) as [a | e]; simpl; [| auto].
  destruct (Hk a (snd (m w))) as [T' U']. split; congruence.
Qed.

Lemma only_teams_bind (m : M A) (k : A -> M B) :
  touches_only_teams m -> (forall a, touches_only_teams (k a)) ->
  touches_only_teams (bind m k).
Proof.
  intros Hm Hk w. rewrite bind_eq. destruct (Hm w) as [T U].
  destruct (fst (m w)) as [a | e]; simpl; [| auto].
  destruct (Hk a (snd (m w))) as [T' U']. split; congruence.
Qed.

Lemma only_users_bind (m : M A) (k : A -> M B) :
  touches_only_users m -> (forall a, touches_only_users (k a)) ->
  touches_only_users (bind m k).
Proof.
  intros Hm Hk w. rewrite bind_eq. destruct (Hm w) as [T U].
  destruct (fst (m w)) as [a | e]; simpl; [| auto].
  destruct (Hk a (snd (m w))) as [T' U']. split; congruence.
Qed.

Lemma only_organizations_on (f : Coll Organization -> result A * _) :
  touches_only_organizations (on_organizations f).
Proof. intros w. rewrite on_organizations_snd. simpl. auto. Qed.

Lemma only_teams_on (f : Coll Team -> result A * _) :
  touches_only_teams (on_teams f).
Proof. intros w. rewrite on_teams_snd. simpl. auto. Qed.

Lemma only_users_on (f : Coll User -> result A * _) :
  touches_only_users (on_users f).
Proof. intros w. rewrite on_users_snd. simpl. auto. Qed.

Lemma only_organizations_clock (m : Clock A) :
  touches_only_organizations (with_clock m).
Proof. intros w. destruct (with_clock_frame m w) as (? & ? & ?). auto. Qed.

Lemma only_teams_clock (m : Clock A) : touches_only_teams (with_clock m).
Proof. intros w. destruct (with_clock_frame m w) as (? & ? & ?). auto. Qed.

Lemma only_users_clock (m : Clock A) : touches_only_users (with_clock m).
Proof. intros w. destruct (with_clock_frame m w) as (? & ? & ?). auto. Qed.

Lemma only_organizations_ret (a : A) : touches_only_organizations (ret a).
Proof. intros w. simpl. auto. Qed.

Lemma only_teams_ret (a : A) : touches_only_teams (ret a).
Proof. intros w. simpl. auto. Qed.

Lemma only_users_ret (a : A) : touches_only_users (ret a).
Proof. intros w. simpl. auto. Qed.

Lemma only_organizations_fail e : touches_only_organizations (@fail A e).
Proof. intros w. simpl. auto. Qed.

Lemma only_teams_fail e : touches_only_teams (@fail A e).
Proof. intros w. simpl. auto. Qed.

Lemma only_users_fail e : touches_only_users (@fail A e).
Proof. intros w. simpl. auto. Qed.

Lemma only_organizations_lookup (m : M A) :
  touches_only_organizations m -> touches_only_organizations (lookup m).
Proof. intros H w. rewrite lookup_snd. apply H. Qed.

Lemma only_teams_lookup (m : M A) :
  touches_only_teams m -> touches_only_teams (lookup m).
Proof. intros H w. rewrite lookup_snd. apply H. Qed.

Lemma only_users_lookup (m : M A) :
  touches_only_users m -> touches_only_users (lookup m).
Proof. intros H w. rewrite lookup_snd. apply H. Qed.

Lemma only_users_found_or msg (m : M A) :
  touches_only_users m -> touches_only_users (found_or msg m).
Proof. intros H w. rewrite found_or_snd. apply H. Qed.

Lemma only_organizations_logged (m : M A) :
  touches_only_organizations m -> touches_only_organizations (logged m).
Proof. intros H w. apply H. Qed.

Lemma only_users_logged (m : M A) :
  touches_only_users m -> touches_only_users (logged m).
Proof. intros H w. apply H. Qed.
End Frames.

Create HintDb frame discriminated.

#[local] Hint Resolve only_organizations_bind only_teams_bind only_users_bind
  only_organizations_on only_teams_on only_users_on
  only_organizations_clock only_teams_clock only_users_clock
  only_organizations_ret only_teams_ret only_users_ret
  only_organizations_fail only_teams_fail only_users_fail
  only_organizations_lookup only_teams_lookup only_users_lookup
  only_users_found_or only_organizations_logged only_users_logged : frame.
#[local] Hint Extern 1 (touches_only_organizations (if ?b then _ else _)) =>
  destruct b : frame.
#[local] Hint Extern 1 (touches_only_teams (if ?b then _ else _)) =>
  destruct b : frame.
#[local] Hint Extern 1 (touches_only_users (if ?b then _ else _)) =>
  destruct b : frame.
#[local] Hint Extern 1 (touches_only_organizations (match ?x with _ => _ end)) =>
  destruct x : frame.
#[local] Hint Extern 1 (touches_only_teams (match ?x with _ => _ end)) =>
  destruct x : frame.
#[local] Hint Extern 1 (touches_only_users (match ?x with _ => _ end)) =>
  destruct x : frame.

Lemma only_organizations_repository :
  (forall id, touches_only_organizations (OrganizationRepository_GetByID id)) /\
  (forall org, touches_only_organizations (OrganizationRepository_Create org)) /\
  (forall org, touches_only_organizations (OrganizationRepository_Update org)) /\
  (forall id, touches_only_organizations (OrganizationRepository_Delete id)) /\
  (forall o u r i,
      touches_only_organizations (OrganizationRepository_AddMember o u r i)) /\
  (forall o u,
      touches_only_organizations (OrganizationRepository_RemoveMember o u)) /\
  (forall o t, touches_only_organizations (OrganizationRepository_AddTeam o t)) /\
  (forall o t,
      touches_only_organizations (OrganizationRepository_RemoveTeam o t)).
Proof.
  repeat match goal with |- _ /\ _ => split end; intros;
    unfold OrganizationRepository_GetByID, OrganizationRepository_Create,
      OrganizationRepository_Update, OrganizationRepository_Delete,
      OrganizationRepository_AddMember, OrganizationRepository_RemoveMember,
      OrganizationRepository_AddTeam, OrganizationRepository_RemoveTeam,
      OrganizationRepository_GetByName; cbv zeta; auto 20 with frame.
Qed.

Lemma only_teams_repository :
  (forall id, touches_only_teams (TeamRepository_GetByID id)) /\
  (forall team, touches_only_teams (TeamRepository_Create team)) /\
  (forall team, touches_only_teams (TeamRepository_Update team)) /\
  (forall id, touches_only_teams (TeamRepository_Delete id)) /\
  (forall t u r i, touches_only_teams (TeamRepository_AddMember t u r i)) /\
  (forall t u, touches_only_teams (TeamRepository_RemoveMember t u)).
Proof.
  repeat match goal with |- _ /\ _ => split end; intros;
    unfold TeamRepository_GetByID, TeamRepository_Create,
      TeamRepository_Update, TeamRepository_Delete,
      TeamRepository_AddMember, TeamRepository_RemoveMember,
      TeamRepository_GetByNameAndOrganization; cbv zeta; auto 20 with frame.
Qed.

Lemma only_users_repository :
  (forall id, touches_only_users (UserRepository_GetByID id)) /\
  (forall id, touches_only_users (UserRepository_GetByUserId id)) /\
  (forall e, touches_only_users (UserRepository_GetByEmail e)) /\
  (forall u, touches_only_users (UserRepository_Create u)) /\
  (forall u, touches_only_users (UserRepository_Update u)) /\
  (forall u t, touches_only_users (UserRepository_UpdateLastLogin u t)) /\
  (forall id, touches_only_users (UserRepository_Delete id)) /\
  (forall u o, touches_only_users (UserRepository_AddOrganizationToUser u o)) /\
  (forall u o,
      touches_only_users (UserRepository_RemoveOrganizationFromUser u o)) /\
  (forall u t, touches_only_users (UserRepository_AddTeamToUser u t)) /\
  (forall u t, touches_only_users (UserRepository_RemoveTeamFromUser u t)).
Proof.
  repeat match goal with |- _ /\ _ => split end; intros;
    unfold UserRepository_Create, UserRepository_GetByID,
      UserRepository_GetByUserId, UserRepository_GetByEmail,
      UserRepository_Update, UserRepository_UpdateLastLogin,
      UserRepository_Delete, UserRepository_AddOrganizationToUser,
      UserRepository_RemoveOrganizationFromUser,
      UserRepository_AddTeamToUser, UserRepository_RemoveTeamFromUser;
    cbv zeta; auto 20 with frame.
Qed.

(* ===================================================================== *)
(** ** Records created by the facade *)
(* ===================================================================== *)

Lemma uuid_text_is_no_ObjectID s :
  String.length s = 36%nat -> ObjectIDFromHex s = false.
Proof. intros H. unfold ObjectIDFromHex. rewrite H. reflexivity. Qed.

Lemma bind_with_clock {A B} (m : Clock A) (k : A -> M B) w :
  bind (with_clock m) k w
  = k (fst (m (clock w)))
      (mkWorld (organizations w) (teams w) (users w) (snd (m (clock w)))).
Proof. unfold bind, with_clock. destruct (m (clock w)). reflexivity. Qed.

Lemma NewOrganization_fields uuid req createdBy c :
  let org := fst (NewOrganization uuid req createdBy c) in
  o_ID org = uuid /\ o_Name org = cor_Name req /\
  o_Members org = [mkMember createdBy OrgRoleOwner c ""] /\
  o_TeamIDs org = [] /\ o_CreatedBy org = createdBy /\
  snd (NewOrganization uuid req createdBy c) = (c + 1)%Z.
Proof. simpl. auto 10. Qed.

Lemma NewTeam_fields uuid req createdBy c :
  let team := fst (NewTeam uuid req createdBy c) in
  t_ID team = uuid /\ t_Name team = ctr_Name req /\
  t_OrganizationID team = ctr_OrganizationID req /\
  t_Members team = [mkMember createdBy TeamRoleOwner c ""] /\
  t_CreatedBy team = createdBy /\
  snd (NewTeam uuid req createdBy c) = (c + 1)%Z.
Proof. simpl. auto 10. Qed.

Lemma NewUser_fields uuid req c :
  let user := fst (NewUser uuid req c) in
  u_ID user = uuid /\ u_UserID user = cur_UserID req /\
  u_Email user = cur_Email req /\ u_Status user = StatusActive /\
  u_OrganizationIDs user = [] /\ u_TeamIDs user = [] /\
  snd (NewUser uuid req c) = (c + 1)%Z.
Proof. simpl. auto 10. Qed.

Lemma CreateOrganization_ok uuid req createdBy w org :
  fst (OrganizationService_CreateOrganization uuid req createdBy w) = Ok org ->
  let w' := snd (OrganizationService_CreateOrganization uuid req createdBy w) in
  org = fst (NewOrganization uuid req createdBy (clock w)) /\
  find (fun x => o_Name x =? cor_Name req) (docs (organizations w)) = None /\
  existsb (fun x => o_ID x =? uuid) (docs (organizations w)) = false /\
  docs (organizations w') = docs (organizations w) ++ [org] /\
  teams w' = teams w.
Proof.
  unfold OrganizationService_CreateOrganization. rewrite bind_with_clock.
  destruct (NewOrganization_fields uuid req createdBy (clock w))
    as (Fi & Fn & _).
  set (org0 := fst (NewOrganization uuid req createdBy (clock w))) in *.
  set (w1 := mkWorld _ _ _ _).
  rewrite bind_eq.
  destruct (fst (OrganizationRepository_Create org0 w1)) as [o |] eqn:E;
    simpl; [| discriminate].
  apply OrganizationRepository_Create_ok in E.
  destruct E as (-> & N & I & D).
  intros H; inversion H; subst org.
  destruct only_organizations_repository as (_ & Hc & _).
  destruct (Hc org0 w1) as [T _].
  destruct only_users_repository as (_ & _ & _ & _ & _ & _ & _ & Ha & _).
  destruct (Ha createdBy (o_ID org0) (snd (OrganizationRepository_Create org0 w1)))
    as [O T'].
  rewrite O, T', T, D. rewrite Fi, Fn in *. auto.
Qed.

Lemma CreateTeam_ok uuid req createdBy w team :
  fst (TeamService_CreateTeam uuid req createdBy w) = Ok team ->
  let w' := snd (TeamService_CreateTeam uuid req createdBy w) in
  exists org,
    find (org_by_id (ctr_OrganizationID req)) (docs (organizations w))
      = Some org /\
    Organization_IsMember org createdBy = true /\
    team = fst (NewTeam uuid req createdBy (clock w)) /\
    find (fun x => (t_Name x =? ctr_Name req)
                   && (t_OrganizationID x =? ctr_OrganizationID req))
      (docs (teams w)) = None /\
    existsb (fun x => t_ID x =? uuid) (docs (teams w)) = false /\
    docs (teams w') = docs (teams w) ++ [team].
Proof.
  unfold TeamService_CreateTeam. rewrite bind_eq, found_or_fst, found_or_snd.
  destruct (fst (OrganizationRepository_GetByID _ w)) as [org | e] eqn:G;
    [| destruct e; discriminate].
  pose proof (OrganizationRepository_GetByID_found _ _ _ G) as F.
  destruct only_organizations_repository as (Hg & _ & _ & _ & _ & _ & Hat & _).
  destruct (Hg (ctr_OrganizationID req) w) as [T0 U0].
  set (w0 := snd (OrganizationRepository_GetByID _ w)) in *.
  destruct (Organization_IsMember org createdBy) eqn:M; simpl;
    [| discriminate].
  rewrite bind_with_clock.
  destruct (NewTeam_fields uuid req createdBy (clock w0))
    as (Fi & Fn & Fo & _).
  set (team0 := fst (NewTeam uuid req createdBy (clock w0))) in *.
  set (w1 := mkWorld _ _ _ _).
  rewrite bind_eq.
  destruct (fst (TeamRepository_Create team0 w1)) as [t |] eqn:E;
    simpl; [| discriminate].
  apply TeamRepository_Create_ok in E. destruct E as (-> & N & I & D).
  rewrite Fi, Fn, Fo in *.
  intros H; inversion H; subst team.
  exists org.
  destruct (Hat (ctr_OrganizationID req) (t_ID team0)
              (snd (TeamRepository_Create team0 w1))) as [T1 _].
  destruct only_users_repository
    as (_ & _ & _ & _ & _ & _ & _ & _ & _ & Hau & _).
  match goal with |- context [UserRepository_AddTeamToUser ?u ?t ?x] =>
    destruct (Hau u t x) as [_ T2] end.
  rewrite Fi in *. rewrite T2, T1, D. subst w1. simpl in *. rewrite T0 in *.
  assert (clock w0 = clock w) as C.
  { subst w0. unfold OrganizationRepository_GetByID.
    destruct (negb _); [reflexivity |]. rewrite on_organizations_snd.
    reflexivity. }
  subst team0. rewrite C in *. repeat split; auto.
Qed.

Lemma CreateUser_ok uuid req w user :
  fst (UserService_CreateUser uuid req w) = Ok user ->
  let w' := snd (UserService_CreateUser uuid req w) in
  user = fst (NewUser uuid req (clock w)) /\
  find (user_by_userId (cur_UserID req)) (docs (users w)) = None /\
  find (fun x => u_Email x =? cur_Email req) (docs (users w)) = None /\
  existsb (fun x => u_ID x =? uuid) (docs (users w)) = false /\
  docs (users w') = docs (users w) ++ [user].
Proof.
  unfold UserService_CreateUser. rewrite bind_with_clock.
  destruct (NewUser_fields uuid req (clock w)) as (Fi & Fu & Fe & _).
  set (user0 := fst (NewUser uuid req (clock w))) in *.
  set (w1 := mkWorld _ _ _ _).
  intros E. apply UserRepository_Create_ok in E.
  destruct E as (-> & N & N2 & I & D).
  rewrite Fi, Fu, Fe in *. auto.
Qed.

(** X3.  A record created through the facade keeps the identifier that
    uuid.New() gave it (the driver returns no ObjectID for a record that
    comes with an _id), and the text form of a UUID, 36 characters long,
    is no ObjectID: the created organization, team or user is stored, and
    every later lookup by its id, and every call of the facades that
    addresses it by its id, is refused with the error of
    ObjectIDFromHex. *)
Theorem X3_created_records_cannot_be_addressed_by_id :
  forall uuid,
    String.length uuid = 36%nat ->
    (forall req createdBy w org,
        fst (OrganizationService_CreateOrganization uuid req createdBy w)
          = Ok org ->
        o_ID org = uuid /\
        In org (docs (organizations
                        (snd (OrganizationService_CreateOrganization uuid req
                                createdBy w)))) /\
        forall w',
          OrganizationService_GetOrganizationByID (o_ID org) w'
            = (Err ErrInvalidHex, w') /\
          forall c, target_of c = Some (o_ID org) ->
                    exec c w' = (Err ErrInvalidHex, w')) /\
    (forall req createdBy w team,
        fst (TeamService_CreateTeam uuid req createdBy w) = Ok team ->
        t_ID team = uuid /\
        In team (docs (teams (snd (TeamService_CreateTeam uuid req createdBy
                                     w)))) /\
        forall w',
          TeamService_GetTeamByID (t_ID team) w' = (Err ErrInvalidHex, w') /\
          forall c, target_of c = Some (t_ID team) ->
                    exec c w' = (Err ErrInvalidHex, w')) /\
    (forall req w user,
        fst (UserService_CreateUser uuid req w) = Ok user ->
        u_ID user = uuid /\
        In user (docs (users (snd (UserService_CreateUser uuid req w)))) /\
        forall w',
          UserService_GetUserByID (u_ID user) w' = (Err ErrInvalidHex, w') /\
          forall c, user_target_of c = Some (u_ID user) ->
                    exec_user c w' = (Err ErrInvalidHex, w')).
Proof.
  intros uuid Hlen. pose proof (uuid_text_is_no_ObjectID uuid Hlen) as Hno.
  split; [| split].
  - intros req createdBy w org H.
    destruct (CreateOrganization_ok _ _ _ _ _ H) as (E & _ & _ & D & _).
    assert (o_ID org = uuid) as Hid by (subst org; reflexivity).
    split; [exact Hid |]. split.
    + rewrite D. apply in_or_app. right. simpl. auto.
    + intros w'. rewrite Hid.
      destruct (GetByID_malformed uuid w' Hno) as (Ho & _).
      split; [apply found_or_malformed; exact Ho |].
      intros c Hc. apply exec_malformed with uuid; auto.
  - intros req createdBy w team H.
    destruct (CreateTeam_ok _ _ _ _ _ H) as (org & _ & _ & E & _ & _ & D).
    assert (t_ID team = uuid) as Hid by (subst team; reflexivity).
    split; [exact Hid |]. split.
    + rewrite D. apply in_or_app. right. simpl. auto.
    + intros w'. rewrite Hid.
      destruct (GetByID_malformed uuid w' Hno) as (_ & Ht & _).
      split; [apply found_or_malformed; exact Ht |].
      intros c Hc. apply exec_malformed with uuid; auto.
  - intros req w user H.
    destruct (CreateUser_ok _ _ _ _ H) as (E & _ & _ & _ & D).
    assert (u_ID user = uuid) as Hid by (subst user; reflexivity).
    split; [exact Hid |]. split.
    + rewrite D. apply in_or_app. right. simpl. auto.
    + intros w'. rewrite Hid.
      destruct (GetByID_malformed uuid w' Hno) as (_ & _ & Hu).
      split; [apply found_or_malformed; exact Hu |].
      intros c Hc. apply exec_user_malformed with uuid; auto.
Qed.

Lemma X3_witness :
  String.length "7d444840-9dc0-41d1-b245-5ffdce74fad2" = 36%nat /\
  (forall w',
      OrganizationService_GetOrganizationByID
        "7d444840-9dc0-41d1-b245-5ffdce74fad2" w' = (Err ErrInvalidHex, w')) /\
  (forall w',
      exec (DeleteOrganization "7d444840-9dc0-41d1-b245-5ffdce74fad2" "alice")
        w' = (Err ErrInvalidHex, w')).
Proof.
  split; [reflexivity |].
  destruct (X3_created_records_cannot_be_addressed_by_id
              "7d444840-9dc0-41d1-b245-5ffdce74fad2" eq_refl) as (Ho & _).
  assert (fst (OrganizationService_CreateOrganization
                 "7d444840-9dc0-41d1-b245-5ffdce74fad2"
                 (mkCreateOrganizationRequest "Beta" "" "" "" "" "" "")
                 "alice" small_world)
          = Ok (fst (NewOrganization "7d444840-9dc0-41d1-b245-5ffdce74fad2"
                       (mkCreateOrganizationRequest "Beta" "" "" "" "" "" "")
                       "alice" 100%Z))) as E by reflexivity.
  destruct (Ho _ _ _ _ E) as (_ & _ & H).
  split; intros w'; destruct (H w') as (G & X); [exact G |].
  apply X. reflexivity.
Defined.

(* ===================================================================== *)
(** ** Accepted calls were authorized *)
(* ===================================================================== *)

Lemma UserRepository_GetByUserId_found userId w u :
  fst (UserRepository_GetByUserId userId w) = Ok u ->
  user_of userId w = Some u.
Proof.
  unfold UserRepository_GetByUserId, user_of. rewrite on_users_fst.
  apply FindOne_found.
Qed.

Lemma GetByID_organization_frame id w :
  teams (snd (OrganizationRepository_GetByID id w)) = teams w /\
  users (snd (OrganizationRepository_GetByID id w)) = users w /\
  docs (organizations (snd (OrganizationRepository_GetByID id w)))
    = docs (organizations w).
Proof.
  destruct only_organizations_repository as (H & _). destruct (H id w).
  repeat split; auto.
  apply reads_only_organizations_docs,
    reads_only_OrganizationRepository_GetByID.
Qed.

Lemma GetByID_team_frame id w :
  organizations (snd (TeamRepository_GetByID id w)) = organizations w /\
  users (snd (TeamRepository_GetByID id w)) = users w /\
  docs (teams (snd (TeamRepository_GetByID id w))) = docs (teams w).
Proof.
  destruct only_teams_repository as (H & _). destruct (H id w).
  repeat split; auto.
  apply reads_only_teams_docs, reads_only_TeamRepository_GetByID.
Qed.

Lemma GetByUserId_frame userId w :
  organizations (snd (UserRepository_GetByUserId userId w)) = organizations w /\
  teams (snd (UserRepository_GetByUserId userId w)) = teams w /\
  docs (users (snd (UserRepository_GetByUserId userId w))) = docs (users w).
Proof.
  unfold UserRepository_GetByUserId. rewrite on_users_snd. simpl.
  repeat split. apply FindOne_docs.
Qed.

Ltac found_organization G F org :=
  rewrite bind_eq, found_or_fst, found_or_snd;
  destruct (fst (OrganizationRepository_GetByID _ _)) as [org | ?e] eqn:G;
  [| destruct e; simpl; discriminate];
  pose proof (OrganizationRepository_GetByID_found _ _ _ G) as F;
  cbv iota beta.

Ltac found_team G F team :=
  rewrite bind_eq, found_or_fst, found_or_snd;
  destruct (fst (TeamRepository_GetByID _ _)) as [team | ?e] eqn:G;
  [| destruct e; simpl; discriminate];
  pose proof (TeamRepository_GetByID_found _ _ _ G) as F;
  cbv iota beta.

Ltac checked R :=
  match goal with
  | |- context [if negb ?b then _ else _] =>
      destruct b eqn:R; cbn [negb]; cbv iota; [| simpl; discriminate]
  end.

(** X4.  What an accepted call of the organization facade has checked,
    whatever the store does.  If UpdateOrganization, DeleteOrganization,
    AddOrganizationMember or UpdateOrganizationMember returns success,
    the stored organization gives the actor the role that the code asks
    for (owner or admin to update or to add or update a member, owner to
    delete, owner to change the role of an owner), and the added user is
    a stored user.  If RemoveOrganizationMember returns success, the
    removed user was a member; an owner was removed by an owner or by
    itself, another owner remaining; an admin was removed by an owner, an
    admin or itself.  Of the actor who removes a member of another role
    the code asks nothing. *)
Theorem X4_what_an_accepted_organization_call_has_checked :
  forall w,
    (forall id req userID org',
        fst (OrganizationService_UpdateOrganization id req userID w)
          = Ok org' ->
        exists org,
          find (org_by_id id) (docs (organizations w)) = Some org /\
          Organization_HasRole org userID [OrgRoleOwner; OrgRoleAdmin] = true)
    /\
    (forall id userID,
        fst (OrganizationService_DeleteOrganization id userID w) = Ok tt ->
        exists org,
          find (org_by_id id) (docs (organizations w)) = Some org /\
          Organization_HasRole org userID [OrgRoleOwner] = true)
    /\
    (forall orgID req invitedBy,
        fst (OrganizationService_AddOrganizationMember orgID req invitedBy w)
          = Ok tt ->
        exists org user,
          find (org_by_id orgID) (docs (organizations w)) = Some org /\
          Organization_HasRole org invitedBy [OrgRoleOwner; OrgRoleAdmin]
            = true /\
          user_of (aomr_UserID req) w = Some user)
    /\
    (forall orgID memberID req updatedBy,
        fst (OrganizationService_UpdateOrganizationMember orgID memberID req
               updatedBy w) = Ok tt ->
        exists org,
          find (org_by_id orgID) (docs (organizations w)) = Some org /\
          Organization_HasRole org updatedBy [OrgRoleOwner; OrgRoleAdmin]
            = true /\
          (forall current,
              Organization_GetMember org memberID = Some current ->
              m_Role current = OrgRoleOwner ->
              Organization_HasRole org updatedBy [OrgRoleOwner] = true))
    /\
    (forall orgID memberID removedBy,
        fst (OrganizationService_RemoveOrganizationMember orgID memberID
               removedBy w) = Ok tt ->
        exists org target,
          find (org_by_id orgID) (docs (organizations w)) = Some org /\
          Organization_GetMember org memberID = Some target /\
          (m_Role target = OrgRoleOwner ->
           (Organization_HasRole org removedBy [OrgRoleOwner] = true \/
            removedBy = memberID) /\
           (1 < ownerCount OrgRoleOwner (o_Members org))%nat) /\
          (m_Role target = OrgRoleAdmin ->
           Organization_HasRole org removedBy [OrgRoleOwner] = true \/
           Organization_HasRole org removedBy [OrgRoleAdmin] = true \/
           removedBy = memberID)).
Proof.
  intros w. repeat match goal with |- _ /\ _ => split end.
  - intros id req userID org'.
    unfold OrganizationService_UpdateOrganization.
    found_organization G F org. checked R. eauto.
  - intros id userID. unfold OrganizationService_DeleteOrganization.
    found_organization G F org. checked R. eauto.
  - intros orgID req invitedBy.
    unfold OrganizationService_AddOrganizationMember.
    found_organization G F org. checked R.
    rewrite bind_eq, found_or_fst.
    destruct (fst (UserRepository_GetByUserId _ _)) as [user | e] eqn:U;
      [| destruct e; simpl; discriminate].
    apply UserRepository_GetByUserId_found in U. unfold user_of in *.
    destruct (GetByID_organization_frame orgID w) as (_ & Hu & _).
    rewrite Hu in U. eauto.
  - intros orgID memberID req updatedBy.
    unfold OrganizationService_UpdateOrganizationMember.
    found_organization G F org. checked R. intros H.
    exists org. repeat split; auto.
    intros current Hc Ho. rewrite Hc, Ho in H. simpl in H.
    destruct (Organization_HasRole org updatedBy [OrgRoleOwner]); auto.
    simpl in H. discriminate.
  - intros orgID memberID removedBy.
    unfold OrganizationService_RemoveOrganizationMember.
    found_organization G F org.
    destruct (Organization_GetMember org memberID) as [target |] eqn:M;
      [| simpl; discriminate].
    cbv zeta. intros H. exists org, target.
    split; [exact F |]. split; [exact M |]. split.
    + intros Ro. rewrite Ro in H.
      destruct (Organization_HasRole org removedBy [OrgRoleOwner]);
        destruct (removedBy =? memberID) eqn:S;
        try apply String.eqb_eq in S;
        destruct (ownerCount OrgRoleOwner (o_Members org) <=? 1)%nat eqn:L;
        simpl in H; try discriminate;
        apply Nat.leb_gt in L; auto.
    + intros Ra. rewrite Ra in H.
      destruct (Organization_HasRole org removedBy [OrgRoleOwner]);
        destruct (removedBy =? memberID) eqn:S;
        try apply String.eqb_eq in S;
        destruct (Organization_HasRole org removedBy [OrgRoleAdmin]);
        simpl in H; try discriminate; auto.
Qed.

Lemma X4_witness :
  exists org user,
    find (org_by_id acme_id) (docs (organizations small_world)) = Some org /\
    Organization_HasRole org "alice" [OrgRoleOwner; OrgRoleAdmin] = true /\
    user_of "dave" small_world = Some user.
Proof.
  destruct (X4_what_an_accepted_organization_call_has_checked small_world)
    as (_ & _ & H & _).
  apply (H acme_id (mkAddOrganizationMemberRequest "dave" OrgRoleMember)
           "alice").
  reflexivity.
Defined.

(** X5.  What an accepted call of the team facade has checked, whatever
    the store does: a team is created only in a stored organization of
    which the creator is a member; a member is added only by an owner or
    admin of the team, and only if the user is stored and is a member of
    the organization of the team; UpdateTeam and UpdateTeamMember need
    an owner or admin (an owner to change the role of an owner),
    DeleteTeam an owner.  If RemoveTeamMember returns success, the
    removed user was a member; an owner was removed by an owner or by
    itself, another owner remaining; an admin was removed by an owner, an
    admin or itself.  Of the actor who removes a member of another role
    the code asks nothing. *)
Theorem X5_what_an_accepted_team_call_has_checked :
  forall w,
    (forall uuid req createdBy team,
        fst (TeamService_CreateTeam uuid req createdBy w) = Ok team ->
        exists org,
          find (org_by_id (ctr_OrganizationID req)) (docs (organizations w))
            = Some org /\
          Organization_IsMember org createdBy = true)
    /\
    (forall id req userID team',
        fst (TeamService_UpdateTeam id req userID w) = Ok team' ->
        exists team,
          find (team_by_id id) (docs (teams w)) = Some team /\
          Team_HasRole team userID [TeamRoleOwner; TeamRoleAdmin] = true)
    /\
    (forall id userID,
        fst (TeamService_DeleteTeam id userID w) = Ok tt ->
        exists team,
          find (team_by_id id) (docs (teams w)) = Some team /\
          Team_HasRole team userID [TeamRoleOwner] = true)
    /\
    (forall teamID req invitedBy,
        fst (TeamService_AddTeamMember teamID req invitedBy w) = Ok tt ->
        exists team user org,
          find (team_by_id teamID) (docs (teams w)) = Some team /\
          Team_HasRole team invitedBy [TeamRoleOwner; TeamRoleAdmin] = true /\
          user_of (atmr_UserID req) w = Some user /\
          find (org_by_id (t_OrganizationID team)) (docs (organizations w))
            = Some org /\
          Organization_IsMember org (atmr_UserID req) = true)
    /\
    (forall teamID memberID req updatedBy,
        fst (TeamService_UpdateTeamMember teamID memberID req updatedBy w)
          = Ok tt ->
        exists team,
          find (team_by_id teamID) (docs (teams w)) = Some team /\
          Team_HasRole team updatedBy [TeamRoleOwner; TeamRoleAdmin] = true /\
          (forall current,
              Team_GetMember team memberID = Some current ->
              m_Role current = TeamRoleOwner ->
              Team_HasRole team updatedBy [TeamRoleOwner] = true))
    /\
    (forall teamID memberID removedBy,
        fst (TeamService_RemoveTeamMember teamID memberID removedBy w)
          = Ok tt ->
        exists team target,
          find (team_by_id teamID) (docs (teams w)) = Some team /\
          Team_GetMember team memberID = Some target /\
          (m_Role target = TeamRoleOwner ->
           (Team_HasRole team removedBy [TeamRoleOwner] = true \/
            removedBy = memberID) /\
           (1 < ownerCount TeamRoleOwner (t_Members team))%nat) /\
          (m_Role target = TeamRoleAdmin ->
           Team_HasRole team removedBy [TeamRoleOwner] = true \/
           Team_HasRole team removedBy [TeamRoleAdmin] = true \/
           removedBy = memberID)).
Proof.
  intros w. repeat match goal with |- _ /\ _ => split end.
  - intros uuid req createdBy team H.
    destruct (CreateTeam_ok _ _ _ _ _ H) as (org & F & M & _). eauto.
  - intros id req userID team'. unfold TeamService_UpdateTeam.
    found_team G F team. checked R. eauto.
  - intros id userID. unfold TeamService_DeleteTeam.
    found_team G F team. checked R. eauto.
  - intros teamID req invitedBy. unfold TeamService_AddTeamMember.
    found_team G F team. checked R.
    rewrite bind_eq, found_or_fst, found_or_snd.
    destruct (fst (UserRepository_GetByUserId _ _)) as [user | e] eqn:U;
      [| destruct e; simpl; discriminate].
    apply UserRepository_GetByUserId_found in U. unfold user_of in *.
    destruct (GetByID_team_frame teamID w) as (Ho & Hu & _).
    rewrite Hu in U. cbv iota beta. rewrite bind_eq.
    destruct (fst (OrganizationRepository_GetByID _ _)) as [org | e] eqn:O;
      [| simpl; discriminate].
    apply OrganizationRepository_GetByID_found in O.
    destruct (GetByUserId_frame (atmr_UserID req)
                (snd (TeamRepository_GetByID teamID w))) as (Ho' & _).
    rewrite Ho', Ho in O. cbv iota beta.
    destruct (Organization_IsMember org (atmr_UserID req)) eqn:M;
      [| simpl; discriminate].
    intros _. exists team, user, org. auto.
  - intros teamID memberID req updatedBy.
    unfold TeamService_UpdateTeamMember.
    found_team G F team. checked R. intros H.
    exists team. repeat split; auto.
    intros current Hc Ho. rewrite Hc, Ho in H. simpl in H.
    destruct (Team_HasRole team updatedBy [TeamRoleOwner]); auto.
    simpl in H. discriminate.
  - intros teamID memberID removedBy.
    unfold TeamService_RemoveTeamMember.
    found_team G F team.
    destruct (Team_GetMember team memberID) as [target |] eqn:M;
      [| simpl; discriminate].
    cbv zeta. intros H. exists team, target.
    split; [exact F |]. split; [exact M |]. split.
    + intros Ro. rewrite Ro in H.
      destruct (Team_HasRole team removedBy [TeamRoleOwner]);
        destruct (removedBy =? memberID) eqn:S;
        try apply String.eqb_eq in S;
        destruct (ownerCount TeamRoleOwner (t_Members team) <=? 1)%nat eqn:L;
        simpl in H; try discriminate;
        apply Nat.leb_gt in L; auto.
    + intros Ra. rewrite Ra in H.
      destruct (Team_HasRole team removedBy [TeamRoleOwner]);
        destruct (removedBy =? memberID) eqn:S;
        try apply String.eqb_eq in S;
        destruct (Team_HasRole team removedBy [TeamRoleAdmin]);
        simpl in H; try discriminate; auto.
Qed.

Lemma X5_witness :
  exists team user org,
    find (team_by_id crew_id) (docs (teams small_world)) = Some team /\
    Team_HasRole team "bob" [TeamRoleOwner; TeamRoleAdmin] = true /\
    user_of "carol" small_world = Some user /\
    find (org_by_id (t_OrganizationID team))
      (docs (organizations small_world)) = Some org /\
    Organization_IsMember org "carol" = true.
Proof.
  destruct (X5_what_an_accepted_team_call_has_checked small_world)
    as (_ & _ & _ & H & _).
  apply (H crew_id (mkAddTeamMemberRequest "carol" TeamRoleMember) "bob").
  reflexivity.
Defined.

(* ===================================================================== *)
(** ** What an update of a profile leaves alone *)
(* ===================================================================== *)

Lemma map_update_first_found {A B} (p : A -> B) f upd (l : list A) d :
  find f l = Some d -> p (upd d) = p d ->
  map p (update_first f upd l) = map p l.
Proof.
  induction l as [| x r IH]; simpl; [discriminate |].
  destruct (f x) eqn:E.
  - intros H; inversion H; subst. intros Hp. simpl. rewrite Hp. reflexivity.
  - intros H Hp. simpl. rewrite IH; auto.
Qed.

Lemma map_update_first_all {A B} (p : A -> B) f upd (l : list A) :
  (forall d, p (upd d) = p d) -> map p (update_first f upd l) = map p l.
Proof.
  intros H. induction l as [| x r IH]; simpl; auto.
  destruct (f x); simpl; congruence.
Qed.

Lemma find_by_id_organization id l o :
  find (org_by_id id) l = Some o -> In o l /\ o_ID o = ObjectID_Hex id.
Proof.
  intros H. apply find_some in H. destruct H as [Hin H].
  apply String.eqb_eq in H. auto.
Qed.

Lemma find_by_id_team id l t :
  find (team_by_id id) l = Some t -> In t l /\ t_ID t = ObjectID_Hex id.
Proof.
  intros H. apply find_some in H. destruct H as [Hin H].
  apply String.eqb_eq in H. auto.
Qed.

Lemma find_by_id_user id l u :
  find (user_by_id id) l = Some u -> In u l /\ u_ID u = ObjectID_Hex id.
Proof.
  intros H. apply find_some in H. destruct H as [Hin H].
  apply String.eqb_eq in H. auto.
Qed.

(** The documents after a repository Update: as before, or with the
    $set applied to the first document under the _id. *)
Lemma OrganizationRepository_Update_effect org w :
  let w' := snd (OrganizationRepository_Update org w) in
  (docs (organizations w') = docs (organizations w) \/
   exists now,
     docs (organizations w')
     = update_first (org_by_id (o_ID org)) (org_replace org now)
         (docs (organizations w))) /\
  teams w' = teams w /\ users w' = users w.
Proof.
  cbv zeta. destruct only_organizations_repository as (_ & _ & Hu & _).
  destruct (Hu org w) as [T U]. split; [| auto].
  unfold OrganizationRepository_Update.
  destruct (negb _); [simpl; auto |].
  rewrite bind_eq, lookup_snd.
  assert (docs (organizations
                  (snd (OrganizationRepository_GetByName (o_Name org) w)))
          = docs (organizations w)) as D
      by apply reads_only_organizations_docs,
           reads_only_OrganizationRepository_GetByName.
  destruct (fst (lookup _ w)) as [x | e]; simpl; [| auto].
  match goal with |- context [if ?b then _ else _] => destruct b end;
    [simpl; auto |].
  rewrite bind_with_clock, bind_eq, on_organizations_fst, on_organizations_snd.
  simpl.
  match goal with |- context [UpdateOne ?dec ?f ?upd ?c] =>
    destruct (UpdateOne_docs dec f upd c) as [E | E];
    destruct (fst (UpdateOne dec f upd c)); simpl; rewrite E, ?D; eauto
  end.
Qed.

Lemma TeamRepository_Update_effect team w :
  let w' := snd (TeamRepository_Update team w) in
  (docs (teams w') = docs (teams w) \/
   exists now,
     docs (teams w')
     = update_first (team_by_id (t_ID team)) (team_replace team now)
         (docs (teams w))) /\
  organizations w' = organizations w /\ users w' = users w.
Proof.
  cbv zeta. destruct only_teams_repository as (_ & _ & Hu & _).
  destruct (Hu team w) as [T U]. split; [| auto].
  unfold TeamRepository_Update.
  destruct (negb _); [simpl; auto |].
  rewrite bind_eq, lookup_snd.
  assert (docs (teams
                  (snd (TeamRepository_GetByNameAndOrganization (t_Name team)
                          (t_OrganizationID team) w)))
          = docs (teams w)) as D
      by apply reads_only_teams_docs,
           reads_only_TeamRepository_GetByNameAndOrganization.
  destruct (fst (lookup _ w)) as [x | e]; simpl; [| auto].
  match goal with |- context [if ?b then _ else _] => destruct b end;
    [simpl; auto |].
  rewrite bind_with_clock, bind_eq, on_teams_fst, on_teams_snd.
  simpl.
  match goal with |- context [UpdateOne ?dec ?f ?upd ?c] =>
    destruct (UpdateOne_docs dec f upd c) as [E | E];
    destruct (fst (UpdateOne dec f upd c)); simpl; rewrite E, ?D; eauto
  end.
Qed.

Lemma found_organization_frame msg id w :
  let w0 := snd (found_or msg (OrganizationRepository_GetByID id) w) in
  docs (organizations w0) = docs (organizations w) /\
  teams w0 = teams w /\ users w0 = users w.
Proof.
  cbv zeta. rewrite found_or_snd.
  destruct (GetByID_organization_frame id w) as (? & ? & ?). auto.
Qed.

Lemma found_team_frame msg id w :
  let w0 := snd (found_or msg (TeamRepository_GetByID id) w) in
  docs (teams w0) = docs (teams w) /\
  organizations w0 = organizations w /\ users w0 = users w.
Proof.
  cbv zeta. rewrite found_or_snd.
  destruct (GetByID_team_frame id w) as (? & ? & ?). auto.
Qed.

(** X6.  UpdateOrganization and UpdateTeam change the profile of a group
    and nothing else: whatever the request, the actor and the store do,
    every stored organization keeps its _id, creator, creation time,
    members and team list, every stored team keeps its _id, organization,
    creator, creation time and members, no document is added or removed,
    and the two other collections are left as they were. *)
Theorem X6_updating_a_profile_leaves_membership_alone :
  forall w,
    (forall id req userID,
        let w' := snd (OrganizationService_UpdateOrganization id req userID w)
        in
        map organization_core (docs (organizations w'))
          = map organization_core (docs (organizations w)) /\
        teams w' = teams w /\ users w' = users w) /\
    (forall id req userID,
        let w' := snd (TeamService_UpdateTeam id req userID w) in
        map team_core (docs (teams w')) = map team_core (docs (teams w)) /\
        organizations w' = organizations w /\ users w' = users w).
Proof.
  intros w. split.
  - intros id req userID. cbv zeta.
    unfold OrganizationService_UpdateOrganization.
    rewrite bind_eq, found_or_fst.
    destruct (found_organization_frame "organization not found" id w)
      as (D & T & U).
    destruct (fst (OrganizationRepository_GetByID id w)) as [org | e] eqn:G;
      [| destruct e; simpl; rewrite D; auto].
    apply OrganizationRepository_GetByID_found in G.
    destruct (find_by_id_organization _ _ _ G) as [Hin Hid].
    set (w0 := snd (found_or _ _ w)) in *.
    destruct (negb _); [simpl; rewrite D; auto |].
    rewrite bind_with_clock. set (w1 := mkWorld _ _ _ _).
    set (org' := fst (Organization_Apply org req (clock w0))).
    rewrite bind_eq.
    destruct (OrganizationRepository_Update_effect org' w1) as (E & T' & U').
    assert (snd (match fst (OrganizationRepository_Update org' w1) with
                 | Ok _ => ret org' (snd (OrganizationRepository_Update org' w1))
                 | Err e => (Err e, snd (OrganizationRepository_Update org' w1))
                 end) = snd (OrganizationRepository_Update org' w1)) as ->
        by (destruct (fst (OrganizationRepository_Update org' w1)); reflexivity).
    rewrite T', U'.
    change (teams w1) with (teams w0). change (users w1) with (users w0).
    split; [| auto].
    destruct E as [E | [now E]]; rewrite E;
      change (docs (organizations w1)) with (docs (organizations w0));
      rewrite D; auto.
    apply map_update_first_found with org.
    + assert (org_by_id (o_ID org') = org_by_id id) as ->
          by (subst org'; simpl; rewrite Hid; apply org_by_id_Hex).
      exact G.
    + subst org'. reflexivity.
  - intros id req userID. cbv zeta. unfold TeamService_UpdateTeam.
    rewrite bind_eq, found_or_fst.
    destruct (found_team_frame "team not found" id w) as (D & T & U).
    destruct (fst (TeamRepository_GetByID id w)) as [team | e] eqn:G;
      [| destruct e; simpl; rewrite D; auto].
    apply TeamRepository_GetByID_found in G.
    destruct (find_by_id_team _ _ _ G) as [Hin Hid].
    set (w0 := snd (found_or _ _ w)) in *.
    destruct (negb _); [simpl; rewrite D; auto |].
    rewrite bind_with_clock. set (w1 := mkWorld _ _ _ _).
    set (team' := fst (Team_Apply team req (clock w0))).
    rewrite bind_eq.
    destruct (TeamRepository_Update_effect team' w1) as (E & T' & U').
    assert (snd (match fst (TeamRepository_Update team' w1) with
                 | Ok _ => ret team' (snd (TeamRepository_Update team' w1))
                 | Err e => (Err e, snd (TeamRepository_Update team' w1))
                 end) = snd (TeamRepository_Update team' w1)) as ->
        by (destruct (fst (TeamRepository_Update team' w1)); reflexivity).
    rewrite T', U'.
    change (organizations w1) with (organizations w0).
    change (users w1) with (users w0).
    split; [| auto].
    destruct E as [E | [now E]]; rewrite E;
      change (docs (teams w1)) with (docs (teams w0));
      rewrite D; auto.
    apply map_update_first_found with team.
    + assert (team_by_id (t_ID team') = team_by_id id) as ->
          by (subst team'; simpl; rewrite Hid; apply team_by_id_Hex).
      exact G.
    + subst team'. reflexivity.
Qed.

(* ===================================================================== *)
(** ** Invariants of the store: what the repositories keep, the facades keep *)
(* ===================================================================== *)

Lemma reads_only_UserRepository_GetByID id :
  reads_only (UserRepository_GetByID id).
Proof.
  unfold UserRepository_GetByID. destruct (negb _); auto with go.
  apply reads_only_on_users, FindOne_docs.
Qed.

#[local] Hint Resolve reads_only_UserRepository_GetByID : go.

Create HintDb pres discriminated.

Section Preservation.
Variable I : World -> Prop.
Hypothesis I_store : forall w w', store w = store w' -> I w -> I w'.

Lemma preserves_reads_only {A} (m : M A) : reads_only m -> preserves I m.
Proof. intros H w Hw. apply I_store with w; [symmetry; apply H | exact Hw]. Qed.

Lemma preserves_bind {A B} (m : M A) (k : A -> M B) :
  preserves I m -> (forall a, preserves I (k a)) -> preserves I (bind m k).
Proof.
  intros Hm Hk w Hw. rewrite bind_eq.
  destruct (fst (m w)) as [a | e]; simpl; auto. apply Hk, Hm, Hw.
Qed.

Lemma preserves_logged {A} (m : M A) :
  preserves I m -> preserves I (logged m).
Proof. intros H w Hw. apply H, Hw. Qed.

Lemma preserves_found_or {A} msg (m : M A) :
  preserves I m -> preserves I (found_or msg m).
Proof. intros H w Hw. rewrite found_or_snd. apply H, Hw. Qed.

Lemma preserves_lookup {A} (m : M A) :
  preserves I m -> preserves I (lookup m).
Proof. intros H w Hw. rewrite lookup_snd. apply H, Hw. Qed.

Lemma preserves_for_each_logged {A B} (xs : list A) (step : A -> M B) :
  (forall x, preserves I (step x)) -> preserves I (for_each_logged xs step).
Proof.
  intros H. induction xs as [| x r IH]; simpl.
  - apply preserves_reads_only, reads_only_ret.
  - apply preserves_bind; [apply preserves_logged, H | intros _; exact IH].
Qed.

(** The writes of the three repositories keep [I]. *)
Hypothesis org_Create : forall uuid req createdBy c,
    preserves I
      (OrganizationRepository_Create
         (fst (NewOrganization uuid req createdBy c))).
Hypothesis org_Update : forall org d w,
    I w ->
    find (org_by_id (o_ID org)) (docs (organizations w)) = Some d ->
    o_ID org = o_ID d ->
    o_Members org = o_Members d ->
    I (snd (OrganizationRepository_Update org w)).
Hypothesis org_Delete : forall id,
    preserves I (OrganizationRepository_Delete id).
Hypothesis org_AddMember : forall o u r i,
    preserves I (OrganizationRepository_AddMember o u r i).
Hypothesis org_RemoveMember : forall o u,
    preserves I (OrganizationRepository_RemoveMember o u).
Hypothesis org_AddTeam : forall o t,
    preserves I (OrganizationRepository_AddTeam o t).
Hypothesis org_RemoveTeam : forall o t,
    preserves I (OrganizationRepository_RemoveTeam o t).
Hypothesis team_Create : forall uuid req createdBy c,
    preserves I (TeamRepository_Create (fst (NewTeam uuid req createdBy c))).
Hypothesis team_Update : forall team d w,
    I w ->
    find (team_by_id (t_ID team)) (docs (teams w)) = Some d ->
    t_ID team = t_ID d ->
    t_OrganizationID team = t_OrganizationID d ->
    t_Members team = t_Members d ->
    I (snd (TeamRepository_Update team w)).
Hypothesis team_Delete : forall id, preserves I (TeamRepository_Delete id).
Hypothesis team_AddMember : forall t u r i,
    preserves I (TeamRepository_AddMember t u r i).
Hypothesis team_RemoveMember : forall t u,
    preserves I (TeamRepository_RemoveMember t u).
Hypothesis user_Create : forall uuid req c,
    preserves I (UserRepository_Create (fst (NewUser uuid req c))).
Hypothesis user_Update : forall user,
    preserves I (UserRepository_Update user).
Hypothesis user_UpdateLastLogin : forall u t,
    preserves I (UserRepository_UpdateLastLogin u t).
Hypothesis user_Delete : forall id, preserves I (UserRepository_Delete id).
Hypothesis user_AddOrganizationToUser : forall u o,
    preserves I (UserRepository_AddOrganizationToUser u o).
Hypothesis user_RemoveOrganizationFromUser : forall u o,
    preserves I (UserRepository_RemoveOrganizationFromUser u o).
Hypothesis user_AddTeamToUser : forall u t,
    preserves I (UserRepository_AddTeamToUser u t).
Hypothesis user_RemoveTeamFromUser : forall u t,
    preserves I (UserRepository_RemoveTeamFromUser u t).

Hint Resolve preserves_bind preserves_logged preserves_found_or
  preserves_lookup preserves_for_each_logged
  org_Delete org_AddMember org_RemoveMember org_AddTeam org_RemoveTeam
  team_Delete team_AddMember team_RemoveMember
  user_Update user_UpdateLastLogin user_Delete
  user_AddOrganizationToUser user_RemoveOrganizationFromUser
  user_AddTeamToUser user_RemoveTeamFromUser : pres.
Hint Extern 1 (preserves _ (if ?b then _ else _)) => destruct b : pres.
Hint Extern 1 (preserves _ (match ?x with _ => _ end)) => destruct x : pres.
Hint Extern 3 (preserves _ _) =>
  apply preserves_reads_only; solve [auto 20 with go] : pres.

Lemma preserves_CreateOrganization uuid req createdBy :
  preserves I (OrganizationService_CreateOrganization uuid req createdBy).
Proof.
  intros w Hw. unfold OrganizationService_CreateOrganization.
  rewrite bind_with_clock.
  match goal with |- I (snd (?m ?w1)) =>
    cut (preserves I m); [intros P; apply P |] end.
  - eapply I_store; [| exact Hw]. reflexivity.
  - apply preserves_bind; [apply org_Create | eauto 10 with pres].
Qed.
Lemma preserves_at {A} (m : M A) w w1 :
  preserves I m -> I w -> store w1 = store w -> I (snd (m w1)).
Proof. intros P Hw E. apply P. apply I_store with w; auto. Qed.

Lemma preserves_UpdateOrganization id req userID :
  preserves I (OrganizationService_UpdateOrganization id req userID).
Proof.
  intros w Hw. unfold OrganizationService_UpdateOrganization.
  rewrite bind_eq, found_or_fst.
  destruct (found_organization_frame "organization not found" id w)
    as (D & T & U).
  assert (store (snd (found_or "organization not found"
                        (OrganizationRepository_GetByID id) w)) = store w)
    as S by (unfold store; rewrite D, T, U; reflexivity).
  set (w0 := snd (found_or _ _ w)) in *.
  assert (I w0) as Hw0 by (apply I_store with w; auto).
  destruct (fst (OrganizationRepository_GetByID id w)) as [org | e] eqn:G;
    [| destruct e; simpl; auto].
  apply OrganizationRepository_GetByID_found in G.
  destruct (find_by_id_organization _ _ _ G) as [Hin Hid].
  destruct (negb _); [simpl; auto |].
  rewrite bind_with_clock. set (w1 := mkWorld _ _ _ _).
  set (org' := fst (Organization_Apply org req (clock w0))).
  rewrite bind_eq.
  assert (I (snd (OrganizationRepository_Update org' w1))) as H.
  { apply org_Update with org.
    - apply I_store with w0; auto.
    - change (docs (organizations w1)) with (docs (organizations w0)).
      rewrite D. subst org'. simpl. rewrite Hid, org_by_id_Hex. exact G.
    - subst org'. reflexivity.
    - subst org'. reflexivity. }
  destruct (fst (OrganizationRepository_Update org' w1)); simpl; exact H.
Qed.

Lemma preserves_CreateTeam uuid req createdBy :
  preserves I (TeamService_CreateTeam uuid req createdBy).
Proof.
  unfold TeamService_CreateTeam.
  apply preserves_bind; [auto with pres | intros org].
  destruct (negb _); [auto with pres |].
  intros w Hw. rewrite bind_with_clock.
  match goal with |- I (snd (?m ?w1)) =>
    cut (preserves I m); [intros P; apply P |] end.
  - eapply I_store; [| exact Hw]. reflexivity.
  - apply preserves_bind; [apply team_Create | eauto 10 with pres].
Qed.

Lemma preserves_UpdateTeam id req userID :
  preserves I (TeamService_UpdateTeam id req userID).
Proof.
  intros w Hw. unfold TeamService_UpdateTeam.
  rewrite bind_eq, found_or_fst.
  destruct (found_team_frame "team not found" id w) as (D & T & U).
  assert (store (snd (found_or "team not found"
                        (TeamRepository_GetByID id) w)) = store w)
    as S by (unfold store; rewrite D, T, U; reflexivity).
  set (w0 := snd (found_or _ _ w)) in *.
  assert (I w0) as Hw0 by (apply I_store with w; auto).
  destruct (fst (TeamRepository_GetByID id w)) as [team | e] eqn:G;
    [| destruct e; simpl; auto].
  apply TeamRepository_GetByID_found in G.
  destruct (find_by_id_team _ _ _ G) as [Hin Hid].
  destruct (negb _); [simpl; auto |].
  rewrite bind_with_clock. set (w1 := mkWorld _ _ _ _).
  set (team' := fst (Team_Apply team req (clock w0))).
  rewrite bind_eq.
  assert (I (snd (TeamRepository_Update team' w1))) as H.
  { apply team_Update with team.
    - apply I_store with w0; auto.
    - change (docs (teams w1)) with (docs (teams w0)).
      rewrite D. subst team'. simpl. rewrite Hid, team_by_id_Hex. exact G.
    - subst team'. reflexivity.
    - subst team'. reflexivity.
    - subst team'. reflexivity. }
  destruct (fst (TeamRepository_Update team' w1)); simpl; exact H.
Qed.

Lemma preserves_exec c : preserves I (exec c).
Proof.
  destruct c; simpl.
  - apply preserves_bind;
      [apply preserves_CreateOrganization | eauto with pres].
  - apply preserves_bind;
      [apply preserves_UpdateOrganization | eauto with pres].
  - unfold OrganizationService_DeleteOrganization. eauto 20 with pres.
  - unfold OrganizationService_AddOrganizationMember. eauto 20 with pres.
  - unfold OrganizationService_UpdateOrganizationMember. cbv zeta.
    eauto 25 with pres.
  - unfold OrganizationService_RemoveOrganizationMember. cbv zeta.
    eauto 25 with pres.
  - apply preserves_bind; [apply preserves_CreateTeam | eauto with pres].
  - apply preserves_bind; [apply preserves_UpdateTeam | eauto with pres].
  - unfold TeamService_DeleteTeam. eauto 20 with pres.
  - unfold TeamService_AddTeamMember. eauto 25 with pres.
  - unfold TeamService_UpdateTeamMember. cbv zeta. eauto 25 with pres.
  - unfold TeamService_RemoveTeamMember. cbv zeta. eauto 25 with pres.
Qed.

Lemma preserves_CreateUser uuid req :
  preserves I (UserService_CreateUser uuid req).
Proof.
  intros w Hw. unfold UserService_CreateUser. rewrite bind_with_clock.
  apply user_Create. eapply I_store; [| exact Hw]. reflexivity.
Qed.

Lemma preserves_exec_user c : preserves I (exec_user c).
Proof.
  destruct c; simpl.
  - apply preserves_bind; [apply preserves_CreateUser | eauto with pres].
  - unfold UserService_UpdateUser. eauto 20 with pres.
  - unfold UserService_UpdateUserLastLogin. eauto 20 with pres.
  - unfold UserService_DeactivateUser. eauto 20 with pres.
  - unfold UserService_ActivateUser. eauto 20 with pres.
  - unfold UserService_DeleteUser. eauto 20 with pres.
  - unfold UserService_ProcessAuthUserCreated.
    destruct (e_Data event); [| auto with pres]. cbv zeta.
    destruct (_ || _ || _ || _); [auto with pres |].
    apply preserves_bind; [auto with pres | intros [x |]];
      [auto with pres |].
    apply preserves_bind; [apply preserves_CreateUser | auto with pres].
Qed.

Lemma preserves_run_all cs : forall w, I w -> I (run_all cs w).
Proof.
  induction cs as [| [c | c] r IH]; simpl; auto; intros w Hw; apply IH.
  - apply preserves_exec, Hw.
  - apply preserves_exec_user, Hw.
Qed.
End Preservation.

#[local] Hint Resolve preserves_bind preserves_logged preserves_found_or
  preserves_lookup : pres.
#[local] Hint Extern 1 (preserves _ (if ?b then _ else _)) => destruct b : pres.
#[local] Hint Extern 1 (preserves _ (match ?x with _ => _ end)) =>
  destruct x : pres.

(* ===================================================================== *)
(** ** Identifiers and names stay unique *)
(* ===================================================================== *)

Lemma NoDup_map_injective {A B} (k : A -> B) (l : list A) x y :
  NoDup (map k l) -> In x l -> In y l -> k x = k y -> x = y.
Proof.
  induction l as [| a r IH]; simpl; [tauto |].
  intros N Hx Hy E. inversion N as [| ? ? Ha Hr]; subst.
  destruct Hx as [-> | Hx], Hy as [-> | Hy]; auto.
  - exfalso. apply Ha. rewrite E. apply in_map, Hy.
  - exfalso. apply Ha. rewrite <- E. apply in_map, Hx.
Qed.

Lemma NoDup_map_delete_first {A B} (k : A -> B) f (l : list A) :
  NoDup (map k l) -> NoDup (map k (delete_first f l)).
Proof.
  induction l as [| a r IH]; simpl; auto.
  intros N. inversion N as [| ? ? Ha Hr]; subst.
  destruct (f a); auto. simpl. constructor; auto.
  intros Hin. apply Ha. clear - Hin.
  induction r as [| b r IH]; simpl in *; auto.
  destruct (f b); simpl in *; tauto.
Qed.

Lemma NoDup_map_snoc {A B} (k : A -> B) (l : list A) d :
  NoDup (map k l) -> ~ In (k d) (map k l) -> NoDup (map k (l ++ [d])).
Proof.
  intros N Hn. rewrite map_app. simpl.
  induction (map k l) as [| a r IH]; simpl.
  - constructor; [simpl; tauto | constructor].
  - inversion N; subst. constructor.
    + intros Hin. apply in_app_or in Hin. simpl in *. intuition.
    + apply IH; auto. simpl in Hn. tauto.
Qed.

Lemma in_map_update_first {A B} (k : A -> B) f upd (l : list A) v :
  In v (map k (update_first f upd l)) ->
  In v (map k l) \/ exists d, In d l /\ f d = true /\ v = k (upd d).
Proof.
  induction l as [| a r IH]; simpl; [tauto |].
  destruct (f a) eqn:E; simpl.
  - intros [H | H]; [right; exists a; auto | auto].
  - intros [H | H]; [auto |].
    destruct (IH H) as [H' | (d & Hd & Hf & Hv)]; [auto |].
    right. exists d. auto.
Qed.

(** The first document under a filter gets a new key [K]: the keys stay
    distinct if the filter selects one document at most and selects every
    document that holds [K] already. *)
Lemma NoDup_map_update_first {A B} (k : A -> B) f upd (l : list A) K :
  NoDup (map k l) ->
  (forall x y, In x l -> In y l -> f x = true -> f y = true -> x = y) ->
  (forall x, In x l -> k x = K -> f x = true) ->
  (forall d, In d l -> f d = true -> k (upd d) = K) ->
  NoDup (map k (update_first f upd l)).
Proof.
  induction l as [| a r IH]; simpl; auto.
  intros N U HK Hupd. inversion N as [| ? ? Ha Hr]; subst.
  destruct (f a) eqn:E; simpl.
  - constructor; auto. rewrite (Hupd a); auto.
    intros Hin. apply in_map_iff in Hin. destruct Hin as (y & Hy & Hin).
    assert (f y = true) as Fy by (apply HK; auto).
    assert (a = y) as -> by (apply U; auto).
    apply Ha. apply in_map, Hin.
  - constructor.
    + intros Hin. apply in_map_update_first in Hin.
      destruct Hin as [Hin | (d & Hd & Hf & Hv)]; [auto |].
      rewrite (Hupd d) in Hv; auto.
      assert (f a = true) by (apply HK; auto). congruence.
    + apply IH; auto.
Qed.

Lemma find_none_not_in {A} (s : A -> string) v (l : list A) :
  find (fun x => s x =? v) l = None -> ~ In v (map s l).
Proof.
  intros F Hin. apply in_map_iff in Hin. destruct Hin as (x & Hx & Hin).
  pose proof (find_none _ _ F x Hin) as H. simpl in H.
  apply String.eqb_neq in H. auto.
Qed.

Lemma existsb_false_not_in {A} (s : A -> string) v (l : list A) :
  existsb (fun x => s x =? v) l = false -> ~ In v (map s l).
Proof.
  intros F Hin. apply in_map_iff in Hin. destruct Hin as (x & Hx & Hin).
  assert (existsb (fun x => s x =? v) l = true) as E.
  { apply existsb_exists. exists x. split; auto. apply String.eqb_eq, Hx. }
  congruence.
Qed.

Lemma names_unique_store w w' :
  store w = store w' -> names_unique w -> names_unique w'.
Proof.
  unfold store, names_unique. intros E. inversion E as [[Eo Et Eu]].
  rewrite Eo, Et, Eu. auto.
Qed.

Lemma names_reads_only {A} (m : M A) :
  reads_only m -> preserves names_unique m.
Proof. apply preserves_reads_only, names_unique_store. Qed.

Lemma names_for_each_logged {A B} (xs : list A) (step : A -> M B) :
  (forall x, preserves names_unique (step x)) ->
  preserves names_unique (for_each_logged xs step).
Proof. apply preserves_for_each_logged, names_unique_store. Qed.

#[local] Hint Resolve names_for_each_logged : pres.
#[local] Hint Extern 3 (preserves names_unique _) =>
  apply names_reads_only; solve [auto 20 with go] : pres.

Lemma names_org_UpdateOne f upd :
  (forall d, o_ID (upd d) = o_ID d) -> (forall d, o_Name (upd d) = o_Name d) ->
  preserves names_unique
    (on_organizations (UpdateOne Organization_eq_dec f upd)).
Proof.
  intros Hi Hn w (N1 & N2 & N). rewrite on_organizations_snd.
  unfold names_unique. simpl.
  destruct (UpdateOne_docs Organization_eq_dec f upd (organizations w))
    as [-> | ->]; rewrite ?map_update_first_all; auto.
Qed.

Lemma names_team_UpdateOne f upd :
  (forall d, t_ID (upd d) = t_ID d) ->
  (forall d, team_key (upd d) = team_key d) ->
  preserves names_unique (on_teams (UpdateOne Team_eq_dec f upd)).
Proof.
  intros Hi Hn w (N1 & N2 & N3 & N4 & N). rewrite on_teams_snd.
  unfold names_unique. simpl.
  destruct (UpdateOne_docs Team_eq_dec f upd (teams w))
    as [-> | ->]; rewrite ?map_update_first_all; auto.
Qed.

Lemma names_user_UpdateOne f upd :
  (forall d, u_ID (upd d) = u_ID d) ->
  (forall d, u_UserID (upd d) = u_UserID d) ->
  (forall d, u_Email (upd d) = u_Email d) ->
  preserves names_unique (on_users (UpdateOne User_eq_dec f upd)).
Proof.
  intros Hi Hn He w (N1 & N2 & N3 & N4 & N5 & N6 & N7). rewrite on_users_snd.
  unfold names_unique. simpl.
  destruct (UpdateOne_docs User_eq_dec f upd (users w))
    as [-> | ->]; rewrite ?map_update_first_all; auto 10.
Qed.

Lemma names_org_DeleteOne f :
  preserves names_unique (on_organizations (DeleteOne f)).
Proof.
  intros w (N1 & N2 & N). rewrite on_organizations_snd.
  unfold names_unique. simpl.
  destruct (DeleteOne_docs f (organizations w)) as [-> | ->];
    auto using NoDup_map_delete_first.
Qed.

Lemma names_team_DeleteOne f :
  preserves names_unique (on_teams (DeleteOne f)).
Proof.
  intros w (N1 & N2 & N3 & N4 & N). rewrite on_teams_snd.
  unfold names_unique. simpl.
  destruct (DeleteOne_docs f (teams w)) as [-> | ->];
    auto 10 using NoDup_map_delete_first.
Qed.

#[local] Hint Resolve names_org_DeleteOne names_team_DeleteOne : pres.
#[local] Hint Extern 2
  (preserves names_unique (on_organizations (UpdateOne _ _ _))) =>
  apply names_org_UpdateOne; intros; reflexivity : pres.
#[local] Hint Extern 2 (preserves names_unique (on_teams (UpdateOne _ _ _))) =>
  apply names_team_UpdateOne; intros; reflexivity : pres.
#[local] Hint Extern 2 (preserves names_unique (on_users (UpdateOne _ _ _))) =>
  apply names_user_UpdateOne; intros; reflexivity : pres.

Lemma names_OrganizationRepository_Create org :
  preserves names_unique (OrganizationRepository_Create org).
Proof.
  intros w (N1 & N2 & N).
  destruct only_organizations_repository as (_ & Hc & _).
  destruct (Hc org w) as [T U].
  assert (docs (organizations (snd (OrganizationRepository_Create org w)))
          = docs (organizations w) \/
          (docs (organizations (snd (OrganizationRepository_Create org w)))
           = docs (organizations w) ++ [org] /\
           ~ In (o_ID org) (map o_ID (docs (organizations w))) /\
           ~ In (o_Name org) (map o_Name (docs (organizations w))))) as D.
  { destruct (fst (OrganizationRepository_Create org w)) as [o | e] eqn:E.
    - apply OrganizationRepository_Create_ok in E.
      destruct E as (_ & Fn & Fi & D). right.
      auto using find_none_not_in, existsb_false_not_in.
    - left. pose proof (atomic_OrganizationRepository_Create org w e E) as S.
      unfold store in S. congruence. }
  unfold names_unique. rewrite T, U.
  destruct D as [-> | (-> & Hi & Hn)]; auto 10 using NoDup_map_snoc.
Qed.

Lemma names_TeamRepository_Create team :
  preserves names_unique (TeamRepository_Create team).
Proof.
  intros w (N1 & N2 & N3 & N4 & N).
  destruct only_teams_repository as (_ & Hc & _).
  destruct (Hc team w) as [T U].
  assert (docs (teams (snd (TeamRepository_Create team w))) = docs (teams w) \/
          (docs (teams (snd (TeamRepository_Create team w)))
           = docs (teams w) ++ [team] /\
           ~ In (t_ID team) (map t_ID (docs (teams w))) /\
           ~ In (team_key team) (map team_key (docs (teams w))))) as D.
  { destruct (fst (TeamRepository_Create team w)) as [o | e] eqn:E.
    - apply TeamRepository_Create_ok in E.
      destruct E as (_ & Fn & Fi & D). right.
      repeat split; auto using existsb_false_not_in.
      intros Hin. apply in_map_iff in Hin. destruct Hin as (x & Hx & Hin).
      pose proof (find_none _ _ Fn x Hin) as H. simpl in H.
      unfold team_key in Hx. inversion Hx as [[Hn Ho]].
      rewrite Hn, Ho, !String.eqb_refl in H. discriminate.
    - left. pose proof (atomic_TeamRepository_Create team w e E) as S.
      unfold store in S. congruence. }
  unfold names_unique. rewrite T, U.
  destruct D as [-> | (-> & Hi & Hn)]; auto 10 using NoDup_map_snoc.
Qed.

Lemma names_UserRepository_Create user :
  preserves names_unique (UserRepository_Create user).
Proof.
  intros w (N1 & N2 & N3 & N4 & N5 & N6 & N7).
  destruct only_users_repository as (_ & _ & _ & Hc & _).
  destruct (Hc user w) as [T U].
  assert (docs (users (snd (UserRepository_Create user w))) = docs (users w) \/
          (docs (users (snd (UserRepository_Create user w)))
           = docs (users w) ++ [user] /\
           ~ In (u_ID user) (map u_ID (docs (users w))) /\
           ~ In (u_UserID user) (map u_UserID (docs (users w))) /\
           ~ In (u_Email user) (map u_Email (docs (users w))))) as D.
  { destruct (fst (UserRepository_Create user w)) as [o | e] eqn:E.
    - apply UserRepository_Create_ok in E.
      destruct E as (_ & Fu & Fe & Fi & D). right.
      unfold user_by_userId in Fu.
      auto 10 using find_none_not_in, existsb_false_not_in.
    - left. pose proof (atomic_UserRepository_Create user w e E) as S.
      unfold store in S. congruence. }
  unfold names_unique. rewrite T, U.
  destruct D as [-> | (-> & Hi & Hn & He)]; auto 12 using NoDup_map_snoc.
Qed.

(** When the repository Update writes, the conflict check has passed. *)
Lemma OrganizationRepository_Update_checked org w :
  let w' := snd (OrganizationRepository_Update org w) in
  docs (organizations w') = docs (organizations w) \/
  (exists now,
     docs (organizations w')
     = update_first (org_by_id (o_ID org)) (org_replace org now)
         (docs (organizations w))) /\
  match find (fun x => o_Name x =? o_Name org) (docs (organizations w)) with
  | Some e => o_ID e = o_ID org
  | None => True
  end.
Proof.
  cbv zeta. unfold OrganizationRepository_Update.
  destruct (negb _); [simpl; auto |].
  rewrite bind_eq, lookup_snd.
  assert (docs (organizations
                  (snd (OrganizationRepository_GetByName (o_Name org) w)))
          = docs (organizations w)) as D
      by apply reads_only_organizations_docs,
           reads_only_OrganizationRepository_GetByName.
  destruct (fst (lookup _ w)) as [x | e] eqn:L; simpl; [| auto].
  assert (match x with
          | Some e => find (fun x => o_Name x =? o_Name org)
                        (docs (organizations w)) = Some e
          | None => find (fun x => o_Name x =? o_Name org)
                      (docs (organizations w)) = None
          end) as F.
  { destruct x as [e |].
    - apply lookup_some in L. unfold OrganizationRepository_GetByName in L.
      rewrite on_organizations_fst in L. apply FindOne_found in L. exact L.
    - apply lookup_none in L. unfold OrganizationRepository_GetByName in L.
      rewrite on_organizations_fst in L. apply FindOne_missing in L. exact L. }
  match goal with |- context [if ?b then _ else _] => destruct b eqn:C end;
    [simpl; auto |].
  rewrite bind_with_clock, bind_eq, on_organizations_fst, on_organizations_snd.
  simpl.
  assert (match find (fun x => o_Name x =? o_Name org)
                  (docs (organizations w)) with
          | Some e => o_ID e = o_ID org
          | None => True
          end) as K.
  { destruct x as [e |]; rewrite F; auto.
    apply negb_false_iff, String.eqb_eq in C. exact C. }
  match goal with |- context [UpdateOne ?dec ?f ?upd ?c] =>
    destruct (UpdateOne_docs dec f upd c) as [E | E];
    destruct (fst (UpdateOne dec f upd c)); simpl; rewrite E, ?D; eauto
  end.
Qed.

Lemma TeamRepository_Update_checked team w :
  let w' := snd (TeamRepository_Update team w) in
  docs (teams w') = docs (teams w) \/
  (exists now,
     docs (teams w')
     = update_first (team_by_id (t_ID team)) (team_replace team now)
         (docs (teams w))) /\
  match find (fun x => (t_Name x =? t_Name team)
                       && (t_OrganizationID x =? t_OrganizationID team))
          (docs (teams w)) with
  | Some e => t_ID e = t_ID team
  | None => True
  end.
Proof.
  cbv zeta. unfold TeamRepository_Update.
  destruct (negb _); [simpl; auto |].
  rewrite bind_eq, lookup_snd.
  assert (docs (teams
                  (snd (TeamRepository_GetByNameAndOrganization (t_Name team)
                          (t_OrganizationID team) w)))
          = docs (teams w)) as D
      by apply reads_only_teams_docs,
           reads_only_TeamRepository_GetByNameAndOrganization.
  destruct (fst (lookup _ w)) as [x | e] eqn:L; simpl; [| auto].
  assert (match x with
          | Some e => find (fun x => (t_Name x =? t_Name team)
                                     && (t_OrganizationID x
                                         =? t_OrganizationID team))
                        (docs (teams w)) = Some e
          | None => find (fun x => (t_Name x =? t_Name team)
                                   && (t_OrganizationID x
                                       =? t_OrganizationID team))
                      (docs (teams w)) = None
          end) as F.
  { destruct x as [e |].
    - apply lookup_some in L.
      unfold TeamRepository_GetByNameAndOrganization in L.
      rewrite on_teams_fst in L. apply FindOne_found in L. exact L.
    - apply lookup_none in L.
      unfold TeamRepository_GetByNameAndOrganization in L.
      rewrite on_teams_fst in L. apply FindOne_missing in L. exact L. }
  match goal with |- context [if ?b then _ else _] => destruct b eqn:C end;
    [simpl; auto |].
  rewrite bind_with_clock, bind_eq, on_teams_fst, on_teams_snd.
  simpl.
  assert (match find (fun x => (t_Name x =? t_Name team)
                               && (t_OrganizationID x
                                   =? t_OrganizationID team))
                  (docs (teams w)) with
          | Some e => t_ID e = t_ID team
          | None => True
          end) as K.
  { destruct x as [e |]; rewrite F; auto.
    apply negb_false_iff, String.eqb_eq in C. exact C. }
  match goal with |- context [UpdateOne ?dec ?f ?upd ?c] =>
    destruct (UpdateOne_docs dec f upd c) as [E | E];
    destruct (fst (UpdateOne dec f upd c)); simpl; rewrite E, ?D; eauto
  end.
Qed.

Lemma names_OrganizationRepository_Update org d w :
  names_unique w ->
  find (org_by_id (o_ID org)) (docs (organizations w)) = Some d ->
  o_ID org = o_ID d ->
  names_unique (snd (OrganizationRepository_Update org w)).
Proof.
  intros (N1 & N2 & N) Fd Hd.
  assert (ObjectID_Hex (o_ID org) = o_ID org) as Canon.
  { apply find_some in Fd. destruct Fd as [_ Fd].
    apply org_by_id_found in Fd. congruence. }
  clear Fd Hd.
  destruct (OrganizationRepository_Update_effect org w) as (_ & T & U).
  unfold names_unique. rewrite T, U.
  destruct (OrganizationRepository_Update_checked org w)
    as [-> | ([now ->] & K)]; auto.
  split; [| split; auto].
  - rewrite map_update_first_all; auto.
  - apply NoDup_map_update_first with (o_Name org); auto.
    + intros x y Hx Hy Fx Fy. apply String.eqb_eq in Fx, Fy.
      apply (NoDup_map_injective o_ID (docs (organizations w))); auto.
      congruence.
    + intros x Hx Hn. unfold org_by_id. apply String.eqb_eq.
      destruct (find _ (docs (organizations w))) as [e |] eqn:F.
      * apply find_some in F. destruct F as [He Hne].
        apply String.eqb_eq in Hne.
        assert (x = e) as ->; [| rewrite Canon; auto].
        apply (NoDup_map_injective o_Name (docs (organizations w))); auto.
        congruence.
      * exfalso. pose proof (find_none _ _ F x Hx) as H. simpl in H.
        rewrite Hn, String.eqb_refl in H. discriminate.
Qed.

Lemma names_TeamRepository_Update team d w :
  names_unique w ->
  find (team_by_id (t_ID team)) (docs (teams w)) = Some d ->
  t_ID team = t_ID d ->
  t_OrganizationID team = t_OrganizationID d ->
  names_unique (snd (TeamRepository_Update team w)).
Proof.
  intros (N1 & N2 & N3 & N4 & N5 & N6 & N7) Fd Hd Ho.
  assert (ObjectID_Hex (t_ID team) = t_ID team) as Canon.
  { apply find_some in Fd. destruct Fd as [_ Fd'].
    apply team_by_id_found in Fd'. congruence. }
  destruct (TeamRepository_Update_effect team w) as (_ & T & U).
  unfold names_unique. rewrite T, U.
  destruct (TeamRepository_Update_checked team w)
    as [-> | ([now ->] & K)]; auto 10.
  assert (forall x y, In x (docs (teams w)) -> In y (docs (teams w)) ->
                      team_by_id (t_ID team) x = true ->
                      team_by_id (t_ID team) y = true -> x = y) as Uq.
  { intros x y Hx Hy Fx Fy. apply String.eqb_eq in Fx, Fy.
    apply (NoDup_map_injective t_ID (docs (teams w))); auto. congruence. }
  destruct (find_by_id_team _ _ _ Fd) as [Hd' Hid].
  repeat split; auto.
  - rewrite map_update_first_all; auto.
  - apply NoDup_map_update_first with (team_key team); auto.
    + intros x Hx Hn. unfold team_by_id. apply String.eqb_eq.
      unfold team_key in Hn. inversion Hn as [[Hname Horg]].
      match type of K with match ?t with _ => _ end =>
        destruct t as [e |] eqn:F end.
      * apply find_some in F. destruct F as [He Hne].
        apply andb_true_iff in Hne. destruct Hne as [H1 H2].
        apply String.eqb_eq in H1, H2.
        assert (x = e) as ->; [| rewrite Canon; auto].
        apply (NoDup_map_injective team_key (docs (teams w))); auto.
        unfold team_key. congruence.
      * exfalso. pose proof (find_none _ _ F x Hx) as H. simpl in H.
        rewrite Hname, Horg, !String.eqb_refl in H. discriminate.
    + intros x Hx Fx.
      assert (x = d) as ->.
      { apply Uq; auto. unfold team_by_id. apply String.eqb_eq. exact Hid. }
      unfold team_key, team_replace. simpl. congruence.
Qed.

Ltac by_leaves :=
  intros;
  unfold OrganizationRepository_Delete, OrganizationRepository_AddMember,
    OrganizationRepository_RemoveMember, OrganizationRepository_AddTeam,
    OrganizationRepository_RemoveTeam, TeamRepository_Delete,
    TeamRepository_AddMember, TeamRepository_RemoveMember,
    UserRepository_Update, UserRepository_UpdateLastLogin,
    UserRepository_Delete, UserRepository_AddOrganizationToUser,
    UserRepository_RemoveOrganizationFromUser, UserRepository_AddTeamToUser,
    UserRepository_RemoveTeamFromUser;
  cbv zeta; eauto 20 with pres.


Ltac nodup_closed :=
  repeat (constructor; [simpl; intuition congruence |]); constructor.


(* ===================================================================== *)
(** ** The reference lists hold no identifier twice *)
(* ===================================================================== *)

Lemma NoDup_addToSet id ids : NoDup ids -> NoDup (addToSet id ids).
Proof.
  unfold addToSet. intros N.
  destruct (existsb (fun x => x =? id) ids) eqn:E; auto.
  apply NoDup_app; auto.
  - constructor; [simpl; tauto | constructor].
  - intros x Hx [Hid | []].
    assert (existsb (fun y => y =? id) ids = true) as H
        by (apply existsb_exists; exists x; split; auto;
            apply String.eqb_eq; auto).
    congruence.
Qed.

Lemma NoDup_pull id ids : NoDup ids -> NoDup (pull id ids).
Proof. unfold pull. apply NoDup_filter. Qed.

Lemma references_store w w' :
  store w = store w' ->
  references_duplicate_free w -> references_duplicate_free w'.
Proof.
  unfold store, references_duplicate_free. intros E.
  inversion E as [[Eo Et Eu]]. rewrite Eo, Eu. auto.
Qed.

Lemma references_reads_only {A} (m : M A) :
  reads_only m -> preserves references_duplicate_free m.
Proof. apply preserves_reads_only, references_store. Qed.

Lemma references_for_each_logged {A B} (xs : list A) (step : A -> M B) :
  (forall x, preserves references_duplicate_free (step x)) ->
  preserves references_duplicate_free (for_each_logged xs step).
Proof. apply preserves_for_each_logged, references_store. Qed.

Lemma references_org_UpdateOne f upd :
  (forall d, NoDup (o_TeamIDs d) -> NoDup (o_TeamIDs (upd d))) ->
  preserves references_duplicate_free
    (on_organizations (UpdateOne Organization_eq_dec f upd)).
Proof.
  intros H w (R1 & R2). rewrite on_organizations_snd.
  unfold references_duplicate_free. simpl. split; auto.
  destruct (UpdateOne_docs Organization_eq_dec f upd (organizations w))
    as [-> | ->]; auto.
  apply Forall_update_first; auto.
Qed.

Lemma references_user_UpdateOne f upd :
  (forall d, NoDup (u_OrganizationIDs d) /\ NoDup (u_TeamIDs d) ->
             NoDup (u_OrganizationIDs (upd d)) /\ NoDup (u_TeamIDs (upd d))) ->
  preserves references_duplicate_free
    (on_users (UpdateOne User_eq_dec f upd)).
Proof.
  intros H w (R1 & R2). rewrite on_users_snd.
  unfold references_duplicate_free. simpl. split; auto.
  destruct (UpdateOne_docs User_eq_dec f upd (users w)) as [-> | ->]; auto.
  apply Forall_update_first; auto.
Qed.

Lemma references_org_DeleteOne f :
  preserves references_duplicate_free (on_organizations (DeleteOne f)).
Proof.
  intros w (R1 & R2). rewrite on_organizations_snd.
  unfold references_duplicate_free. simpl. split; auto.
  destruct (DeleteOne_docs f (organizations w)) as [-> | ->]; auto.
  apply Forall_delete_first; auto.
Qed.

Lemma references_on_teams {A} (f : Coll Team -> result A * Coll Team) :
  preserves references_duplicate_free (on_teams f).
Proof. intros w R. rewrite on_teams_snd. exact R. Qed.

#[local] Hint Resolve references_for_each_logged references_org_DeleteOne
  references_on_teams : pres.
#[local] Hint Extern 3 (preserves references_duplicate_free _) =>
  apply references_reads_only; solve [auto 20 with go] : pres.
#[local] Hint Extern 2
  (preserves references_duplicate_free
     (on_organizations (UpdateOne _ _ _))) =>
  apply references_org_UpdateOne; intros ? ?; simpl;
  auto using NoDup_addToSet, NoDup_pull : pres.
#[local] Hint Extern 2
  (preserves references_duplicate_free (on_users (UpdateOne _ _ _))) =>
  apply references_user_UpdateOne; intros ? [? ?]; simpl;
  auto using NoDup_addToSet, NoDup_pull : pres.

Lemma references_OrganizationRepository_Create org :
  NoDup (o_TeamIDs org) ->
  preserves references_duplicate_free (OrganizationRepository_Create org).
Proof.
  intros Hn w (R1 & R2).
  destruct only_organizations_repository as (_ & Hc & _).
  destruct (Hc org w) as [T U].
  unfold references_duplicate_free. rewrite U. split; auto.
  destruct (fst (OrganizationRepository_Create org w)) as [o | e] eqn:E.
  - apply OrganizationRepository_Create_ok in E.
    destruct E as (_ & _ & _ & ->). apply Forall_app. auto.
  - pose proof (atomic_OrganizationRepository_Create org w e E) as S.
    unfold store in S. inversion S as [[So St Su]]. rewrite So. auto.
Qed.

Lemma references_UserRepository_Create user :
  NoDup (u_OrganizationIDs user) -> NoDup (u_TeamIDs user) ->
  preserves references_duplicate_free (UserRepository_Create user).
Proof.
  intros Ho Ht w (R1 & R2).
  destruct only_users_repository as (_ & _ & _ & Hc & _).
  destruct (Hc user w) as [O T].
  unfold references_duplicate_free. rewrite O. split; auto.
  destruct (fst (UserRepository_Create user w)) as [o | e] eqn:E.
  - apply UserRepository_Create_ok in E.
    destruct E as (_ & _ & _ & _ & ->). apply Forall_app. auto.
  - pose proof (atomic_UserRepository_Create user w e E) as S.
    unfold store in S. inversion S as [[So St Su]]. rewrite Su. auto.
Qed.

Lemma references_OrganizationRepository_Update org :
  preserves references_duplicate_free (OrganizationRepository_Update org).
Proof.
  intros w (R1 & R2).
  destruct (OrganizationRepository_Update_effect org w) as (E & T & U).
  unfold references_duplicate_free. rewrite U. split; auto.
  destruct E as [-> | [now ->]]; auto.
  apply Forall_update_first; auto.
Qed.

Lemma references_teams_only {A} (m : M A) :
  touches_only_teams m -> preserves references_duplicate_free m.
Proof.
  intros H w R. destruct (H w) as [O U].
  unfold references_duplicate_free in *. rewrite O, U. exact R.
Qed.

(** X8.  The reference lists hold no identifier twice: if the team list
    of every organization and the organization and team lists of every
    user are free of duplicates, they are so after every sequence of
    calls of the three facades, whatever the store does. *)
Theorem X8_reference_lists_hold_no_identifier_twice :
  forall cs w,
    references_duplicate_free w -> references_duplicate_free (run_all cs w).
Proof.
  intros cs. apply preserves_run_all.
  - apply references_store.
  - intros. apply references_OrganizationRepository_Create. constructor.
  - intros org d w I F _ _. apply references_OrganizationRepository_Update, I.
  - by_leaves.
  - by_leaves.
  - by_leaves.
  - by_leaves.
  - by_leaves.
  - intros. apply references_teams_only, only_teams_repository.
  - intros team d w I _ _ _ _.
    apply (references_teams_only (TeamRepository_Update team)); auto.
    apply only_teams_repository.
  - intros. apply references_teams_only, only_teams_repository.
  - intros. apply references_teams_only, only_teams_repository.
  - intros. apply references_teams_only, only_teams_repository.
  - intros. apply references_UserRepository_Create; constructor.
  - by_leaves.
  - by_leaves.
  - by_leaves.
  - by_leaves.
  - by_leaves.
  - by_leaves.
  - by_leaves.
Qed.

Lemma X8_witness :
  references_duplicate_free
    (run_all
       [inl (AddOrganizationMember acme_id
               (mkAddOrganizationMemberRequest "bob" OrgRoleMember) "alice");
        inl (DeleteTeam crew_id "alice")]
       small_world).
Proof.
  apply X8_reference_lists_hold_no_identifier_twice.
  unfold references_duplicate_free. simpl.
  split; repeat (constructor; [try split; nodup_closed |]); constructor.
Defined.

(* ===================================================================== *)
(** ** Users are never removed, and keep their identity *)
(* ===================================================================== *)

Section Identities.
Variable L : list (string * string * string * UserRole * Z).

Lemma extend_store w w' :
  store w = store w' -> users_extend L w -> users_extend L w'.
Proof.
  unfold store, users_extend. intros E. inversion E as [[Eo Et Eu]].
  rewrite Eu. auto.
Qed.

Lemma extend_reads_only {A} (m : M A) :
  reads_only m -> preserves (users_extend L) m.
Proof. apply preserves_reads_only, extend_store. Qed.

Lemma extend_for_each_logged {A B} (xs : list A) (step : A -> M B) :
  (forall x, preserves (users_extend L) (step x)) ->
  preserves (users_extend L) (for_each_logged xs step).
Proof. apply preserves_for_each_logged, extend_store. Qed.

Lemma extend_organizations_only {A} (m : M A) :
  touches_only_organizations m -> preserves (users_extend L) m.
Proof.
  intros H w R. destruct (H w) as [T U]. unfold users_extend in *.
  rewrite U. exact R.
Qed.

Lemma extend_teams_only {A} (m : M A) :
  touches_only_teams m -> preserves (users_extend L) m.
Proof.
  intros H w R. destruct (H w) as [T U]. unfold users_extend in *.
  rewrite U. exact R.
Qed.

Lemma extend_user_UpdateOne f upd :
  (forall d, user_identity (upd d) = user_identity d) ->
  preserves (users_extend L) (on_users (UpdateOne User_eq_dec f upd)).
Proof.
  intros H w R. rewrite on_users_snd. unfold users_extend in *. simpl.
  destruct (UpdateOne_docs User_eq_dec f upd (users w)) as [-> | ->]; auto.
  rewrite map_update_first_all; auto.
Qed.

Lemma extend_UserRepository_Create user :
  preserves (users_extend L) (UserRepository_Create user).
Proof.
  intros w [l R]. unfold users_extend.
  destruct (fst (UserRepository_Create user w)) as [o | e] eqn:E.
  - apply UserRepository_Create_ok in E.
    destruct E as (_ & _ & _ & _ & ->). rewrite map_app, R, <- app_assoc.
    eauto.
  - pose proof (atomic_UserRepository_Create user w e E) as S.
    unfold store in S. inversion S as [[So St Su]]. rewrite Su. eauto.
Qed.
End Identities.

#[local] Hint Resolve extend_for_each_logged : pres.
#[local] Hint Extern 3 (preserves (users_extend _) _) =>
  apply extend_reads_only; solve [auto 20 with go] : pres.
#[local] Hint Extern 2 (preserves (users_extend _) (on_users (UpdateOne _ _ _))) =>
  apply extend_user_UpdateOne; intros; reflexivity : pres.

(** X9.  No call of the facades removes a stored user or changes the
    identity of one: after every sequence of calls, whatever the store
    does, the users collection starts with the users it held, in the same
    order and each with the _id, userId, email, role and creation time it
    had; users that were created come after them. *)
Theorem X9_users_are_never_removed_and_keep_their_identity :
  forall cs w,
  exists l,
    map user_identity (docs (users (run_all cs w)))
    = map user_identity (docs (users w)) ++ l.
Proof.
  intros cs w.
  change (users_extend (map user_identity (docs (users w))) (run_all cs w)).
  apply (preserves_run_all
           (users_extend (map user_identity (docs (users w))))).
  - apply extend_store.
  - intros. apply extend_organizations_only, only_organizations_repository.
  - intros org d w' I _ _ _.
    apply (extend_organizations_only _ (OrganizationRepository_Update org));
      auto.
    apply only_organizations_repository.
  - intros. apply extend_organizations_only, only_organizations_repository.
  - intros. apply extend_organizations_only, only_organizations_repository.
  - intros. apply extend_organizations_only, only_organizations_repository.
  - intros. apply extend_organizations_only, only_organizations_repository.
  - intros. apply extend_organizations_only, only_organizations_repository.
  - intros. apply extend_teams_only, only_teams_repository.
  - intros team d w' I _ _ _ _.
    apply (extend_teams_only _ (TeamRepository_Update team)); auto.
    apply only_teams_repository.
  - intros. apply extend_teams_only, only_teams_repository.
  - intros. apply extend_teams_only, only_teams_repository.
  - intros. apply extend_teams_only, only_teams_repository.
  - intros. apply extend_UserRepository_Create.
  - by_leaves.
  - by_leaves.
  - by_leaves.
  - by_leaves.
  - by_leaves.
  - by_leaves.
  - by_leaves.
  - exists []. rewrite app_nil_r. reflexivity.
Qed.

(* ===================================================================== *)
(** ** The user facade without store failures *)
(* ===================================================================== *)

Lemma find_update_first_same {A} (f : A -> bool) upd (l : list A) d :
  find f l = Some d -> f (upd d) = true ->
  find f (update_first f upd l) = Some (upd d).
Proof.
  induction l as [| x r IH]; simpl; [discriminate |].
  destruct (f x) eqn:E.
  - intros H; inversion H; subst. intros Hu. simpl. rewrite Hu. reflexivity.
  - intros H Hu. simpl. rewrite E. auto.
Qed.

Lemma existsb_update_first {A} (f g : A -> bool) upd (l : list A) :
  (forall d, g (upd d) = g d) ->
  existsb g (update_first f upd l) = existsb g l.
Proof.
  intros H. induction l as [| x r IH]; simpl; auto.
  destruct (f x); simpl; rewrite ?H, ?IH; reflexivity.
Qed.

Lemma find_none_existsb {A} (g : A -> bool) (l : list A) :
  find g l = None <-> existsb g l = false.
Proof.
  induction l as [| x r IH]; simpl; [tauto |].
  destruct (g x); simpl; [split; discriminate | exact IH].
Qed.

Lemma length_update_first {A} (f : A -> bool) upd (l : list A) :
  length (update_first f upd l) = length l.
Proof.
  induction l as [| x r IH]; simpl; auto. destruct (f x); simpl; auto.
Qed.

Lemma UserRepository_GetByID_eval id w :
  ObjectIDFromHex id = true -> read_faults (users w) = [] ->
  UserRepository_GetByID id w =
  (match find (user_by_id id) (docs (users w)) with
   | Some d => Ok d
   | None => Err ErrNoDocuments
   end, w).
Proof.
  intros Hh Hr. destruct w as [oc tc uc c]. destruct uc as [ud urf uwf].
  simpl in *; subst.
  unfold UserRepository_GetByID. rewrite Hh. simpl.
  unfold on_users, FindOne, use_read. simpl.
  destruct (find (user_by_id id) ud); reflexivity.
Qed.

Lemma UserRepository_GetByUserId_eval userId w :
  read_faults (users w) = [] ->
  UserRepository_GetByUserId userId w =
  (match user_of userId w with
   | Some d => Ok d
   | None => Err ErrNoDocuments
   end, w).
Proof.
  intros Hr. destruct w as [oc tc uc c]. destruct uc as [ud urf uwf].
  simpl in *; subst.
  unfold UserRepository_GetByUserId, user_of, on_users, FindOne, use_read.
  simpl. destruct (find (user_by_userId userId) ud); reflexivity.
Qed.

Lemma UserRepository_GetByEmail_eval email w :
  read_faults (users w) = [] ->
  UserRepository_GetByEmail email w =
  (match find (fun u => u_Email u =? email) (docs (users w)) with
   | Some d => Ok d
   | None => Err ErrNoDocuments
   end, w).
Proof.
  intros Hr. destruct w as [oc tc uc c]. destruct uc as [ud urf uwf].
  simpl in *; subst.
  unfold UserRepository_GetByEmail, on_users, FindOne, use_read.
  simpl. destruct (find _ ud); reflexivity.
Qed.

(** A write to the first user under a filter, stamped with the time. *)
Lemma user_write_eval (f : User -> bool) (upd : Z -> User -> User) w :
  write_faults (users w) = [] ->
  (now <- with_clock time_Now ;;
   on_users (UpdateOne User_eq_dec f (upd now)) ;;;
   ret tt) w
  = (Ok tt,
     with_users (update_first f (upd (clock w)) (docs (users w)))
       (clock w + 1) w).
Proof.
  intros Hw. destruct w as [oc tc uc c]. destruct uc as [ud urf uwf].
  simpl in *; subst.
  unfold bind, with_clock, time_Now, on_users, UpdateOne, use_write,
    with_users, set_docs. simpl.
  destruct (find f ud) eqn:F; simpl; [reflexivity |].
  rewrite update_first_none; auto.
Qed.

Lemma with_users_quiet l now w :
  quiet (users w) -> quiet (users (with_users l now w)).
Proof. intros [R W]. split; simpl; auto. Qed.

Lemma found_or_ok {A} msg (m : M A) w a w' :
  m w = (Ok a, w') -> found_or msg m w = (Ok a, w').
Proof. intros H. unfold found_or. rewrite H. reflexivity. Qed.

Lemma bind_ok {A B} (m : M A) (k : A -> M B) w a w' :
  m w = (Ok a, w') -> bind m k w = k a w'.
Proof. intros H. unfold bind. rewrite H. reflexivity. Qed.

Lemma UserRepository_Update_eval user w :
  ObjectIDFromHex (u_ID user) = true -> write_faults (users w) = [] ->
  UserRepository_Update user w
  = (Ok tt,
     with_users
       (update_first (user_by_id (u_ID user)) (user_replace user (clock w))
          (docs (users w)))
       (clock w + 1) w).
Proof.
  intros Hh Hw. unfold UserRepository_Update. rewrite Hh. simpl.
  apply (user_write_eval (user_by_id (u_ID user)) (user_replace user)), Hw.
Qed.

Lemma UserRepository_Delete_eval id w :
  ObjectIDFromHex id = true -> write_faults (users w) = [] ->
  UserRepository_Delete id w
  = (Ok tt,
     with_users
       (update_first (user_by_id id)
          (fun d => set_u_UpdatedAt (clock w) (set_u_Status StatusInactive d))
          (docs (users w)))
       (clock w + 1) w).
Proof.
  intros Hh Hw. unfold UserRepository_Delete. rewrite Hh. simpl.
  apply (user_write_eval (user_by_id id)
           (fun now d => set_u_UpdatedAt now (set_u_Status StatusInactive d))),
    Hw.
Qed.

Lemma DeleteUser_eval id w u :
  ObjectIDFromHex id = true -> quiet (users w) ->
  find (user_by_id id) (docs (users w)) = Some u ->
  UserService_DeleteUser id w
  = (Ok tt,
     with_users
       (update_first (user_by_id id)
          (fun d => set_u_UpdatedAt (clock w) (set_u_Status StatusInactive d))
          (docs (users w)))
       (clock w + 1) w).
Proof.
  intros Hh [Hr Hw] F. unfold UserService_DeleteUser.
  erewrite bind_ok;
    [| apply found_or_ok; rewrite UserRepository_GetByID_eval, F; eauto].
  erewrite bind_ok; [| apply UserRepository_Delete_eval; auto].
  reflexivity.
Qed.

Lemma set_status_eval status id w u :
  ObjectIDFromHex id = true -> quiet (users w) ->
  find (user_by_id id) (docs (users w)) = Some u ->
  (user <- found_or "user not found" (UserRepository_GetByID id) ;;
   now <- with_clock time_Now ;;
   UserRepository_Update (set_u_UpdatedAt now (set_u_Status status user)) ;;;
   ret tt) w
  = (Ok tt,
     with_users
       (update_first (user_by_id id)
          (user_replace (set_u_UpdatedAt (clock w) (set_u_Status status u))
             (clock w + 1))
          (docs (users w)))
       (clock w + 2) w).
Proof.
  intros Hh [Hr Hw] F.
  destruct (find_by_id_user _ _ _ F) as [Hin Hid].
  erewrite bind_ok;
    [| apply found_or_ok; rewrite UserRepository_GetByID_eval, F; eauto].
  rewrite bind_with_clock. simpl fst. simpl snd.
  erewrite bind_ok;
    [| apply UserRepository_Update_eval; simpl;
       [rewrite Hid, ObjectIDFromHex_Hex |]; auto].
  simpl. unfold with_users. simpl. rewrite Hid, user_by_id_Hex.
  replace (clock w + 1 + 1)%Z with (clock w + 2)%Z by lia. reflexivity.
Qed.

Lemma user_replace_status status a b u :
  user_replace (set_u_UpdatedAt a (set_u_Status status u)) b u
  = set_u_UpdatedAt b (set_u_Status status u).
Proof. destruct u. reflexivity. Qed.

Lemma user_replace_status_twice s1 s2 a b c u :
  user_replace
    (set_u_UpdatedAt a (set_u_Status s2 (set_u_UpdatedAt b (set_u_Status s1 u))))
    c (set_u_UpdatedAt b (set_u_Status s1 u))
  = set_u_UpdatedAt c (set_u_Status s2 u).
Proof. destruct u. reflexivity. Qed.

Lemma CreateUser_taken uuid req w u :
  read_faults (users w) = [] ->
  (user_of (cur_UserID req) w = Some u ->
   fst (UserService_CreateUser uuid req w)
   = Err (ErrNew "user with this userId already exists")) /\
  (user_of (cur_UserID req) w = None ->
   find (fun x => u_Email x =? cur_Email req) (docs (users w)) = Some u ->
   fst (UserService_CreateUser uuid req w)
   = Err (ErrNew "user with this email already exists")).
Proof.
  intros Hr. unfold UserService_CreateUser. rewrite bind_with_clock.
  destruct (NewUser_fields uuid req (clock w)) as (Fi & Fu & Fe & _).
  set (user0 := fst (NewUser uuid req (clock w))) in *.
  set (w1 := mkWorld _ _ _ _).
  assert (read_faults (users w1) = []) as Hr1 by exact Hr.
  unfold UserRepository_Create. rewrite bind_eq, lookup_fst, lookup_snd.
  rewrite (UserRepository_GetByUserId_eval _ w1 Hr1), Fu.
  change (user_of (cur_UserID req) w1) with (user_of (cur_UserID req) w).
  split.
  - intros ->. reflexivity.
  - intros -> F. simpl.
    rewrite bind_eq, lookup_fst, lookup_snd.
    rewrite ?Fe. rewrite (UserRepository_GetByEmail_eval _ w1 Hr1).
    change (docs (users w1)) with (docs (users w)). rewrite F. reflexivity.
Qed.

(** X10.  Deleting a user is a deactivation.  When the store does not
    fail, DeleteUser on a stored user returns success and removes
    nothing: the record stays under its _id with the status inactive and
    a new updatedAt, all else as it was, which is the record that
    DeactivateUser stores (but for the time stamp).  The userId and the
    email of a deleted user stay taken: creating a user under one of them
    is refused.  ActivateUser brings the record back: the user as it was,
    active. *)
Theorem X10_deleting_a_user_is_a_deactivation :
  forall w id u,
    ObjectIDFromHex id = true -> quiet (users w) ->
    find (user_by_id id) (docs (users w)) = Some u ->
    let w' := snd (UserService_DeleteUser id w) in
    fst (UserService_DeleteUser id w) = Ok tt /\
    length (docs (users w')) = length (docs (users w)) /\
    find (user_by_id id) (docs (users w'))
      = Some (set_u_UpdatedAt (clock w) (set_u_Status StatusInactive u)) /\
    find (user_by_id id)
      (docs (users (snd (UserService_DeactivateUser id w))))
      = Some (set_u_UpdatedAt (clock w + 1) (set_u_Status StatusInactive u)) /\
    (forall uuid req,
        cur_UserID req = u_UserID u ->
        fst (UserService_CreateUser uuid req w')
        = Err (ErrNew "user with this userId already exists")) /\
    (forall uuid req,
        user_of (cur_UserID req) w = None -> cur_Email req = u_Email u ->
        fst (UserService_CreateUser uuid req w')
        = Err (ErrNew "user with this email already exists")) /\
    fst (UserService_ActivateUser id w') = Ok tt /\
    find (user_by_id id)
      (docs (users (snd (UserService_ActivateUser id w'))))
      = Some (set_u_UpdatedAt (clock w + 2) (set_u_Status StatusActive u)).
Proof.
  intros w id u Hh Hq F. cbv zeta.
  destruct (find_by_id_user _ _ _ F) as [Hin Hid].
  rewrite (DeleteUser_eval id w u Hh Hq F). simpl fst. simpl snd.
  set (gone := fun d => set_u_UpdatedAt (clock w)
                          (set_u_Status StatusInactive d)).
  set (w' := with_users _ _ w).
  assert (quiet (users w')) as Hq' by (apply with_users_quiet, Hq).
  assert (find (user_by_id id) (docs (users w')) = Some (gone u)) as F'.
  { simpl. apply find_update_first_same; auto.
    unfold user_by_id. simpl. apply String.eqb_eq, Hid. }
  assert (forall g, (forall d, g (gone d) = g d) -> g u = true ->
                    exists x, find g (docs (users w')) = Some x) as Taken.
  { intros g Hg Hu. destruct (find g (docs (users w'))) as [x |] eqn:N;
      [eauto |].
    apply find_none_existsb in N. simpl in N.
    rewrite existsb_update_first in N by exact Hg.
    assert (existsb g (docs (users w)) = true) as E
        by (apply existsb_exists; eauto).
    congruence. }
  repeat split.
  - simpl. apply length_update_first.
  - exact F'.
  - unfold UserService_DeactivateUser.
    rewrite (set_status_eval StatusInactive id w u Hh Hq F). simpl.
    erewrite find_update_first_same; eauto.
    + rewrite user_replace_status. reflexivity.
    + unfold user_by_id. simpl. apply String.eqb_eq, Hid.
  - intros uuid req Hu.
    destruct (Taken (user_by_userId (cur_UserID req))) as [x Hx].
    + intros d. reflexivity.
    + unfold user_by_userId. apply String.eqb_eq. auto.
    + eapply CreateUser_taken; [apply Hq' | exact Hx].
  - intros uuid req Hn He.
    destruct (Taken (fun x => u_Email x =? cur_Email req)) as [x Hx].
    + intros d. reflexivity.
    + apply String.eqb_eq. auto.
    + eapply CreateUser_taken; [apply Hq' | | exact Hx].
      unfold user_of in *. apply find_none_existsb.
      simpl. rewrite existsb_update_first by (intros d; reflexivity).
      apply find_none_existsb. exact Hn.
  - unfold UserService_ActivateUser.
    rewrite (set_status_eval StatusActive id w' (gone u) Hh Hq' F').
    reflexivity.
  - unfold UserService_ActivateUser.
    rewrite (set_status_eval StatusActive id w' (gone u) Hh Hq' F').
    simpl snd. unfold with_users at 1. simpl users. simpl docs.
    erewrite find_update_first_same; [| exact F' |].
    + unfold gone. rewrite user_replace_status_twice.
      change (clock w') with (clock w + 1)%Z.
      replace (clock w + 1 + 1)%Z with (clock w + 2)%Z by lia.
      reflexivity.
    + unfold user_by_id. simpl. apply String.eqb_eq, Hid.
Qed.

Lemma X10_witness :
  fst (UserService_DeleteUser alice_id office) = Ok tt /\
  length (docs (users (snd (UserService_DeleteUser alice_id office))))
    = length (docs (users office)).
Proof.
  destruct (X10_deleting_a_user_is_a_deactivation office alice_id
              (person alice_id "alice" "alice@example.org" [acme_id] [crew_id])
              eq_refl (conj eq_refl eq_refl) eq_refl) as (H1 & H2 & _).
  split; assumption.
Defined.

(** X11.  UpdateUserLastLogin does not check that the user exists.  When
    the write does not fail it returns success; the user stored under the
    userId gets the time of the call as last login, and if no user is
    stored under the userId the call still returns success and no
    document changes. *)
Theorem X11_last_login_of_an_unknown_user_is_accepted :
  forall w userID,
    write_faults (users w) = [] ->
    let w' := snd (UserService_UpdateUserLastLogin userID w) in
    fst (UserService_UpdateUserLastLogin userID w) = Ok tt /\
    match user_of userID w with
    | Some u =>
        user_of userID w'
        = Some (set_u_UpdatedAt (clock w + 1)
                  (set_u_LastLogin (Some (clock w)) u))
    | None => store w' = store w
    end.
Proof.
  intros w userID Hw. cbv zeta. unfold UserService_UpdateUserLastLogin.
  rewrite bind_with_clock. simpl fst. simpl snd.
  set (w1 := mkWorld _ _ _ _).
  unfold UserRepository_UpdateLastLogin.
  rewrite (user_write_eval (user_by_userId userID)
             (fun now d => set_u_UpdatedAt now
                             (set_u_LastLogin (Some (clock w)) d)) w1 Hw).
  split; [reflexivity |]. unfold user_of. simpl.
  destruct (find (user_by_userId userID) (docs (users w))) as [u |] eqn:F.
  - erewrite find_update_first_same; eauto.
    apply find_some in F. destruct F as [_ F]. exact F.
  - rewrite update_first_none; auto.
Qed.

Lemma X11_witness :
  fst (UserService_UpdateUserLastLogin "nobody" small_world) = Ok tt /\
  store (snd (UserService_UpdateUserLastLogin "nobody" small_world))
    = store small_world.
Proof.
  exact (X11_last_login_of_an_unknown_user_is_accepted small_world "nobody"
           eq_refl).
Defined.

(* ===================================================================== *)
(** ** The bearer token *)
(* ===================================================================== *)

Lemma cut_at_space_spec s a b :
  cut_at_space s = Some (a, b) -> s = (a ++ String " " b)%string.
Proof.
  revert a. induction s as [| c r IH]; simpl; [discriminate |].
  intros a. destruct (Ascii.eqb c " ") eqn:E.
  - apply Ascii.eqb_eq in E. subst. intros H; inversion H; subst. reflexivity.
  - destruct (cut_at_space r) as [[a' b'] |]; [| discriminate].
    intros H; inversion H; subst. simpl. f_equal. apply IH. reflexivity.
Qed.

(** X12.  ExtractToken accepts exactly the headers that start with the
    scheme Bearer and one space, and returns what follows the space,
    whatever it is (the empty text and a text with spaces too); the empty
    header is answered with the error for a missing header, every other
    header with the error for an invalid one. *)
Theorem X12_ExtractToken_accepts_exactly_the_bearer_headers :
  ExtractToken "" = Err ErrNoAuthHeader /\
  (forall token, ExtractToken ("Bearer " ++ token)%string = Ok token) /\
  (forall header token,
      ExtractToken header = Ok token -> header = ("Bearer " ++ token)%string) /\
  (forall header,
      header <> "" -> (forall token, header <> ("Bearer " ++ token)%string) ->
      ExtractToken header = Err ErrInvalidAuthHeader).
Proof.
  assert (forall header token,
             ExtractToken header = Ok token -> header = ("Bearer " ++ token)%string)
    as Sound.
  { intros header token. unfold ExtractToken, SplitN2.
    destruct (header =? ""); [discriminate |].
    destruct (cut_at_space header) as [[a b] |] eqn:C; [| discriminate].
    destruct (a =? "Bearer") eqn:E; simpl; [| discriminate].
    apply String.eqb_eq in E. subst. intros H; inversion H; subst.
    apply cut_at_space_spec in C. exact C. }
  split; [reflexivity |]. split; [intros token; reflexivity |].
  split; [exact Sound |].
  intros header Hne Hno.
  destruct (ExtractToken header) as [t | e] eqn:E.
  - exfalso. apply (Hno t), Sound, E.
  - unfold ExtractToken, SplitN2 in E.
    destruct (header =? "") eqn:Z;
      [apply String.eqb_eq in Z; contradiction |].
    destruct (cut_at_space header) as [[a b] |];
      [destruct (a =? "Bearer"); simpl in E |]; congruence.
Qed.

Lemma X12_witness :
  "Bearer a b" = ("Bearer " ++ "a b")%string /\
  ExtractToken "bearer abc" = Err ErrInvalidAuthHeader.
Proof.
  destruct X12_ExtractToken_accepts_exactly_the_bearer_headers
    as (_ & _ & S & I).
  split.
  - apply S. reflexivity.
  - apply I; [discriminate | intros token; discriminate].
Defined.

(* ===================================================================== *)
(** ** Validators *)
(* ===================================================================== *)

Lemma matches_length p s :
  matches p s = true -> String.length s = length p.
Proof.
  revert s. induction p as [| k p IH]; intros [| c r]; simpl;
    try discriminate; auto.
  intros H. apply andb_true_iff in H. destruct H as [_ H]. auto.
Qed.

(** X13.  The role validators accept exactly the roles that the models
    define: ValidateOrgRole the three organization roles,
    ValidateTeamRole those and viewer.  A text that the uuid4 validator
    accepts has 36 characters, so it is never the hexadecimal form of an
    ObjectID. *)
Theorem X13_validators_accept_the_roles_of_the_models :
  (forall role,
      ValidateOrgRole role = true <->
      role = OrgRoleOwner \/ role = OrgRoleAdmin \/ role = OrgRoleMember) /\
  (forall role,
      ValidateTeamRole role = true <->
      role = TeamRoleOwner \/ role = TeamRoleAdmin \/ role = TeamRoleMember
      \/ role = TeamRoleViewer) /\
  (forall role, ValidateOrgRole role = true -> ValidateTeamRole role = true) /\
  (forall s,
      uuid4 s = true ->
      String.length s = 36%nat /\ ObjectIDFromHex s = false).
Proof.
  assert (forall role,
             ValidateOrgRole role = true <->
             role = OrgRoleOwner \/ role = OrgRoleAdmin \/ role = OrgRoleMember)
    as Ho.
  { intros role. unfold ValidateOrgRole, one_of. simpl.
    rewrite !orb_true_iff, !String.eqb_eq. intuition discriminate. }
  assert (forall role,
             ValidateTeamRole role = true <->
             role = TeamRoleOwner \/ role = TeamRoleAdmin
             \/ role = TeamRoleMember \/ role = TeamRoleViewer) as Ht.
  { intros role. unfold ValidateTeamRole, one_of. simpl.
    rewrite !orb_true_iff, !String.eqb_eq. intuition discriminate. }
  split; [exact Ho |]. split; [exact Ht |]. split.
  - intros role H. apply Ht. apply Ho in H.
    unfold TeamRoleOwner, TeamRoleAdmin, TeamRoleMember. tauto.
  - intros s H. apply matches_length in H.
    split; [exact H | apply uuid_text_is_no_ObjectID, H].
Qed.

Lemma X13_witness :
  ValidateTeamRole "admin" = true /\
  String.length "7d444840-9dc0-41d1-b245-5ffdce74fad2" = 36%nat /\
  ObjectIDFromHex "7d444840-9dc0-41d1-b245-5ffdce74fad2" = false.
Proof.
  destruct X13_validators_accept_the_roles_of_the_models
    as (_ & _ & R & U).
  split; [apply R; reflexivity | apply U; reflexivity].
Defined.

(* ===================================================================== *)
(** ** Pages *)
(* ===================================================================== *)

Lemma wrap64_small z :
  (- 2 ^ 63 <= z < 2 ^ 63)%Z -> wrap64 z = z.
Proof.
  intros H. unfold wrap64. rewrite Z.mod_small; lia.
Qed.

Lemma query_in_bounds parsedPage parsedLimit :
  in_page_bounds (query_page parsedPage) (query_limit parsedLimit).
Proof.
  unfold in_page_bounds, query_page, query_limit.
  destruct parsedPage as [p |], parsedLimit as [l |];
    repeat match goal with
           | |- context [(?a <? ?b)%Z] => destruct (Z.ltb_spec a b)
           end; simpl; lia.
Qed.

Lemma effective_in_bounds_id page limit :
  in_page_bounds page limit ->
  effective_page page = page /\ effective_limit limit = limit.
Proof.
  unfold in_page_bounds, effective_page, effective_limit. intros [Hp Hl].
  split; [lia |].
  destruct (Z.leb_spec 1 limit), (Z.leb_spec limit 100); simpl; lia.
Qed.

(** X14.  Pages as the controllers compute them.  Whatever the query
    holds, the page handed to the facade is at least 1 and the limit
    between 1 and 100 (20 when the text is no number or is out of range),
    so the checks of the list methods of the facade change nothing any
    more.  For a total below 2^62, totalPages is the number of pages that
    hold the results: the smallest n with n * limit >= total.  The
    repositories skip (page - 1) * limit documents: the window of a page
    starts where the window of the page before ends, and the window of
    the last page starts before the end. *)
Theorem X14_pages_of_the_controllers :
  forall parsedPage parsedLimit,
    let page := query_page parsedPage in
    let limit := query_limit parsedLimit in
    in_page_bounds page limit /\
    (forall (R : Type) (repo : Z -> Z -> string -> M R) search,
        UserService_GetUsers repo page limit search = repo page limit search)
    /\
    (forall (R : Type) (repo : Z -> Z -> M R),
        OrganizationService_ListOrganizations repo page limit
        = repo page limit) /\
    (forall (R : Type) (repo : string -> Z -> Z -> M R) id,
        TeamService_GetTeamsByOrganization repo id page limit
        = repo id page limit) /\
    (forall total,
        (0 <= total < 2 ^ 62)%Z ->
        let n := totalPages total limit in
        (n * limit >= total)%Z /\ ((n - 1) * limit < total)%Z /\
        (0 <= n)%Z /\
        (0 < total -> skip_of n limit < total)%Z) /\
    ((page < 2 ^ 50)%Z ->
     skip_of page limit = ((page - 1) * limit)%Z /\
     skip_of (page + 1) limit = (skip_of page limit + limit)%Z).
Proof.
  intros parsedPage parsedLimit. cbv zeta.
  pose proof (query_in_bounds parsedPage parsedLimit) as B.
  destruct (effective_in_bounds_id _ _ B) as [Ep El].
  set (page := query_page parsedPage) in *.
  set (limit := query_limit parsedLimit) in *.
  destruct B as [Bp Bl].
  split; [split; assumption |].
  split; [| split; [| split]].
  - intros R repo search.
    destruct (@validating_list_queries R page limit) as (_ & H & _).
    rewrite H, Ep, El. reflexivity.
  - intros R repo.
    destruct (@validating_list_queries R page limit) as (_ & _ & _ & H & _).
    rewrite H, Ep, El. reflexivity.
  - intros R repo id.
    destruct (@validating_list_queries R page limit)
      as (_ & _ & _ & _ & H & _).
    rewrite H, Ep, El. reflexivity.
  - split.
    + intros total Ht.
      assert (2 ^ 62 = 4611686018427387904)%Z as P62 by reflexivity.
      assert (2 ^ 63 = 9223372036854775808)%Z as P63 by reflexivity.
      unfold totalPages, skip_of.
      rewrite (wrap64_small (total + limit)) by lia.
      rewrite (wrap64_small (total + limit - 1)) by lia.
      rewrite Z.quot_div_nonneg by lia.
      pose proof (Z.div_mod (total + limit - 1) limit ltac:(lia)) as D.
      pose proof (Z.mod_pos_bound (total + limit - 1) limit ltac:(lia)) as M.
      set (n := ((total + limit - 1) / limit)%Z) in *.
      assert (0 <= n)%Z by (subst n; apply Z.div_pos; lia).
      assert (n * limit >= total)%Z by nia.
      assert ((n - 1) * limit < total)%Z by nia.
      repeat split; auto.
      intros Hpos.
      assert (1 <= n)%Z by nia.
      rewrite (wrap64_small (n - 1)) by nia.
      rewrite wrap64_small by nia. nia.
    + intros Hp.
      assert (2 ^ 50 = 1125899906842624)%Z as P50 by reflexivity.
      assert (2 ^ 63 = 9223372036854775808)%Z as P63 by reflexivity.
      unfold skip_of.
      rewrite (wrap64_small (page - 1)) by lia.
      rewrite (wrap64_small (page + 1 - 1)) by lia.
      rewrite !wrap64_small by nia. split; lia.
Qed.

Lemma X14_witness :
  let n := totalPages 41 (query_limit (Some 20%Z)) in
  (n * query_limit (Some 20%Z) >= 41)%Z /\
  ((n - 1) * query_limit (Some 20%Z) < 41)%Z /\
  (0 <= n)%Z /\
  (0 < 41 -> skip_of n (query_limit (Some 20%Z)) < 41)%Z.
Proof.
  destruct (X14_pages_of_the_controllers None (Some 20%Z))
    as (_ & _ & _ & _ & T & _).
  apply T. split; [lia | reflexivity].
Defined.

(* ===================================================================== *)
(** ** The model methods on the team list and on the members *)
(* ===================================================================== *)

Lemma existsb_eqb_In id ids :
  existsb (fun x => x =? id) ids = true <-> In id ids.
Proof.
  rewrite existsb_exists. split.
  - intros (x & Hx & E). apply String.eqb_eq in E. subst. exact Hx.
  - intros H. exists id. split; auto. apply String.eqb_refl.
Qed.

Lemma remove_first_id_snoc ids id :
  ~ In id ids -> remove_first_id (ids ++ [id]) id = Some ids.
Proof.
  induction ids as [| x r IH]; simpl.
  - intros _. rewrite String.eqb_refl. reflexivity.
  - intros H. destruct (x =? id) eqn:E.
    + apply String.eqb_eq in E. tauto.
    + rewrite IH; tauto.
Qed.

Lemma pull_absent id ids : ~ In id ids -> pull id ids = ids.
Proof.
  unfold pull. induction ids as [| x r IH]; simpl; auto.
  intros H. destruct (x =? id) eqn:E; simpl.
  - apply String.eqb_eq in E. tauto.
  - rewrite IH; tauto.
Qed.

Lemma remove_first_id_spec ids id :
  NoDup ids ->
  remove_first_id ids id = if existsb (fun x => x =? id) ids
                           then Some (pull id ids) else None.
Proof.
  induction ids as [| x r IH]; simpl; auto.
  intros N. inversion N as [| ? ? Hx Hr]; subst.
  unfold pull in *. simpl. destruct (x =? id) eqn:E; simpl.
  - apply String.eqb_eq in E. subst.
    fold (pull id r). rewrite pull_absent; auto.
  - rewrite IH by assumption.
    destruct (existsb (fun x => x =? id) r); reflexivity.
Qed.

Lemma remove_first_id_none ids id :
  remove_first_id ids id = None <-> ~ In id ids.
Proof.
  induction ids as [| x r IH]; simpl; [tauto |].
  destruct (x =? id) eqn:E.
  - apply String.eqb_eq in E. split; [discriminate | tauto].
  - apply String.eqb_neq in E.
    destruct (remove_first_id r id); split; try discriminate; try tauto.
    intros H. exfalso. apply H. right. apply Decidable.not_not.
    + destruct (in_dec string_dec id r); [left | right]; auto.
    + intros Hn. apply IH in Hn. discriminate.
Qed.

(** X15.  The team list of an organization as a set.  AddTeam computes
    what $addToSet computes in the repository: the identifier is in the
    list afterwards, once; adding it again reports false and changes
    nothing; a list without duplicates stays so.  RemoveTeam reports
    whether the identifier was listed, undoes the AddTeam of an
    identifier that was not, and on a list without duplicates computes
    what $pull computes. *)
Theorem X15_team_list_of_an_organization :
  forall o teamID c c',
    let added := snd (fst (Organization_AddTeam o teamID c)) in
    o_TeamIDs added = addToSet teamID (o_TeamIDs o) /\
    In teamID (o_TeamIDs added) /\
    (fst (fst (Organization_AddTeam o teamID c)) = false <->
     In teamID (o_TeamIDs o)) /\
    Organization_AddTeam added teamID c' = (false, added, c') /\
    (NoDup (o_TeamIDs o) -> NoDup (o_TeamIDs added)) /\
    (fst (fst (Organization_RemoveTeam o teamID c)) = true <->
     In teamID (o_TeamIDs o)) /\
    (~ In teamID (o_TeamIDs o) ->
     Organization_RemoveTeam o teamID c = (false, o, c) /\
     o_TeamIDs (snd (fst (Organization_RemoveTeam added teamID c')))
     = o_TeamIDs o) /\
    (NoDup (o_TeamIDs o) ->
     o_TeamIDs (snd (fst (Organization_RemoveTeam o teamID c)))
     = pull teamID (o_TeamIDs o)).
Proof.
  intros o teamID c c'. cbv zeta.
  assert (o_TeamIDs (snd (fst (Organization_AddTeam o teamID c)))
          = addToSet teamID (o_TeamIDs o)) as A.
  { unfold Organization_AddTeam, addToSet.
    destruct (existsb _ (o_TeamIDs o)); reflexivity. }
  assert (In teamID (addToSet teamID (o_TeamIDs o))) as Hin.
  { unfold addToSet. destruct (existsb _ (o_TeamIDs o)) eqn:E.
    - apply existsb_eqb_In, E.
    - apply in_or_app. right. simpl. auto. }
  repeat split.
  - exact A.
  - rewrite A. exact Hin.
  - unfold Organization_AddTeam.
    destruct (existsb _ (o_TeamIDs o)) eqn:E; simpl; [| discriminate].
    intros _. apply existsb_eqb_In, E.
  - intros H. apply existsb_eqb_In in H. unfold Organization_AddTeam.
    rewrite H. reflexivity.
  - rewrite <- A in Hin. apply existsb_eqb_In in Hin.
    unfold Organization_AddTeam at 1. rewrite Hin. reflexivity.
  - rewrite A. apply NoDup_addToSet.
  - unfold Organization_RemoveTeam.
    destruct (remove_first_id (o_TeamIDs o) teamID) eqn:R; simpl;
      [| discriminate].
    intros _. apply Decidable.not_not.
    + destruct (in_dec string_dec teamID (o_TeamIDs o)); [left | right]; auto.
    + intros Hn. apply remove_first_id_none in Hn. congruence.
  - intros H. unfold Organization_RemoveTeam.
    destruct (remove_first_id (o_TeamIDs o) teamID) eqn:R; simpl; auto.
    apply remove_first_id_none in R. tauto.
  - unfold Organization_RemoveTeam.
    apply remove_first_id_none in H. rewrite H. reflexivity.
  - unfold Organization_RemoveTeam. rewrite A. unfold addToSet.
    assert (existsb (fun x => x =? teamID) (o_TeamIDs o) = false) as E.
    { destruct (existsb _ (o_TeamIDs o)) eqn:E; auto.
      apply existsb_eqb_In in E. tauto. }
    rewrite E, remove_first_id_snoc by assumption. reflexivity.
  - intros N. unfold Organization_RemoveTeam.
    rewrite remove_first_id_spec by assumption.
    destruct (existsb (fun x => x =? teamID) (o_TeamIDs o)) eqn:E; simpl.
    + reflexivity.
    + rewrite pull_absent; auto. intros H. apply existsb_eqb_In in H.
      congruence.
Qed.

Lemma X15_witness :
  NoDup (o_TeamIDs (snd (fst (Organization_AddTeam acme "t-2" 7%Z)))) /\
  Organization_RemoveTeam acme "t-2" 7%Z = (false, acme, 7%Z).
Proof.
  destruct (X15_team_list_of_an_organization acme "t-2" 7%Z 8%Z)
    as (_ & _ & _ & _ & N & _ & R & _).
  split.
  - apply N. simpl. nodup_closed.
  - apply R. simpl. intuition discriminate.
Defined.

Lemma change_role_absent ms userID role :
  GetMember ms userID = None -> change_role ms userID role = NotAMember.
Proof.
  intros H. pose proof (change_role_spec ms userID role) as S.
  destruct (change_role ms userID role) as [| | ms']; auto.
  - destruct S as (m & Hm & _). congruence.
  - destruct S as (_ & m & Hm & _). congruence.
Qed.

Lemma remove_first_member_absent ms userID :
  GetMember ms userID = None -> remove_first_member ms userID = None.
Proof.
  unfold GetMember. induction ms as [| m r IH]; simpl; auto.
  destruct (m_UserID m =? userID); [discriminate |].
  intros H. rewrite IH; auto.
Qed.

Lemma remove_first_member_snoc ms userID m :
  GetMember ms userID = None -> m_UserID m = userID ->
  remove_first_member (ms ++ [m]) userID = Some ms.
Proof.
  unfold GetMember. intros H E. induction ms as [| x r IH]; simpl in *.
  - rewrite E, String.eqb_refl. reflexivity.
  - destruct (m_UserID x =? userID); [discriminate |].
    rewrite IH; auto.
Qed.

Lemma GetMember_app_other ms m other :
  other <> m_UserID m -> GetMember (ms ++ [m]) other = GetMember ms other.
Proof.
  unfold GetMember. intros H. induction ms as [| x r IH]; simpl.
  - destruct (m_UserID m =? other) eqn:E; auto.
    apply String.eqb_eq in E. congruence.
  - destruct (m_UserID x =? other); auto.
Qed.

Lemma member_round_trip ms userID role invitedBy c :
  GetMember ms userID = None ->
  let m := mkMember userID role c invitedBy in
  change_role ms userID role = NotAMember /\
  GetMember (ms ++ [m]) userID = Some m /\
  HasRole (ms ++ [m]) userID [role] = true /\
  (forall other, other <> userID ->
                 GetMember (ms ++ [m]) other = GetMember ms other) /\
  remove_first_member (ms ++ [m]) userID = Some ms /\
  remove_first_member ms userID = None.
Proof.
  intros H m. split; [apply change_role_absent, H |].
  assert (GetMember (ms ++ [m]) userID = Some m) as G
      by (apply GetMember_app_new; auto).
  split; [exact G |]. split.
  - unfold HasRole. rewrite G. simpl. rewrite String.eqb_refl. reflexivity.
  - split; [intros other Ho; apply GetMember_app_other; exact Ho |].
    split; [apply remove_first_member_snoc; auto |].
    apply remove_first_member_absent, H.
Qed.

(** X16.  Adding and removing a member in the models.  For a user who is
    not a member of an organization or a team, AddMember appends one
    entry with the role, the time of the call and the inviter, and
    reports true; the user then is a member and holds the role, the other
    members are found as before, and RemoveMember gives back the member
    list as it was.  RemoveMember and UpdateMember for a user who is not
    a member report false and change nothing. *)
Theorem X16_adding_and_removing_a_member_in_the_models :
  (forall o userID role invitedBy c c',
      Organization_GetMember o userID = None ->
      let added := snd (fst (Organization_AddMember o userID role invitedBy c))
      in
      fst (fst (Organization_AddMember o userID role invitedBy c)) = true /\
      Organization_GetMember added userID
        = Some (mkMember userID role c invitedBy) /\
      Organization_IsMember added userID = true /\
      Organization_HasRole added userID [role] = true /\
      (forall other,
          other <> userID ->
          Organization_GetMember added other = Organization_GetMember o other)
      /\
      o_Members (snd (fst (Organization_RemoveMember added userID c')))
        = o_Members o /\
      Organization_RemoveMember o userID c = (false, o, c) /\
      Organization_UpdateMember o userID role c = (false, o, c)) /\
  (forall t userID role invitedBy c c',
      Team_GetMember t userID = None ->
      let added := snd (fst (Team_AddMember t userID role invitedBy c)) in
      fst (fst (Team_AddMember t userID role invitedBy c)) = true /\
      Team_GetMember added userID = Some (mkMember userID role c invitedBy) /\
      Team_IsMember added userID = true /\
      Team_HasRole added userID [role] = true /\
      (forall other,
          other <> userID ->
          Team_GetMember added other = Team_GetMember t other) /\
      t_Members (snd (fst (Team_RemoveMember added userID c')))
        = t_Members t /\
      Team_RemoveMember t userID c = (false, t, c) /\
      Team_UpdateMember t userID role c = (false, t, c)).
Proof.
  split.
  - intros o userID role invitedBy c c' H. cbv zeta.
    unfold Organization_GetMember in H.
    destruct (member_round_trip (o_Members o) userID role invitedBy c H)
      as (C & G & R & O & Rm & Rn).
    unfold Organization_AddMember, Organization_RemoveMember,
      Organization_UpdateMember, Organization_GetMember,
      Organization_IsMember, Organization_HasRole, Organization_GetMember.
    rewrite C, Rn. simpl. rewrite G, R, Rm. simpl. auto 10.
  - intros t userID role invitedBy c c' H. cbv zeta.
    unfold Team_GetMember in H.
    destruct (member_round_trip (t_Members t) userID role invitedBy c H)
      as (C & G & R & O & Rm & Rn).
    unfold Team_AddMember, Team_RemoveMember, Team_UpdateMember,
      Team_GetMember, Team_IsMember, Team_HasRole, Team_GetMember.
    rewrite C, Rn. simpl. rewrite G, R, Rm. simpl. auto 10.
Qed.

Lemma X16_witness :
  o_Members
    (snd (fst (Organization_RemoveMember
                 (snd (fst (Organization_AddMember acme "dave" OrgRoleAdmin
                              "alice" 7%Z)))
                 "dave" 9%Z)))
  = o_Members acme.
Proof.
  destruct X16_adding_and_removing_a_member_in_the_models as (H & _).
  destruct (H acme "dave" OrgRoleAdmin "alice" 7%Z 9%Z eq_refl)
    as (_ & _ & _ & _ & _ & R & _).
  exact R.
Defined.

(* ===================================================================== *)
(** ** The repositories against the models *)
(* ===================================================================== *)

Lemma set_role_at_match_same userID ms m :
  GetMember ms userID = Some m ->
  set_role_at_match userID (m_Role m) ms = ms.
Proof.
  unfold GetMember. induction ms as [| x r IH]; simpl; [discriminate |].
  destruct (m_UserID x =? userID).
  - intros H; inversion H; subst. rewrite set_m_Role_same. reflexivity.
  - intros H. rewrite IH; auto.
Qed.

Lemma pull_member_absent userID ms :
  GetMember ms userID = None -> pull_member userID ms = ms.
Proof.
  unfold GetMember, pull_member.
  induction ms as [| x r IH]; simpl; auto.
  destruct (m_UserID x =? userID); simpl; [discriminate |].
  intros H. rewrite IH; auto.
Qed.

Lemma remove_first_member_pull ms userID m :
  unique_members ms -> GetMember ms userID = Some m ->
  remove_first_member ms userID = Some (pull_member userID ms).
Proof.
  unfold unique_members, GetMember, pull_member.
  induction ms as [| x r IH]; simpl; [discriminate |].
  intros N. inversion N as [| ? ? Hx Hr]; subst.
  destruct (m_UserID x =? userID) eqn:E; simpl.
  - intros _. apply String.eqb_eq in E. subst. f_equal. symmetry.
    apply pull_member_absent. unfold GetMember.
    destruct (find _ r) as [y |] eqn:F; auto.
    apply find_some in F. destruct F as [Hy Ey].
    apply String.eqb_eq in Ey. exfalso. apply Hx. rewrite <- Ey.
    apply in_map, Hy.
  - intros H. rewrite IH; auto.
Qed.

(** The member list that the model's AddMember computes. *)
Lemma model_AddMember_members ms userID role invitedBy c :
  match change_role ms userID role with
  | NewRole ms' => ms'
  | SameRole => ms
  | NotAMember => ms ++ [mkMember userID role c invitedBy]
  end
  = match GetMember ms userID with
    | Some _ => set_role_at_match userID role ms
    | None => ms ++ [mkMember userID role c invitedBy]
    end.
Proof.
  pose proof (change_role_spec ms userID role) as S.
  destruct (change_role ms userID role) as [| | ms'].
  - rewrite S. reflexivity.
  - destruct S as (m & Hm & Hr). rewrite Hm. subst role. symmetry.
    apply set_role_at_match_same, Hm.
  - destruct S as (-> & m & Hm & _). rewrite Hm. reflexivity.
Qed.

Lemma set_o_Members_same o : set_o_Members (o_Members o) o = o.
Proof. destruct o. reflexivity. Qed.

Lemma set_t_Members_same t : set_t_Members (t_Members t) t = t.
Proof. destruct t. reflexivity. Qed.


Lemma OrganizationRepository_AddMember_agrees
    w orgID userID role invitedBy org :
  ObjectIDFromHex orgID = true -> quiet (organizations w) ->
  the_document (org_by_id orgID) (organizations w) org ->
  exists doc,
    fst (OrganizationRepository_AddMember orgID userID role invitedBy w)
      = Ok tt /\
    the_document (org_by_id orgID)
      (organizations
         (snd (OrganizationRepository_AddMember orgID userID role invitedBy w)))
      doc /\
    o_Members doc
    = o_Members
        (snd (fst (Organization_AddMember org userID role invitedBy (clock w)))).
Proof.
  intros Hh Hq Hdoc.
  assert (o_Members
            (snd (fst (Organization_AddMember org userID role invitedBy
                         (clock w))))
          = match GetMember (o_Members org) userID with
            | Some _ => set_role_at_match userID role (o_Members org)
            | None => o_Members org ++ [mkMember userID role (clock w) invitedBy]
            end) as M.
  { rewrite <- model_AddMember_members. unfold Organization_AddMember.
    destruct (change_role (o_Members org) userID role); reflexivity. }
  destruct (GetMember (o_Members org) userID) as [m |] eqn:G.
  - destruct (OrganizationRepository_AddMember_existing w orgID userID role
                invitedBy org m Hh Hq Hdoc G) as [E D].
    eexists. split; [exact E |]. split; [exact D |]. rewrite M. reflexivity.
  - destruct (OrganizationRepository_AddMember_new w orgID userID role
                invitedBy org Hh Hq Hdoc G) as [E D].
    eexists. split; [exact E |]. split; [exact D |]. rewrite M. reflexivity.
Qed.

Lemma OrganizationRepository_RemoveMember_agrees w orgID userID org :
  ObjectIDFromHex orgID = true -> quiet (organizations w) ->
  the_document (org_by_id orgID) (organizations w) org ->
  unique_members (o_Members org) ->
  Organization_IsMember org userID = true ->
  exists doc,
    fst (OrganizationRepository_RemoveMember orgID userID w) = Ok tt /\
    the_document (org_by_id orgID)
      (organizations (snd (OrganizationRepository_RemoveMember orgID userID w)))
      doc /\
    o_Members doc
    = o_Members (snd (fst (Organization_RemoveMember org userID (clock w)))).
Proof.
  intros Hh Hq Hdoc Hu Hm.
  pose proof (find_filter_single _ _ _ Hdoc) as Hfind.
  unfold Organization_IsMember, Organization_GetMember in Hm.
  destruct (GetMember (o_Members org) userID) as [m |] eqn:G;
    [| discriminate].
  destruct (OrganizationRepository_RemoveMember_eval orgID userID w org m
              Hh Hq Hfind G) as (E & Q & D).
  eexists. split; [exact E |]. split.
  - unfold the_document. rewrite D.
    apply (filter_update_first _ _
             (fun d => set_o_UpdatedAt (clock w)
                (set_o_Members (pull_member userID (o_Members d)) d))
             _ org); auto.
  - unfold Organization_RemoveMember.
    rewrite (remove_first_member_pull _ _ _ Hu G). reflexivity.
Qed.

(** The repository reports a missing member only when no document
    changed: for a stored group, removing a user who is no member
    succeeds. *)
Lemma OrganizationRepository_RemoveMember_of_no_member w orgID userID org :
  ObjectIDFromHex orgID = true -> quiet (organizations w) ->
  the_document (org_by_id orgID) (organizations w) org ->
  Organization_IsMember org userID = false ->
  o_UpdatedAt org <> clock w ->
  fst (OrganizationRepository_RemoveMember orgID userID w) = Ok tt /\
  the_document (org_by_id orgID)
    (organizations (snd (OrganizationRepository_RemoveMember orgID userID w)))
    (set_o_UpdatedAt (clock w) org).
Proof.
  intros Hh [Hr Hw] Hdoc Hm Hne.
  pose proof (find_filter_single _ _ _ Hdoc) as Hfind.
  unfold Organization_IsMember, Organization_GetMember in Hm.
  destruct (GetMember (o_Members org) userID) as [m |] eqn:G;
    [discriminate |].
  assert (forall d, GetMember (o_Members d) userID = None ->
                    set_o_UpdatedAt (clock w)
                      (set_o_Members (pull_member userID (o_Members d)) d)
                    = set_o_UpdatedAt (clock w) d) as Hupd.
  { intros d Hd. rewrite pull_member_absent by exact Hd.
    rewrite set_o_Members_same. reflexivity. }
  destruct w as [oc tc uc c]. destruct oc as [gd grf gwf].
  simpl in *; subst.
  unfold OrganizationRepository_RemoveMember. rewrite Hh. simpl.
  unfold bind, on_organizations, UpdateOne, use_write. simpl.
  rewrite Hfind. simpl. rewrite (Hupd org G).
  match goal with |- context [Organization_eq_dec ?x org] =>
    destruct (Organization_eq_dec x org) as [Heq | Hneq] end; simpl.
  - exfalso. apply Hne. rewrite <- Heq at 1. reflexivity.
  - split; [reflexivity |]. unfold the_document. simpl.
    rewrite <- (Hupd org G).
    apply (filter_update_first _ _
             (fun d => set_o_UpdatedAt c
                (set_o_Members (pull_member userID (o_Members d)) d))
             _ org); auto.
Qed.

Lemma OrganizationRepository_RemoveMember_of_no_group w orgID userID :
  ObjectIDFromHex orgID = true -> quiet (organizations w) ->
  find (org_by_id orgID) (docs (organizations w)) = None ->
  fst (OrganizationRepository_RemoveMember orgID userID w)
    = Err (ErrNew "member not found in organization") /\
  store (snd (OrganizationRepository_RemoveMember orgID userID w)) = store w.
Proof.
  intros Hh [Hr Hw] Hfind.
  destruct w as [oc tc uc c]. destruct oc as [gd grf gwf].
  simpl in *; subst.
  unfold OrganizationRepository_RemoveMember. rewrite Hh. simpl.
  unfold bind, on_organizations, UpdateOne, use_write. simpl.
  rewrite Hfind. simpl. auto.
Qed.


Lemma TeamRepository_AddMember_agrees
    w teamID userID role invitedBy team :
  ObjectIDFromHex teamID = true -> quiet (teams w) ->
  the_document (team_by_id teamID) (teams w) team ->
  exists doc,
    fst (TeamRepository_AddMember teamID userID role invitedBy w)
      = Ok tt /\
    the_document (team_by_id teamID)
      (teams
         (snd (TeamRepository_AddMember teamID userID role invitedBy w)))
      doc /\
    t_Members doc
    = t_Members
        (snd (fst (Team_AddMember team userID role invitedBy (clock w)))).
Proof.
  intros Hh Hq Hdoc.
  assert (t_Members
            (snd (fst (Team_AddMember team userID role invitedBy
                         (clock w))))
          = match GetMember (t_Members team) userID with
            | Some _ => set_role_at_match userID role (t_Members team)
            | None => t_Members team ++ [mkMember userID role (clock w) invitedBy]
            end) as M.
  { rewrite <- model_AddMember_members. unfold Team_AddMember.
    destruct (change_role (t_Members team) userID role); reflexivity. }
  destruct (GetMember (t_Members team) userID) as [m |] eqn:G.
  - destruct (TeamRepository_AddMember_existing w teamID userID role
                invitedBy team m Hh Hq Hdoc G) as [E D].
    eexists. split; [exact E |]. split; [exact D |]. rewrite M. reflexivity.
  - destruct (TeamRepository_AddMember_new w teamID userID role
                invitedBy team Hh Hq Hdoc G) as [E D].
    eexists. split; [exact E |]. split; [exact D |]. rewrite M. reflexivity.
Qed.

Lemma TeamRepository_RemoveMember_agrees w teamID userID team :
  ObjectIDFromHex teamID = true -> quiet (teams w) ->
  the_document (team_by_id teamID) (teams w) team ->
  unique_members (t_Members team) ->
  Team_IsMember team userID = true ->
  exists doc,
    fst (TeamRepository_RemoveMember teamID userID w) = Ok tt /\
    the_document (team_by_id teamID)
      (teams (snd (TeamRepository_RemoveMember teamID userID w)))
      doc /\
    t_Members doc
    = t_Members (snd (fst (Team_RemoveMember team userID (clock w)))).
Proof.
  intros Hh Hq Hdoc Hu Hm.
  pose proof (find_filter_single _ _ _ Hdoc) as Hfind.
  unfold Team_IsMember, Team_GetMember in Hm.
  destruct (GetMember (t_Members team) userID) as [m |] eqn:G;
    [| discriminate].
  destruct (TeamRepository_RemoveMember_eval teamID userID w team m
              Hh Hq Hfind G) as (E & Q & D).
  eexists. split; [exact E |]. split.
  - unfold the_document. rewrite D.
    apply (filter_update_first _ _
             (fun d => set_t_UpdatedAt (clock w)
                (set_t_Members (pull_member userID (t_Members d)) d))
             _ team); auto.
  - unfold Team_RemoveMember.
    rewrite (remove_first_member_pull _ _ _ Hu G). reflexivity.
Qed.

(** The repository reports a missing member only when no document
    changed: for a stored group, removing a user who is no member
    succeeds. *)
Lemma TeamRepository_RemoveMember_of_no_member w teamID userID team :
  ObjectIDFromHex teamID = true -> quiet (teams w) ->
  the_document (team_by_id teamID) (teams w) team ->
  Team_IsMember team userID = false ->
  t_UpdatedAt team <> clock w ->
  fst (TeamRepository_RemoveMember teamID userID w) = Ok tt /\
  the_document (team_by_id teamID)
    (teams (snd (TeamRepository_RemoveMember teamID userID w)))
    (set_t_UpdatedAt (clock w) team).
Proof.
  intros Hh [Hr Hw] Hdoc Hm Hne.
  pose proof (find_filter_single _ _ _ Hdoc) as Hfind.
  unfold Team_IsMember, Team_GetMember in Hm.
  destruct (GetMember (t_Members team) userID) as [m |] eqn:G;
    [discriminate |].
  assert (forall d, GetMember (t_Members d) userID = None ->
                    set_t_UpdatedAt (clock w)
                      (set_t_Members (pull_member userID (t_Members d)) d)
                    = set_t_UpdatedAt (clock w) d) as Hupd.
  { intros d Hd. rewrite pull_member_absent by exact Hd.
    rewrite set_t_Members_same. reflexivity. }
  destruct w as [oc tc uc c]. destruct tc as [gd grf gwf].
  simpl in *; subst.
  unfold TeamRepository_RemoveMember. rewrite Hh. simpl.
  unfold bind, on_teams, UpdateOne, use_write. simpl.
  rewrite Hfind. simpl. rewrite (Hupd team G).
  match goal with |- context [Team_eq_dec ?x team] =>
    destruct (Team_eq_dec x team) as [Heq | Hneq] end; simpl.
  - exfalso. apply Hne. rewrite <- Heq at 1. reflexivity.
  - split; [reflexivity |]. unfold the_document. simpl.
    rewrite <- (Hupd team G).
    apply (filter_update_first _ _
             (fun d => set_t_UpdatedAt c
                (set_t_Members (pull_member userID (t_Members d)) d))
             _ team); auto.
Qed.

Lemma TeamRepository_RemoveMember_of_no_group w teamID userID :
  ObjectIDFromHex teamID = true -> quiet (teams w) ->
  find (team_by_id teamID) (docs (teams w)) = None ->
  fst (TeamRepository_RemoveMember teamID userID w)
    = Err (ErrNew "member not found in team") /\
  store (snd (TeamRepository_RemoveMember teamID userID w)) = store w.
Proof.
  intros Hh [Hr Hw] Hfind.
  destruct w as [oc tc uc c]. destruct tc as [gd grf gwf].
  simpl in *; subst.
  unfold TeamRepository_RemoveMember. rewrite Hh. simpl.
  unfold bind, on_teams, UpdateOne, use_write. simpl.
  rewrite Hfind. simpl. auto.
Qed.


(** X17.  The repositories compute the member lists of the models.  When
    the store does not fail, AddMember of a repository on a stored group
    returns success and stores the member list that the AddMember method
    of the model computes from the stored record at the same time: the
    aggregation pipeline and the method are two writings of one
    insert-or-update.  RemoveMember of a repository, for a member of a
    group that lists no user twice, stores the member list that the
    RemoveMember method of the model computes. *)
Theorem X17_repositories_compute_the_member_lists_of_the_models :
  (forall w orgID org,
      ObjectIDFromHex orgID = true -> quiet (organizations w) ->
      the_document (org_by_id orgID) (organizations w) org ->
      (forall userID role invitedBy,
          exists doc,
            fst (OrganizationRepository_AddMember orgID userID role invitedBy
                   w) = Ok tt /\
            the_document (org_by_id orgID)
              (organizations
                 (snd (OrganizationRepository_AddMember orgID userID role
                         invitedBy w))) doc /\
            o_Members doc
            = o_Members
                (snd (fst (Organization_AddMember org userID role invitedBy
                             (clock w))))) /\
      (forall userID,
          unique_members (o_Members org) ->
          Organization_IsMember org userID = true ->
          exists doc,
            fst (OrganizationRepository_RemoveMember orgID userID w) = Ok tt /\
            the_document (org_by_id orgID)
              (organizations
                 (snd (OrganizationRepository_RemoveMember orgID userID w)))
              doc /\
            o_Members doc
            = o_Members
                (snd (fst (Organization_RemoveMember org userID (clock w))))))
  /\
  (forall w teamID team,
      ObjectIDFromHex teamID = true -> quiet (teams w) ->
      the_document (team_by_id teamID) (teams w) team ->
      (forall userID role invitedBy,
          exists doc,
            fst (TeamRepository_AddMember teamID userID role invitedBy w)
              = Ok tt /\
            the_document (team_by_id teamID)
              (teams
                 (snd (TeamRepository_AddMember teamID userID role invitedBy
                         w))) doc /\
            t_Members doc
            = t_Members
                (snd (fst (Team_AddMember team userID role invitedBy
                             (clock w))))) /\
      (forall userID,
          unique_members (t_Members team) ->
          Team_IsMember team userID = true ->
          exists doc,
            fst (TeamRepository_RemoveMember teamID userID w) = Ok tt /\
            the_document (team_by_id teamID)
              (teams (snd (TeamRepository_RemoveMember teamID userID w)))
              doc /\
            t_Members doc
            = t_Members (snd (fst (Team_RemoveMember team userID (clock w)))))).
Proof.
  split.
  - intros w orgID org Hh Hq Hdoc. split.
    + intros userID role invitedBy.
      apply OrganizationRepository_AddMember_agrees; assumption.
    + intros userID Hu Hm.
      apply OrganizationRepository_RemoveMember_agrees; assumption.
  - intros w teamID team Hh Hq Hdoc. split.
    + intros userID role invitedBy.
      apply TeamRepository_AddMember_agrees; assumption.
    + intros userID Hu Hm.
      apply TeamRepository_RemoveMember_agrees; assumption.
Qed.

Lemma X17_witness :
  exists doc,
    fst (OrganizationRepository_AddMember acme_id "dave" OrgRoleMember "bob"
           small_world) = Ok tt /\
    the_document (org_by_id acme_id)
      (organizations
         (snd (OrganizationRepository_AddMember acme_id "dave" OrgRoleMember
                 "bob" small_world))) doc /\
    o_Members doc
    = o_Members
        (snd (fst (Organization_AddMember acme "dave" OrgRoleMember "bob"
                     (clock small_world)))).
Proof.
  destruct X17_repositories_compute_the_member_lists_of_the_models
    as (H & _).
  destruct (H small_world acme_id acme eq_refl (conj eq_refl eq_refl) eq_refl)
    as (A & _).
  exact (A "dave" OrgRoleMember "bob").
Defined.

(** X18.  RemoveMember of a repository tells a missing member from the
    count of modified documents, and the update also sets updatedAt.  So,
    when the store does not fail: for a stored group and a user who is
    no member of it, RemoveMember returns success, and the stored record
    is the record as it was with a new updatedAt; the error member not
    found is returned when no group is stored under the ObjectID that
    the identifier spells, in whatever case its digits are written, and
    then nothing changes. *)
Theorem X18_RemoveMember_of_a_repository_on_a_user_who_is_no_member :
  (forall w orgID userID,
      ObjectIDFromHex orgID = true -> quiet (organizations w) ->
      (forall org,
          the_document (org_by_id orgID) (organizations w) org ->
          Organization_IsMember org userID = false ->
          o_UpdatedAt org <> clock w ->
          fst (OrganizationRepository_RemoveMember orgID userID w) = Ok tt /\
          the_document (org_by_id orgID)
            (organizations
               (snd (OrganizationRepository_RemoveMember orgID userID w)))
            (set_o_UpdatedAt (clock w) org)) /\
      (find (org_by_id orgID) (docs (organizations w)) = None ->
       fst (OrganizationRepository_RemoveMember orgID userID w)
         = Err (ErrNew "member not found in organization") /\
       store (snd (OrganizationRepository_RemoveMember orgID userID w))
         = store w)) /\
  (forall w teamID userID,
      ObjectIDFromHex teamID = true -> quiet (teams w) ->
      (forall team,
          the_document (team_by_id teamID) (teams w) team ->
          Team_IsMember team userID = false ->
          t_UpdatedAt team <> clock w ->
          fst (TeamRepository_RemoveMember teamID userID w) = Ok tt /\
          the_document (team_by_id teamID)
            (teams (snd (TeamRepository_RemoveMember teamID userID w)))
            (set_t_UpdatedAt (clock w) team)) /\
      (find (team_by_id teamID) (docs (teams w)) = None ->
       fst (TeamRepository_RemoveMember teamID userID w)
         = Err (ErrNew "member not found in team") /\
       store (snd (TeamRepository_RemoveMember teamID userID w)) = store w)).
Proof.
  split.
  - intros w orgID userID Hh Hq. split.
    + intros org Hdoc Hm Hne.
      apply OrganizationRepository_RemoveMember_of_no_member; assumption.
    + intros Hf.
      apply OrganizationRepository_RemoveMember_of_no_group; assumption.
  - intros w teamID userID Hh Hq. split.
    + intros team Hdoc Hm Hne.
      apply TeamRepository_RemoveMember_of_no_member; assumption.
    + intros Hf.
      apply TeamRepository_RemoveMember_of_no_group; assumption.
Qed.

Lemma X18_witness :
  fst (OrganizationRepository_RemoveMember "64B000000000000000000001" "dave"
         small_world) = Ok tt /\
  fst (OrganizationRepository_RemoveMember crew_id "dave" small_world)
    = Err (ErrNew "member not found in organization").
Proof.
  destruct X18_RemoveMember_of_a_repository_on_a_user_who_is_no_member
    as (H & _).
  split.
  - destruct (H small_world "64B000000000000000000001" "dave" eq_refl
                (conj eq_refl eq_refl)) as (A & _).
    destruct (A acme eq_refl eq_refl) as (R & _); [| exact R].
    simpl. discriminate.
  - destruct (H small_world crew_id "dave" eq_refl (conj eq_refl eq_refl))
      as (_ & B).
    destruct (B eq_refl) as (R & _). exact R.
Defined.

(* ===================================================================== *)
(** ** The Kafka consumer *)
(* ===================================================================== *)

Lemma map_get_set_same {V} k (v : V) m : map_get k (map_set k v m) = Some v.
Proof.
  induction m as [| [k' v'] r IH]; simpl.
  - rewrite String.eqb_refl. reflexivity.
  - destruct (k' =? k)%string eqn:E; simpl.
    + rewrite String.eqb_refl. reflexivity.
    + rewrite E. exact IH.
Qed.

Lemma map_get_set_other {V} k k' (v : V) m :
  k' <> k -> map_get k' (map_set k v m) = map_get k' m.
Proof.
  intros N. induction m as [| [k0 v0] r IH]; simpl.
  - destruct (k =? k')%string eqn:E; [| reflexivity].
    apply String.eqb_eq in E. congruence.
  - destruct (k0 =? k)%string eqn:E; simpl.
    + apply String.eqb_eq in E. subst k0.
      destruct (k =? k')%string eqn:E'; [| reflexivity].
      apply String.eqb_eq in E'. congruence.
    + destruct (k0 =? k')%string; [reflexivity | exact IH].
Qed.

Lemma select_handler_registered c topic ty h :
  select_handler (RegisterHandler c topic ty h) topic ty = Some h.
Proof.
  unfold select_handler, RegisterHandler. simpl.
  rewrite map_get_set_same, map_get_set_same. reflexivity.
Qed.

Lemma select_handler_other_topic c topic ty h topic' ty' :
  topic' <> topic ->
  select_handler (RegisterHandler c topic ty h) topic' ty'
  = select_handler c topic' ty'.
Proof.
  intros N. unfold select_handler, RegisterHandler. simpl.
  rewrite map_get_set_other by exact N. reflexivity.
Qed.

Lemma select_handler_other_type c topic ty h ty' :
  ty' <> ty -> ty <> "*" ->
  select_handler (RegisterHandler c topic ty h) topic ty'
  = select_handler c topic ty'.
Proof.
  intros N S. unfold select_handler, RegisterHandler. simpl.
  rewrite map_get_set_same.
  rewrite map_get_set_other by exact N.
  rewrite (map_get_set_other ty "*") by congruence.
  destruct (map_get topic (handlers c)) as [hs |]; reflexivity.
Qed.

Lemma select_handler_wildcard c topic h ty' :
  select_handler c topic ty' = None ->
  select_handler (RegisterHandler c topic "*" h) topic ty' = Some h.
Proof.
  unfold select_handler, RegisterHandler. simpl.
  rewrite map_get_set_same. intros H.
  destruct (string_dec ty' "*") as [-> | N].
  - rewrite map_get_set_same. reflexivity.
  - rewrite map_get_set_other by exact N. rewrite map_get_set_same.
    destruct (map_get topic (handlers c)) as [hs |]; simpl in *;
      [| reflexivity].
    destruct (map_get ty' hs); [discriminate | reflexivity].
Qed.

Lemma NoDup_snoc {A} (l : list A) x : NoDup l -> ~ In x l -> NoDup (l ++ [x]).
Proof.
  induction l as [| a r IH]; simpl; intros N I.
  - constructor; [intros [] | constructor].
  - inversion N; subst. constructor.
    + intros H. apply in_app_or in H. destruct H as [H | [H | []]]; auto.
    + apply IH; auto.
Qed.

Lemma subscriptions_registered c topic ty h :
  In topic (subscriptions (RegisterHandler c topic ty h)) /\
  incl (subscriptions c) (subscriptions (RegisterHandler c topic ty h)) /\
  (NoDup (subscriptions c) ->
   NoDup (subscriptions (RegisterHandler c topic ty h))).
Proof.
  unfold RegisterHandler. simpl.
  destruct (existsb (fun t => t =? topic)%string (subscriptions c)) eqn:E.
  - repeat split; auto using incl_refl.
    apply existsb_exists in E. destruct E as (t & I & Q).
    apply String.eqb_eq in Q. subst t. exact I.
  - repeat split.
    + apply in_or_app. right. left. reflexivity.
    + apply incl_appl, incl_refl.
    + intros N. apply NoDup_snoc; [exact N |].
      intros I. assert (existsb (fun t => t =? topic)%string (subscriptions c)
                        = true) as T.
      { apply existsb_exists. exists topic. split; [exact I |].
        apply String.eqb_refl. }
      congruence.
Qed.

(** X19.  The handlers of a consumer.  After RegisterHandler, a message
    of the topic and the type is given to the registered handler (a
    later registration replaces an earlier one); the handlers of other
    topics, and of other types of the topic, are selected as before.  A
    handler registered for the type * receives the types of its topic
    that have no handler of their own, and a handler of a type is
    preferred to it, whichever of the two was registered first.  The
    topic is subscribed once: the list of subscriptions keeps its
    entries and stays free of duplicates. *)
Theorem X19_handlers_of_a_consumer :
  forall c topic ty h,
    let c' := RegisterHandler c topic ty h in
    select_handler c' topic ty = Some h /\
    (forall topic' ty',
        topic' <> topic ->
        select_handler c' topic' ty' = select_handler c topic' ty') /\
    (forall ty',
        ty' <> ty -> ty <> "*" ->
        select_handler c' topic ty' = select_handler c topic ty') /\
    (forall ty',
        ty = "*" -> select_handler c topic ty' = None ->
        select_handler c' topic ty' = Some h) /\
    (forall hw,
        ty <> "*" ->
        select_handler (RegisterHandler c' topic "*" hw) topic ty = Some h /\
        select_handler
          (RegisterHandler (RegisterHandler c topic "*" hw) topic ty h)
          topic ty = Some h) /\
    In topic (subscriptions c') /\
    incl (subscriptions c) (subscriptions c') /\
    (NoDup (subscriptions c) -> NoDup (subscriptions c')).
Proof.
  intros c topic ty h c'. subst c'.
  split; [apply select_handler_registered |].
  split; [intros; apply select_handler_other_topic; assumption |].
  split; [intros; apply select_handler_other_type; assumption |].
  split; [intros ty' ->; apply select_handler_wildcard |].
  split; [| apply subscriptions_registered].
  intros hw N. split; [| apply select_handler_registered].
  unfold select_handler, RegisterHandler. simpl.
  rewrite !map_get_set_same.
  rewrite map_get_set_other by exact N.
  rewrite map_get_set_same. reflexivity.
Qed.

Lemma X19_witness :
  select_handler
    (RegisterHandler
       (RegisterHandler NewConsumer "auth-events" "user.created"
          UserService_ProcessAuthUserCreated)
       "auth-events" "*" (fun _ _ => ret tt))
    "auth-events" "user.created"
  = Some UserService_ProcessAuthUserCreated /\
  NoDup
    (subscriptions
       (RegisterHandler NewConsumer "auth-events" "user.created"
          UserService_ProcessAuthUserCreated)).
Proof.
  destruct (X19_handlers_of_a_consumer NewConsumer "auth-events"
              "user.created" UserService_ProcessAuthUserCreated)
    as (_ & _ & _ & _ & W & _ & _ & D).
  split.
  - destruct (W (fun _ _ => ret tt)) as (R & _); [discriminate | exact R].
  - apply D. constructor.
Defined.

(** X20.  The messages that the user service consumes.  Its consumer has
    one handler, ProcessAuthUserCreated for user.created on the topic of
    the auth events.  A message whose value is no event is answered with
    an error and changes nothing.  The type of a message is read from
    its header event-type, and from the event only when that header is
    missing or empty: a message of the topic with the header
    user.created is handled whatever type its event carries, and a
    message with another header is dropped, without error and without
    effect, also when its event says user.created; so are the messages
    of other topics.  The outcome of a handled message is the outcome of
    ProcessAuthUserCreated on its event, an error being returned as the
    error of the message.  The header event-type that publish writes is
    the type of the event. *)
Theorem X20_messages_of_the_user_service_consumer :
  forall authEvents uuid msg w,
    let c := user_service_consumer authEvents in
    let header := header_value "event-type" (msg_Headers msg) in
    (msg_Value msg = None ->
     processMessage c uuid msg w = (Some UnmarshalFailed, w)) /\
    (forall event,
        msg_Value msg = Some event ->
        (msg_Topic msg <> authEvents ->
         processMessage c uuid msg w = (None, w)) /\
        (header <> "" -> header <> "user.created" ->
         processMessage c uuid msg w = (None, w)) /\
        (header = "" -> e_Type event <> "user.created" ->
         processMessage c uuid msg w = (None, w)) /\
        (msg_Topic msg = authEvents ->
         header = "user.created" \/
         header = "" /\ e_Type event = "user.created" ->
         let r := UserService_ProcessAuthUserCreated uuid event
                    (snd (with_clock time_Now w)) in
         processMessage c uuid msg w
         = (match fst r with
            | Err e => Some (HandlingFailed e)
            | Ok _ => None
            end,
            snd (with_clock time_Now (snd r))))) /\
    (forall eventType id time correlationID,
        header_value "event-type"
          (publish_headers eventType id time correlationID) = eventType).
Proof.
  intros authEvents uuid msg w c header.
  split; [| split].
  - intros V. unfold processMessage. rewrite V. reflexivity.
  - intros event V.
    assert (forall t ty, select_handler NewConsumer t ty = None) as Hnew
        by reflexivity.
    split; [| split; [| split]].
    + intros N. unfold processMessage. rewrite V.
      unfold c, user_service_consumer.
      rewrite select_handler_other_topic by exact N.
      rewrite Hnew. reflexivity.
    + intros N1 N2. unfold processMessage. rewrite V.
      fold header. apply String.eqb_neq in N1. rewrite N1.
      apply String.eqb_neq in N1.
      destruct (string_dec (msg_Topic msg) authEvents) as [-> | N].
      * unfold c, user_service_consumer.
        rewrite select_handler_other_type;
          [rewrite Hnew; reflexivity | exact N2 | discriminate].
      * unfold c, user_service_consumer.
        rewrite select_handler_other_topic by exact N.
        rewrite Hnew. reflexivity.
    + intros E N2. unfold processMessage. rewrite V.
      fold header. rewrite E. simpl.
      destruct (string_dec (msg_Topic msg) authEvents) as [-> | N].
      * unfold c, user_service_consumer.
        rewrite select_handler_other_type;
          [rewrite Hnew; reflexivity | exact N2 | discriminate].
      * unfold c, user_service_consumer.
        rewrite select_handler_other_topic by exact N.
        rewrite Hnew. reflexivity.
    + intros T Hty r. unfold processMessage. rewrite V. fold header.
      assert ((if (header =? "")%string then e_Type event else header)
              = "user.created") as Q.
      { destruct Hty as [-> | [-> ->]]; reflexivity. }
      rewrite Q, T. unfold c, user_service_consumer.
      rewrite select_handler_registered. fold r.
      destruct r as [[u | e] w2]; reflexivity.
  - intros eventType id time correlationID. reflexivity.
Qed.

Lemma X20_witness :
  processMessage (user_service_consumer "auth-events") "uuid"
    (mkMessage "auth-events" [mkHeader "event-type" "user.deleted"]
       (Some erin_created))
    small_world
  = (None, small_world).
Proof.
  destruct (X20_messages_of_the_user_service_consumer "auth-events" "uuid"
              (mkMessage "auth-events" [mkHeader "event-type" "user.deleted"]
                 (Some erin_created))
              small_world) as (_ & H & _).
  destruct (H erin_created eq_refl) as (_ & D & _).
  apply D; discriminate.
Defined.

(* ===================================================================== *)
(** ** Users: what is written is read back *)
(* ===================================================================== *)

Lemma User_Apply_fields u req c :
  let applied := fst (User_Apply u req c) in
  u_ID applied = u_ID u /\ u_UpdatedAt applied = c /\
  user_identity applied = user_identity u /\
  u_LastLogin applied = u_LastLogin u /\
  u_OrganizationIDs applied = u_OrganizationIDs u /\
  u_TeamIDs applied = u_TeamIDs u /\
  snd (User_Apply u req c) = (c + 1)%Z /\
  forall now, user_replace applied now u = set_u_UpdatedAt now applied.
Proof. simpl. auto 10. Qed.

Lemma UpdateUser_eval id req w u :
  ObjectIDFromHex id = true -> quiet (users w) ->
  find (user_by_id id) (docs (users w)) = Some u ->
  UserService_UpdateUser id req w
  = (Ok (fst (User_Apply u req (clock w))),
     with_users
       (update_first (user_by_id id)
          (user_replace (fst (User_Apply u req (clock w))) (clock w + 1))
          (docs (users w)))
       (clock w + 2) w).
Proof.
  intros Hh [Hr Hw] F.
  destruct (find_by_id_user _ _ _ F) as [Hin Hid].
  unfold UserService_UpdateUser.
  erewrite bind_ok;
    [| apply found_or_ok; rewrite UserRepository_GetByID_eval, F; eauto].
  rewrite bind_with_clock.
  destruct (User_Apply_fields u req (clock w)) as (Fi & _ & _ & _ & _ & _ & Fc & _).
  set (applied := fst (User_Apply u req (clock w))) in *.
  rewrite Fc.
  erewrite bind_ok;
    [| apply UserRepository_Update_eval;
       [rewrite Fi, Hid, ObjectIDFromHex_Hex; exact Hh | simpl; exact Hw]].
  unfold ret, with_users. simpl snd. simpl fst.
  rewrite Fi, Hid, user_by_id_Hex. simpl.
  replace (clock w + 1 + 1)%Z with (clock w + 2)%Z by lia. reflexivity.
Qed.

(** X21.  UpdateUser and the record that it returns.  When the store
    does not fail, UpdateUser on a stored user returns the record with
    the request applied and the time of Apply as updatedAt, while the
    repository stores a later updatedAt of its own: GetUserByID then
    returns the returned record but for that time.  The update leaves
    the _id, the userId, the email, the role, the creation time, the
    last login and the lists of organizations and teams of the user as
    they were, and adds or removes no document. *)
Theorem X21_UpdateUser_returns_the_record_but_for_updatedAt :
  forall w id req u,
    ObjectIDFromHex id = true -> quiet (users w) ->
    find (user_by_id id) (docs (users w)) = Some u ->
    let applied := fst (User_Apply u req (clock w)) in
    let w' := snd (UserService_UpdateUser id req w) in
    fst (UserService_UpdateUser id req w) = Ok applied /\
    u_UpdatedAt applied = clock w /\
    UserService_GetUserByID id w'
      = (Ok (set_u_UpdatedAt (clock w + 1) applied), w') /\
    user_identity applied = user_identity u /\
    u_LastLogin applied = u_LastLogin u /\
    u_OrganizationIDs applied = u_OrganizationIDs u /\
    u_TeamIDs applied = u_TeamIDs u /\
    length (docs (users w')) = length (docs (users w)) /\
    organizations w' = organizations w /\ teams w' = teams w.
Proof.
  intros w id req u Hh Hq F applied w'.
  destruct (User_Apply_fields u req (clock w))
    as (Fi & Fu & Fid & Fl & Fo & Ft & _ & Fr).
  fold applied in Fi, Fu, Fid, Fl, Fo, Ft, Fr.
  pose proof (UpdateUser_eval id req w u Hh Hq F) as E.
  fold applied in E.
  unfold w'. rewrite E. simpl fst. simpl snd.
  destruct (find_by_id_user _ _ _ F) as [Hin Hid].
  repeat match goal with |- _ /\ _ => split end; auto.
  - unfold UserService_GetUserByID. apply found_or_ok.
    rewrite UserRepository_GetByID_eval; [| exact Hh | apply Hq].
    unfold with_users at 1. simpl users. simpl docs.
    erewrite find_update_first_same; [| exact F |].
    + rewrite Fr. reflexivity.
    + unfold user_by_id, user_replace. simpl. apply String.eqb_eq, Hid.
  - unfold with_users. simpl. apply length_update_first.
Qed.

Lemma X21_witness :
  fst (UserService_UpdateUser alice_id
         (mkUpdateUserRequest (Some "Alicia") None None None None None None
            None None None None None)
         office)
  = Ok (fst (User_Apply
               (person alice_id "alice" "alice@example.org" [acme_id]
                  [crew_id])
               (mkUpdateUserRequest (Some "Alicia") None None None None None
                  None None None None None None)
               100%Z)).
Proof.
  destruct (X21_UpdateUser_returns_the_record_but_for_updatedAt office
              alice_id
              (mkUpdateUserRequest (Some "Alicia") None None None None None
                 None None None None None None)
              (person alice_id "alice" "alice@example.org" [acme_id]
                 [crew_id])
              eq_refl (conj eq_refl eq_refl) eq_refl) as (H & _).
  exact H.
Defined.

Lemma CreateUser_eval uuid req w :
  quiet (users w) ->
  user_of (cur_UserID req) w = None ->
  find (fun x => u_Email x =? cur_Email req) (docs (users w)) = None ->
  existsb (fun x => u_ID x =? uuid) (docs (users w)) = false ->
  UserService_CreateUser uuid req w
  = (Ok (fst (NewUser uuid req (clock w))),
     with_users (docs (users w) ++ [fst (NewUser uuid req (clock w))])
       (clock w + 1) w).
Proof.
  intros [Hr Hw] Fu Fe Fi.
  destruct w as [oc tc uc c]. destruct uc as [ud urf uwf].
  unfold user_of in Fu. simpl in *. subst.
  unfold UserService_CreateUser, UserRepository_Create, bind, lookup,
    with_clock, UserRepository_GetByUserId, UserRepository_GetByEmail,
    on_users, FindOne, InsertOne, use_read, use_write, ret, with_users.
  simpl. rewrite Fu. simpl. rewrite Fe. simpl. rewrite Fi. reflexivity.
Qed.

(** X22.  A created user is found under its userId and under its email.
    When the store does not fail and neither the userId nor the email is
    held by a stored user (and the identifier drawn for the record is
    new), CreateUser returns the new record, active, with no
    organization and no team, and appends it to the collection; after
    that GetUserByUserID with the userId and GetUserByEmail with the
    email return this record. *)
Theorem X22_a_created_user_is_found_under_its_userId_and_email :
  forall uuid req w,
    quiet (users w) ->
    user_of (cur_UserID req) w = None ->
    find (fun x => u_Email x =? cur_Email req) (docs (users w)) = None ->
    existsb (fun x => u_ID x =? uuid) (docs (users w)) = false ->
    let user := fst (NewUser uuid req (clock w)) in
    let w' := snd (UserService_CreateUser uuid req w) in
    fst (UserService_CreateUser uuid req w) = Ok user /\
    docs (users w') = docs (users w) ++ [user] /\
    UserService_GetUserByUserID (cur_UserID req) w' = (Ok user, w') /\
    UserService_GetUserByEmail (cur_Email req) w' = (Ok user, w') /\
    u_Status user = StatusActive /\
    u_OrganizationIDs user = [] /\ u_TeamIDs user = [].
Proof.
  intros uuid req w Hq Fu Fe Fi user w'.
  pose proof (CreateUser_eval uuid req w Hq Fu Fe Fi) as E.
  destruct (NewUser_fields uuid req (clock w))
    as (_ & Nu & Ne & Ns & No & Nt & _).
  fold user in E, Nu, Ne, Ns, No, Nt.
  unfold w'. rewrite E. simpl fst. simpl snd.
  set (w1 := with_users _ _ w).
  assert (read_faults (users w1) = []) as Hr by apply Hq.
  repeat match goal with |- _ /\ _ => split end; auto.
  - unfold UserService_GetUserByUserID. apply found_or_ok.
    rewrite UserRepository_GetByUserId_eval by exact Hr.
    unfold user_of, w1, with_users. simpl.
    rewrite (find_app_new _ _ user Fu); [reflexivity |].
    unfold user_by_userId. rewrite Nu. apply String.eqb_refl.
  - unfold UserService_GetUserByEmail. apply found_or_ok.
    rewrite UserRepository_GetByEmail_eval by exact Hr.
    unfold w1, with_users. simpl.
    rewrite (find_app_new _ _ user Fe); [reflexivity |].
    rewrite Ne. apply String.eqb_refl.
Qed.

Lemma X22_witness :
  fst (UserService_GetUserByUserID "erin"
         (snd (UserService_CreateUser "7d444840-9dc0-41d1-b245-5ffdce74fad2"
                 (mkCreateUserRequest "erin" "erin@example.org" "Erin" "Roe"
                    RoleUser)
                 small_world)))
  = Ok (fst (NewUser "7d444840-9dc0-41d1-b245-5ffdce74fad2"
               (mkCreateUserRequest "erin" "erin@example.org" "Erin" "Roe"
                  RoleUser)
               100%Z)).
Proof.
  destruct (X22_a_created_user_is_found_under_its_userId_and_email
              "7d444840-9dc0-41d1-b245-5ffdce74fad2"
              (mkCreateUserRequest "erin" "erin@example.org" "Erin" "Roe"
                 RoleUser)
              small_world (conj eq_refl eq_refl) eq_refl eq_refl eq_refl)
    as (_ & _ & H & _).
  exact (f_equal fst H).
Defined.

(* ===================================================================== *)
(** ** Creating a group *)
(* ===================================================================== *)

Lemma UpdateOne_quiet {A} (dec : forall x y : A, {x = y} + {x <> y})
    f upd (c : Coll A) :
  write_faults c = [] ->
  snd (UpdateOne dec f upd c)
  = mkColl (update_first f upd (docs c)) (read_faults c) [].
Proof.
  intros Hw. destruct c as [d rf wf]. simpl in *. subst.
  unfold UpdateOne, use_write. simpl.
  destruct (find f d) eqn:F; simpl; [reflexivity |].
  rewrite update_first_none by exact F. reflexivity.
Qed.

Lemma CreateOrganization_eval uuid req createdBy w :
  quiet (organizations w) -> write_faults (users w) = [] ->
  find (fun x => o_Name x =? cor_Name req) (docs (organizations w)) = None ->
  existsb (fun x => o_ID x =? uuid) (docs (organizations w)) = false ->
  OrganizationService_CreateOrganization uuid req createdBy w
  = (Ok (fst (NewOrganization uuid req createdBy (clock w))),
     mkWorld
       (mkColl (docs (organizations w)
                ++ [fst (NewOrganization uuid req createdBy (clock w))])
          [] [])
       (teams w)
       (mkColl
          (update_first (user_by_userId createdBy)
             (fun d =>
                set_u_UpdatedAt (clock w + 1)
                  (set_u_OrganizationIDs
                     (addToSet uuid (u_OrganizationIDs d)) d))
             (docs (users w)))
          (read_faults (users w)) [])
       (clock w + 2)).
Proof.
  intros [Hr Hw] Hu Fn Fi.
  destruct w as [oc tc uc c]. destruct oc as [od orf owf].
  simpl in *. subst.
  unfold OrganizationService_CreateOrganization, OrganizationRepository_Create,
    UserRepository_AddOrganizationToUser, logged, bind, lookup, with_clock,
    OrganizationRepository_GetByName, on_organizations, on_users, FindOne,
    InsertOne, use_read, use_write, ret.
  simpl. rewrite Fn. simpl. rewrite Fi. simpl.
  pose proof (UpdateOne_quiet User_eq_dec (user_by_userId createdBy)
                (fun d =>
                   set_u_UpdatedAt (c + 1)
                     (set_u_OrganizationIDs
                        (addToSet uuid (u_OrganizationIDs d)) d))
                uc Hu) as Q.
  destruct (UpdateOne User_eq_dec _ _ uc) as [r c'] eqn:E.
  simpl in Q. subst c'. simpl.
  replace (c + 1 + 1)%Z with (c + 2)%Z by lia.
  destruct r; reflexivity.
Qed.

Lemma CreateTeam_eval uuid req createdBy w org :
  quiet (organizations w) -> quiet (teams w) -> write_faults (users w) = [] ->
  ObjectIDFromHex (ctr_OrganizationID req) = true ->
  find (org_by_id (ctr_OrganizationID req)) (docs (organizations w))
    = Some org ->
  Organization_IsMember org createdBy = true ->
  find (fun x => (t_Name x =? ctr_Name req)
                 && (t_OrganizationID x =? ctr_OrganizationID req))
    (docs (teams w)) = None ->
  existsb (fun x => t_ID x =? uuid) (docs (teams w)) = false ->
  TeamService_CreateTeam uuid req createdBy w
  = (Ok (fst (NewTeam uuid req createdBy (clock w))),
     mkWorld
       (mkColl
          (update_first (org_by_id (ctr_OrganizationID req))
             (fun d =>
                set_o_UpdatedAt (clock w + 1)
                  (set_o_TeamIDs (addToSet uuid (o_TeamIDs d)) d))
             (docs (organizations w)))
          [] [])
       (mkColl (docs (teams w) ++ [fst (NewTeam uuid req createdBy (clock w))])
          [] [])
       (mkColl
          (update_first (user_by_userId createdBy)
             (fun d =>
                set_u_UpdatedAt (clock w + 2)
                  (set_u_TeamIDs (addToSet uuid (u_TeamIDs d)) d))
             (docs (users w)))
          (read_faults (users w)) [])
       (clock w + 3)).
Proof.
  intros [Hr Hw] [Hr' Hw'] Hu Hh Fo Hm Fn Fi.
  destruct w as [oc tc uc c]. destruct oc as [od orf owf].
  destruct tc as [td trf twf].
  simpl in *. subst.
  unfold TeamService_CreateTeam, TeamRepository_Create,
    OrganizationRepository_AddTeam, OrganizationRepository_GetByID,
    UserRepository_AddTeamToUser, logged, bind, lookup, found_or, with_clock,
    TeamRepository_GetByNameAndOrganization, on_organizations, on_teams,
    on_users, FindOne, InsertOne, use_read, use_write, ret.
  rewrite Hh. simpl. rewrite Fo. rewrite Hm. simpl.
  rewrite Fn. simpl. rewrite Fi. simpl.
  pose proof (UpdateOne_quiet Organization_eq_dec
                (org_by_id (ctr_OrganizationID req))
                (fun d =>
                   set_o_UpdatedAt (c + 1)
                     (set_o_TeamIDs (addToSet uuid (o_TeamIDs d)) d))
                (mkColl od [] []) eq_refl) as Q.
  destruct (UpdateOne Organization_eq_dec _ _ (mkColl od [] []))
    as [r c'] eqn:E.
  simpl in Q. subst c'.
  assert (forall now,
             snd (UpdateOne User_eq_dec (user_by_userId createdBy)
                    (fun d =>
                       set_u_UpdatedAt now
                         (set_u_TeamIDs (addToSet uuid (u_TeamIDs d)) d)) uc)
             = mkColl
                 (update_first (user_by_userId createdBy)
                    (fun d =>
                       set_u_UpdatedAt now
                         (set_u_TeamIDs (addToSet uuid (u_TeamIDs d)) d))
                    (docs uc))
                 (read_faults uc) []) as Q'.
  { intros now. apply UpdateOne_quiet. exact Hu. }
  destruct r; simpl;
    match goal with
    | |- context [UpdateOne User_eq_dec ?f ?u uc] =>
        pose proof (Q' (c + 1 + 1)%Z) as Q2;
        destruct (UpdateOne User_eq_dec f u uc) as [r' c'] eqn:E'
    end;
    simpl in Q2; subst c';
    replace (c + 1 + 1 + 1)%Z with (c + 3)%Z by lia;
    replace (c + 1 + 1)%Z with (c + 2)%Z by lia;
    destruct r'; reflexivity.
Qed.

Lemma user_link_written createdBy (upd : User -> User) l :
  (forall d, u_UserID (upd d) = u_UserID d) ->
  (forall u,
      find (user_by_userId createdBy) l = Some u ->
      find (user_by_userId createdBy)
        (update_first (user_by_userId createdBy) upd l) = Some (upd u)) /\
  (find (user_by_userId createdBy) l = None ->
   update_first (user_by_userId createdBy) upd l = l).
Proof.
  intros K. split.
  - intros u F. apply find_update_first_same; [exact F |].
    unfold user_by_userId. rewrite K.
    apply find_some in F. apply F.
  - intros F. apply update_first_none. exact F.
Qed.



(* ===================================================================== *)
(** ** Deleting a team *)
(* ===================================================================== *)

Lemma not_in_pull id ids : ~ In id (pull id ids).
Proof.
  unfold pull. intros H. apply filter_In in H. destruct H as [_ H].
  rewrite String.eqb_refl in H. discriminate.
Qed.

Lemma in_pull_in id x ids : In x (pull id ids) -> In x ids.
Proof. unfold pull. intros H. apply filter_In in H. apply H. Qed.

Lemma find_user_after_write x y (upd : User -> User) l :
  (forall d, u_UserID (upd d) = u_UserID d) ->
  find (user_by_userId y) (update_first (user_by_userId x) upd l)
  = if (y =? x)%string
    then option_map upd (find (user_by_userId x) l)
    else find (user_by_userId y) l.
Proof.
  intros K. induction l as [| a r IH]; simpl.
  - destruct (y =? x)%string; reflexivity.
  - destruct (user_by_userId x a) eqn:Xa; simpl.
    + unfold user_by_userId in *. rewrite K.
      apply String.eqb_eq in Xa. rewrite Xa.
      destruct (y =? x)%string eqn:Yx.
      * apply String.eqb_eq in Yx. subst y. rewrite String.eqb_refl.
        reflexivity.
      * rewrite String.eqb_sym, Yx. reflexivity.
    + destruct (y =? x)%string eqn:Yx.
      * apply String.eqb_eq in Yx. subst y. rewrite Xa. exact IH.
      * destruct (user_by_userId y a); [reflexivity | exact IH].
Qed.

Lemma RemoveTeamFromUser_eval x id w :
  write_faults (users w) = [] ->
  UserRepository_RemoveTeamFromUser x id w
  = (Ok tt,
     with_users
       (update_first (user_by_userId x)
          (fun d =>
             set_u_UpdatedAt (clock w)
               (set_u_TeamIDs (pull id (u_TeamIDs d)) d))
          (docs (users w)))
       (clock w + 1) w).
Proof.
  intros Hw. unfold UserRepository_RemoveTeamFromUser.
  apply (user_write_eval (user_by_userId x)
           (fun now d =>
              set_u_UpdatedAt now (set_u_TeamIDs (pull id (u_TeamIDs d)) d))
           w Hw).
Qed.

Lemma remove_team_from_users id ms :
  forall w,
    write_faults (users w) = [] ->
    let w' :=
      snd (for_each_logged ms
             (fun member => UserRepository_RemoveTeamFromUser
                              (m_UserID member) id) w) in
    organizations w' = organizations w /\ teams w' = teams w /\
    (forall y,
        (forall u, user_of y w = Some u -> ~ In id (u_TeamIDs u)) ->
        forall u', user_of y w' = Some u' -> ~ In id (u_TeamIDs u')) /\
    (forall m, In m ms ->
               forall u', user_of (m_UserID m) w' = Some u' ->
                          ~ In id (u_TeamIDs u')) /\
    (forall y, (forall m, In m ms -> m_UserID m <> y) ->
               user_of y w' = user_of y w).
Proof.
  induction ms as [| m r IH]; intros w Hw; simpl.
  - repeat split; auto.
  - set (upd := fun d => set_u_UpdatedAt (clock w)
                           (set_u_TeamIDs (pull id (u_TeamIDs d)) d)).
    set (w1 := with_users
                 (update_first (user_by_userId (m_UserID m)) upd
                    (docs (users w)))
                 (clock w + 1) w).
    assert (forall k : unit -> M unit,
               snd ((logged (UserRepository_RemoveTeamFromUser (m_UserID m)
                               id) ;;; k tt) w)
               = snd (k tt w1)) as Eq.
    { intros k. unfold bind, logged.
      rewrite RemoveTeamFromUser_eval by exact Hw. reflexivity. }
    rewrite (Eq (fun _ =>
                   for_each_logged r
                     (fun member =>
                        UserRepository_RemoveTeamFromUser (m_UserID member)
                          id))).
    clear Eq.
    assert (write_faults (users w1) = []) as Hw1 by exact Hw.
    assert (forall y,
               user_of y w1
               = if (y =? m_UserID m)%string
                 then option_map upd (user_of (m_UserID m) w)
                 else user_of y w) as Step.
    { intros y. unfold user_of, w1, with_users. simpl.
      apply find_user_after_write. reflexivity. }
    destruct (IH w1 Hw1) as (Io & It & Ic & Im & In').
    split; [rewrite Io; reflexivity |].
    split; [rewrite It; reflexivity |].
    assert (forall y,
               (forall u, user_of y w = Some u -> ~ In id (u_TeamIDs u)) ->
               forall u, user_of y w1 = Some u -> ~ In id (u_TeamIDs u))
      as Keep.
    { intros y C u. rewrite Step.
      destruct (y =? m_UserID m)%string eqn:E.
      - destruct (user_of (m_UserID m) w) as [u0 |]; simpl; [| discriminate].
        intros H; inversion H; subst u. unfold upd. simpl.
        apply not_in_pull.
      - apply C. }
    split; [| split].
    + intros y C. apply Ic. apply Keep. exact C.
    + intros m' [<- | Hin]; [| apply Im; exact Hin].
      apply Ic. intros u. rewrite Step, String.eqb_refl.
      destruct (user_of (m_UserID m) w) as [u0 |]; simpl; [| discriminate].
      intros H; inversion H; subst u. unfold upd. simpl. apply not_in_pull.
    + intros y N. rewrite In' by (intros m' Hm'; apply N; right; exact Hm').
      rewrite Step.
      destruct (y =? m_UserID m)%string eqn:E; [| reflexivity].
      apply String.eqb_eq in E. exfalso. apply (N m); [left; reflexivity |].
      symmetry. exact E.
Qed.

Lemma bind_logged {A B} (m : M A) (k : unit -> M B) w :
  bind (logged m) k w = k tt (snd (m w)).
Proof. reflexivity. Qed.

Lemma bind_total_ret {A} (m : M A) w :
  total m -> bind m (fun _ => ret tt) w = (Ok tt, snd (m w)).
Proof.
  intros T. rewrite bind_eq. specialize (T w).
  destruct (fst (m w)); [reflexivity | discriminate].
Qed.

Lemma TeamRepository_Delete_eval id w :
  ObjectIDFromHex id = true -> write_faults (teams w) = [] ->
  TeamRepository_Delete id w
  = (Ok tt,
     mkWorld (organizations w)
       (mkColl (delete_first (team_by_id id) (docs (teams w)))
          (read_faults (teams w)) [])
       (users w) (clock w)).
Proof.
  intros Hh Hw. destruct w as [oc tc uc c]. destruct tc as [td trf twf].
  simpl in *. subst.
  unfold TeamRepository_Delete. rewrite Hh. reflexivity.
Qed.

Lemma RemoveTeam_organizations orgID teamID w :
  ObjectIDFromHex orgID = true -> write_faults (organizations w) = [] ->
  organizations (snd (OrganizationRepository_RemoveTeam orgID teamID w))
  = mkColl
      (update_first (org_by_id orgID)
         (fun d =>
            set_o_UpdatedAt (clock w)
              (set_o_TeamIDs (pull teamID (o_TeamIDs d)) d))
         (docs (organizations w)))
      (read_faults (organizations w)) [].
Proof.
  intros Hh Hw. destruct w as [oc tc uc c]. simpl in *.
  unfold OrganizationRepository_RemoveTeam. rewrite Hh. simpl.
  unfold bind, with_clock, on_organizations. simpl.
  pose proof (UpdateOne_quiet Organization_eq_dec (org_by_id orgID)
                (fun d =>
                   set_o_UpdatedAt c
                     (set_o_TeamIDs (pull teamID (o_TeamIDs d)) d))
                oc Hw) as Q.
  destruct (UpdateOne Organization_eq_dec _ _ oc) as [r c'] eqn:E.
  simpl in Q. subst c'.
  destruct r as [res | e]; simpl; [| reflexivity].
  destruct (ModifiedCount res =? 0)%nat; reflexivity.
Qed.

Lemma find_delete_first_single {A} (f : A -> bool) l d :
  List.filter f l = [d] -> find f (delete_first f l) = None.
Proof.
  induction l as [| x r IH]; simpl; [discriminate |].
  destruct (f x) eqn:E; simpl.
  - intros H. inversion H as [[Hx Hr]].
    apply find_none_existsb. clear - Hr.
    induction r as [| y r IH]; simpl in *; [reflexivity |].
    destruct (f y); [discriminate | auto].
  - rewrite E. exact IH.
Qed.

Lemma DeleteTeam_eval id userID w team :
  ObjectIDFromHex id = true -> quiet (teams w) ->
  find (team_by_id id) (docs (teams w)) = Some team ->
  Team_HasRole team userID [TeamRoleOwner] = true ->
  TeamService_DeleteTeam id userID w
  = (Ok tt,
     snd (for_each_logged (t_Members team)
            (fun member =>
               UserRepository_RemoveTeamFromUser (m_UserID member) id)
            (snd (OrganizationRepository_RemoveTeam (t_OrganizationID team)
                    id
                    (mkWorld (organizations w)
                       (mkColl (delete_first (team_by_id id) (docs (teams w)))
                          (read_faults (teams w)) [])
                       (users w) (clock w)))))).
Proof.
  intros Hh [Hr Hw] F Hrole. unfold TeamService_DeleteTeam.
  erewrite bind_ok;
    [| apply found_or_ok; rewrite TeamRepository_GetByID_eval, F; eauto].
  rewrite Hrole. cbn [negb]. cbv iota.
  erewrite bind_ok; [| apply TeamRepository_Delete_eval; assumption].
  rewrite bind_logged. apply bind_total_ret. apply total_for_each_logged.
Qed.

(** X24.  DeleteTeam removes the team and the references to it.  When
    the store does not fail and an owner of the stored team deletes it,
    the call returns success; the team record is gone and the other
    teams are as they were; a user who was no member of the team keeps
    the record it had.  The references are pulled under the text of the
    identifier as the call spells it: when that is the text stored (the
    digits in lower case), the organization of the team, if it is stored
    under an ObjectID, no longer lists the team, and neither does the
    user stored under the userId of a member. *)
Theorem X24_DeleteTeam_removes_the_team_and_its_references :
  forall id userID w team,
    ObjectIDFromHex id = true -> quiet (teams w) ->
    write_faults (organizations w) = [] -> write_faults (users w) = [] ->
    the_document (team_by_id id) (teams w) team ->
    Team_HasRole team userID [TeamRoleOwner] = true ->
    let w' := snd (TeamService_DeleteTeam id userID w) in
    fst (TeamService_DeleteTeam id userID w) = Ok tt /\
    find (team_by_id id) (docs (teams w')) = None /\
    docs (teams w') = delete_first (team_by_id id) (docs (teams w)) /\
    (forall y,
        (forall m, In m (t_Members team) -> m_UserID m <> y) ->
        user_of y w' = user_of y w) /\
    (ObjectID_Hex id = id ->
     t_ID team = id /\
     (forall org,
         ObjectIDFromHex (t_OrganizationID team) = true ->
         the_document (org_by_id (t_OrganizationID team)) (organizations w)
           org ->
         the_document (org_by_id (t_OrganizationID team)) (organizations w')
           (set_o_UpdatedAt (clock w)
              (set_o_TeamIDs (pull (t_ID team) (o_TeamIDs org)) org))) /\
     (forall m u',
         In m (t_Members team) -> user_of (m_UserID m) w' = Some u' ->
         ~ In (t_ID team) (u_TeamIDs u'))).
Proof.
  intros id userID w team Hh Hq Hwo Hwu Hdoc Hrole w'.
  pose proof (find_filter_single _ _ _ Hdoc) as F.
  pose proof (DeleteTeam_eval id userID w team Hh Hq F Hrole) as E.
  unfold w'. rewrite E. simpl fst. simpl snd. clear E w'.
  set (w2 := mkWorld (organizations w) _ (users w) (clock w)).
  set (w3 := snd (OrganizationRepository_RemoveTeam _ id w2)).
  destruct only_organizations_repository as (_ & _ & _ & _ & _ & _ & _ & Hrt).
  destruct (Hrt (t_OrganizationID team) id w2) as [T3 U3].
  fold w3 in T3, U3.
  assert (write_faults (users w3) = []) as Hw3 by (rewrite U3; exact Hwu).
  destruct (remove_team_from_users id (t_Members team) w3 Hw3)
    as (Io & It & _ & Im & In').
  split; [reflexivity |].
  split; [rewrite It, T3; simpl;
          apply (find_delete_first_single _ _ team), Hdoc |].
  split; [rewrite It, T3; reflexivity |].
  split.
  - intros y N. rewrite In' by exact N.
    unfold user_of. rewrite U3. reflexivity.
  - intros Hc.
    assert (t_ID team = id) as Hid.
    { apply find_some in F. destruct F as [_ F].
      apply team_by_id_found in F. congruence. }
    split; [exact Hid |]. rewrite Hid. split.
    + intros org Ho Hod. rewrite Io. unfold w3.
      rewrite RemoveTeam_organizations by assumption.
      unfold the_document. simpl.
      apply (filter_update_first _ _
               (fun d =>
                  set_o_UpdatedAt (clock w)
                    (set_o_TeamIDs (pull id (o_TeamIDs d)) d))
               _ org); auto.
      apply find_filter_single. exact Hod.
    + intros m u' Hin. apply Im. exact Hin.
Qed.

Lemma X24_witness :
  fst (TeamService_DeleteTeam "64B000000000000000000002" "alice" small_world)
    = Ok tt /\
  find (team_by_id crew_id)
    (docs (teams (snd (TeamService_DeleteTeam "64B000000000000000000002"
                         "alice" small_world))))
  = None.
Proof.
  destruct (X24_DeleteTeam_removes_the_team_and_its_references
              "64B000000000000000000002" "alice" small_world crew eq_refl
              (conj eq_refl eq_refl) eq_refl eq_refl eq_refl eq_refl)
    as (H1 & H2 & _).
  split; assumption.
Defined.

(* ===================================================================== *)
(** ** Deleting an organization *)
(* ===================================================================== *)

Lemma in_delete_first {A} (f : A -> bool) l x :
  In x l -> f x = false -> In x (delete_first f l).
Proof.
  induction l as [| a r IH]; simpl; [tauto |].
  intros [-> | H] Fx.
  - rewrite Fx. left. reflexivity.
  - destruct (f a); [exact H | right; auto].
Qed.

Lemma existsb_delete_first {A} (f g : A -> bool) l :
  existsb g l = false -> existsb g (delete_first f l) = false.
Proof.
  induction l as [| a r IH]; simpl; [reflexivity |].
  intros H. apply orb_false_iff in H. destruct H as [Ga Gr].
  destruct (f a); [exact Gr |]. simpl. rewrite Ga. auto.
Qed.

Lemma find_delete_first_unique id l :
  NoDup (map t_ID l) ->
  find (team_by_id id) (delete_first (team_by_id id) l) = None.
Proof.
  induction l as [| a r IH]; simpl; [reflexivity |].
  intros N. inversion N as [| ? ? Ha Hr]; subst.
  destruct (team_by_id id a) eqn:E; simpl.
  - apply find_none_existsb.
    destruct (existsb (team_by_id id) r) eqn:X; [| reflexivity].
    apply existsb_exists in X. destruct X as (x & Hx & Q).
    unfold team_by_id in *. apply String.eqb_eq in E, Q.
    exfalso. apply Ha. rewrite E, <- Q. apply in_map, Hx.
  - rewrite E. auto.
Qed.

Lemma find_delete_first_other {A} (f g : A -> bool) l :
  (forall x, f x = true -> g x = false) ->
  find g (delete_first f l) = find g l.
Proof.
  intros D. induction l as [| a r IH]; simpl; [reflexivity |].
  destruct (f a) eqn:E; simpl.
  - rewrite (D a E). reflexivity.
  - destruct (g a); [reflexivity | exact IH].
Qed.

Lemma TeamRepository_Delete_step tid w :
  write_faults (teams w) = [] ->
  let w1 := snd (TeamRepository_Delete tid w) in
  organizations w1 = organizations w /\ users w1 = users w /\
  write_faults (teams w1) = [] /\
  docs (teams w1)
  = if ObjectIDFromHex tid
    then delete_first (team_by_id tid) (docs (teams w))
    else docs (teams w).
Proof.
  intros Hw. destruct (ObjectIDFromHex tid) eqn:Hh.
  - rewrite TeamRepository_Delete_eval by assumption. simpl. auto.
  - unfold TeamRepository_Delete. rewrite Hh. simpl. auto.
Qed.

Lemma delete_listed_teams ids :
  forall w,
    write_faults (teams w) = [] ->
    let w' := snd (for_each_logged ids TeamRepository_Delete w) in
    organizations w' = organizations w /\ users w' = users w /\
    (forall t,
        In t (docs (teams w)) ->
        (forall tid, In tid ids -> ObjectIDFromHex tid = true ->
                     t_ID t <> ObjectID_Hex tid) ->
        In t (docs (teams w'))) /\
    (forall tid, find (team_by_id tid) (docs (teams w)) = None ->
                 find (team_by_id tid) (docs (teams w')) = None) /\
    (NoDup (map t_ID (docs (teams w))) ->
     forall tid, In tid ids -> ObjectIDFromHex tid = true ->
                 find (team_by_id tid) (docs (teams w')) = None).
Proof.
  induction ids as [| x r IH]; intros w Hw; simpl.
  - repeat split; auto. intros _ tid [].
  - rewrite bind_logged.
    destruct (TeamRepository_Delete_step x w Hw) as (So & Su & Sw & Sd).
    set (w1 := snd (TeamRepository_Delete x w)) in *.
    destruct (IH w1 Sw) as (Io & Iu & Ik & Ia & Id).
    split; [congruence |]. split; [congruence |].
    split; [| split].
    + intros t Hin N. apply Ik; [| intros tid Ht; apply N; right; exact Ht].
      rewrite Sd.
      destruct (ObjectIDFromHex x) eqn:Hx; [| exact Hin].
      apply in_delete_first; [exact Hin |].
      unfold team_by_id. apply String.eqb_neq.
      apply N; [left; reflexivity | exact Hx].
    + intros tid F. apply Ia. rewrite Sd.
      destruct (ObjectIDFromHex x); [| exact F].
      apply find_none_existsb. apply existsb_delete_first.
      apply find_none_existsb. exact F.
    + intros N tid [<- | Hin] Hh.
      * apply Ia. rewrite Sd, Hh. apply find_delete_first_unique, N.
      * apply Id; auto. rewrite Sd.
        destruct (ObjectIDFromHex x); [| exact N].
        apply NoDup_map_delete_first, N.
Qed.

Lemma RemoveOrganizationFromUser_eval x id w :
  write_faults (users w) = [] ->
  UserRepository_RemoveOrganizationFromUser x id w
  = (Ok tt,
     with_users
       (update_first (user_by_userId x)
          (fun d =>
             set_u_UpdatedAt (clock w)
               (set_u_OrganizationIDs (pull id (u_OrganizationIDs d)) d))
          (docs (users w)))
       (clock w + 1) w).
Proof.
  intros Hw. unfold UserRepository_RemoveOrganizationFromUser.
  apply (user_write_eval (user_by_userId x)
           (fun now d =>
              set_u_UpdatedAt now
                (set_u_OrganizationIDs (pull id (u_OrganizationIDs d)) d))
           w Hw).
Qed.

Lemma remove_organization_from_users id ms :
  forall w,
    write_faults (users w) = [] ->
    let w' :=
      snd (for_each_logged ms
             (fun member => UserRepository_RemoveOrganizationFromUser
                              (m_UserID member) id) w) in
    organizations w' = organizations w /\ teams w' = teams w /\
    map u_TeamIDs (docs (users w')) = map u_TeamIDs (docs (users w)) /\
    (forall y,
        (forall u, user_of y w = Some u -> ~ In id (u_OrganizationIDs u)) ->
        forall u', user_of y w' = Some u' -> ~ In id (u_OrganizationIDs u'))
    /\
    (forall m, In m ms ->
               forall u', user_of (m_UserID m) w' = Some u' ->
                          ~ In id (u_OrganizationIDs u')) /\
    (forall y, (forall m, In m ms -> m_UserID m <> y) ->
               user_of y w' = user_of y w).
Proof.
  induction ms as [| m r IH]; intros w Hw; simpl.
  - repeat split; auto.
  - set (upd := fun d => set_u_UpdatedAt (clock w)
                           (set_u_OrganizationIDs
                              (pull id (u_OrganizationIDs d)) d)).
    set (w1 := with_users
                 (update_first (user_by_userId (m_UserID m)) upd
                    (docs (users w)))
                 (clock w + 1) w).
    assert (forall k : unit -> M unit,
               snd ((logged (UserRepository_RemoveOrganizationFromUser
                               (m_UserID m) id) ;;; k tt) w)
               = snd (k tt w1)) as Eq.
    { intros k. unfold bind, logged.
      rewrite RemoveOrganizationFromUser_eval by exact Hw. reflexivity. }
    rewrite (Eq (fun _ =>
                   for_each_logged r
                     (fun member =>
                        UserRepository_RemoveOrganizationFromUser
                          (m_UserID member) id))).
    clear Eq.
    assert (write_faults (users w1) = []) as Hw1 by exact Hw.
    assert (forall y,
               user_of y w1
               = if (y =? m_UserID m)%string
                 then option_map upd (user_of (m_UserID m) w)
                 else user_of y w) as Step.
    { intros y. unfold user_of, w1, with_users. simpl.
      apply find_user_after_write. reflexivity. }
    destruct (IH w1 Hw1) as (Io & It & Il & Ic & Im & In').
    split; [rewrite Io; reflexivity |].
    split; [rewrite It; reflexivity |].
    split.
    { rewrite Il. unfold w1, with_users. simpl.
      apply map_update_first_all. reflexivity. }
    assert (forall y,
               (forall u, user_of y w = Some u ->
                          ~ In id (u_OrganizationIDs u)) ->
               forall u, user_of y w1 = Some u ->
                         ~ In id (u_OrganizationIDs u)) as Keep.
    { intros y C u. rewrite Step.
      destruct (y =? m_UserID m)%string eqn:E.
      - destruct (user_of (m_UserID m) w) as [u0 |]; simpl; [| discriminate].
        intros H; inversion H; subst u. unfold upd. simpl.
        apply not_in_pull.
      - apply C. }
    split; [| split].
    + intros y C. apply Ic. apply Keep. exact C.
    + intros m' [<- | Hin]; [| apply Im; exact Hin].
      apply Ic. intros u. rewrite Step, String.eqb_refl.
      destruct (user_of (m_UserID m) w) as [u0 |]; simpl; [| discriminate].
      intros H; inversion H; subst u. unfold upd. simpl. apply not_in_pull.
    + intros y N. rewrite In' by (intros m' Hm'; apply N; right; exact Hm').
      rewrite Step.
      destruct (y =? m_UserID m)%string eqn:E; [| reflexivity].
      apply String.eqb_eq in E. exfalso. apply (N m); [left; reflexivity |].
      symmetry. exact E.
Qed.

Lemma bind_leaves {A B X} (q : World -> X) (m : M A) (k : A -> M B) :
  (forall w, q (snd (m w)) = q w) ->
  (forall a w, q (snd (k a w)) = q w) ->
  forall w, q (snd (bind m k w)) = q w.
Proof.
  intros Hm Hk w. rewrite bind_eq.
  destruct (fst (m w)); simpl; [rewrite Hk |]; apply Hm.
Qed.

Lemma for_each_logged_leaves {A B X} (q : World -> X) xs (step : A -> M B) :
  (forall x w, q (snd (step x w)) = q w) ->
  forall w, q (snd (for_each_logged xs step w)) = q w.
Proof.
  intros Hs. induction xs as [| x r IH]; intros w; simpl; [reflexivity |].
  rewrite bind_logged, IH. apply Hs.
Qed.

Lemma RemoveOrganizationFromUser_team_lists x id w :
  map u_TeamIDs
    (docs (users (snd (UserRepository_RemoveOrganizationFromUser x id w))))
  = map u_TeamIDs (docs (users w)).
Proof.
  unfold UserRepository_RemoveOrganizationFromUser.
  rewrite bind_with_clock. simpl fst. simpl snd.
  set (w1 := mkWorld (organizations w) (teams w) (users w) (clock w + 1)%Z).
  change (map u_TeamIDs (docs (users w)))
    with (map u_TeamIDs (docs (users w1))).
  generalize w1. clear w1.
  apply (bind_leaves (fun w => map u_TeamIDs (docs (users w)))).
  - intros w0. rewrite on_users_snd. simpl.
    destruct (UpdateOne_docs User_eq_dec (user_by_userId x)
                (fun d =>
                   set_u_UpdatedAt (clock w)
                     (set_u_OrganizationIDs (pull id (u_OrganizationIDs d))
                        d))
                (users w0)) as [-> | ->]; [reflexivity |].
    apply map_update_first_all. reflexivity.
  - reflexivity.
Qed.

Lemma DeleteOrganization_team_lists id userID w :
  map u_TeamIDs
    (docs (users (snd (OrganizationService_DeleteOrganization id userID w))))
  = map u_TeamIDs (docs (users w)).
Proof.
  unfold OrganizationService_DeleteOrganization.
  apply (bind_leaves (fun w => map u_TeamIDs (docs (users w)))).
  - intros w0. rewrite found_or_snd.
    destruct (GetByID_organization_frame id w0) as (_ & -> & _).
    reflexivity.
  - intros org w0.
    destruct (negb (Organization_HasRole org userID [OrgRoleOwner]));
      [reflexivity |].
    revert w0.
    apply (bind_leaves (fun w => map u_TeamIDs (docs (users w)))).
    + apply (for_each_logged_leaves
               (fun w => map u_TeamIDs (docs (users w)))).
      intros x w1.
      destruct only_teams_repository as (_ & _ & _ & Hd & _).
      destruct (Hd x w1) as [_ ->]. reflexivity.
    + intros _.
      apply (bind_leaves (fun w => map u_TeamIDs (docs (users w)))).
      * intros w1.
        destruct only_organizations_repository as (_ & _ & _ & Hd & _).
        destruct (Hd id w1) as [_ ->]. reflexivity.
      * intros _.
        apply (bind_leaves (fun w => map u_TeamIDs (docs (users w)))).
        -- apply (for_each_logged_leaves
                    (fun w => map u_TeamIDs (docs (users w)))).
           intros m w1. apply RemoveOrganizationFromUser_team_lists.
        -- reflexivity.
Qed.

Lemma bind_total_unit {B} (m : M unit) (k : unit -> M B) w :
  total m -> bind m k w = k tt (snd (m w)).
Proof.
  intros T. rewrite bind_eq. specialize (T w).
  destruct (fst (m w)) as [[] |]; [reflexivity | discriminate].
Qed.

Lemma OrganizationRepository_Delete_eval id w :
  ObjectIDFromHex id = true -> write_faults (organizations w) = [] ->
  OrganizationRepository_Delete id w
  = (Ok tt,
     mkWorld
       (mkColl (delete_first (org_by_id id) (docs (organizations w)))
          (read_faults (organizations w)) [])
       (teams w) (users w) (clock w)).
Proof.
  intros Hh Hw. destruct w as [oc tc uc c]. destruct oc as [od orf owf].
  simpl in *. subst.
  unfold OrganizationRepository_Delete. rewrite Hh. reflexivity.
Qed.

Lemma DeleteOrganization_eval id userID w org :
  ObjectIDFromHex id = true -> quiet (organizations w) ->
  find (org_by_id id) (docs (organizations w)) = Some org ->
  Organization_HasRole org userID [OrgRoleOwner] = true ->
  let w1 := snd (for_each_logged (o_TeamIDs org) TeamRepository_Delete w) in
  OrganizationService_DeleteOrganization id userID w
  = (Ok tt,
     snd (for_each_logged (o_Members org)
            (fun member =>
               UserRepository_RemoveOrganizationFromUser (m_UserID member)
                 id)
            (mkWorld
               (mkColl (delete_first (org_by_id id) (docs (organizations w)))
                  [] [])
               (teams w1) (users w1) (clock w1)))).
Proof.
  intros Hh [Hr Hw] F Hrole w1. unfold OrganizationService_DeleteOrganization.
  erewrite bind_ok;
    [| apply found_or_ok; rewrite OrganizationRepository_GetByID_eval, F;
       eauto].
  rewrite Hrole. cbn [negb]. cbv iota.
  rewrite bind_total_unit by apply total_for_each_logged. fold w1.
  assert (organizations w1 = organizations w) as Ho.
  { unfold w1.
    apply (for_each_logged_leaves (fun w => organizations w)).
    intros x w0. destruct only_teams_repository as (_ & _ & _ & Hd & _).
    apply (Hd x w0). }
  erewrite bind_ok;
    [| apply OrganizationRepository_Delete_eval;
       [exact Hh | rewrite Ho; exact Hw]].
  rewrite Ho, Hr.
  apply bind_total_ret. apply total_for_each_logged.
Qed.

(** X25.  DeleteOrganization, the store not failing, for an owner of the
    stored organization: the call returns success, the record of the
    organization is gone and the other organizations are as they were;
    no listed team that is stored under an ObjectID remains, while a
    team whose _id is the ObjectID of no listed identifier stays, and so
    does every team stored under an _id that is no ObjectID.  The
    reference to the organization is pulled from the users under the
    text of the identifier as the call spells it: when that is the text
    stored (the digits in lower case), the user stored under the userId
    of a member no longer lists the organization.  Whatever the store
    does, the call leaves the team list of every user as it was. *)
Theorem X25_DeleteOrganization_and_what_it_leaves :
  forall id userID w,
    (map u_TeamIDs
       (docs (users
                (snd (OrganizationService_DeleteOrganization id userID w))))
     = map u_TeamIDs (docs (users w))) /\
    forall org,
      ObjectIDFromHex id = true -> quiet (organizations w) ->
      write_faults (teams w) = [] -> write_faults (users w) = [] ->
      the_document (org_by_id id) (organizations w) org ->
      Organization_HasRole org userID [OrgRoleOwner] = true ->
      let w' := snd (OrganizationService_DeleteOrganization id userID w) in
      fst (OrganizationService_DeleteOrganization id userID w) = Ok tt /\
      find (org_by_id id) (docs (organizations w')) = None /\
      docs (organizations w')
        = delete_first (org_by_id id) (docs (organizations w)) /\
      (NoDup (map t_ID (docs (teams w))) ->
       forall tid,
         In tid (o_TeamIDs org) -> ObjectIDFromHex tid = true ->
         find (team_by_id tid) (docs (teams w')) = None) /\
      (forall t,
          In t (docs (teams w)) ->
          (forall tid, In tid (o_TeamIDs org) -> ObjectIDFromHex tid = true ->
                       t_ID t <> ObjectID_Hex tid) ->
          In t (docs (teams w'))) /\
      (forall t,
          In t (docs (teams w)) -> ObjectIDFromHex (t_ID t) = false ->
          In t (docs (teams w'))) /\
      (ObjectID_Hex id = id ->
       o_ID org = id /\
       forall m u',
         In m (o_Members org) -> user_of (m_UserID m) w' = Some u' ->
         ~ In (o_ID org) (u_OrganizationIDs u')).
Proof.
  intros id userID w. split; [apply DeleteOrganization_team_lists |].
  intros org Hh Hq Hwt Hwu Hdoc Hrole w'.
  pose proof (find_filter_single _ _ _ Hdoc) as F.
  pose proof (DeleteOrganization_eval id userID w org Hh Hq F Hrole) as E.
  cbv zeta in E. unfold w'. rewrite E. simpl fst. simpl snd. clear E w'.
  destruct (delete_listed_teams (o_TeamIDs org) w Hwt)
    as (_ & Lu & Lk & _ & Ld).
  set (w1 := snd (for_each_logged (o_TeamIDs org) TeamRepository_Delete w))
    in *.
  set (w2 := mkWorld _ (teams w1) (users w1) (clock w1)).
  assert (write_faults (users w2) = []) as Hw2
      by (unfold w2; simpl; rewrite Lu; exact Hwu).
  destruct (remove_organization_from_users id (o_Members org) w2 Hw2)
    as (Io & It & _ & _ & Im & _).
  split; [reflexivity |].
  split; [rewrite Io; simpl;
          apply (find_delete_first_single _ _ org), Hdoc |].
  split; [rewrite Io; reflexivity |].
  rewrite It. simpl teams.
  split; [exact Ld |]. split; [exact Lk |]. split.
  - intros t Hin Hn. apply Lk; [exact Hin |].
    intros tid _ Ht E. rewrite E, ObjectIDFromHex_Hex in Hn. congruence.
  - intros Hc.
    assert (o_ID org = id) as Hid.
    { apply find_some in F. destruct F as [_ F].
      apply org_by_id_found in F. congruence. }
    split; [exact Hid |].
    intros m u' Hin. rewrite Hid. apply Im. exact Hin.
Qed.

Lemma X25_witness :
  fst (OrganizationService_DeleteOrganization acme_id "alice" small_world)
    = Ok tt /\
  find (team_by_id crew_id)
    (docs (teams (snd (OrganizationService_DeleteOrganization acme_id "alice"
                         small_world))))
  = None.
Proof.
  destruct (X25_DeleteOrganization_and_what_it_leaves acme_id "alice"
              small_world) as (_ & H).
  destruct (H acme eq_refl (conj eq_refl eq_refl) eq_refl eq_refl eq_refl
              eq_refl) as (H1 & _ & _ & H2 & _).
  split; [exact H1 |].
  apply H2; [| left; reflexivity | reflexivity].
  repeat constructor. intros [].
Defined.

(* ===================================================================== *)
(** ** What the member calls leave alone *)
(* ===================================================================== *)

Section Leaves.
Context {X : Type} (q : World -> X).

Lemma leaves_bind {A B} (m : M A) (k : A -> M B) :
  leaves q m -> (forall a, leaves q (k a)) -> leaves q (bind m k).
Proof. intros Hm Hk w. apply (bind_leaves q); assumption. Qed.

Lemma leaves_ret {A} (a : A) : leaves q (ret a).
Proof. intros w. reflexivity. Qed.

Lemma leaves_fail {A} e : leaves q (@fail A e).
Proof. intros w. reflexivity. Qed.

Lemma leaves_found_or {A} msg (m : M A) :
  leaves q m -> leaves q (found_or msg m).
Proof. intros H w. rewrite found_or_snd. apply H. Qed.

Lemma leaves_lookup {A} (m : M A) : leaves q m -> leaves q (lookup m).
Proof. intros H w. rewrite lookup_snd. apply H. Qed.

Lemma leaves_logged {A} (m : M A) : leaves q m -> leaves q (logged m).
Proof. intros H w. apply H. Qed.

Lemma leaves_for_each_logged {A B} xs (step : A -> M B) :
  (forall x, leaves q (step x)) -> leaves q (for_each_logged xs step).
Proof. intros H w. apply (for_each_logged_leaves q). exact H. Qed.

Hypothesis q_clock : forall o t u c c',
    q (mkWorld o t u c) = q (mkWorld o t u c').

Lemma leaves_with_clock {A} (m : Clock A) : leaves q (with_clock m).
Proof.
  intros w. unfold with_clock. destruct (m (clock w)) as [a c]. simpl.
  destruct w as [o t u c0]. apply q_clock.
Qed.
End Leaves.

Create HintDb leave discriminated.

#[local] Hint Resolve leaves_bind leaves_ret leaves_fail leaves_found_or
  leaves_lookup leaves_logged leaves_for_each_logged : leave.
#[local] Hint Extern 1 (leaves _ (with_clock _)) =>
  apply leaves_with_clock; reflexivity : leave.
#[local] Hint Extern 1 (leaves _ (if ?b then _ else _)) => destruct b : leave.
#[local] Hint Extern 1 (leaves _ (match ?x with _ => _ end)) =>
  destruct x : leave.

Lemma organizations_only_leaves_teams {A} (m : M A) :
  touches_only_organizations m -> leaves (fun w => teams w) m.
Proof. intros H w. apply H. Qed.

Lemma users_only_leaves_teams {A} (m : M A) :
  touches_only_users m -> leaves (fun w => teams w) m.
Proof. intros H w. apply H. Qed.

Lemma teams_only_leaves_organizations {A} (m : M A) :
  touches_only_teams m -> leaves (fun w => docs (organizations w)) m.
Proof. intros H w. destruct (H w) as [-> _]. reflexivity. Qed.

Lemma users_only_leaves_organizations {A} (m : M A) :
  touches_only_users m -> leaves (fun w => docs (organizations w)) m.
Proof. intros H w. destruct (H w) as [-> _]. reflexivity. Qed.

Lemma GetByID_leaves_organizations id :
  leaves (fun w => docs (organizations w)) (OrganizationRepository_GetByID id).
Proof. intros w. apply GetByID_organization_frame. Qed.

Lemma organizations_only_leaves_users {A X} (p : User -> X) (m : M A) :
  touches_only_organizations m -> leaves (fun w => map p (docs (users w))) m.
Proof. intros H w. destruct (H w) as [_ ->]. reflexivity. Qed.

Lemma teams_only_leaves_users {A X} (p : User -> X) (m : M A) :
  touches_only_teams m -> leaves (fun w => map p (docs (users w))) m.
Proof. intros H w. destruct (H w) as [_ ->]. reflexivity. Qed.

Lemma GetByUserId_leaves_users {X} (p : User -> X) userId :
  leaves (fun w => map p (docs (users w))) (UserRepository_GetByUserId userId).
Proof.
  intros w. f_equal. apply reads_only_users_docs.
  apply reads_only_UserRepository_GetByUserId.
Qed.

Lemma user_write_leaves {X} (p : User -> X) f (upd : Z -> User -> User) :
  (forall now d, p (upd now d) = p d) ->
  leaves (fun w => map p (docs (users w)))
    (now <- with_clock time_Now ;;
     on_users (UpdateOne User_eq_dec f (upd now)) ;;;
     ret tt).
Proof.
  intros K. apply leaves_bind.
  - apply leaves_with_clock. reflexivity.
  - intros now. apply leaves_bind; [| intros; apply leaves_ret].
    intros w. rewrite on_users_snd. simpl.
    destruct (UpdateOne_docs User_eq_dec f (upd now) (users w))
      as [-> | ->]; [reflexivity |].
    apply map_update_first_all. apply K.
Qed.

#[local] Hint Extern 3 (leaves (fun w => teams w) _) =>
  first [ apply organizations_only_leaves_teams;
          apply only_organizations_repository
        | apply users_only_leaves_teams; apply only_users_repository ]
  : leave.
#[local] Hint Extern 3 (leaves (fun w => docs (organizations w)) _) =>
  first [ apply GetByID_leaves_organizations
        | apply teams_only_leaves_organizations; apply only_teams_repository
        | apply users_only_leaves_organizations; apply only_users_repository ]
  : leave.
#[local] Hint Extern 3 (leaves (fun w => map _ (docs (users w))) _) =>
  first [ apply GetByUserId_leaves_users
        | apply organizations_only_leaves_users;
          apply only_organizations_repository
        | apply teams_only_leaves_users; apply only_teams_repository
        | apply user_write_leaves; reflexivity ]
  : leave.

Lemma organization_calls_leave_teams :
  (forall uuid req createdBy,
      leaves (fun w => teams w)
        (OrganizationService_CreateOrganization uuid req createdBy)) /\
  (forall id req userID,
      leaves (fun w => teams w)
        (OrganizationService_UpdateOrganization id req userID)) /\
  (forall orgID req invitedBy,
      leaves (fun w => teams w)
        (OrganizationService_AddOrganizationMember orgID req invitedBy)) /\
  (forall orgID memberID req updatedBy,
      leaves (fun w => teams w)
        (OrganizationService_UpdateOrganizationMember orgID memberID req
           updatedBy)) /\
  (forall orgID memberID removedBy,
      leaves (fun w => teams w)
        (OrganizationService_RemoveOrganizationMember orgID memberID
           removedBy)).
Proof.
  repeat match goal with |- _ /\ _ => split end; intros;
    unfold OrganizationService_CreateOrganization,
      OrganizationService_UpdateOrganization,
      OrganizationService_AddOrganizationMember,
      OrganizationService_UpdateOrganizationMember,
      OrganizationService_RemoveOrganizationMember; cbv zeta;
    auto 30 with leave.
Qed.

Lemma organization_calls_leave_team_lists :
  (forall uuid req createdBy,
      leaves (fun w => map u_TeamIDs (docs (users w)))
        (OrganizationService_CreateOrganization uuid req createdBy)) /\
  (forall id req userID,
      leaves (fun w => map u_TeamIDs (docs (users w)))
        (OrganizationService_UpdateOrganization id req userID)) /\
  (forall orgID req invitedBy,
      leaves (fun w => map u_TeamIDs (docs (users w)))
        (OrganizationService_AddOrganizationMember orgID req invitedBy)) /\
  (forall orgID memberID req updatedBy,
      leaves (fun w => map u_TeamIDs (docs (users w)))
        (OrganizationService_UpdateOrganizationMember orgID memberID req
           updatedBy)) /\
  (forall orgID memberID removedBy,
      leaves (fun w => map u_TeamIDs (docs (users w)))
        (OrganizationService_RemoveOrganizationMember orgID memberID
           removedBy)).
Proof.
  repeat match goal with |- _ /\ _ => split end; intros;
    unfold OrganizationService_CreateOrganization,
      OrganizationService_UpdateOrganization,
      OrganizationService_AddOrganizationMember,
      OrganizationService_UpdateOrganizationMember,
      OrganizationService_RemoveOrganizationMember,
      UserRepository_AddOrganizationToUser,
      UserRepository_RemoveOrganizationFromUser; cbv zeta;
    auto 30 with leave.
Qed.

Lemma team_calls_leave_organizations :
  (forall id req userID,
      leaves (fun w => docs (organizations w))
        (TeamService_UpdateTeam id req userID)) /\
  (forall teamID req invitedBy,
      leaves (fun w => docs (organizations w))
        (TeamService_AddTeamMember teamID req invitedBy)) /\
  (forall teamID memberID req updatedBy,
      leaves (fun w => docs (organizations w))
        (TeamService_UpdateTeamMember teamID memberID req updatedBy)) /\
  (forall teamID memberID removedBy,
      leaves (fun w => docs (organizations w))
        (TeamService_RemoveTeamMember teamID memberID removedBy)).
Proof.
  repeat match goal with |- _ /\ _ => split end; intros;
    unfold TeamService_UpdateTeam, TeamService_AddTeamMember,
      TeamService_UpdateTeamMember, TeamService_RemoveTeamMember; cbv zeta;
    auto 30 with leave.
Qed.

Lemma team_calls_leave_organization_lists :
  (forall uuid req createdBy,
      leaves (fun w => map u_OrganizationIDs (docs (users w)))
        (TeamService_CreateTeam uuid req createdBy)) /\
  (forall id req userID,
      leaves (fun w => map u_OrganizationIDs (docs (users w)))
        (TeamService_UpdateTeam id req userID)) /\
  (forall id userID,
      leaves (fun w => map u_OrganizationIDs (docs (users w)))
        (TeamService_DeleteTeam id userID)) /\
  (forall teamID req invitedBy,
      leaves (fun w => map u_OrganizationIDs (docs (users w)))
        (TeamService_AddTeamMember teamID req invitedBy)) /\
  (forall teamID memberID req updatedBy,
      leaves (fun w => map u_OrganizationIDs (docs (users w)))
        (TeamService_UpdateTeamMember teamID memberID req updatedBy)) /\
  (forall teamID memberID removedBy,
      leaves (fun w => map u_OrganizationIDs (docs (users w)))
        (TeamService_RemoveTeamMember teamID memberID removedBy)).
Proof.
  repeat match goal with |- _ /\ _ => split end; intros;
    unfold TeamService_CreateTeam, TeamService_UpdateTeam,
      TeamService_DeleteTeam, TeamService_AddTeamMember,
      TeamService_UpdateTeamMember, TeamService_RemoveTeamMember,
      UserRepository_AddTeamToUser, UserRepository_RemoveTeamFromUser;
    cbv zeta; auto 30 with leave.
Qed.

(** X26.  Membership of an organization and membership of its teams are
    kept apart.  Whatever the store does, AddOrganizationMember,
    UpdateOrganizationMember and RemoveOrganizationMember leave the
    teams collection and the team list of every user as they were: a
    user removed from an organization stays a member of the teams of the
    organization, and the record of the user goes on listing them.
    AddTeamMember, UpdateTeamMember and RemoveTeamMember leave every
    stored organization and the organization list of every user as they
    were. *)
Theorem X26_organization_and_team_membership_are_kept_apart :
  forall w,
    (forall orgID req invitedBy,
        let w' :=
          snd (OrganizationService_AddOrganizationMember orgID req invitedBy
                 w) in
        teams w' = teams w /\
        map u_TeamIDs (docs (users w')) = map u_TeamIDs (docs (users w))) /\
    (forall orgID memberID req updatedBy,
        let w' :=
          snd (OrganizationService_UpdateOrganizationMember orgID memberID
                 req updatedBy w) in
        teams w' = teams w /\
        map u_TeamIDs (docs (users w')) = map u_TeamIDs (docs (users w))) /\
    (forall orgID memberID removedBy,
        let w' :=
          snd (OrganizationService_RemoveOrganizationMember orgID memberID
                 removedBy w) in
        teams w' = teams w /\
        map u_TeamIDs (docs (users w')) = map u_TeamIDs (docs (users w))) /\
    (forall teamID req invitedBy,
        let w' := snd (TeamService_AddTeamMember teamID req invitedBy w) in
        docs (organizations w') = docs (organizations w) /\
        map u_OrganizationIDs (docs (users w'))
        = map u_OrganizationIDs (docs (users w))) /\
    (forall teamID memberID req updatedBy,
        let w' :=
          snd (TeamService_UpdateTeamMember teamID memberID req updatedBy w)
        in
        docs (organizations w') = docs (organizations w) /\
        map u_OrganizationIDs (docs (users w'))
        = map u_OrganizationIDs (docs (users w))) /\
    (forall teamID memberID removedBy,
        let w' :=
          snd (TeamService_RemoveTeamMember teamID memberID removedBy w) in
        docs (organizations w') = docs (organizations w) /\
        map u_OrganizationIDs (docs (users w'))
        = map u_OrganizationIDs (docs (users w))).
Proof.
  intros w.
  destruct organization_calls_leave_teams as (_ & _ & Ta & Tu & Tr).
  destruct organization_calls_leave_team_lists as (_ & _ & La & Lu & Lr).
  destruct team_calls_leave_organizations as (_ & Oa & Ou & Or).
  destruct team_calls_leave_organization_lists
    as (_ & _ & _ & Ua & Uu & Ur).
  repeat first [match goal with |- _ /\ _ => split end | intro].
  - apply (Ta orgID req invitedBy w).
  - apply (La orgID req invitedBy w).
  - apply (Tu orgID memberID req updatedBy w).
  - apply (Lu orgID memberID req updatedBy w).
  - apply (Tr orgID memberID removedBy w).
  - apply (Lr orgID memberID removedBy w).
  - apply (Oa teamID req invitedBy w).
  - apply (Ua teamID req invitedBy w).
  - apply (Ou teamID memberID req updatedBy w).
  - apply (Uu teamID memberID req updatedBy w).
  - apply (Or teamID memberID removedBy w).
  - apply (Ur teamID memberID removedBy w).
Qed.
